(** * EntropyOS backend: the tick-advancement engine, embedded and verified

    A shallow embedding of the Python services under [backend/app]
    ([crud], [services], [api]) and the properties of the tick pipeline.

    Modelling conventions.
    - Python objects stored in JSON columns ([demographics], [beliefs],
      [short_term_memory], [parameters]) are values of [pyval]; a [dict] is
      an association list in insertion order with unique keys.
    - Python [float] (IEEE binary64, also numpy's [float64]) is a type [F]
      with a [Float64] structure.  Two instances are given: the kernel's
      primitive binary64 floats, which run the code bit for bit on concrete
      inputs, and exact rational arithmetic, in which the algebraic
      properties are proved.
    - Functions that touch the SQLAlchemy session are computations in the
      monad [M] (state of the session, plus a raised exception).  A mutation
      done before an exception is raised stays in the state, as in Python.
      The store itself is reliable: [commit] makes the session durable and
      does not raise, and an integer column holds any integer.
    - An ORM object is its row; rows are identified by primary key, and an
      assignment to an attribute of an object writes that attribute of the
      row with the object's key ([assign_agent]).  Tables are lists in
      creation order, which is also the order of [order_by(created_at)]. *)

From Stdlib Require Import ZArith QArith Qabs List String Ascii Bool Lia Lqa.
From Stdlib Require Import DecimalString.
From Stdlib Require Import Permutation Sorted.
From Stdlib Require Import Floats.
Import ListNotations.

Set Warnings "-inexact-float,-register-all".
Local Open Scope string_scope.
Local Open Scope list_scope.
Local Open Scope Z_scope.

(* ================================================================= *)
(** * Numbers *)

(** The operations the code applies to Python floats. *)
Class Float64 (F : Type) : Type := {
  (** [float(z)] for a Python int. *)
  f_of_Z : Z -> F;
  (** the value of a decimal literal: sign, digits and power of ten *)
  f_of_decimal : bool -> Z -> Z -> F;
  fadd : F -> F -> F;
  fsub : F -> F -> F;
  fmul : F -> F -> F;
  fdiv : F -> F -> F;
  fltb : F -> F -> bool;
  fleb : F -> F -> bool;
  (** the integer a float denotes, when it has no fractional part *)
  f_to_Z : F -> option Z;
  (** [float("inf")] and [float("nan")], where the type has such values *)
  f_infinity : option F;
  f_nan : option F
}.

Module QFloat.

Definition of_decimal (neg : bool) (m e : Z) : Q :=
  let v := (inject_Z m * Qpower (10 # 1) e)%Q in
  if neg then Qopp v else v.

Definition to_Z (q : Q) : option Z :=
  let r := Qred q in
  if Pos.eqb (Qden r) 1 then Some (Qnum r) else None.

End QFloat.

(** Exact arithmetic: every operation is the mathematical one. *)
#[export] Instance Q_Float64 : Float64 Q := {
  f_of_Z := inject_Z;
  f_of_decimal := QFloat.of_decimal;
  fadd := Qplus;
  fsub := Qminus;
  fmul := Qmult;
  fdiv := Qdiv;
  fltb := fun a b => negb (Qle_bool b a);
  fleb := Qle_bool;
  f_to_Z := QFloat.to_Z;
  f_infinity := None;
  f_nan := None
}.

Module Binary64.

(** Correctly rounded conversion of an integer. *)
Definition of_Z (z : Z) : float :=
  SF2Prim (SpecFloat.binary_normalize 53 1024 z 0 false).

(** [m * 10^e] for [m >= 0], correctly rounded as [float] of a literal is.
    For a negative exponent the quotient is taken to 64 bits and more,
    with a last bit that tells whether the division left a remainder:
    rounding to 53 bits then sees on which side of a midpoint the exact
    value lies. *)
Definition of_decimal (neg : bool) (m e : Z) : float :=
  let v :=
    if (0 <=? e)%Z then of_Z (m * 10 ^ e)
    else
      let d := (10 ^ (- e))%Z in
      let k := (Z.log2 d + 64)%Z in
      let q := (m * 2 ^ k / d)%Z in
      let sticky := if (m * 2 ^ k mod d =? 0)%Z then 0%Z else 1%Z in
      SF2Prim (SpecFloat.binary_normalize 53 1024 (2 * q + sticky) (- (k + 1)) false) in
  if neg then PrimFloat.opp v else v.

Definition to_Z (x : float) : option Z :=
  match Prim2SF x with
  | S754_zero _ => Some 0
  | S754_finite s m e =>
      let mag :=
        if (0 <=? e)%Z then Some (Z.pos m * 2 ^ e)
        else if (Z.pos m mod 2 ^ (- e) =? 0)%Z then Some (Z.pos m / 2 ^ (- e))
        else None in
      option_map (fun v => if s then (- v) else v) mag
  | _ => None
  end.

End Binary64.

(** IEEE 754 binary64, as CPython and numpy compute. *)
#[export] Instance Binary64_Float64 : Float64 float := {
  f_of_Z := Binary64.of_Z;
  f_of_decimal := Binary64.of_decimal;
  fadd := PrimFloat.add;
  fsub := PrimFloat.sub;
  fmul := PrimFloat.mul;
  fdiv := PrimFloat.div;
  fltb := PrimFloat.ltb;
  fleb := PrimFloat.leb;
  f_to_Z := Binary64.to_Z;
  f_infinity := Some infinity;
  f_nan := Some nan
}.

(* ================================================================= *)
(** * Python values and exceptions *)

Section PyValues.
Context {F : Type}.

(** What a JSON column or [json.loads] can hold. *)
Inductive pyval : Type :=
| PNone
| PBool (b : bool)
| PInt (z : Z)
| PFloat (x : F)
| PStr (s : string)
| PList (l : list pyval)
| PDict (d : list (string * pyval)).

Definition pydict : Type := list (string * pyval).

(** [d.get(k)] *)
Fixpoint dict_get (d : pydict) (k : string) : option pyval :=
  match d with
  | [] => None
  | (k', v) :: d' => if String.eqb k' k then Some v else dict_get d' k
  end.

(** [d[k] = v]: an existing key keeps its place, a new key goes last. *)
Fixpoint dict_set (d : pydict) (k : string) (v : pyval) : pydict :=
  match d with
  | [] => [(k, v)]
  | (k', v') :: d' =>
      if String.eqb k' k then (k', v) :: d' else (k', v') :: dict_set d' k v
  end.

(** [dict(pairs)]: later pairs win. *)
Definition dict_of_pairs (pairs : list (string * pyval)) : pydict :=
  fold_left (fun d kv => dict_set d (fst kv) (snd kv)) pairs [].

(** [isinstance(v, dict)], with the payload. *)
Definition as_dict (v : pyval) : option pydict :=
  match v with PDict d => Some d | _ => None end.

End PyValues.

Arguments pyval F : clear implicits.
Arguments pydict F : clear implicits.

(** The exception classes the code raises or catches. *)
Inductive exn : Type :=
| ValueError (msg : string)
| TypeError
| KeyError
| OverflowError
| ValidationError
| JSONDecodeError
| RuntimeError (msg : string)
| HTTPException (status_code : Z) (detail : string)
| OtherError (name : string).

(** The outcome of a call: a value, or a raised exception. *)
Inductive result (A : Type) : Type :=
| Ok (a : A)
| Raise (e : exn).

Arguments Ok {A} a.
Arguments Raise {A} e.

Definition result_bind {A B} (r : result A) (k : A -> result B) : result B :=
  match r with Ok a => k a | Raise e => Raise e end.

Declare Scope result_scope.
Delimit Scope result_scope with result.
Notation "x <- r ;; k" := (result_bind r (fun x => k))
  (at level 61, r at next level, right associativity) : result_scope.

(* ================================================================= *)
(** * Models ([app/models]) *)

(** Primary keys of type UUID. *)
Definition uuid : Type := Z.

Module Simulation.
Record t : Type := mk {
  id : uuid;
  name : option string;
  description : option string;
  current_tick : Z;
  status : string
}.
Definition set_current_tick (v : Z) (s : t) : t :=
  mk (id s) (name s) (description s) v (status s).
Definition set_name (v : option string) (s : t) : t :=
  mk (id s) v (description s) (current_tick s) (status s).
Definition set_description (v : option string) (s : t) : t :=
  mk (id s) (name s) v (current_tick s) (status s).
Definition set_status (v : string) (s : t) : t :=
  mk (id s) (name s) (description s) (current_tick s) v.
End Simulation.

Module Agent.
Record t {F : Type} : Type := mk {
  id : uuid;
  simulation_id : uuid;
  archetype : option string;
  demographics : pyval F;
  behavioral_traits : pyval F;
  beliefs : pyval F;
  short_term_memory : pyval F
}.
Arguments t F : clear implicits.
Arguments mk {F}.
Definition set_demographics {F} (v : pyval F) (a : t F) : t F :=
  mk (id a) (simulation_id a) (archetype a) v (behavioral_traits a)
     (beliefs a) (short_term_memory a).
Definition set_beliefs {F} (v : pyval F) (a : t F) : t F :=
  mk (id a) (simulation_id a) (archetype a) (demographics a)
     (behavioral_traits a) v (short_term_memory a).
Definition set_short_term_memory {F} (v : pyval F) (a : t F) : t F :=
  mk (id a) (simulation_id a) (archetype a) (demographics a)
     (behavioral_traits a) (beliefs a) v.
End Agent.

Module Event.
Record t {F : Type} : Type := mk {
  id : uuid;
  simulation_id : uuid;
  event_type : string;
  description : option string;
  parameters : pyval F;
  target_tick : option Z;
  status : string;
  triggered_at : option Z
}.
Arguments t F : clear implicits.
Arguments mk {F}.
Definition set_status {F} (v : string) (e : t F) : t F :=
  mk (id e) (simulation_id e) (event_type e) (description e) (parameters e)
     (target_tick e) v (triggered_at e).
Definition set_triggered_at {F} (v : option Z) (e : t F) : t F :=
  mk (id e) (simulation_id e) (event_type e) (description e) (parameters e)
     (target_tick e) (status e) v.
End Event.

(** [EMBEDDING_DIM] of [models/memory.py]. *)
Definition EMBEDDING_DIM : nat := 768.

Module AgentLongTermMemory.
Record t {F : Type} : Type := mk {
  id : Z;
  agent_id : uuid;
  simulation_id : uuid;
  memory_text : string;
  memory_embedding : list F;
  importance_score : option Z
}.
Arguments t F : clear implicits.
Arguments mk {F}.
End AgentLongTermMemory.

Module MetricSnapshot.
Record t {F : Type} : Type := mk {
  id : uuid;
  simulation_id : uuid;
  tick : Z;
  gini_coefficient : option F;
  belief_variance : option F
}.
Arguments t F : clear implicits.
Arguments mk {F}.
End MetricSnapshot.

(* ================================================================= *)
(** * The session *)

Section SessionModel.
Context {F : Type}.

(** The rows of every table. *)
Record Tables : Type := mkTables {
  simulations : list Simulation.t;
  agents : list (Agent.t F);
  events : list (Event.t F);
  long_term_memories : list (AgentLongTermMemory.t F);
  metric_snapshots : list (MetricSnapshot.t F)
}.

(** A SQLAlchemy session: the rows as the session sees them ([live], with
    the changes not yet committed), the rows of the last commit
    ([durable]), and the sources of server-side values. *)
Record Session : Type := mkSession {
  live : Tables;
  durable : Tables;
  memory_seq : Z;   (** the sequence behind the integer primary key *)
  uuid_seq : Z;     (** stands for [uuid.uuid4()] *)
  now : Z           (** stands for [datetime.now] *)
}.

Definition set_live (t : Tables) (db : Session) : Session :=
  mkSession t (durable db) (memory_seq db) (uuid_seq db) (now db).

Definition set_simulations (v : list Simulation.t) (t : Tables) : Tables :=
  mkTables v (agents t) (events t) (long_term_memories t) (metric_snapshots t).
Definition set_agents (v : list (Agent.t F)) (t : Tables) : Tables :=
  mkTables (simulations t) v (events t) (long_term_memories t) (metric_snapshots t).
Definition set_events (v : list (Event.t F)) (t : Tables) : Tables :=
  mkTables (simulations t) (agents t) v (long_term_memories t) (metric_snapshots t).
Definition set_long_term_memories (v : list (AgentLongTermMemory.t F)) (t : Tables) : Tables :=
  mkTables (simulations t) (agents t) (events t) v (metric_snapshots t).
Definition set_metric_snapshots (v : list (MetricSnapshot.t F)) (t : Tables) : Tables :=
  mkTables (simulations t) (agents t) (events t) (long_term_memories t) v.

(** Computations over the session which may raise. *)
Definition M (A : Type) : Type := Session -> result A * Session.

Definition ret {A} (a : A) : M A := fun db => (Ok a, db).

Definition bind {A B} (m : M A) (k : A -> M B) : M B :=
  fun db =>
    match m db with
    | (Ok a, db') => k a db'
    | (Raise e, db') => (Raise e, db')
    end.

Definition raise {A} (e : exn) : M A := fun db => (Raise e, db).

(** [try: m except ...: handler]; [handler e = None] when no clause matches. *)
Definition try_except {A} (m : M A) (handler : exn -> option (M A)) : M A :=
  fun db =>
    match m db with
    | (Ok a, db') => (Ok a, db')
    | (Raise e, db') =>
        match handler e with
        | Some h => h db'
        | None => (Raise e, db')
        end
    end.

(** [except Exception] *)
Definition except_Exception {A} (h : exn -> M A) : exn -> option (M A) :=
  fun e => Some (h e).

Definition gets {A} (f : Session -> A) : M A := fun db => (Ok (f db), db).

Definition modify_live (f : Tables -> Tables) : M unit :=
  fun db => (Ok tt, set_live (f (live db)) db).

Definition lift {A} (r : result A) : M A := fun db => (r, db).

(** [db.commit()]: what the session holds becomes durable. *)
Definition commit : M unit :=
  fun db => (Ok tt, mkSession (live db) (live db) (memory_seq db) (uuid_seq db) (now db)).

(** [db.rollback()]: the session goes back to the last commit. *)
Definition rollback : M unit :=
  fun db => (Ok tt, mkSession (durable db) (durable db) (memory_seq db) (uuid_seq db) (now db)).

Definition datetime_now : M Z :=
  fun db => (Ok (now db),
             mkSession (live db) (durable db) (memory_seq db) (uuid_seq db) (now db + 1)).

Definition uuid4 : M uuid :=
  fun db => (Ok (uuid_seq db),
             mkSession (live db) (durable db) (memory_seq db) (uuid_seq db + 1) (now db)).

Definition next_memory_id : M Z :=
  fun db => (Ok (memory_seq db),
             mkSession (live db) (durable db) (memory_seq db + 1) (uuid_seq db) (now db)).

End SessionModel.

Arguments Tables F : clear implicits.
Arguments Session F : clear implicits.
Arguments M F A : clear implicits.

Declare Scope session_scope.
Delimit Scope session_scope with M.
Notation "x <- m ;; k" := (bind m (fun x => k))
  (at level 61, m at next level, right associativity) : session_scope.
Notation "m ;;; k" := (bind m (fun _ => k))
  (at level 61, right associativity) : session_scope.

(** [for x in xs: body x], stopping at the first exception. *)
Fixpoint for_each {F A} (xs : list A) (body : A -> M F unit) : M F unit :=
  match xs with
  | [] => ret tt
  | x :: xs' => bind (body x) (fun _ => for_each xs' body)
  end.

(** The first row that satisfies [p], changed by [f]. *)
Fixpoint update_first {A} (p : A -> bool) (f : A -> A) (l : list A) : list A :=
  match l with
  | [] => []
  | x :: l' => if p x then f x :: l' else x :: update_first p f l'
  end.

(* ================================================================= *)
(** * Persistence layer ([app/crud]) *)

Section Crud.
Context {F : Type}.

Local Open Scope session_scope.

(** ** [crud/simulation.py] *)

Definition get_simulation (db : Session F) (simulation_id : uuid)
  : option Simulation.t :=
  find (fun s => Simulation.id s =? simulation_id) (simulations (live db)).

(** [SimulationUpdate]: a field is [None] when it was not set. *)
Record SimulationUpdate : Type := mkSimulationUpdate {
  upd_name : option string;
  upd_description : option string;
  upd_current_tick : option Z;
  upd_status : option string
}.

(** [for key, value in update_data.items(): setattr(db_simulation, key, value)] *)
Definition apply_simulation_update (u : SimulationUpdate) (s : Simulation.t)
  : Simulation.t :=
  let s := match upd_name u with
           | Some v => Simulation.set_name (Some v) s | None => s end in
  let s := match upd_description u with
           | Some v => Simulation.set_description (Some v) s | None => s end in
  let s := match upd_current_tick u with
           | Some v => Simulation.set_current_tick v s | None => s end in
  match upd_status u with
  | Some v => Simulation.set_status v s | None => s end.

Definition update_simulation (simulation_id : uuid)
  (simulation_update : SimulationUpdate) : M F (option Simulation.t) :=
  db_simulation <- gets (fun db => get_simulation db simulation_id) ;;
  match db_simulation with
  | None => ret None
  | Some _ =>
      modify_live (fun t =>
        set_simulations
          (update_first (fun s => Simulation.id s =? simulation_id)
             (apply_simulation_update simulation_update) (simulations t)) t) ;;;
      commit ;;;
      gets (fun db => get_simulation db simulation_id)
  end.

(** ** [crud/agent.py] *)

Definition get_agent (db : Session F) (agent_id : uuid) : option (Agent.t F) :=
  find (fun a => Agent.id a =? agent_id) (agents (live db)).

Definition get_agents (db : Session F) (simulation_id : option uuid)
  (skip limit : Z) : list (Agent.t F) :=
  let query := agents (live db) in
  let query := match simulation_id with
               | Some sid => filter (fun a => Agent.simulation_id a =? sid) query
               | None => query
               end in
  firstn (Z.to_nat limit) (skipn (Z.to_nat skip) query).

(** An assignment to an attribute of an agent object: it reaches the row
    that has the object's key. *)
Definition assign_agent (agent_id : uuid) (setter : Agent.t F -> Agent.t F)
  : M F unit :=
  modify_live (fun t =>
    set_agents (update_first (fun r => Agent.id r =? agent_id) setter
                  (agents t)) t).

(** ** [crud/event.py] *)

Definition get_event (db : Session F) (event_id : uuid) : option (Event.t F) :=
  find (fun e => Event.id e =? event_id) (events (live db)).

(** [if status:] holds for a non-empty string. *)
Definition truthy_str (s : string) : bool :=
  match s with EmptyString => false | _ => true end.

Definition get_events (db : Session F) (simulation_id : uuid)
  (status : option string) (tick : option Z) (skip limit : Z)
  : list (Event.t F) :=
  let query :=
    filter (fun e => Event.simulation_id e =? simulation_id) (events (live db)) in
  let query :=
    match status with
    | Some st =>
        if truthy_str st
        then filter (fun e => String.eqb (Event.status e) st) query
        else query
    | None => query
    end in
  let query :=
    match tick with
    | Some t =>
        filter (fun e => match Event.target_tick e with
                         | Some target => target =? t
                         | None => false
                         end) query
    | None => query
    end in
  firstn (Z.to_nat limit) (skipn (Z.to_nat skip) query).

Definition update_event_status (event_id : uuid) (status : string)
  : M F (option (Event.t F)) :=
  db_event <- gets (fun db => get_event db event_id) ;;
  match db_event with
  | Some _ =>
      stamp <- (if String.eqb status "triggered"
                then (t <- datetime_now ;; ret (Some t))
                else ret None) ;;
      modify_live (fun t =>
        set_events
          (update_first (fun e => Event.id e =? event_id)
             (fun e =>
                let e := Event.set_status status e in
                match stamp with
                | Some ts => Event.set_triggered_at (Some ts) e
                | None => e
                end) (events t)) t) ;;;
      commit ;;;
      gets (fun db => get_event db event_id)
  | None => ret None
  end.

(** ** [crud/metrics.py] *)

Definition create_metric_snapshot (simulation_id : uuid) (tick : Z)
  (gini_coefficient belief_variance : option F)
  : M F (MetricSnapshot.t F) :=
  new_id <- uuid4 ;;
  let db_snapshot :=
    MetricSnapshot.mk new_id simulation_id tick gini_coefficient belief_variance in
  modify_live (fun t =>
    set_metric_snapshots (metric_snapshots t ++ [db_snapshot]) t) ;;;
  commit ;;;
  ret db_snapshot.

(** ** [crud/memory.py] *)

(** [str(n)] for a length *)
Definition str_of_nat (n : nat) : string :=
  NilZero.string_of_uint (Nat.to_uint n).

Definition add_long_term_memory (agent_id simulation_id : uuid)
  (memory_text : string) (memory_embedding : list F)
  (importance : option Z) : M F (AgentLongTermMemory.t F) :=
  if negb (Nat.eqb (List.length memory_embedding) EMBEDDING_DIM)
  then raise (ValueError ("Embedding dimension mismatch. Expected "
                          ++ str_of_nat EMBEDDING_DIM ++ ", got "
                          ++ str_of_nat (List.length memory_embedding))%string)
  else
    new_id <- next_memory_id ;;
    let db_memory :=
      AgentLongTermMemory.mk new_id agent_id simulation_id memory_text
        memory_embedding importance in
    modify_live (fun t =>
      set_long_term_memories (long_term_memories t ++ [db_memory]) t) ;;;
    commit ;;;
    ret db_memory.

End Crud.

(* ================================================================= *)
(** * Python strings, [re] and [json]

    A Python [str] is a [string] of code points up to U+00FF. *)

Module Str.

Definition code (c : ascii) : N := N_of_ascii c.

(** [str.isspace] on one character. *)
Definition isspace (c : ascii) : bool :=
  let n := code c in
  ((9 <=? n) && (n <=? 13) || (28 <=? n) && (n <=? 32)
   || (n =? 133) || (n =? 160))%N.

Fixpoint lstrip (s : string) : string :=
  match s with
  | EmptyString => EmptyString
  | String c s' => if isspace c then lstrip s' else s
  end.

Fixpoint rstrip (s : string) : string :=
  match s with
  | EmptyString => EmptyString
  | String c s' =>
      match rstrip s' with
      | EmptyString => if isspace c then EmptyString else String c EmptyString
      | r => String c r
      end
  end.

Definition strip (s : string) : string := rstrip (lstrip s).

Fixpoint drop (n : nat) (s : string) : string :=
  match n, s with
  | O, _ => s
  | S n', String _ s' => drop n' s'
  | S _, EmptyString => EmptyString
  end.

Fixpoint take (n : nat) (s : string) : string :=
  match n, s with
  | S n', String c s' => String c (take n' s')
  | _, _ => EmptyString
  end.

Fixpoint endswith (s suffix : string) : bool :=
  if String.eqb s suffix then true
  else match s with
       | EmptyString => false
       | String _ s' => endswith s' suffix
       end.

Definition removeprefix (s p : string) : string :=
  if String.prefix p s then drop (String.length p) s else s.

Definition removesuffix (s suffix : string) : string :=
  if endswith s suffix
  then take (String.length s - String.length suffix) s
  else s.

(** [s[-n:]] *)
Definition last_chars (n : nat) (s : string) : string :=
  drop (String.length s - n) s.

End Str.

(** The fragment of [re] patterns the code uses: literal characters and
    the lazy wildcard [[\s\S]*?]. *)
Module Re.

Inductive item : Type :=
| Lit (c : ascii)
| AnyLazy.

Definition pattern : Type := list item.

(** A backtracking matcher anchored at the start of [s]: the text of the
    match that the pattern's preferences select, if any.  The lazy
    wildcard first tries to take nothing, then one more character. *)
Fixpoint match_here (p : pattern) : string -> option string :=
  match p with
  | [] => fun _ => Some EmptyString
  | Lit c :: p' =>
      fun s =>
        match s with
        | String x s' =>
            if Ascii.eqb x c
            then option_map (String x) (match_here p' s')
            else None
        | EmptyString => None
        end
  | AnyLazy :: p' =>
      fix lazy (s : string) : option string :=
        match match_here p' s with
        | Some m => Some m
        | None =>
            match s with
            | String x s' => option_map (String x) (lazy s')
            | EmptyString => None
            end
        end
  end.

(** [re.search(p, s)]: the match at the leftmost position that has one;
    [group(0)] of the result. *)
Fixpoint search (p : pattern) (s : string) : option string :=
  match match_here p s with
  | Some m => Some m
  | None =>
      match s with
      | String _ s' => search p s'
      | EmptyString => None
      end
  end.

End Re.

(** [r'\{[\s\S]*?\}'] *)
Definition json_object_re : Re.pattern :=
  [Re.Lit "{"%char; Re.AnyLazy; Re.Lit "}"%char].

(** [json.loads]: the JSON grammar and the decoder's extensions [NaN],
    [Infinity] and [-Infinity] (read where the float type has these
    values).  A number with a fraction or an exponent becomes a float, any
    other number an int.  Escapes of code points above U+00FF are
    rejected, and the interpreter's recursion limit is left out. *)
Module Json.
Section Decoder.
Context {F : Type} `{Float64 F}.

Definition is_ws (c : ascii) : bool :=
  (Ascii.eqb c " " || Ascii.eqb c "009" || Ascii.eqb c "010" || Ascii.eqb c "013")%char.

Fixpoint skip_ws (s : string) : string :=
  match s with
  | String c s' => if is_ws c then skip_ws s' else s
  | EmptyString => EmptyString
  end.

Definition digit (c : ascii) : option Z :=
  let n := Z.of_N (N_of_ascii c) in
  if (48 <=? n) && (n <=? 57) then Some (n - 48) else None.

Definition hex_digit (c : ascii) : option Z :=
  let n := Z.of_N (N_of_ascii c) in
  if (48 <=? n) && (n <=? 57) then Some (n - 48)
  else if (97 <=? n) && (n <=? 102) then Some (n - 87)
  else if (65 <=? n) && (n <=? 70) then Some (n - 55)
  else None.

(** Reads digits: the number read so far, how many, and the rest. *)
Fixpoint scan_digits (s : string) (acc count : Z) : Z * Z * string :=
  match s with
  | String c s' =>
      match digit c with
      | Some d => scan_digits s' (10 * acc + d) (count + 1)
      | None => (acc, count, s)
      end
  | EmptyString => (acc, count, s)
  end.

(** The text after an opening quote, up to the closing one. *)
Fixpoint scan_string (s : string) : option (string * string) :=
  match s with
  | EmptyString => None
  | String c rest =>
      if Ascii.eqb c "034"%char then Some (EmptyString, rest)
      else if Ascii.eqb c "\"%char then
        match rest with
        | String e rest' =>
            let simple (x : ascii) :=
              option_map (fun r => (String x (fst r), snd r)) (scan_string rest') in
            if Ascii.eqb e "034"%char then simple "034"%char
            else if Ascii.eqb e "\"%char then simple "\"%char
            else if Ascii.eqb e "/"%char then simple "/"%char
            else if Ascii.eqb e "b"%char then simple "008"%char
            else if Ascii.eqb e "f"%char then simple "012"%char
            else if Ascii.eqb e "n"%char then simple "010"%char
            else if Ascii.eqb e "r"%char then simple "013"%char
            else if Ascii.eqb e "t"%char then simple "009"%char
            else if Ascii.eqb e "u"%char then
              match rest' with
              | String h1 (String h2 (String h3 (String h4 rest''))) =>
                  match hex_digit h1, hex_digit h2, hex_digit h3, hex_digit h4 with
                  | Some a, Some b, Some c', Some d =>
                      let cp := ((a * 16 + b) * 16 + c') * 16 + d in
                      if cp <? 256
                      then option_map
                             (fun r => (String (ascii_of_N (Z.to_N cp)) (fst r), snd r))
                             (scan_string rest'')
                      else None
                  | _, _, _, _ => None
                  end
              | _ => None
              end
            else None
        | EmptyString => None
        end
      else if (N_of_ascii c <? 32)%N then None
      else option_map (fun r => (String c (fst r), snd r)) (scan_string rest)
  end.

(** The number at the start of [s]: an optional minus sign, an integer part
    without a leading zero, an optional fraction and an optional exponent,
    each taken only when it is complete. *)
Definition scan_number (s : string) : option (pyval F * string) :=
  let (neg, s1) :=
    match s with
    | String "-"%char s' => (true, s')
    | _ => (false, s)
    end in
  match s1 with
  | String c s2 =>
      match digit c with
      | None => None
      | Some d0 =>
          let '(int_part, _, s3) :=
            if d0 =? 0 then (0, 1, s2) else scan_digits s2 d0 1 in
          let '(frac, frac_len, s4) :=
            match s3 with
            | String "."%char (String c' _ as t) =>
                match digit c' with
                | Some _ => scan_digits t 0 0
                | None => (0, 0, s3)
                end
            | _ => (0, 0, s3)
            end in
          let '(has_exp, exp, s5) :=
            match s4 with
            | String e t =>
                if (Ascii.eqb e "e" || Ascii.eqb e "E")%char then
                  let '(eneg, t') :=
                    match t with
                    | String "-"%char u => (true, u)
                    | String "+"%char u => (false, u)
                    | _ => (false, t)
                    end in
                  match t' with
                  | String c' _ =>
                      match digit c' with
                      | Some _ =>
                          let '(v, _, rest) := scan_digits t' 0 0 in
                          (true, (if eneg then - v else v), rest)
                      | None => (false, 0, s4)
                      end
                  | EmptyString => (false, 0, s4)
                  end
                else (false, 0, s4)
            | EmptyString => (false, 0, s4)
            end in
          if (0 <? frac_len) || has_exp
          then Some (PFloat (f_of_decimal neg (int_part * 10 ^ frac_len + frac)
                               (exp - frac_len)), s5)
          else Some (PInt (if neg then - int_part else int_part), s5)
      end
  | EmptyString => None
  end.

(** The constants tried after a number did not match. *)
Definition parse_constant (s : string) : option (pyval F * string) :=
  if String.prefix "NaN" s then
    option_map (fun x => (PFloat x, Str.drop 3 s)) f_nan
  else if String.prefix "Infinity" s then
    option_map (fun x => (PFloat x, Str.drop 8 s)) f_infinity
  else if String.prefix "-Infinity" s then
    option_map (fun x => (PFloat (fsub (f_of_Z 0) x), Str.drop 9 s)) f_infinity
  else None.

(** [scan_once]: the value that starts at the head of [s], and the rest.
    [fuel] bounds the nesting and the number of members. *)
Fixpoint parse_value (fuel : nat) (s : string) : option (pyval F * string) :=
  match fuel with
  | O => None
  | S fuel' =>
      match s with
      | EmptyString => None
      | String c rest =>
          if Ascii.eqb c "034"%char then
            option_map (fun r => (PStr (fst r), snd r)) (scan_string rest)
          else if Ascii.eqb c "{"%char then
            match skip_ws rest with
            | String "}"%char r => Some (PDict [], r)
            | String "034"%char r => parse_members fuel' r []
            | _ => None
            end
          else if Ascii.eqb c "["%char then
            match skip_ws rest with
            | String "]"%char r => Some (PList [], r)
            | r => parse_elements fuel' r []
            end
          else if String.prefix "null" s then Some (PNone, Str.drop 4 s)
          else if String.prefix "true" s then Some (PBool true, Str.drop 4 s)
          else if String.prefix "false" s then Some (PBool false, Str.drop 5 s)
          else match scan_number s with
               | Some r => Some r
               | None => parse_constant s
               end
      end
  end

(** The members of an object, from just after the quote that opens a key. *)
with parse_members (fuel : nat) (s : string) (acc : list (string * pyval F))
  : option (pyval F * string) :=
  match fuel with
  | O => None
  | S fuel' =>
      match scan_string s with
      | None => None
      | Some (key, r) =>
          match skip_ws r with
          | String ":"%char r1 =>
              match parse_value fuel' (skip_ws r1) with
              | None => None
              | Some (v, r2) =>
                  let acc' := acc ++ [(key, v)] in
                  match skip_ws r2 with
                  | String "}"%char r3 => Some (PDict (dict_of_pairs acc'), r3)
                  | String ","%char r3 =>
                      match skip_ws r3 with
                      | String "034"%char r4 => parse_members fuel' r4 acc'
                      | _ => None
                      end
                  | _ => None
                  end
              end
          | _ => None
          end
      end
  end

(** The elements of an array, from the start of an element. *)
with parse_elements (fuel : nat) (s : string) (acc : list (pyval F))
  : option (pyval F * string) :=
  match fuel with
  | O => None
  | S fuel' =>
      match parse_value fuel' s with
      | None => None
      | Some (v, r) =>
          let acc' := acc ++ [v] in
          match skip_ws r with
          | String "]"%char r1 => Some (PList acc', r1)
          | String ","%char r1 => parse_elements fuel' (skip_ws r1) acc'
          | _ => None
          end
      end
  end.

(** [json.loads(s)]: one value, surrounded by white space only. *)
Definition loads (s : string) : result (pyval F) :=
  let s := skip_ws s in
  match parse_value (2 * String.length s + 2) s with
  | Some (v, rest) =>
      match skip_ws rest with
      | EmptyString => Ok v
      | _ => Raise JSONDecodeError
      end
  | None => Raise JSONDecodeError
  end.

End Decoder.
End Json.

(* ================================================================= *)
(** * Schemas ([app/schemas]) and their validation

    pydantic in its default (lax) mode: a float field takes an int that
    converts to a float, a float or a bool; an int field takes an int, a
    bool or a float without fractional part.  A string is never read as a number (Python's [float] of a
    numeric string and pydantic's reading of one are outside the model:
    such a value takes the error path).  Unknown keys are ignored. *)

Section Schemas.
Context {F : Type} `{Float64 F}.

Local Open Scope result_scope.

(** [0.0] *)
Definition fzero : F := f_of_Z 0.

Definition bool_to_Z (b : bool) : Z := if b then 1 else 0.

(** A float whose difference with itself is ordered is finite: for an
    infinity and for a NaN that difference is a NaN. *)
Definition is_finite (x : F) : bool := fleb (fsub x x) (fsub x x).

(** The conversion of a Python int to [float]: the nearest float, and
    [OverflowError] when the int is too large for that to be finite. *)
Definition float_of_int (z : Z) : result F :=
  let x := f_of_Z z in
  if is_finite x then Ok x else Raise OverflowError.

Definition validate_float (v : pyval F) : result F :=
  match v with
  | PInt z =>
      match float_of_int z with
      | Ok x => Ok x
      | Raise _ => Raise ValidationError
      end
  | PFloat x => Ok x
  | PBool b => Ok (f_of_Z (bool_to_Z b))
  | _ => Raise ValidationError
  end.

Definition validate_int (v : pyval F) : result Z :=
  match v with
  | PInt z => Ok z
  | PBool b => Ok (bool_to_Z b)
  | PFloat x =>
      match f_to_Z x with Some z => Ok z | None => Raise ValidationError end
  | _ => Raise ValidationError
  end.

Definition validate_str (v : pyval F) : result string :=
  match v with
  | PStr s => Ok s
  | _ => Raise ValidationError
  end.

(** [Optional[T]] *)
Definition validate_optional {A} (f : pyval F -> result A) (v : pyval F)
  : result (option A) :=
  match v with
  | PNone => Ok None
  | _ => x <- f v ;; Ok (Some x)
  end.

(** A field with a default: absent keys take it. *)
Definition field {A} (d : pydict F) (key : string) (f : pyval F -> result A)
  (default : A) : result A :=
  match dict_get d key with
  | Some v => f v
  | None => Ok default
  end.

(** A required field ([Field(...)]). *)
Definition required_field {A} (d : pydict F) (key : string)
  (f : pyval F -> result A) : result A :=
  match dict_get d key with
  | Some v => f v
  | None => Raise ValidationError
  end.

Fixpoint validate_dict_values (d : pydict F) : result (list (string * F)) :=
  match d with
  | [] => Ok []
  | (k, v) :: d' =>
      x <- validate_float v ;;
      rest <- validate_dict_values d' ;;
      Ok ((k, x) :: rest)
  end.

(** [Dict[str, float]] *)
Definition validate_dict_str_float (v : pyval F) : result (list (string * F)) :=
  match v with
  | PDict d => validate_dict_values d
  | _ => Raise ValidationError
  end.

(** ** [schemas/llm.py] *)

Record LLMDecision : Type := mkLLMDecision {
  action : string;
  dialogue : option string;
  sentiment_shift : F;
  policy_opinion_shift : list (string * F);
  spending_ratio_shift : option F
}.

(** [LLMDecision.model_validate(data)] *)
Definition LLMDecision_model_validate (data : pyval F) : result LLMDecision :=
  match data with
  | PDict d =>
      a <- required_field d "action" validate_str ;;
      dl <- field d "dialogue" (validate_optional validate_str) None ;;
      ss <- field d "sentiment_shift" validate_float fzero ;;
      ps <- field d "policy_opinion_shift" validate_dict_str_float [] ;;
      sr <- field d "spending_ratio_shift" (validate_optional validate_float) None ;;
      Ok (mkLLMDecision a dl ss ps sr)
  | _ => Raise ValidationError
  end.

Definition py_optional {A} (f : A -> pyval F) (o : option A) : pyval F :=
  match o with Some x => f x | None => PNone end.

(** [decision.dict()] *)
Definition LLMDecision_dict (d : LLMDecision) : pyval F :=
  PDict [("action", PStr (action d));
         ("dialogue", py_optional PStr (dialogue d));
         ("sentiment_shift", PFloat (sentiment_shift d));
         ("policy_opinion_shift",
           PDict (map (fun kv => (fst kv, PFloat (snd kv))) (policy_opinion_shift d)));
         ("spending_ratio_shift", py_optional PFloat (spending_ratio_shift d))].

(** ** [schemas/event.py] *)

Record UBIEventParams : Type := mkUBIEventParams {
  amount_per_agent : F;
  duration_ticks : option Z
}.

(** [Field(..., ge=0)] on a float *)
Definition validate_float_ge0 (v : pyval F) : result F :=
  x <- validate_float v ;;
  if fleb fzero x then Ok x else Raise ValidationError.

(** [Field(None, ge=1)] on an int *)
Definition validate_int_ge1 (v : pyval F) : result Z :=
  z <- validate_int v ;;
  if 1 <=? z then Ok z else Raise ValidationError.

(** [UBIEventParams] built from the unpacked [parameters]: unpacking
    anything but a mapping is a [TypeError]. *)
Definition UBIEventParams_init (parameters : pyval F) : result UBIEventParams :=
  match parameters with
  | PDict d =>
      a <- required_field d "amount_per_agent" validate_float_ge0 ;;
      dt <- field d "duration_ticks" (validate_optional validate_int_ge1) None ;;
      Ok (mkUBIEventParams a dt)
  | _ => Raise TypeError
  end.

End Schemas.

Arguments LLMDecision F : clear implicits.
Arguments UBIEventParams F : clear implicits.

(* ================================================================= *)
(** * The decision oracle ([core/llm_client.py], [services/llm_service.py]) *)

Section LLMService.
Context {F : Type} `{Float64 F}.

Local Open Scope result_scope.

(** What [construct_agent_prompt] puts in the prompt text: the agent
    profile and the simulation context.  The text is a function of them. *)
Record Prompt : Type := mkPrompt {
  prompt_agent_id : uuid;
  prompt_demographics : pyval F;
  prompt_behavioral_traits : pyval F;
  prompt_beliefs : pyval F;
  prompt_short_term_memory : pyval F;
  prompt_current_tick : Z;
  prompt_status : string;
  prompt_name : option string
}.

(** One candidate of a response: the parts of its content, if it has any. *)
Record Candidate : Type := mkCandidate {
  content_parts : option (list string)
}.

Record GenerateContentResponse : Type := mkResponse {
  candidates : list Candidate;
  (** the [text] property, which raises when there is no usable part *)
  text : result string
}.

(** The generation service: [generate_content(prompt)] answers or raises. *)
Definition GenerativeModel : Type := Prompt -> result GenerateContentResponse.

(** The process-wide client of [core/llm_client.py]. *)
Record LLMEnv : Type := mkLLMEnv {
  llm_model : option GenerativeModel
}.

Definition get_llm_client (env : LLMEnv) : result GenerativeModel :=
  match llm_model env with
  | None => Raise (RuntimeError "Gemini client is not available. Check startup logs.")
  | Some m => Ok m
  end.

(** [v[-n:]] *)
Definition slice_last (n : nat) (v : pyval F) : result (pyval F) :=
  match v with
  | PList l => Ok (PList (skipn (List.length l - n) l))
  | PStr s => Ok (PStr (Str.last_chars n s))
  | _ => Raise TypeError
  end.

Definition construct_agent_prompt (agent : Agent.t F) (simulation : Simulation.t)
  : result Prompt :=
  last_decisions <-
    match as_dict (Agent.short_term_memory agent) with
    | Some stm =>
        slice_last 3 match dict_get stm "last_decisions" with
                     | Some v => v
                     | None => PList []
                     end
    | None => Ok (PList [])
    end ;;
  Ok (mkPrompt (Agent.id agent) (Agent.demographics agent)
        (Agent.behavioral_traits agent) (Agent.beliefs agent) last_decisions
        (Simulation.current_tick simulation) (Simulation.status simulation)
        (Simulation.name simulation)).

(** [try: r except Exception: h] on a pure computation *)
Definition result_try {A} (r : result A) (h : exn -> result A) : result A :=
  match r with Ok a => Ok a | Raise e => h e end.

(** [get_llm_client] raises rather than return [None], so the test
    [if not llm_client] that follows the call never holds and a missing
    client reaches the caller as [RuntimeError]. *)
Definition get_llm_decision_sync (env : LLMEnv) (prompt : Prompt) : result string :=
  llm_client <- get_llm_client env ;;
  result_try
    (response <- llm_client prompt ;;
     match candidates response with
     | [] => Ok "{}"
     | c :: _ =>
         match content_parts c with
         | None | Some [] => Ok "{}"
         | Some (_ :: _) =>
             raw_text <- text response ;;
             Ok raw_text
         end
     end)
    (fun _ => Ok "{}").

(** The two [ValueError]s raised from a handler carry the text of their
    cause after the words given here. *)
Definition parse_structured_decision {T} (raw_response : string)
  (schema : pyval F -> result T) : result T :=
  result_try
    (let raw_response :=
       Str.strip
         (Str.removesuffix
            (Str.removeprefix (Str.strip raw_response) "```json") "```") in
     match Re.search json_object_re raw_response with
     | None => Raise (ValueError "No JSON object found in response.")
     | Some json_str =>
         data <- Json.loads json_str ;;
         schema data
     end)
    (fun e =>
       match e with
       | JSONDecodeError => Raise (ValueError "Invalid JSON format")
       | ValidationError => Raise (ValueError "Schema validation failed")
       | _ => Raise e
       end).

End LLMService.

Arguments Prompt F : clear implicits.
Arguments LLMEnv F : clear implicits.
Arguments GenerativeModel F : clear implicits.

(* ================================================================= *)
(** * The agent update pipeline ([services/simulation_service.py]) *)

Section SimulationService.
Context {F : Type} `{Float64 F}.

Local Open Scope session_scope.

(** [v + x] for a float [x]: ints and bools are converted, anything else
    is a [TypeError]; an int too large for a float is an [OverflowError]. *)
Definition py_add_float (v : pyval F) (x : F) : result (pyval F) :=
  match v with
  | PInt z => (y <- float_of_int z ;; Ok (PFloat (fadd y x)))%result
  | PBool b => Ok (PFloat (fadd (f_of_Z (bool_to_Z b)) x))
  | PFloat y => Ok (PFloat (fadd y x))
  | _ => Raise TypeError
  end.

(** [LLMDecision(action="observe_failed_llm", dialogue="LLM processing error.")] *)
Definition default_decision : LLMDecision F :=
  mkLLMDecision "observe_failed_llm" (Some "LLM processing error.") fzero [] None.

(** Lines 45-57: the oracle call with its recovery. *)
Definition decide (env : LLMEnv F) (agent : Agent.t F) (simulation : Simulation.t)
  : LLMDecision F :=
  match
    (prompt <- construct_agent_prompt agent simulation ;;
     llm_response_raw <- get_llm_decision_sync env prompt ;;
     parse_structured_decision llm_response_raw LLMDecision_model_validate)%result
  with
  | Ok decision => decision
  | Raise _ => default_decision
  end.

(** The record a new agent row starts with. *)
Definition empty_short_term_memory : pydict F :=
  [("recent_events", PList []); ("last_decisions", PList [])].

(** Step 3: the decision is appended to [last_decisions]. *)
Definition append_decision (stm : pyval F) (tick : Z) (decision : LLMDecision F)
  : pyval F :=
  let d := match as_dict stm with
           | Some d => d
           | None => empty_short_term_memory
           end in
  let l := match dict_get d "last_decisions" with
           | Some (PList l) => l
           | _ => []
           end in
  PDict (dict_set d "last_decisions"
           (PList (l ++ [PDict [("tick", PInt tick);
                                ("decision", LLMDecision_dict decision)]]))).

(** [0.5] *)
Definition fhalf : F := f_of_decimal false 5 (-1).

(** Step 4: [beliefs["sentiment"] = beliefs.get("sentiment", 0.5) + shift]. *)
Definition shift_sentiment (beliefs : pyval F) (shift : F) : result (pyval F) :=
  let d := match as_dict beliefs with Some d => d | None => [] end in
  let current := match dict_get d "sentiment" with
                 | Some v => v
                 | None => PFloat fhalf
                 end in
  (v <- py_add_float current shift ;;
   Ok (PDict (dict_set d "sentiment" v)))%result.

(** The body of the loop for one agent.  The agent object is changed in
    place: what was assigned before an exception stays assigned. *)
Definition update_agent (env : LLMEnv F) (simulation : Simulation.t)
  (agent : Agent.t F) : M F unit :=
  let decision := decide env agent simulation in
  assign_agent (Agent.id agent)
    (Agent.set_short_term_memory
       (append_decision (Agent.short_term_memory agent)
          (Simulation.current_tick simulation) decision)) ;;;
  beliefs <- lift (shift_sentiment (Agent.beliefs agent) (sentiment_shift decision)) ;;
  assign_agent (Agent.id agent) (Agent.set_beliefs beliefs).

Definition run_agent_updates (env : LLMEnv F) (simulation : Simulation.t)
  : M F unit :=
  agents <- gets (fun db => get_agents db (Some (Simulation.id simulation)) 0 10000) ;;
  match agents with
  | [] => ret tt
  | _ =>
      for_each agents (fun agent =>
        try_except (update_agent env simulation agent)
          (except_Exception (fun _ => ret tt)))
  end.

(** Step 5 of [test_agent_decision] in [api/agent_routes.py], the other
    place that appends to [last_decisions]. *)
Definition test_agent_decision_stm (short_term_memory decision : pyval F)
  : pyval F :=
  let current_stm := match as_dict short_term_memory with
                     | Some d => d
                     | None => empty_short_term_memory
                     end in
  let l := match dict_get current_stm "last_decisions" with
           | Some (PList l) => l
           | _ => []
           end in
  let l := l ++ [decision] in
  let max_stm_decisions := 10%nat in
  let l := if (max_stm_decisions <? List.length l)%nat
           then skipn (List.length l - max_stm_decisions) l
           else l in
  PDict (dict_set current_stm "last_decisions" (PList l)).

End SimulationService.

(* ================================================================= *)
(** * The event processor ([services/event_service.py]) *)

Section EventService.
Context {F : Type} `{Float64 F}.

Local Open Scope session_scope.

(** The body of the loop of [apply_ubi_event] for one agent. *)
Definition apply_ubi_to_agent (amount : F) (agent : Agent.t F) : M F unit :=
  match as_dict (Agent.demographics agent) with
  | Some demographics =>
      let current_income := match dict_get demographics "income" with
                            | Some v => v
                            | None => PFloat fzero
                            end in
      income <- lift (py_add_float current_income amount) ;;
      let updated_demographics := dict_set demographics "income" income in
      assign_agent (Agent.id agent)
        (Agent.set_demographics (PDict updated_demographics))
  | None => ret tt
  end.

Definition apply_ubi_event (simulation : Simulation.t) (event : Event.t F)
  : M F unit :=
  match UBIEventParams_init (Event.parameters event) with
  | Raise ValidationError | Raise KeyError =>
      update_event_status (Event.id event) "failed" ;;; ret tt
  | Raise e => raise e
  | Ok params =>
      let amount := amount_per_agent params in
      agents <- gets (fun db => get_agents db (Some (Simulation.id simulation)) 0 10000) ;;
      for_each agents (fun agent =>
        try_except (apply_ubi_to_agent amount agent)
          (except_Exception (fun _ => ret tt))) ;;;
      try_except
        (update_event_status (Event.id event) "processed" ;;; commit)
        (except_Exception (fun _ => rollback))
  end.

Definition process_events_for_tick (simulation : Simulation.t) : M F unit :=
  let current_tick := Simulation.current_tick simulation in
  pending_events <-
    gets (fun db => get_events db (Simulation.id simulation) (Some "pending")
                      (Some current_tick) 0 100) ;;
  for_each pending_events (fun event =>
    update_event_status (Event.id event) "triggered" ;;;
    commit ;;;
    if String.eqb (Event.event_type event) "ubi"
    then apply_ubi_event simulation event
    else (update_event_status (Event.id event) "failed" ;;; commit)).

End EventService.

(* ================================================================= *)
(** * The metric calculator ([services/metrics_service.py]) *)

Section MetricsService.
Context {F : Type} `{Float64 F}.

(** ** The numpy operations the code calls *)

(** A value that is not ordered with itself is a NaN. *)
Definition is_nan (x : F) : bool := negb (fleb x x).

(** The smaller of two values; a NaN wins. *)
Definition np_minimum (a b : F) : F :=
  if fltb b a then b
  else if fleb a b then a
  else fadd a b.

(** [np.amin] of a non-empty array *)
Definition np_amin (a : list F) : F :=
  match a with
  | [] => fzero
  | x :: rest => fold_left np_minimum rest x
  end.

(** [np.sum]: the elements added from left to right, as numpy does for
    fewer than eight of them (it adds longer arrays pairwise; in exact
    arithmetic the order does not matter). *)
Definition np_sum (a : list F) : F := fold_left fadd a fzero.

Fixpoint insert_sorted (x : F) (l : list F) : list F :=
  match l with
  | [] => [x]
  | y :: l' =>
      if fltb y x || (is_nan x && negb (is_nan y))
      then y :: insert_sorted x l'
      else x :: l
  end.

(** [np.sort]: ascending, NaN last. *)
Definition np_sort (a : list F) : list F := fold_right insert_sorted [] a.

(** [np.arange(lo, lo + n)] *)
Fixpoint np_arange (lo : Z) (n : nat) : list Z :=
  match n with
  | O => []
  | S n' => lo :: np_arange (lo + 1) n'
  end.

(** [np.mean] *)
Definition np_mean (a : list F) : F :=
  fdiv (np_sum a) (f_of_Z (Z.of_nat (List.length a))).

(** [np.var]: the mean of the squared deviations from the mean. *)
Definition np_var (a : list F) : F :=
  let m := np_mean a in
  np_mean (map (fun x => fmul (fsub x m) (fsub x m)) a).

(** One entry of an array of dtype [float64]. *)
Definition np_float64 (v : pyval F) : result F :=
  match v with
  | PInt z => float_of_int z
  | PFloat x => Ok x
  | PBool b => Ok (f_of_Z (bool_to_Z b))
  | PNone =>
      match f_nan with
      | Some x => Ok x
      | None => Raise TypeError
      end
  | _ => Raise (ValueError "setting an array element with a sequence.")
  end.

Fixpoint np_float64_row (r : list (pyval F)) : result (list F) :=
  match r with
  | [] => Ok []
  | v :: r' =>
      (x <- np_float64 v ;; xs <- np_float64_row r' ;; Ok (x :: xs))%result
  end.

(** [np.array(rows, dtype=np.float64)] for a list of lists of numbers: the
    rows must have one length, and [None] is read as NaN.  (numpy also
    accepts numeric strings and deeper nesting of one shape; these take
    the error path here.) *)
Fixpoint np_array_2d (width : nat) (rows : list (list (pyval F)))
  : result (list (list F)) :=
  match rows with
  | [] => Ok []
  | r :: rows' =>
      if Nat.eqb (List.length r) width
      then (xs <- np_float64_row r ;;
            rest <- np_array_2d width rows' ;;
            Ok (xs :: rest))%result
      else Raise (ValueError "inhomogeneous shape")
  end.

(** Column [j] of a two-dimensional array. *)
Definition column (j : nat) (rows : list (list F)) : list F :=
  map (fun r => nth j r fzero) rows.

(** [np.var(a, axis=0)] for an array of the given width *)
Definition np_var_axis0 (width : nat) (rows : list (list F)) : list F :=
  map (fun j => np_var (column j rows)) (seq 0 width).

(** ** [calculate_gini] *)

Definition gini_epsilon : F := f_of_decimal false 1 (-7).

Definition calculate_gini (incomes : list F) : option F :=
  match incomes with
  | [] => None
  | _ =>
      let array := incomes in
      let array := if fltb (np_amin array) fzero
                   then map (fun x => fsub x (np_amin array)) array
                   else array in
      let array := map (fun x => fadd x gini_epsilon) array in
      let array := np_sort array in
      let index := np_arange 1 (List.length array) in
      let n := Z.of_nat (List.length array) in
      Some (fdiv
              (np_sum (map (fun ix => fmul (f_of_Z (2 * fst ix - n - 1)) (snd ix))
                         (combine index array)))
              (fmul (f_of_Z n) (np_sum array)))
  end.

(** ** [calculate_belief_variance] *)

(** The ideology vectors of the agents that carry one. *)
Fixpoint belief_vectors_of (agents : list (Agent.t F)) : list (list (pyval F)) :=
  match agents with
  | [] => []
  | agent :: rest =>
      match as_dict (Agent.beliefs agent) with
      | Some beliefs =>
          match dict_get beliefs "political_ideology_vector" with
          | Some (PList vector) => vector :: belief_vectors_of rest
          | _ => belief_vectors_of rest
          end
      | None => belief_vectors_of rest
      end
  end.

Definition calculate_belief_variance (agents : list (Agent.t F)) : option F :=
  match agents with
  | [] => None
  | _ =>
      match belief_vectors_of agents with
      | [] => Some fzero
      | (first :: _) as belief_vectors =>
          let width := List.length first in
          match np_array_2d width belief_vectors with
          | Ok belief_array =>
              let variances := np_var_axis0 width belief_array in
              Some (np_mean variances)
          | Raise _ => None
          end
      end
  end.

(** ** [calculate_and_store_metrics] *)

(** [float(v)] *)
Definition py_float (v : pyval F) : result F :=
  match v with
  | PInt z => float_of_int z
  | PFloat x => Ok x
  | PBool b => Ok (f_of_Z (bool_to_Z b))
  | PStr _ => Raise (ValueError "could not convert string to float")
  | _ => Raise TypeError
  end.

Fixpoint collect_incomes (agents : list (Agent.t F)) : result (list F) :=
  match agents with
  | [] => Ok []
  | agent :: rest =>
      match as_dict (Agent.demographics agent) with
      | Some demographics =>
          match dict_get demographics "income" with
          | Some v =>
              (x <- py_float v ;; xs <- collect_incomes rest ;; Ok (x :: xs))%result
          | None => collect_incomes rest
          end
      | None => collect_incomes rest
      end
  end.

Local Open Scope session_scope.

Definition calculate_and_store_metrics (simulation : Simulation.t) : M F unit :=
  agents <- gets (fun db => get_agents db (Some (Simulation.id simulation)) 0 10000) ;;
  match agents with
  | [] => ret tt
  | _ =>
      incomes <- lift (collect_incomes agents) ;;
      let gini := calculate_gini incomes in
      let belief_variance := calculate_belief_variance agents in
      try_except
        (create_metric_snapshot (Simulation.id simulation)
           (Simulation.current_tick simulation) gini belief_variance ;;; ret tt)
        (except_Exception (fun _ => ret tt))
  end.

End MetricsService.

(* ================================================================= *)
(** * The tick orchestrator ([api/simulation_routes.py]) *)

Section SimulationRoutes.
Context {F : Type} `{Float64 F}.

Local Open Scope session_scope.

(** The endpoint function itself: what FastAPI does with the value it
    returns (validation against the response model) is not part of it. *)

(** [try: stage except Exception: log] *)
Definition isolated (stage : M F unit) : M F unit :=
  try_except stage (except_Exception (fun _ => ret tt)).

Definition advance_tick_endpoint (env : LLMEnv F) (simulation_id : uuid)
  : M F Simulation.t :=
  db_simulation <- gets (fun db => get_simulation db simulation_id) ;;
  match db_simulation with
  | None => raise (HTTPException 404 "Simulation not found")
  | Some db_simulation =>
      let current_tick := Simulation.current_tick db_simulation in
      isolated (process_events_for_tick db_simulation) ;;;
      isolated (calculate_and_store_metrics db_simulation) ;;;
      isolated (run_agent_updates env db_simulation) ;;;
      isolated (calculate_and_store_metrics db_simulation) ;;;
      let new_tick := current_tick + 1 in
      updated_sim <-
        update_simulation simulation_id
          (mkSimulationUpdate None None (Some new_tick) None) ;;
      match updated_sim with
      | None => raise (HTTPException 500 "Failed to update simulation tick")
      | Some updated_sim => ret updated_sim
      end
  end.

End SimulationRoutes.

(* ================================================================= *)
(** * Scenarios

    Concrete stores and oracles on which the code is run. *)

(** An empty store. *)
Definition empty_tables {F} : Tables F := mkTables [] [] [] [] [].
Definition empty_session {F} : Session F := mkSession empty_tables empty_tables 1 1 0.

(** ** A simulation with three agents and one UBI event *)

Definition scenario_simulation : Simulation.t :=
  Simulation.mk 1 (Some "Default Simulation") None 0 "running".

Definition scenario_agent {F} `{Float64 F} (agent_id : uuid) (income : Z)
  : Agent.t F :=
  Agent.mk agent_id 1 None
    (PDict [("age", PInt 30); ("income", PFloat (f_of_Z income));
            ("household_size", PInt 2)])
    (PDict [("conformity", PFloat fhalf); ("risk_aversion", PFloat fhalf);
            ("empathy", PFloat fhalf); ("social_susceptibility", PFloat fhalf);
            ("consumption_preference", PFloat fhalf)])
    (PDict [("political_ideology_vector", PList [PFloat fhalf; PFloat fzero]);
            ("economic_optimism", PFloat fhalf);
            ("institutional_trust", PFloat fhalf);
            ("policy_support_index", PDict [])])
    (PDict empty_short_term_memory).

Definition scenario_agents {F} `{Float64 F} : list (Agent.t F) :=
  [scenario_agent 10 0; scenario_agent 11 50; scenario_agent 12 200].

(** A UBI event for tick 0 that pays [amount] to every agent. *)
Definition ubi_event {F} (amount : Z) (status : string) : Event.t F :=
  Event.mk 7 1 "ubi" (Some "basic income")
    (PDict [("amount_per_agent", PInt amount)]) (Some 0) status None.

Definition ubi_session {F} `{Float64 F} (amount : Z) (status : string) : Session F :=
  let t := mkTables [scenario_simulation] scenario_agents
             [ubi_event amount status] [] [] in
  mkSession t t 1 1000 0.

(** [agent.demographics["income"]] of every agent *)
Definition incomes_of {F} (db : Session F) : list (option (pyval F)) :=
  map (fun a => match as_dict (Agent.demographics a) with
                | Some d => dict_get d "income"
                | None => None
                end) (agents (live db)).

Definition event_statuses {F} (db : Session F) : list string :=
  map Event.status (events (live db)).

(** ** The extraction of the JSON object, in the words of its description *)

(** The text up to and including the first closing brace. *)
Fixpoint upto_close_brace (s : string) : option string :=
  match s with
  | EmptyString => None
  | String c s' =>
      if Ascii.eqb c "}"%char then Some (String c EmptyString)
      else option_map (String c) (upto_close_brace s')
  end.

(** The text from the first opening brace to the first closing brace that
    follows it. *)
Fixpoint first_brace_span (s : string) : option string :=
  match s with
  | EmptyString => None
  | String c s' =>
      if Ascii.eqb c "{"%char then option_map (String c) (upto_close_brace s')
      else first_brace_span s'
  end.

(** ** A decision the prompt asks for, with one policy opinion *)

Definition dq : string := String "034"%char EmptyString.

Definition quoted (s : string) : string := (dq ++ s ++ dq)%string.

(** The object with [action] "protest", [dialogue] null, [sentiment_shift]
    -0.2, [policy_opinion_shift] mapping "ubi" to 0.5 and
    [spending_ratio_shift] null, as JSON text. *)
Definition nested_decision_response : string :=
  ("{" ++ quoted "action" ++ ": " ++ quoted "protest" ++ ", "
   ++ quoted "dialogue" ++ ": null, "
   ++ quoted "sentiment_shift" ++ ": -0.2, "
   ++ quoted "policy_opinion_shift" ++ ": {" ++ quoted "ubi" ++ ": 0.5}, "
   ++ quoted "spending_ratio_shift" ++ ": null}")%string.

(** What the pattern cuts out of it: the text ends after the inner brace. *)
Definition nested_decision_extracted : string :=
  ("{" ++ quoted "action" ++ ": " ++ quoted "protest" ++ ", "
   ++ quoted "dialogue" ++ ": null, "
   ++ quoted "sentiment_shift" ++ ": -0.2, "
   ++ quoted "policy_opinion_shift" ++ ": {" ++ quoted "ubi" ++ ": 0.5}")%string.

(** ** The ways the decision-oracle path fails *)

Section OracleFailures.
Context {F : Type} `{Float64 F}.

(** The cleaning [parse_structured_decision] does before it searches. *)
Definition cleaned (raw_response : string) : string :=
  Str.strip
    (Str.removesuffix (Str.removeprefix (Str.strip raw_response) "```json") "```").

(** The failures of one oracle call for [agent] at the tick of
    [simulation]: no prompt, no client, a transport error, a blocked or
    empty answer, an answer without a JSON object, with text that does not
    decode, or with an object that does not fit the decision schema. *)
Inductive oracle_failure (env : LLMEnv F) (agent : Agent.t F)
  (simulation : Simulation.t) : Prop :=
| prompt_error (e : exn) :
    construct_agent_prompt agent simulation = Raise e ->
    oracle_failure env agent simulation
| client_unavailable (p : Prompt F) :
    construct_agent_prompt agent simulation = Ok p ->
    llm_model env = None ->
    oracle_failure env agent simulation
| network_error (p : Prompt F) (m : GenerativeModel F) (e : exn) :
    construct_agent_prompt agent simulation = Ok p ->
    llm_model env = Some m ->
    m p = Raise e ->
    oracle_failure env agent simulation
| blocked_or_empty_response (p : Prompt F) (m : GenerativeModel F)
    (r : GenerateContentResponse) :
    construct_agent_prompt agent simulation = Ok p ->
    llm_model env = Some m ->
    m p = Ok r ->
    candidates r = [] ->
    oracle_failure env agent simulation
| missing_content_parts (p : Prompt F) (m : GenerativeModel F)
    (r : GenerateContentResponse) (c : Candidate) (cs : list Candidate) :
    construct_agent_prompt agent simulation = Ok p ->
    llm_model env = Some m ->
    m p = Ok r ->
    candidates r = c :: cs ->
    content_parts c = None \/ content_parts c = Some [] ->
    oracle_failure env agent simulation
| text_unavailable (p : Prompt F) (m : GenerativeModel F)
    (r : GenerateContentResponse) (e : exn) :
    construct_agent_prompt agent simulation = Ok p ->
    llm_model env = Some m ->
    m p = Ok r ->
    text r = Raise e ->
    oracle_failure env agent simulation
| no_json_object (p : Prompt F) (raw : string) :
    construct_agent_prompt agent simulation = Ok p ->
    get_llm_decision_sync env p = Ok raw ->
    Re.search json_object_re (cleaned raw) = None ->
    oracle_failure env agent simulation
| json_parse_failure (p : Prompt F) (raw json_str : string) (e : exn) :
    construct_agent_prompt agent simulation = Ok p ->
    get_llm_decision_sync env p = Ok raw ->
    Re.search json_object_re (cleaned raw) = Some json_str ->
    Json.loads (F:=F) json_str = Raise e ->
    oracle_failure env agent simulation
| schema_validation_failure (p : Prompt F) (raw json_str : string)
    (data : pyval F) (e : exn) :
    construct_agent_prompt agent simulation = Ok p ->
    get_llm_decision_sync env p = Ok raw ->
    Re.search json_object_re (cleaned raw) = Some json_str ->
    Json.loads json_str = Ok data ->
    LLMDecision_model_validate data = Raise e ->
    oracle_failure env agent simulation.

(** [agent.short_term_memory["last_decisions"]], or nothing when the
    record is not of that shape. *)
Definition last_decisions (a : Agent.t F) : list (pyval F) :=
  match as_dict (Agent.short_term_memory a) with
  | Some d => match dict_get d "last_decisions" with
              | Some (PList l) => l
              | _ => []
              end
  | None => []
  end.

(** The entry the pipeline logs for a decision. *)
Definition decision_entry (tick : Z) (decision : LLMDecision F) : pyval F :=
  PDict [("tick", PInt tick); ("decision", LLMDecision_dict decision)].

End OracleFailures.

(** ** Oracles that never produce a decision *)

(** No client was configured at startup. *)
Definition env_no_client {F} : LLMEnv F := mkLLMEnv None.

(** Every call ends in a transport error. *)
Definition env_network_down {F} : LLMEnv F :=
  mkLLMEnv (Some (fun _ => Raise (OtherError "ServiceUnavailable"))).

(** Every call returns the given text, in one candidate with one part. *)
Definition env_answering {F} (raw : string) : LLMEnv F :=
  mkLLMEnv (Some (fun _ => Ok (mkResponse [mkCandidate (Some [raw])] (Ok raw)))).

(** ** The pipeline, row by row *)

Section PipelineView.
Context {F : Type} `{Float64 F}.

(** Primary keys are unique. *)
Definition unique_agent_ids (db : Session F) : Prop :=
  NoDup (map Agent.id (agents (live db))).

(** The assignments the body of the loop of [run_agent_updates] makes for
    the agent [a], applied to a row [r]: the decision is logged, and the
    sentiment is shifted unless the addition raises. *)
Definition agent_writes (env : LLMEnv F) (simulation : Simulation.t)
  (a r : Agent.t F) : Agent.t F :=
  let decision := decide env a simulation in
  let r1 :=
    Agent.set_short_term_memory
      (append_decision (Agent.short_term_memory a)
         (Simulation.current_tick simulation) decision) r in
  match shift_sentiment (Agent.beliefs a) (sentiment_shift decision) with
  | Ok beliefs => Agent.set_beliefs beliefs r1
  | Raise _ => r1
  end.

(** What the loop body leaves of an agent. *)
Definition processed_agent (env : LLMEnv F) (simulation : Simulation.t)
  (a : Agent.t F) : Agent.t F :=
  agent_writes env simulation a a.

(** The row is one of those the pipeline fetches. *)
Definition is_processed (db : Session F) (simulation : Simulation.t)
  (r : Agent.t F) : bool :=
  existsb (fun a => Agent.id a =? Agent.id r)
    (get_agents db (Some (Simulation.id simulation)) 0 10000).

(** The agents of the simulation, in table order. *)
Definition agents_of (db : Session F) (simulation : Simulation.t)
  : list (Agent.t F) :=
  filter (fun a => Agent.simulation_id a =? Simulation.id simulation)
    (agents (live db)).

(** The session with another agents table. *)
Definition with_agents (rows : list (Agent.t F)) (db : Session F) : Session F :=
  set_live (set_agents rows (live db)) db.

(** Everything but the agents table is the same. *)
Definition same_but_agents (db db' : Session F) : Prop :=
  simulations (live db') = simulations (live db)
  /\ events (live db') = events (live db)
  /\ long_term_memories (live db') = long_term_memories (live db)
  /\ metric_snapshots (live db') = metric_snapshots (live db)
  /\ durable db' = durable db
  /\ memory_seq db' = memory_seq db
  /\ uuid_seq db' = uuid_seq db
  /\ now db' = now db.

(** The table after the loop over [l]. *)
Definition updated_rows (env : LLMEnv F) (simulation : Simulation.t)
  (l rows : list (Agent.t F)) : list (Agent.t F) :=
  fold_left
    (fun rows a =>
       update_first (fun r => Agent.id r =? Agent.id a)
         (agent_writes env simulation a) rows)
    l rows.

(** [n] runs of the pipeline at the same tick. *)
Fixpoint run_agent_updates_times (n : nat) (env : LLMEnv F)
  (simulation : Simulation.t) (db : Session F) : Session F :=
  match n with
  | O => db
  | S n' =>
      run_agent_updates_times n' env simulation
        (snd (run_agent_updates env simulation db))
  end.

End PipelineView.

(** ** Beliefs, entry by entry *)

Section BeliefView.
Context {F : Type} `{Float64 F}.

(** [agent.beliefs.get(key)], or nothing when [beliefs] is not a dict. *)
Definition belief_entry (a : Agent.t F) (key : string) : option (pyval F) :=
  match as_dict (Agent.beliefs a) with
  | Some d => dict_get d key
  | None => None
  end.

(** The float a value counts as in an addition, if it is a number. *)
Definition numeric_value (v : pyval F) : option F :=
  match v with
  | PInt z => match float_of_int z with Ok x => Some x | Raise _ => None end
  | PBool b => Some (f_of_Z (bool_to_Z b))
  | PFloat x => Some x
  | _ => None
  end.

(** [beliefs.get("sentiment", 0.5)], with an empty dict for beliefs that
    are not one. *)
Definition current_sentiment (a : Agent.t F) : pyval F :=
  match belief_entry a "sentiment" with
  | Some v => v
  | None => PFloat fhalf
  end.

(** What a run of the pipeline may change in the row [a], now [a']: for a
    processed agent the sentiment, shifted by the decision; nothing else
    of the profile. *)
Definition sentiment_shifted_only (env : LLMEnv F) (simulation : Simulation.t)
  (db : Session F) (a a' : Agent.t F) : Prop :=
  Agent.id a' = Agent.id a
  /\ Agent.demographics a' = Agent.demographics a
  /\ Agent.behavioral_traits a' = Agent.behavioral_traits a
  /\ (forall key, key <> "sentiment" -> belief_entry a' key = belief_entry a key)
  /\ if is_processed db simulation a
     then match numeric_value (current_sentiment a) with
          | Some x =>
              belief_entry a' "sentiment"
              = Some (PFloat (fadd x (sentiment_shift (decide env a simulation))))
          | None => Agent.beliefs a' = Agent.beliefs a
          end
     else a' = a.

End BeliefView.

(** ** An oracle that answers with a sentiment shift of 0.7 *)

Definition cheerful_response : string :=
  ("{" ++ quoted "action" ++ ": " ++ quoted "celebrate" ++ ", "
   ++ quoted "sentiment_shift" ++ ": 0.7}")%string.

Definition env_cheerful {F} : LLMEnv F := env_answering cheerful_response.

(** ** What the stages of a tick may change *)

Section StageView.
Context {F : Type} `{Float64 F}.

(** The statuses an event is moved to. *)
Definition status_moves_on (s s' : string) : Prop :=
  s' = s \/ s' = "triggered" \/ s' = "processed" \/ s' = "failed".

(** The same event, its status possibly moved on. *)
Definition event_moves_on (e e' : Event.t F) : Prop :=
  Event.id e' = Event.id e
  /\ Event.simulation_id e' = Event.simulation_id e
  /\ Event.event_type e' = Event.event_type e
  /\ Event.parameters e' = Event.parameters e
  /\ Event.target_tick e' = Event.target_tick e
  /\ status_moves_on (Event.status e) (Event.status e').

(** The same agent, its demographics possibly changed. *)
Definition agent_kept (a a' : Agent.t F) : Prop :=
  Agent.id a' = Agent.id a
  /\ Agent.simulation_id a' = Agent.simulation_id a
  /\ Agent.behavioral_traits a' = Agent.behavioral_traits a
  /\ Agent.beliefs a' = Agent.beliefs a
  /\ Agent.short_term_memory a' = Agent.short_term_memory a.

(** What the event stage and the metric stages leave in place. *)
Definition stage_rel (db db' : Session F) : Prop :=
  simulations (live db') = simulations (live db)
  /\ Forall2 event_moves_on (events (live db)) (events (live db'))
  /\ Forall2 agent_kept (agents (live db)) (agents (live db')).

(** The events of the later session are those of the earlier one, moved on. *)
Definition events_rel (db db' : Session F) : Prop :=
  Forall2 event_moves_on (events (live db)) (events (live db')).

(** A relation between the session before and after, which steps can be
    chained in and which sees the live tables only. *)
Class StepRelation (R : Session F -> Session F -> Prop) : Prop := {
  step_refl : forall db, R db db;
  step_trans : forall db1 db2 db3, R db1 db2 -> R db2 db3 -> R db1 db3;
  step_same_live : forall db db', live db' = live db -> R db db'
}.

(** Where the computation ends, [R] relates the session to the one it
    started from. *)
Definition preserves {A} (R : Session F -> Session F -> Prop) (m : M F A) : Prop :=
  forall db, R db (snd (m db)).

(** The computation does not raise. *)
Definition never_raises {A} (m : M F A) : Prop :=
  forall db, exists a, fst (m db) = Ok a.

(** The filter of the event processor at the tick of [simulation]. *)
Definition eligible (simulation : Simulation.t) (e : Event.t F) : bool :=
  (Event.simulation_id e =? Simulation.id simulation)
  && String.eqb (Event.status e) "pending"
  && match Event.target_tick e with
     | Some target => target =? Simulation.current_tick simulation
     | None => false
     end.

(** The sessions reached by later tick advances and event-processor runs,
    for any simulation and any oracle. *)
Inductive later : Session F -> Session F -> Prop :=
| later_now (db : Session F) : later db db
| later_advance_tick (env : LLMEnv F) (simulation_id : uuid) (db db' : Session F) :
    later (snd (advance_tick_endpoint env simulation_id db)) db' ->
    later db db'
| later_process_events (simulation : Simulation.t) (db db' : Session F) :
    later (snd (process_events_for_tick simulation db)) db' ->
    later db db'.

End StageView.

(** ** More events for one tick than a page holds *)

(** Event [k] of simulation 1, pending for tick 0. *)
Definition crowd_event {F} (k : nat) : Event.t F :=
  Event.mk (Z.of_nat k) 1 "ubi" None (PDict [("amount_per_agent", PInt 1)])
    (Some 0) "pending" None.

(** 101 such events, in creation order. *)
Definition crowd_session {F} `{Float64 F} : Session F :=
  let t := mkTables [scenario_simulation] scenario_agents
             (map crowd_event (seq 0 101)) [] [] in
  mkSession t t 1 1000 0.

(** ** The tick, stage by stage *)

Section TickView.
Context {F : Type} `{Float64 F}.

(** Every oracle call fails, for whichever agent and tick. *)
Definition oracle_down (env : LLMEnv F) : Prop :=
  forall (agent : Agent.t F) (simulation : Simulation.t),
    oracle_failure env agent simulation.

(** The session after the four stages that precede the increment. *)
Definition after_stages (env : LLMEnv F) (simulation : Simulation.t)
  (db : Session F) : Session F :=
  let db1 := snd (isolated (process_events_for_tick simulation) db) in
  let db2 := snd (isolated (calculate_and_store_metrics simulation) db1) in
  let db3 := snd (isolated (run_agent_updates env simulation) db2) in
  snd (isolated (calculate_and_store_metrics simulation) db3).

(** What a tick in which every oracle call fails leaves of the agent [a],
    now [a']: the default decision is logged for a processed agent. *)
Definition fallback_logged (simulation : Simulation.t) (db : Session F)
  (a a' : Agent.t F) : Prop :=
  Agent.id a' = Agent.id a
  /\ (is_processed db simulation a = true ->
      last_decisions a' =
      last_decisions a
      ++ [decision_entry (Simulation.current_tick simulation) default_decision]).

End TickView.

(** ** A simulation without events *)

Definition quiet_session {F} `{Float64 F} : Session F :=
  let t := mkTables [scenario_simulation] scenario_agents [] [] [] in
  mkSession t t 1 1000 0.

(** ** Agents with ideology vectors of different lengths *)

Definition agent_with_ideology {F} `{Float64 F} (agent_id : uuid)
  (vector : list (pyval F)) : Agent.t F :=
  Agent.mk agent_id 1 None
    (PDict [("age", PInt 30); ("income", PFloat fzero); ("household_size", PInt 1)])
    (PDict [])
    (PDict [("political_ideology_vector", PList vector);
            ("economic_optimism", PFloat fhalf);
            ("institutional_trust", PFloat fhalf);
            ("policy_support_index", PDict [])])
    (PDict empty_short_term_memory).

Definition ragged_agents {F} `{Float64 F} : list (Agent.t F) :=
  [agent_with_ideology 20 [PFloat fhalf];
   agent_with_ideology 21 [PFloat fhalf; PFloat fzero]].

(** ** The Gini coefficient in exact arithmetic *)

Section GiniView.
Local Open Scope Q_scope.

(** The sum of a list. *)
Definition Qsum (l : list Q) : Q := fold_right Qplus 0 l.

(** [sum((2 * rank - n - 1) * value)], the ranks counted from [rank]. *)
Fixpoint weighted_sum (rank n : Z) (l : list Q) : Q :=
  match l with
  | [] => 0
  | v :: l' => inject_Z (2 * rank - n - 1) * v + weighted_sum (rank + 1) n l'
  end.

(** The result [g] of the Gini computation on [incomes], described. *)
Definition gini_exact (incomes : list Q) (g : Q) : Prop :=
  exists (least : Q) (array : list Q),
    In least incomes /\ Forall (Qle least) incomes
    /\ (least < 0 ->
        Permutation array (map (fun x => x - least + (1 # 10000000)) incomes))
    /\ (0 <= least ->
        Permutation array (map (fun x => x + (1 # 10000000)) incomes))
    /\ StronglySorted Qle array
    /\ Forall (fun v => 0 < v) array
    /\ g == weighted_sum 1 (Z.of_nat (List.length array)) array
            / (inject_Z (Z.of_nat (List.length array)) * Qsum array)
    /\ 0 <= g /\ g < 1
    /\ (forall c, Forall (fun x => x == c) incomes -> g == 0).

End GiniView.

(** Three incomes near the top of the binary64 range. *)
Definition huge_incomes : list float := [1e308; 1e308; 1e308]%float.

(* ================================================================= *)
(** * More of the persistence layer and of the routes *)

Section MoreCrud.
Context {F : Type} `{Float64 F}.

Local Open Scope session_scope.

(** ** [schemas/simulation.py], [crud/simulation.py] *)

(** A validated [SimulationCreate]. *)
Record SimulationCreate : Type := mkSimulationCreate {
  create_name : option string;
  create_description : option string;
  create_current_tick : Z;
  create_status : string;
  create_population_size_target : option Z
}.

(** The row gets the name and the description of the request; the tick and
    the status are the column defaults. *)
Definition create_simulation (simulation : SimulationCreate) : M F Simulation.t :=
  _now <- datetime_now ;;
  new_id <- uuid4 ;;
  let db_simulation :=
    Simulation.mk new_id (create_name simulation) (create_description simulation)
      0 "initialized" in
  modify_live (fun t => set_simulations (simulations t ++ [db_simulation]) t) ;;;
  commit ;;;
  ret db_simulation.

(** ** [schemas/event.py], [crud/event.py] *)

(** A validated [EventCreate]. *)
Record EventCreate : Type := mkEventCreate {
  new_event_type : string;
  new_description : option string;
  new_parameters : pydict F;
  new_target_tick : option Z;
  new_status : string
}.

(** [Dict[str, Any]] *)
Definition validate_dict_any (v : pyval F) : result (pydict F) :=
  match v with
  | PDict d => Ok d
  | _ => Raise ValidationError
  end.

(** [Field(None, ge=0)] on an int *)
Definition validate_int_ge0 (v : pyval F) : result Z :=
  (z <- validate_int v ;;
   if 0 <=? z then Ok z else Raise ValidationError)%result.

(** [Literal["pending", "triggered", "processed", "failed"]] *)
Definition validate_event_status (v : pyval F) : result string :=
  match v with
  | PStr s =>
      if String.eqb s "pending" || String.eqb s "triggered"
         || String.eqb s "processed" || String.eqb s "failed"
      then Ok s
      else Raise ValidationError
  | _ => Raise ValidationError
  end.

(** [EventCreate.model_validate(data)], as the route does with the body of
    the request. *)
Definition EventCreate_model_validate (data : pyval F) : result EventCreate :=
  match data with
  | PDict d =>
      (ty <- required_field d "event_type" validate_str ;;
       ds <- field d "description" (validate_optional validate_str) None ;;
       ps <- field d "parameters" validate_dict_any [] ;;
       tk <- field d "target_tick" (validate_optional validate_int_ge0) None ;;
       st <- field d "status" validate_event_status "pending" ;;
       Ok (mkEventCreate ty ds ps tk st))%result
  | _ => Raise ValidationError
  end.

Definition create_event (event : EventCreate) (simulation_id : uuid)
  : M F (Event.t F) :=
  new_id <- uuid4 ;;
  let db_event :=
    Event.mk new_id simulation_id (new_event_type event) (new_description event)
      (PDict (new_parameters event)) (new_target_tick event) (new_status event)
      None in
  modify_live (fun t => set_events (events t ++ [db_event]) t) ;;;
  commit ;;;
  ret db_event.

(** ** [crud/metrics.py] *)

(** Insertion by tick, after the rows of the same tick. *)
Fixpoint insert_by_tick (s : MetricSnapshot.t F) (l : list (MetricSnapshot.t F))
  : list (MetricSnapshot.t F) :=
  match l with
  | [] => [s]
  | s' :: l' =>
      if MetricSnapshot.tick s <? MetricSnapshot.tick s'
      then s :: l
      else s' :: insert_by_tick s l'
  end.

(** [order_by(MetricsModel.tick)]; rows of one tick are left in table
    order (the database leaves their order open). *)
Definition order_by_tick (l : list (MetricSnapshot.t F)) : list (MetricSnapshot.t F) :=
  fold_left (fun acc s => insert_by_tick s acc) l [].

Definition get_metric_snapshots (db : Session F) (simulation_id : uuid)
  (skip limit : Z) : list (MetricSnapshot.t F) :=
  let query :=
    filter (fun s => MetricSnapshot.simulation_id s =? simulation_id)
      (metric_snapshots (live db)) in
  firstn (Z.to_nat limit) (skipn (Z.to_nat skip) (order_by_tick query)).

(** ** [crud/memory.py] *)

(** [order_by(desc(created_at)).limit(limit)] *)
Definition get_recent_long_term_memories (db : Session F) (agent_id : uuid)
  (limit : Z) : list (AgentLongTermMemory.t F) :=
  let query :=
    filter (fun m => AgentLongTermMemory.agent_id m =? agent_id)
      (long_term_memories (live db)) in
  firstn (Z.to_nat limit) (rev query).

End MoreCrud.

Arguments EventCreate F : clear implicits.

Section MoreRoutes.
Context {F : Type} `{Float64 F}.

Local Open Scope session_scope.

(** ** [api/simulation_routes.py] *)

Definition create_simulation_endpoint (simulation : SimulationCreate)
  : M F Simulation.t :=
  create_simulation simulation.

Definition read_simulation_endpoint (simulation_id : uuid) : M F Simulation.t :=
  db_simulation <- gets (fun db => get_simulation db simulation_id) ;;
  match db_simulation with
  | None => raise (HTTPException 404 "Simulation not found")
  | Some db_simulation => ret db_simulation
  end.

Definition inject_event_endpoint (simulation_id : uuid) (event_data : EventCreate F)
  : M F (Event.t F) :=
  db_simulation <- gets (fun db => get_simulation db simulation_id) ;;
  match db_simulation with
  | None => raise (HTTPException 404 "Simulation not found")
  | Some _ => create_event event_data simulation_id
  end.

Definition list_events_endpoint (simulation_id : uuid) (status : option string)
  (tick : option Z) (skip limit : Z) : M F (list (Event.t F)) :=
  db_simulation <- gets (fun db => get_simulation db simulation_id) ;;
  match db_simulation with
  | None => raise (HTTPException 404 "Simulation not found")
  | Some _ => gets (fun db => get_events db simulation_id status tick skip limit)
  end.

Definition get_metrics_snapshots_endpoint (simulation_id : uuid) (skip limit : Z)
  : M F (list (MetricSnapshot.t F)) :=
  db_simulation <- gets (fun db => get_simulation db simulation_id) ;;
  match db_simulation with
  | None => raise (HTTPException 404 "Simulation not found")
  | Some _ => gets (fun db => get_metric_snapshots db simulation_id skip limit)
  end.

(** ** [api/agent_routes.py] *)

Definition get_agent_decisions (agent_id : uuid) : M F (list (pyval F)) :=
  db_agent <- gets (fun db => get_agent db agent_id) ;;
  match db_agent with
  | None => raise (HTTPException 404 "Agent not found")
  | Some db_agent =>
      match as_dict (Agent.short_term_memory db_agent) with
      | Some stm =>
          let decisions := match dict_get stm "last_decisions" with
                           | Some v => v
                           | None => PList []
                           end in
          match decisions with
          | PList l => ret l
          | _ => ret []
          end
      | None => ret []
      end
  end.

End MoreRoutes.

(* ================================================================= *)
(** * What a tick writes to *)

Section FrameView.
Context {F : Type} `{Float64 F}.

(** Primary keys of events are unique. *)
Definition unique_event_ids (db : Session F) : Prop :=
  NoDup (map Event.id (events (live db))).

(** The same agent, rewritten only if its key is in [ka]. *)
Definition agent_touched (ka : list uuid) (a a' : Agent.t F) : Prop :=
  Agent.id a' = Agent.id a
  /\ Agent.simulation_id a' = Agent.simulation_id a
  /\ (~ In (Agent.id a) ka -> a' = a).

(** The same event, rewritten only if its key is in [ke]. *)
Definition event_touched (ke : list uuid) (e e' : Event.t F) : Prop :=
  Event.id e' = Event.id e
  /\ Event.simulation_id e' = Event.simulation_id e
  /\ (~ In (Event.id e) ke -> e' = e).

(** What a computation leaves in place that writes to the agents with keys
    in [ka] and the events with keys in [ke], and adds metric snapshots
    that satisfy [ks]. *)
Definition touches (ka ke : list uuid) (ks : MetricSnapshot.t F -> Prop)
  (db db' : Session F) : Prop :=
  simulations (live db') = simulations (live db)
  /\ long_term_memories (live db') = long_term_memories (live db)
  /\ Forall2 (agent_touched ka) (agents (live db)) (agents (live db'))
  /\ Forall2 (event_touched ke) (events (live db)) (events (live db'))
  /\ exists added,
       metric_snapshots (live db') = metric_snapshots (live db) ++ added
       /\ Forall ks added.

(** The keys of the agents of a simulation. *)
Definition agent_ids_of (db : Session F) (simulation_id : uuid) : list uuid :=
  map Agent.id
    (filter (fun a => Agent.simulation_id a =? simulation_id) (agents (live db))).

(** The keys of the events the processor selects at the tick of [simulation]. *)
Definition selected_ids (db : Session F) (simulation : Simulation.t) : list uuid :=
  map Event.id
    (get_events db (Simulation.id simulation) (Some "pending")
       (Some (Simulation.current_tick simulation)) 0 100).

(** A snapshot taken for [simulation] at its tick. *)
Definition snapshot_of (simulation : Simulation.t) (s : MetricSnapshot.t F) : Prop :=
  MetricSnapshot.simulation_id s = Simulation.id simulation
  /\ MetricSnapshot.tick s = Simulation.current_tick simulation.

End FrameView.

(* ================================================================= *)
(** * Events and payments, row by row *)

Section EventView.
Context {F : Type} `{Float64 F}.

(** The body of the loop of [process_events_for_tick]. *)
Definition handle_event (simulation : Simulation.t) (event : Event.t F)
  : M F unit :=
  (update_event_status (Event.id event) "triggered" ;;;
   commit ;;;
   if String.eqb (Event.event_type event) "ubi"
   then apply_ubi_event simulation event
   else (update_event_status (Event.id event) "failed" ;;; commit))%M.

(** The parameters of a UBI event can be unpacked. *)
Definition unpackable (e : Event.t F) : Prop :=
  Event.event_type e = "ubi" -> exists d, Event.parameters e = PDict d.

(** The status the event processor leaves a selected event with: a UBI
    event with valid parameters is processed; one with invalid parameters
    and an event of another type fail; a UBI event whose parameters cannot
    be unpacked stops the processor after it was triggered. *)
Definition final_status (e : Event.t F) : string :=
  if String.eqb (Event.event_type e) "ubi"
  then match UBIEventParams_init (Event.parameters e) with
       | Ok _ => "processed"
       | Raise ValidationError | Raise KeyError => "failed"
       | Raise _ => "triggered"
       end
  else "failed".

(** The row [r] once the event [e] was handled, now [r']: the final
    status, the time it was triggered, and nothing else changed. *)
Definition handled_as (e r r' : Event.t F) : Prop :=
  Event.id r' = Event.id r
  /\ Event.simulation_id r' = Event.simulation_id r
  /\ Event.event_type r' = Event.event_type r
  /\ Event.description r' = Event.description r
  /\ Event.parameters r' = Event.parameters r
  /\ Event.target_tick r' = Event.target_tick r
  /\ Event.status r' = final_status e
  /\ Event.triggered_at r' <> None.

(** The row of an agent after a payment of [amount]: the income, [0.0]
    when there is none, is raised by the amount; a row whose demographics
    are not a dict or whose income is not a number is left as it is. *)
Definition paid (amount : F) (a : Agent.t F) : Agent.t F :=
  match as_dict (Agent.demographics a) with
  | Some demographics =>
      match py_add_float match dict_get demographics "income" with
                         | Some v => v
                         | None => PFloat fzero
                         end amount with
      | Ok income =>
          Agent.set_demographics (PDict (dict_set demographics "income" income)) a
      | Raise _ => a
      end
  | None => a
  end.

(** The sessions reached by tick advances, for any simulation and oracle. *)
Inductive ticked : Session F -> Session F -> Prop :=
| ticked_now (db : Session F) : ticked db db
| ticked_advance (env : LLMEnv F) (simulation_id : uuid) (db db' : Session F) :
    ticked (snd (advance_tick_endpoint env simulation_id db)) db' ->
    ticked db db'.

(** [n] tick advances of one simulation. *)
Fixpoint advance_ticks (n : nat) (env : LLMEnv F) (simulation_id : uuid)
  (db : Session F) : Session F :=
  match n with
  | O => db
  | S n' =>
      advance_ticks n' env simulation_id
        (snd (advance_tick_endpoint env simulation_id db))
  end.

End EventView.

(* ================================================================= *)
(** * A store with two simulations *)

(** A second simulation, at tick 3. *)
Definition other_simulation : Simulation.t :=
  Simulation.mk 2 (Some "Control") None 3 "stopped".

(** An agent of the second simulation. *)
Definition other_agent {F} `{Float64 F} : Agent.t F :=
  Agent.mk 20 2 None
    (PDict [("age", PInt 41); ("income", PFloat (f_of_Z 70)); ("household_size", PInt 1)])
    (PDict [("conformity", PFloat fhalf)])
    (PDict [("political_ideology_vector", PList [PFloat fhalf; PFloat fzero])])
    (PDict empty_short_term_memory).

(** An event as the run script posts it: another type name, no parameters
    and no target tick. *)
Definition script_event {F} : Event.t F :=
  Event.mk 9 1 "ubi_distribution"
    (Some "A one-time UBI payment to all agents at the start.") (PDict []) None
    "pending" None.

(** An event of the second simulation, due at tick 0, which that
    simulation has passed. *)
Definition late_event {F} : Event.t F :=
  Event.mk 8 2 "ubi" None (PDict [("amount_per_agent", PInt 5)]) (Some 0)
    "pending" None.

(** The two simulations with their agents, and three events: a UBI event
    of 100 due now in the first simulation, the script's event, and the
    late event of the second simulation. *)
Definition two_simulations {F} `{Float64 F} : Session F :=
  let t := mkTables [scenario_simulation; other_simulation]
             (scenario_agents ++ [other_agent])
             [ubi_event 100 "pending"; script_event; late_event] [] [] in
  mkSession t t 1 1000 0.

(* ================================================================= *)
(** * New rows, as the routes store them *)

Section NewRows.
Context {F : Type} `{Float64 F}.

(** The row [create_event] builds from a request: the fields of the
    request, the simulation of the route and a new key; the event has not
    been triggered. *)
Definition new_event_row (new_id simulation_id : uuid) (event : EventCreate F)
  : Event.t F :=
  Event.mk new_id simulation_id (new_event_type event) (new_description event)
    (PDict (new_parameters event)) (new_target_tick event) (new_status event)
    None.

(** The key the next new row gets is the key of no row of the table. *)
Definition fresh_key {A} (key : A -> uuid) (rows : list A) (db : Session F)
  : Prop :=
  forall r, In r rows -> key r <> uuid_seq db.

(** Snapshots in the order of their ticks. *)
Definition by_tick (a b : MetricSnapshot.t F) : Prop :=
  MetricSnapshot.tick a <= MetricSnapshot.tick b.

(** What a tick of [simulation] leaves of the decision log of the agent
    [a], now [a']: one more entry, stamped with the tick, for an agent the
    pipeline fetches; the same log for any other agent. *)
Definition decision_logged (simulation : Simulation.t) (db : Session F)
  (a a' : Agent.t F) : Prop :=
  Agent.id a' = Agent.id a
  /\ if is_processed db simulation a
     then exists decision : LLMDecision F,
            last_decisions a'
            = last_decisions a
              ++ [decision_entry (Simulation.current_tick simulation) decision]
     else last_decisions a' = last_decisions a.

(** What the handling of the selected event [e] leaves of the row of an
    agent the processor fetches: a UBI event with valid parameters pays its
    amount, any other event pays nothing. *)
Definition payment_of (e : Event.t F) (a : Agent.t F) : Agent.t F :=
  if String.eqb (Event.event_type e) "ubi"
  then match UBIEventParams_init (Event.parameters e) with
       | Ok params => paid (amount_per_agent params) a
       | Raise _ => a
       end
  else a.

(** The payments of the events of a list, one after the other. *)
Definition payments (l : list (Event.t F)) (a : Agent.t F) : Agent.t F :=
  fold_left (fun r e => payment_of e r) l a.

(** [agent.demographics[key]], if there is such an entry. *)
Definition demographic_entry (a : Agent.t F) (key : string) : option (pyval F) :=
  match as_dict (Agent.demographics a) with
  | Some d => dict_get d key
  | None => None
  end.

(** What a tick leaves in place of the agent [a], now [a']: its keys, its
    archetype and its traits, every demographic entry but the income and
    every belief but the sentiment. *)
Definition profile_kept (a a' : Agent.t F) : Prop :=
  Agent.id a' = Agent.id a
  /\ Agent.simulation_id a' = Agent.simulation_id a
  /\ Agent.archetype a' = Agent.archetype a
  /\ Agent.behavioral_traits a' = Agent.behavioral_traits a
  /\ (forall key, key <> "income" ->
        demographic_entry a' key = demographic_entry a key)
  /\ (forall key, key <> "sentiment" -> belief_entry a' key = belief_entry a key).

(** The decisions a short-term memory holds: [stm["last_decisions"]], or
    nothing when the value is not of that shape. *)
Definition logged_decisions (stm : pyval F) : list (pyval F) :=
  match as_dict stm with
  | Some d => match dict_get d "last_decisions" with
              | Some (PList l) => l
              | _ => []
              end
  | None => []
  end.

End NewRows.

(* ================================================================= *)
(** * Requests *)

(** The body the run script posts to the events route: a type the event
    processor has no handler for, and keys the schema does not know. *)
Definition script_payload {F} : pyval F :=
  PDict [("event_type", PStr "ubi_distribution");
         ("name", PStr "Initial UBI Distribution");
         ("description", PStr "A one-time UBI payment to all agents at the start.");
         ("data", PDict [("amount", PInt 1000)])].

(** A UBI payment of 25, due at tick 0. *)
Definition top_up_request {F} : EventCreate F :=
  mkEventCreate "ubi" (Some "top-up") [("amount_per_agent", PInt 25)] (Some 0)
    "pending".

(** A request that asks for a simulation that is already running at tick 7. *)
Definition running_request : SimulationCreate :=
  mkSimulationCreate (Some "Pilot") None 7 "running" (Some 50).

(** The store with two simulations once the top-up was injected into the
    first: two UBI events, of 100 and of 25, are due at tick 0. *)
Definition topped_up {F} `{Float64 F} : Session F :=
  snd (inject_event_endpoint 1 top_up_request two_simulations).

(* ================================================================= *)
(** * Seeding ([services/seeding_service.py])

    The sources of randomness are part of the state: [random.gauss(mu,
    sigma)] is [mu + z * sigma] for the next standard normal deviate [z],
    [random.random()] the next number drawn from the unit interval and
    [random.randint] the next integer drawn.  The deviates and numbers
    drawn are arbitrary: what a property needs of them is stated with it. *)

(** [int(x)] for a float: the integer part, [OverflowError] for an
    infinity and [ValueError] for a NaN. *)
Class FloatInt (F : Type) : Type := {
  f_trunc : F -> result Z
}.

#[export] Instance Q_FloatInt : FloatInt Q := {
  f_trunc := fun q => Ok (Z.quot (Qnum q) (Z.pos (Qden q)))
}.

#[export] Instance Binary64_FloatInt : FloatInt float := {
  f_trunc := fun x =>
    match Prim2SF x with
    | S754_zero _ => Ok 0
    | S754_infinity _ => Raise OverflowError
    | S754_nan => Raise (ValueError "cannot convert float NaN to integer")
    | S754_finite s m e =>
        let magnitude :=
          if 0 <=? e then Z.pos m * 2 ^ e else Z.pos m / 2 ^ (- e) in
        Ok (if s then - magnitude else magnitude)
    end
}.

(** ** [schemas/seeding.py] *)

Module DemographicDistribution.
Record t {F : Type} : Type := mk {
  age_mean : F;
  age_stddev : F;
  income_mean : F;
  income_stddev : F
}.
Arguments t F : clear implicits.
Arguments mk {F}.
End DemographicDistribution.

Module TraitDistribution.
Record t {F : Type} : Type := mk {
  conformity_mean : F;
  conformity_stddev : F;
  risk_aversion_mean : F;
  risk_aversion_stddev : F
}.
Arguments t F : clear implicits.
Arguments mk {F}.
End TraitDistribution.

Module BeliefDistribution.
Record t {F : Type} : Type := mk {
  economic_optimism_mean : F;
  economic_optimism_stddev : F
}.
Arguments t F : clear implicits.
Arguments mk {F}.
End BeliefDistribution.

Module SeedingConfig.
Record t {F : Type} : Type := mk {
  population_size : Z;
  demographics : DemographicDistribution.t F;
  traits : TraitDistribution.t F;
  beliefs : BeliefDistribution.t F
}.
Arguments t F : clear implicits.
Arguments mk {F}.
End SeedingConfig.

(** ** [schemas/agent.py] *)

Module AgentDemographics.
Record t {F : Type} : Type := mk {
  age : Z;
  income : F;
  education_level : option string;
  location : option string;
  household_size : Z
}.
Arguments t F : clear implicits.
Arguments mk {F}.
End AgentDemographics.

Module AgentBehavioralTraits.
Record t {F : Type} : Type := mk {
  conformity : F;
  risk_aversion : F;
  empathy : F;
  social_susceptibility : F;
  consumption_preference : F
}.
Arguments t F : clear implicits.
Arguments mk {F}.
End AgentBehavioralTraits.

Module AgentBeliefs.
Record t {F : Type} : Type := mk {
  political_ideology_vector : list F;
  economic_optimism : F;
  institutional_trust : F;
  policy_support_index : list (string * F)
}.
Arguments t F : clear implicits.
Arguments mk {F}.
End AgentBeliefs.

Module AgentCreate.
Record t {F : Type} : Type := mk {
  archetype : option string;
  demographics : AgentDemographics.t F;
  behavioral_traits : AgentBehavioralTraits.t F;
  beliefs : AgentBeliefs.t F
}.
Arguments t F : clear implicits.
Arguments mk {F}.
End AgentCreate.

(** ** [models/agent.py]: the table of connections *)

Module AgentConnection.
Record t {F : Type} : Type := mk {
  id : Z;
  source_agent_id : uuid;
  target_agent_id : uuid;
  influence_factor : F;
  relationship_type : option string
}.
Arguments t F : clear implicits.
Arguments mk {F}.
End AgentConnection.

Section SeedingModel.
Context {F : Type} `{Float64 F} `{FloatInt F}.

(** [1.0] *)
Definition fone : F := f_of_Z 1.

(** [Field(..., ge=0, le=1)] on a float that is given as a float *)
Definition in_unit_interval (x : F) : bool := fleb fzero x && fleb x fone.

(** The models are validated when they are built. *)
Definition AgentDemographics_init (age : Z) (income : F) (household_size : Z)
  : result (AgentDemographics.t F) :=
  if (0 <=? age) && fleb fzero income && (1 <=? household_size)
  then Ok (AgentDemographics.mk age income None None household_size)
  else Raise ValidationError.

Definition AgentBehavioralTraits_init
  (conformity risk_aversion empathy social_susceptibility consumption_preference : F)
  : result (AgentBehavioralTraits.t F) :=
  if in_unit_interval conformity && in_unit_interval risk_aversion
     && in_unit_interval empathy && in_unit_interval social_susceptibility
     && in_unit_interval consumption_preference
  then Ok (AgentBehavioralTraits.mk conformity risk_aversion empathy
             social_susceptibility consumption_preference)
  else Raise ValidationError.

Definition AgentBeliefs_init (political_ideology_vector : list F)
  (economic_optimism institutional_trust : F)
  (policy_support_index : list (string * F)) : result (AgentBeliefs.t F) :=
  if in_unit_interval economic_optimism && in_unit_interval institutional_trust
  then Ok (AgentBeliefs.mk political_ideology_vector economic_optimism
             institutional_trust policy_support_index)
  else Raise ValidationError.

(** [model_dump()] *)
Definition AgentDemographics_model_dump (d : AgentDemographics.t F) : pyval F :=
  PDict [("age", PInt (AgentDemographics.age d));
         ("income", PFloat (AgentDemographics.income d));
         ("education_level", py_optional PStr (AgentDemographics.education_level d));
         ("location", py_optional PStr (AgentDemographics.location d));
         ("household_size", PInt (AgentDemographics.household_size d))].

Definition AgentBehavioralTraits_model_dump (t : AgentBehavioralTraits.t F)
  : pyval F :=
  PDict [("conformity", PFloat (AgentBehavioralTraits.conformity t));
         ("risk_aversion", PFloat (AgentBehavioralTraits.risk_aversion t));
         ("empathy", PFloat (AgentBehavioralTraits.empathy t));
         ("social_susceptibility",
           PFloat (AgentBehavioralTraits.social_susceptibility t));
         ("consumption_preference",
           PFloat (AgentBehavioralTraits.consumption_preference t))].

Definition AgentBeliefs_model_dump (b : AgentBeliefs.t F) : pyval F :=
  PDict [("political_ideology_vector",
           PList (map PFloat (AgentBeliefs.political_ideology_vector b)));
         ("economic_optimism", PFloat (AgentBeliefs.economic_optimism b));
         ("institutional_trust", PFloat (AgentBeliefs.institutional_trust b));
         ("policy_support_index",
           PDict (map (fun kv => (fst kv, PFloat (snd kv)))
                    (AgentBeliefs.policy_support_index b)))].

(** ** The state of a seeding run *)

(** The module [random]: what it will draw, and how much was drawn. *)
Record Rng : Type := mkRng {
  normal_draws : nat -> F;
  uniform_draws : nat -> F;
  integer_draws : nat -> Z;
  normal_pos : nat;
  uniform_pos : nat;
  integer_pos : nat
}.

(** The session with the table of connections, and the module [random]. *)
Record SeedStore : Type := mkSeedStore {
  session : Session F;
  agent_connections : list (AgentConnection.t F);
  durable_agent_connections : list (AgentConnection.t F);
  connection_seq : Z;
  rng : Rng
}.

Definition Seed (A : Type) : Type := SeedStore -> result A * SeedStore.

Definition sret {A} (a : A) : Seed A := fun s => (Ok a, s).

Definition sbind {A B} (m : Seed A) (k : A -> Seed B) : Seed B :=
  fun s =>
    match m s with
    | (Ok a, s') => k a s'
    | (Raise e, s') => (Raise e, s')
    end.

Definition sraise {A} (e : exn) : Seed A := fun s => (Raise e, s).

(** [try: m except Exception as e: handler e] *)
Definition stry {A} (m : Seed A) (handler : exn -> Seed A) : Seed A :=
  fun s =>
    match m s with
    | (Ok a, s') => (Ok a, s')
    | (Raise e, s') => handler e s'
    end.

Definition slift {A} (r : result A) : Seed A := fun s => (r, s).

(** A computation of the session. *)
Definition in_session {A} (m : M F A) : Seed A :=
  fun s =>
    let (r, db') := m (session s) in
    (r, mkSeedStore db' (agent_connections s) (durable_agent_connections s)
          (connection_seq s) (rng s)).

(** [db.commit()] and [db.rollback()], which reach every table. *)
Definition seed_commit : Seed unit :=
  fun s =>
    (Ok tt, mkSeedStore (snd (commit (session s))) (agent_connections s)
              (agent_connections s) (connection_seq s) (rng s)).

Definition seed_rollback : Seed unit :=
  fun s =>
    (Ok tt, mkSeedStore (snd (rollback (session s))) (durable_agent_connections s)
              (durable_agent_connections s) (connection_seq s) (rng s)).

Definition with_rng {A} (f : Rng -> A * Rng) : Seed A :=
  fun s =>
    let (a, g) := f (rng s) in
    (Ok a, mkSeedStore (session s) (agent_connections s)
             (durable_agent_connections s) (connection_seq s) g).

(** [random.gauss(mu, sigma)] *)
Definition random_gauss (mu sigma : F) : Seed F :=
  with_rng (fun g =>
    (fadd mu (fmul (normal_draws g (normal_pos g)) sigma),
     mkRng (normal_draws g) (uniform_draws g) (integer_draws g)
       (S (normal_pos g)) (uniform_pos g) (integer_pos g))).

(** [random.random()] *)
Definition random_random : Seed F :=
  with_rng (fun g =>
    (uniform_draws g (uniform_pos g),
     mkRng (normal_draws g) (uniform_draws g) (integer_draws g)
       (normal_pos g) (S (uniform_pos g)) (integer_pos g))).

(** [random.randint(a, b)]: the next integer drawn, which the module takes
    between [a] and [b]. *)
Definition random_randint (a b : Z) : Seed Z :=
  with_rng (fun g =>
    (integer_draws g (integer_pos g),
     mkRng (normal_draws g) (uniform_draws g) (integer_draws g)
       (normal_pos g) (uniform_pos g) (S (integer_pos g)))).

(** [random.uniform(a, b)], which is [a + (b - a) * random()] *)
Definition random_uniform (a b : F) : Seed F :=
  sbind random_random (fun u => sret (fadd a (fmul (fsub b a) u))).

(** [for x in xs: body x], stopping at the first exception. *)
Fixpoint sfor {A} (xs : list A) (body : A -> Seed unit) : Seed unit :=
  match xs with
  | [] => sret tt
  | x :: xs' => sbind (body x) (fun _ => sfor xs' body)
  end.

End SeedingModel.

Arguments Rng F : clear implicits.
Arguments SeedStore F : clear implicits.
Arguments Seed F A : clear implicits.

Declare Scope seed_scope.
Delimit Scope seed_scope with seed.
Notation "x <- m ;; k" := (sbind m (fun x => k))
  (at level 61, m at next level, right associativity) : seed_scope.
Notation "m ;;; k" := (sbind m (fun _ => k))
  (at level 61, right associativity) : seed_scope.

Section SeedingService.
Context {F : Type} `{Float64 F} `{FloatInt F}.

Local Open Scope seed_scope.

(** [min(a, b)] and [max(a, b)] of two floats: the first argument, unless
    the second is smaller (larger). *)
Definition py_min (a b : F) : F := if fltb b a then b else a.
Definition py_max (a b : F) : F := if fltb a b then b else a.

Definition _generate_value (mean stddev min_val max_val : F) : Seed F F :=
  value <- random_gauss mean stddev ;;
  sret (py_max min_val (py_min max_val value)).

(** [0.2], [0.3], [0.05], [0.1] and [0.9] *)
Definition f0_2 : F := f_of_decimal false 2 (-1).
Definition f0_3 : F := f_of_decimal false 3 (-1).
Definition f0_05 : F := f_of_decimal false 5 (-2).
Definition f0_1 : F := f_of_decimal false 1 (-1).
Definition f0_9 : F := f_of_decimal false 9 (-1).

(** [[random.random() for _ in range(n)]] *)
Fixpoint random_vector (n : nat) : Seed F (list F) :=
  match n with
  | O => sret []
  | S n' => x <- random_random ;; xs <- random_vector n' ;; sret (x :: xs)
  end.

Definition _generate_agent_data (config : SeedingConfig.t F)
  : Seed F (AgentCreate.t F) :=
  let d := SeedingConfig.demographics config in
  let t := SeedingConfig.traits config in
  let b := SeedingConfig.beliefs config in
  age_draw <- random_gauss (DemographicDistribution.age_mean d)
                (DemographicDistribution.age_stddev d) ;;
  (** [int(max(0, x))]: the int [0] unless [x > 0] *)
  age <- slift (if fltb fzero age_draw then f_trunc age_draw else Ok 0) ;;
  income_draw <- random_gauss (DemographicDistribution.income_mean d)
                   (DemographicDistribution.income_stddev d) ;;
  let income := py_max fzero income_draw in
  household_size <- random_randint 1 5 ;;
  demographics <- slift (AgentDemographics_init age income household_size) ;;
  conformity <- _generate_value (TraitDistribution.conformity_mean t)
                  (TraitDistribution.conformity_stddev t) fzero fone ;;
  risk_aversion <- _generate_value (TraitDistribution.risk_aversion_mean t)
                     (TraitDistribution.risk_aversion_stddev t) fzero fone ;;
  empathy <- _generate_value fhalf f0_2 fzero fone ;;
  social_susceptibility <- _generate_value fhalf f0_2 fzero fone ;;
  consumption_preference <- _generate_value fhalf f0_3 fzero fone ;;
  traits <- slift (AgentBehavioralTraits_init conformity risk_aversion empathy
                     social_susceptibility consumption_preference) ;;
  economic_optimism <- _generate_value (BeliefDistribution.economic_optimism_mean b)
                         (BeliefDistribution.economic_optimism_stddev b)
                         fzero fone ;;
  political_ideology_vector <- random_vector 5 ;;
  institutional_trust <- _generate_value fhalf f0_2 fzero fone ;;
  beliefs <- slift (AgentBeliefs_init political_ideology_vector economic_optimism
                      institutional_trust []) ;;
  sret (AgentCreate.mk None demographics traits beliefs).

(** ** [crud/agent_connection.py] *)

(** The connection is added to the session; the caller commits. *)
Definition create_agent_connection (source_agent_id target_agent_id : uuid)
  (influence_factor : F) (relationship_type : option string)
  : Seed F (AgentConnection.t F) :=
  fun s =>
    let db_connection :=
      AgentConnection.mk (connection_seq s) source_agent_id target_agent_id
        influence_factor relationship_type in
    (Ok db_connection,
     mkSeedStore (session s) (agent_connections s ++ [db_connection])
       (durable_agent_connections s) (connection_seq s + 1) (rng s)).

(** ** [services/seeding_service.py] *)

Definition _create_random_connections (agents : list (Agent.t F))
  (connection_probability : F) : Seed F unit :=
  if (List.length agents <? 2)%nat then sret tt
  else
    let agent_ids := map Agent.id agents in
    sfor agents (fun source_agent =>
      sfor agent_ids (fun target_agent_id =>
        if Agent.id source_agent =? target_agent_id then sret tt
        else
          u <- random_random ;;
          if fltb u connection_probability
          then stry
                 (influence_factor <- random_uniform f0_1 f0_9 ;;
                  create_agent_connection (Agent.id source_agent) target_agent_id
                    influence_factor (Some "random") ;;;
                  sret tt)
                 (fun _ => seed_rollback)
          else sret tt)) ;;;
    stry seed_commit (fun _ => seed_rollback).

(** The row built for a generated agent; its short-term memory is the
    default of the column. *)
Definition seeded_agent (new_id : uuid) (simulation : Simulation.t)
  (agent_data : AgentCreate.t F) : Agent.t F :=
  Agent.mk new_id (Simulation.id simulation) (AgentCreate.archetype agent_data)
    (AgentDemographics_model_dump (AgentCreate.demographics agent_data))
    (AgentBehavioralTraits_model_dump (AgentCreate.behavioral_traits agent_data))
    (AgentBeliefs_model_dump (AgentCreate.beliefs agent_data))
    (PDict empty_short_term_memory).

(** The body of the loop for index [i]: it returns the list of the models
    created so far, with the new one. *)
Definition seed_agent (simulation : Simulation.t) (config : SeedingConfig.t F)
  (created_agent_models : list (Agent.t F)) (i : Z)
  : Seed F (list (Agent.t F)) :=
  stry
    (agent_data <- _generate_agent_data config ;;
     new_id <- in_session uuid4 ;;
     let db_agent_model := seeded_agent new_id simulation agent_data in
     in_session (modify_live (fun t => set_agents (agents t ++ [db_agent_model]) t)) ;;;
     let created_agent_models := created_agent_models ++ [db_agent_model] in
     (if (i mod 100 =? 0) || (i =? SeedingConfig.population_size config - 1)
      then stry seed_commit (fun e => seed_rollback ;;; sraise e)
      else sret tt) ;;;
     sret created_agent_models)
    (fun e => seed_rollback ;;; sraise e).

(** [for i in range(...)], the list of created models threaded through. *)
Fixpoint seed_agents (simulation : Simulation.t) (config : SeedingConfig.t F)
  (indices : list Z) (created_agent_models : list (Agent.t F))
  : Seed F (list (Agent.t F)) :=
  match indices with
  | [] => sret created_agent_models
  | i :: indices' =>
      created_agent_models <- seed_agent simulation config created_agent_models i ;;
      seed_agents simulation config indices' created_agent_models
  end.

(** [range(n)] *)
Definition py_range (n : Z) : list Z := map Z.of_nat (seq 0 (Z.to_nat n)).

Definition seed_simulation_agents (simulation : Simulation.t)
  (config : SeedingConfig.t F) : Seed F unit :=
  created_agent_models <-
    seed_agents simulation config (py_range (SeedingConfig.population_size config)) [] ;;
  match created_agent_models with
  | [] => sret tt
  | _ => _create_random_connections created_agent_models f0_05
  end.

End SeedingService.

(* ================================================================= *)
(** * Seeding, described *)

(** What the seeding code relies on of the floats: a float below another
    is at most the other, [0.0] and [1.0] are ordered, and the integer part
    of a float above [0.0] is not negative. *)
Class FloatOrder (F : Type) `{Float64 F} `{FloatInt F} : Prop := {
  fltb_fleb : forall a b : F, fltb a b = true -> fleb a b = true;
  fleb_zero_zero : fleb (F:=F) fzero fzero = true;
  fleb_zero_one : fleb (F:=F) fzero fone = true;
  fleb_one_one : fleb (F:=F) fone fone = true;
  f_trunc_positive :
    forall (x : F) (n : Z), fltb fzero x = true -> f_trunc x = Ok n -> 0 <= n
}.

Section SeedingView.
Context {F : Type} `{Float64 F} `{FloatInt F}.

(** Every bound of the agent schemas holds of the generated data. *)
Definition valid_agent_data (a : AgentCreate.t F) : Prop :=
  let d := AgentCreate.demographics a in
  let t := AgentCreate.behavioral_traits a in
  let b := AgentCreate.beliefs a in
  AgentCreate.archetype a = None
  /\ 0 <= AgentDemographics.age d
  /\ fleb fzero (AgentDemographics.income d) = true
  /\ 1 <= AgentDemographics.household_size d <= 5
  /\ in_unit_interval (AgentBehavioralTraits.conformity t) = true
  /\ in_unit_interval (AgentBehavioralTraits.risk_aversion t) = true
  /\ in_unit_interval (AgentBehavioralTraits.empathy t) = true
  /\ in_unit_interval (AgentBehavioralTraits.social_susceptibility t) = true
  /\ in_unit_interval (AgentBehavioralTraits.consumption_preference t) = true
  /\ List.length (AgentBeliefs.political_ideology_vector b) = 5%nat
  /\ in_unit_interval (AgentBeliefs.economic_optimism b) = true
  /\ in_unit_interval (AgentBeliefs.institutional_trust b) = true
  /\ AgentBeliefs.policy_support_index b = [].

(** A step that draws from the module [random] and does nothing else: the
    session and the connections are the same, and so is what the module
    will draw at each position. *)
Definition drawn (s s' : SeedStore F) : Prop :=
  session s' = session s
  /\ agent_connections s' = agent_connections s
  /\ durable_agent_connections s' = durable_agent_connections s
  /\ connection_seq s' = connection_seq s
  /\ normal_draws (rng s') = normal_draws (rng s)
  /\ uniform_draws (rng s') = uniform_draws (rng s)
  /\ integer_draws (rng s') = integer_draws (rng s).

(** The age [random.gauss] gives from the deviate at position [k]. *)
Definition age_draw (config : SeedingConfig.t F) (s : SeedStore F) (k : nat) : F :=
  fadd (DemographicDistribution.age_mean (SeedingConfig.demographics config))
    (fmul (normal_draws (rng s) k)
       (DemographicDistribution.age_stddev (SeedingConfig.demographics config))).

(** [random.randint(1, 5)] keeps to its bounds, at every position. *)
Definition integers_in_range (s : SeedStore F) : Prop :=
  forall k, 1 <= integer_draws (rng s) k <= 5.

(** [int()] succeeds on every age the deviates give. *)
Definition ages_convert (config : SeedingConfig.t F) (s : SeedStore F) : Prop :=
  forall k, fltb fzero (age_draw config s k) = true ->
            exists n, f_trunc (age_draw config s k) = Ok n.

(** A row made by the seeding of [simulation]: generated data within the
    bounds of the schemas, and an empty short-term memory. *)
Definition seeded_row (simulation : Simulation.t) (a : Agent.t F) : Prop :=
  exists agent_data,
    valid_agent_data agent_data
    /\ a = seeded_agent (Agent.id a) simulation agent_data.

(** A connection made by the seeding between two of the agents with the
    keys [ids]. *)
Definition seeded_connection (ids : list uuid) (c : AgentConnection.t F) : Prop :=
  In (AgentConnection.source_agent_id c) ids
  /\ In (AgentConnection.target_agent_id c) ids
  /\ AgentConnection.source_agent_id c <> AgentConnection.target_agent_id c
  /\ AgentConnection.relationship_type c = Some "random".

(** The module [random] will draw the same at each position. *)
Definition same_draws (s s' : SeedStore F) : Prop :=
  normal_draws (rng s') = normal_draws (rng s)
  /\ uniform_draws (rng s') = uniform_draws (rng s)
  /\ integer_draws (rng s') = integer_draws (rng s).

(** A step that adds connections which satisfy [P] to the session, and
    leaves the rest of the session as it is. *)
Definition connects (P : AgentConnection.t F -> Prop) (s s' : SeedStore F) : Prop :=
  session s' = session s
  /\ durable_agent_connections s' = durable_agent_connections s
  /\ exists added,
       agent_connections s' = agent_connections s ++ added /\ Forall P added.

(** The commit of the batch is due at index [i]. *)
Definition commit_due (config : SeedingConfig.t F) (i : Z) : bool :=
  (i mod 100 =? 0) || (i =? SeedingConfig.population_size config - 1).

(** The keys the next [n] new rows get. *)
Definition next_keys (db : Session F) (n : nat) : list uuid :=
  map (fun k => uuid_seq db + Z.of_nat k) (seq 0 n).

End SeedingView.

(* ================================================================= *)
(** * A seeding run *)

(** The configuration a request gives when it names the population only:
    the defaults of [schemas/seeding.py]. *)
Definition default_seeding_config {F} `{Float64 F} (population_size : Z)
  : SeedingConfig.t F :=
  SeedingConfig.mk population_size
    (DemographicDistribution.mk (f_of_Z 35) (f_of_Z 10) (f_of_Z 50000) (f_of_Z 15000))
    (TraitDistribution.mk fhalf f0_2 fhalf f0_2)
    (BeliefDistribution.mk fhalf f0_2).

(** A module [random] that draws the deviate 0, the number 0.01 and the
    integer 3 every time. *)
Definition steady_rng {F} `{Float64 F} : Rng F :=
  mkRng (fun _ => fzero) (fun _ => f_of_decimal false 1 (-2)) (fun _ => 3)
    0 0 0.

(** A store with the simulation of the scenario and nothing else. *)
Definition unseeded_store {F} `{Float64 F} : SeedStore F :=
  let t := mkTables [scenario_simulation] [] [] [] [] in
  mkSeedStore (mkSession t t 1 1000 0) [] [] 1 steady_rng.

(* ================================================================= *)
(** * Properties *)

(** ** Long-term memory writes ([crud/memory.py]) *)

Section MemoryProperties.
Context {F : Type} `{Float64 F}.

(** C9.  A long-term memory whose embedding has exactly [EMBEDDING_DIM]
    entries is written: the call returns the new row, the row is appended
    to the table and committed.  An embedding of any other length raises
    [ValueError] before anything is added: the session, live and durable,
    is the one the call started with. *)
Theorem add_long_term_memory_dimension
  (db : Session F) (agent_id simulation_id : uuid) (memory_text : string)
  (memory_embedding : list F) (importance : option Z) :
  (List.length memory_embedding = EMBEDDING_DIM ->
   exists row db',
     add_long_term_memory agent_id simulation_id memory_text memory_embedding
       importance db = (Ok row, db')
     /\ row = AgentLongTermMemory.mk (memory_seq db) agent_id simulation_id
                memory_text memory_embedding importance
     /\ long_term_memories (live db') = long_term_memories (live db) ++ [row]
     /\ durable db' = live db')
  /\
  (List.length memory_embedding <> EMBEDDING_DIM ->
   exists msg,
     add_long_term_memory agent_id simulation_id memory_text memory_embedding
       importance db = (Raise (ValueError msg), db)).
Proof.
  unfold add_long_term_memory. split; intro Hlen.
  - apply Nat.eqb_eq in Hlen. rewrite Hlen. cbn.
    eexists. eexists. repeat split.
  - apply Nat.eqb_neq in Hlen. rewrite Hlen. cbn.
    eexists. reflexivity.
Qed.

End MemoryProperties.

(** C9 at work: a vector of 768 zeros is stored, a vector of 3 is refused. *)
Lemma add_long_term_memory_dimension_witness :
  (exists row db',
     add_long_term_memory (F:=Q) 7 1 "Tick 0: Action=observe" (repeat 0%Q 768) None
       empty_session = (Ok row, db')
     /\ long_term_memories (live db') = [row])
  /\
  (exists msg,
     add_long_term_memory (F:=Q) 7 1 "Tick 0: Action=observe" [0%Q; 0%Q; 0%Q] None
       empty_session = (Raise (ValueError msg), empty_session)).
Proof.
  pose proof (add_long_term_memory_dimension (F:=Q) empty_session 7 1
                "Tick 0: Action=observe" (repeat 0%Q 768) None) as [Hok _].
  pose proof (add_long_term_memory_dimension (F:=Q) empty_session 7 1
                "Tick 0: Action=observe" [0%Q; 0%Q; 0%Q] None) as [_ Hbad].
  split.
  - destruct (Hok (repeat_length 0%Q 768)) as (row & db' & Hrun & _ & Hrows & _).
    exists row, db'. split; [exact Hrun | exact Hrows].
  - apply Hbad. vm_compute. discriminate.
Defined.

(** ** The UBI handler on the scenario ([services/event_service.py]) *)

(** C4.  In binary64 arithmetic: a UBI event with [amount_per_agent = 100]
    applied to agents with incomes [0, 50, 200] leaves them with incomes
    [100, 150, 300] and the event [processed], committed; with
    [amount_per_agent = -5] the parameters fail validation, no agent row
    changes and the event is [failed].  Both hold for [apply_ubi_event]
    called on the triggered event and for [process_events_for_tick] run on
    the pending event at its tick. *)
Theorem ubi_event_scenario :
  (exists db',
     apply_ubi_event (F:=float) scenario_simulation (ubi_event 100 "triggered")
       (ubi_session 100 "triggered") = (Ok tt, db')
     /\ incomes_of db' = [Some (PFloat 100%float); Some (PFloat 150%float);
                          Some (PFloat 300%float)]
     /\ event_statuses db' = ["processed"]
     /\ durable db' = live db')
  /\
  (UBIEventParams_init (F:=float) (Event.parameters (ubi_event (-5) "triggered"))
     = Raise ValidationError
   /\ exists db',
     apply_ubi_event (F:=float) scenario_simulation (ubi_event (-5) "triggered")
       (ubi_session (-5) "triggered") = (Ok tt, db')
     /\ agents (live db') = scenario_agents
     /\ incomes_of db' = [Some (PFloat 0%float); Some (PFloat 50%float);
                          Some (PFloat 200%float)]
     /\ event_statuses db' = ["failed"])
  /\
  (exists db',
     process_events_for_tick (F:=float) scenario_simulation
       (ubi_session 100 "pending") = (Ok tt, db')
     /\ incomes_of db' = [Some (PFloat 100%float); Some (PFloat 150%float);
                          Some (PFloat 300%float)]
     /\ event_statuses db' = ["processed"])
  /\
  (exists db',
     process_events_for_tick (F:=float) scenario_simulation
       (ubi_session (-5) "pending") = (Ok tt, db')
     /\ agents (live db') = scenario_agents
     /\ event_statuses db' = ["failed"]).
Proof.
  split; [|split; [split|split]].
  - exists (snd (apply_ubi_event (F:=float) scenario_simulation
                   (ubi_event 100 "triggered") (ubi_session 100 "triggered"))).
    vm_compute. repeat split.
  - vm_compute. reflexivity.
  - exists (snd (apply_ubi_event (F:=float) scenario_simulation
                   (ubi_event (-5) "triggered") (ubi_session (-5) "triggered"))).
    vm_compute. repeat split.
  - exists (snd (process_events_for_tick (F:=float) scenario_simulation
                   (ubi_session 100 "pending"))).
    vm_compute. repeat split.
  - exists (snd (process_events_for_tick (F:=float) scenario_simulation
                   (ubi_session (-5) "pending"))).
    vm_compute. repeat split.
Qed.

(** ** The structured-output parser ([services/llm_service.py]) *)

Section ParserProperties.
Context {F : Type} `{Float64 F}.

Lemma lazy_wildcard_then_close (s : string) :
  Re.match_here [Re.AnyLazy; Re.Lit "}"%char] s = upto_close_brace s.
Proof.
  induction s as [|c s IH]; [reflexivity|].
  cbn [Re.match_here upto_close_brace] in *.
  destruct (Ascii.eqb c "}"%char) eqn:E; [reflexivity|].
  now rewrite IH.
Qed.

Lemma match_here_json_object (s : string) :
  Re.match_here json_object_re s =
  match s with
  | String c s' =>
      if Ascii.eqb c "{"%char then option_map (String c) (upto_close_brace s')
      else None
  | EmptyString => None
  end.
Proof.
  destruct s as [|c s]; [reflexivity|].
  change (Re.match_here json_object_re (String c s))
    with (if Ascii.eqb c "{"%char
          then option_map (String c)
                 (Re.match_here [Re.AnyLazy; Re.Lit "}"%char] s)
          else None).
  now rewrite lazy_wildcard_then_close.
Qed.

Lemma search_without_close (s : string) :
  upto_close_brace s = None -> Re.search json_object_re s = None.
Proof.
  induction s as [|c s IH]; intro Hnone; [reflexivity|].
  cbn [upto_close_brace] in Hnone.
  destruct (Ascii.eqb c "}"%char); [discriminate|].
  destruct (upto_close_brace s) eqn:Es; [discriminate|].
  cbn [Re.search]. rewrite match_here_json_object, Es, IH by reflexivity.
  now destruct (Ascii.eqb c "{"%char).
Qed.

(** The search of the pattern is the span from the first opening brace to
    the first closing brace after it. *)
Lemma search_json_object (s : string) :
  Re.search json_object_re s = first_brace_span s.
Proof.
  induction s as [|c s IH]; [reflexivity|].
  cbn [Re.search first_brace_span]. rewrite match_here_json_object.
  destruct (Ascii.eqb c "{"%char); [|exact IH].
  destruct (upto_close_brace s) eqn:Es; [reflexivity|].
  cbn. now apply search_without_close.
Qed.

(** C10.  The pattern search of [parse_structured_decision] returns the
    text from the first opening brace to the first closing brace after it.
    So there is a response that is exactly a valid decision object (it
    decodes and validates, with a non-empty [policy_opinion_shift]) whose
    extracted text stops after the inner brace; decoding that text fails
    and the function raises [ValueError] instead of returning the
    decision. *)
Theorem parse_structured_decision_truncates_nested_object :
  (forall raw : string, Re.search json_object_re raw = first_brace_span raw)
  /\
  exists (raw : string) (data : pyval F) (decision : LLMDecision F),
    Json.loads raw = Ok data
    /\ LLMDecision_model_validate data = Ok decision
    /\ policy_opinion_shift decision <> []
    /\ Re.search json_object_re raw = Some nested_decision_extracted
    /\ String.prefix nested_decision_extracted raw = true
    /\ (String.length nested_decision_extracted < String.length raw)%nat
    /\ Json.loads (F:=F) nested_decision_extracted = Raise JSONDecodeError
    /\ parse_structured_decision raw LLMDecision_model_validate
       = Raise (ValueError "Invalid JSON format").
Proof.
  split; [exact search_json_object|].
  exists nested_decision_response.
  exists (PDict [("action", PStr "protest"); ("dialogue", PNone);
                 ("sentiment_shift", PFloat (f_of_decimal true 2 (-1)));
                 ("policy_opinion_shift",
                   PDict [("ubi", PFloat (f_of_decimal false 5 (-1)))]);
                 ("spending_ratio_shift", PNone)]).
  exists (mkLLMDecision "protest" None (f_of_decimal true 2 (-1))
            [("ubi", f_of_decimal false 5 (-1))] None).
  repeat split; try (vm_compute; reflexivity); try discriminate.
  vm_compute. repeat constructor.
Qed.

End ParserProperties.

(** ** Rows and dictionaries *)

Section TableLemmas.
Context {A : Type}.

Lemma find_update_first (p : A -> bool) (f : A -> A) (l : list A) :
  (forall x, p x = true -> p (f x) = true) ->
  find p (update_first p f l) = option_map f (find p l).
Proof.
  intro Hp. induction l as [|x l IH]; [reflexivity|].
  cbn. destruct (p x) eqn:E; cbn.
  - now rewrite (Hp x E).
  - now rewrite E.
Qed.

Lemma update_first_length (p : A -> bool) (f : A -> A) (l : list A) :
  List.length (update_first p f l) = List.length l.
Proof.
  induction l as [|x l IH]; [reflexivity|].
  cbn. destruct (p x); cbn; congruence.
Qed.

Lemma update_first_none (p : A -> bool) (f : A -> A) (l : list A) :
  find p l = None -> update_first p f l = l.
Proof.
  induction l as [|x l IH]; [reflexivity|].
  cbn. destruct (p x); [discriminate|]. intro Hn. now rewrite IH.
Qed.

End TableLemmas.

Section DictLemmas.
Context {F : Type}.

Lemma dict_get_set_same (d : pydict F) (k : string) (v : pyval F) :
  dict_get (dict_set d k v) k = Some v.
Proof.
  induction d as [|[k' v'] d IH]; cbn.
  - now rewrite String.eqb_refl.
  - destruct (String.eqb k' k) eqn:E; cbn; rewrite E; [reflexivity | exact IH].
Qed.

Lemma dict_get_set_other (d : pydict F) (k k0 : string) (v : pyval F) :
  k0 <> k -> dict_get (dict_set d k v) k0 = dict_get d k0.
Proof.
  intro Hne. induction d as [|[k' v'] d IH]; cbn.
  - destruct (String.eqb k k0) eqn:E; [|reflexivity].
    apply String.eqb_eq in E. congruence.
  - destruct (String.eqb k' k) eqn:E; cbn.
    + apply String.eqb_eq in E. subst k'.
      destruct (String.eqb k k0) eqn:E0; [|reflexivity].
      apply String.eqb_eq in E0. congruence.
    + now rewrite IH.
Qed.

End DictLemmas.

(** ** The oracle adapter and its fallback ([services/simulation_service.py]) *)

Section OracleProperties.
Context {F : Type} `{Float64 F}.

(** The text the adapter substitutes for a failed transport is an object
    without [action]: it does not validate. *)
Lemma empty_object_is_rejected :
  parse_structured_decision (F:=F) "{}" LLMDecision_model_validate
  = Raise (ValueError "Schema validation failed").
Proof. vm_compute. reflexivity. Qed.

Lemma decide_of_raw (env : LLMEnv F) (agent : Agent.t F)
  (simulation : Simulation.t) (p : Prompt F) (raw : string) :
  construct_agent_prompt agent simulation = Ok p ->
  get_llm_decision_sync env p = Ok raw ->
  decide env agent simulation =
  match parse_structured_decision raw LLMDecision_model_validate with
  | Ok decision => decision
  | Raise _ => default_decision
  end.
Proof.
  intros Hp Hraw. unfold decide. rewrite Hp. cbn. now rewrite Hraw.
Qed.

Lemma decide_of_empty_object (env : LLMEnv F) (agent : Agent.t F)
  (simulation : Simulation.t) (p : Prompt F) :
  construct_agent_prompt agent simulation = Ok p ->
  get_llm_decision_sync env p = Ok "{}" ->
  decide env agent simulation = default_decision.
Proof.
  intros Hp Hraw. rewrite (decide_of_raw _ _ _ _ _ Hp Hraw).
  now rewrite empty_object_is_rejected.
Qed.

(** Every failure of the oracle path ends in the default decision. *)
Lemma oracle_failure_decide (env : LLMEnv F) (agent : Agent.t F)
  (simulation : Simulation.t) :
  oracle_failure env agent simulation ->
  decide env agent simulation = default_decision.
Proof.
  intros [e Hp
         |p Hp Hm
         |p m e Hp Hm Hcall
         |p m r Hp Hm Hcall Hcand
         |p m r c cs Hp Hm Hcall Hcand Hparts
         |p m r e Hp Hm Hcall Htext
         |p raw Hp Hraw Hsearch
         |p raw json_str e Hp Hraw Hsearch Hloads
         |p raw json_str data e Hp Hraw Hsearch Hloads Hval].
  - unfold decide. now rewrite Hp.
  - unfold decide, get_llm_decision_sync, get_llm_client.
    rewrite Hp. cbn. now rewrite Hm.
  - apply (decide_of_empty_object _ _ _ p Hp).
    unfold get_llm_decision_sync, get_llm_client. rewrite Hm. cbn.
    now rewrite Hcall.
  - apply (decide_of_empty_object _ _ _ p Hp).
    unfold get_llm_decision_sync, get_llm_client. rewrite Hm. cbn.
    rewrite Hcall. cbn. now rewrite Hcand.
  - apply (decide_of_empty_object _ _ _ p Hp).
    unfold get_llm_decision_sync, get_llm_client. rewrite Hm. cbn.
    rewrite Hcall. cbn. rewrite Hcand.
    destruct Hparts as [Hparts|Hparts]; now rewrite Hparts.
  - apply (decide_of_empty_object _ _ _ p Hp).
    unfold get_llm_decision_sync, get_llm_client. rewrite Hm. cbn.
    rewrite Hcall. cbn.
    destruct (candidates r) as [|c cs]; [reflexivity|].
    destruct (content_parts c) as [[|part parts]|]; try reflexivity.
    now rewrite Htext.
  - rewrite (decide_of_raw _ _ _ _ _ Hp Hraw).
    unfold parse_structured_decision. fold (cleaned raw). now rewrite Hsearch.
  - rewrite (decide_of_raw _ _ _ _ _ Hp Hraw).
    unfold parse_structured_decision. fold (cleaned raw).
    rewrite Hsearch, Hloads. cbn. now destruct e.
  - rewrite (decide_of_raw _ _ _ _ _ Hp Hraw).
    unfold parse_structured_decision. fold (cleaned raw).
    rewrite Hsearch, Hloads. cbn. rewrite Hval. cbn. now destruct e.
Qed.

Lemma get_agent_assign (db : Session F) (agent_id : uuid)
  (setter : Agent.t F -> Agent.t F) (row : Agent.t F) :
  (forall r, Agent.id (setter r) = Agent.id r) ->
  get_agent db agent_id = Some row ->
  get_agent (snd (assign_agent agent_id setter db)) agent_id = Some (setter row).
Proof.
  unfold get_agent, assign_agent, modify_live. cbn. intros Hid Hrow.
  rewrite find_update_first.
  - now rewrite Hrow.
  - intros x Hx. now rewrite Hid.
Qed.

Lemma last_decisions_append (a : Agent.t F) (tick : Z) (decision : LLMDecision F) :
  last_decisions
    (Agent.set_short_term_memory
       (append_decision (Agent.short_term_memory a) tick decision) a)
  = last_decisions a ++ [decision_entry tick decision].
Proof.
  unfold last_decisions, append_decision. cbn.
  rewrite dict_get_set_same.
  destruct (as_dict (Agent.short_term_memory a)) as [d|]; reflexivity.
Qed.

(** What one run of the loop body leaves in the agent's row: the entry is
    logged whether or not the belief update that follows raises, and that
    update is the only step that can raise. *)
Lemma update_agent_logs_decision (env : LLMEnv F) (simulation : Simulation.t)
  (agent row : Agent.t F) (db : Session F) :
  get_agent db (Agent.id agent) = Some row ->
  exists a',
    get_agent (snd (update_agent env simulation agent db)) (Agent.id agent) = Some a'
    /\ Agent.short_term_memory a' =
       append_decision (Agent.short_term_memory agent)
         (Simulation.current_tick simulation) (decide env agent simulation)
    /\ (fst (update_agent env simulation agent db) = Ok tt
        \/ fst (update_agent env simulation agent db) = Raise TypeError
        \/ fst (update_agent env simulation agent db) = Raise OverflowError).
Proof.
  intro Hrow. unfold update_agent.
  set (decision := decide env agent simulation).
  set (stm := append_decision _ _ decision).
  pose proof (get_agent_assign db (Agent.id agent)
                (Agent.set_short_term_memory stm) row (fun _ => eq_refl) Hrow)
    as Hstored.
  unfold bind at 1.
  destruct (assign_agent (Agent.id agent) (Agent.set_short_term_memory stm) db)
    as [r1 db1] eqn:E1.
  assert (r1 = Ok tt) as -> by (unfold assign_agent, modify_live in E1; congruence).
  cbn [snd] in Hstored. unfold bind at 1, lift.
  destruct (shift_sentiment (Agent.beliefs agent) (sentiment_shift decision))
    as [beliefs|e] eqn:Eb.
  - exists (Agent.set_beliefs beliefs (Agent.set_short_term_memory stm row)).
    repeat split.
    + apply (get_agent_assign db1 (Agent.id agent) (Agent.set_beliefs beliefs)
               _ (fun _ => eq_refl) Hstored).
    + now left.
  - exists (Agent.set_short_term_memory stm row). repeat split; [exact Hstored|].
    right. cbn.
    unfold shift_sentiment, py_add_float, float_of_int in Eb.
    destruct (match dict_get _ "sentiment" with Some v => v | None => _ end)
      as [ |b|z|x|s|l|d]; cbn in Eb; try destruct (is_finite (f_of_Z z));
      cbn in Eb; inversion Eb; auto.
Qed.

(** C3.  Whatever makes the oracle path fail for an agent (no prompt, no
    client, a network error, a blocked or empty answer, no JSON object,
    text that does not decode, an object that does not validate), the
    decision the pipeline works with is the default one: action
    [observe_failed_llm], dialogue [LLM processing error.], sentiment shift
    [0.0], no policy shifts, no spending shift.  The agent update goes on
    with it: the entry is logged in the agent's short-term memory, and the
    only exceptions the update can still raise are the [TypeError] of
    adding to a sentiment that is not a number and the [OverflowError] of
    adding to an int too large for a float. *)
Theorem oracle_failure_yields_fallback (env : LLMEnv F) (agent : Agent.t F)
  (simulation : Simulation.t) :
  oracle_failure env agent simulation ->
  decide env agent simulation = default_decision
  /\ action (default_decision (F:=F)) = "observe_failed_llm"
  /\ dialogue (default_decision (F:=F)) = Some "LLM processing error."
  /\ sentiment_shift default_decision = fzero
  /\ policy_opinion_shift (default_decision (F:=F)) = []
  /\ spending_ratio_shift (default_decision (F:=F)) = None
  /\ forall (db : Session F) (row : Agent.t F),
       get_agent db (Agent.id agent) = Some row ->
       exists a',
         get_agent (snd (update_agent env simulation agent db)) (Agent.id agent)
         = Some a'
         /\ last_decisions a' =
            last_decisions agent
            ++ [decision_entry (Simulation.current_tick simulation) default_decision]
         /\ (fst (update_agent env simulation agent db) = Ok tt
             \/ fst (update_agent env simulation agent db) = Raise TypeError
             \/ fst (update_agent env simulation agent db) = Raise OverflowError).
Proof.
  intro Hfail. pose proof (oracle_failure_decide _ _ _ Hfail) as Hdec.
  repeat split; try reflexivity; try exact Hdec.
  intros db row Hrow.
  destruct (update_agent_logs_decision env simulation agent row db Hrow)
    as (a' & Hget & Hstm & Hres).
  exists a'. repeat split; [exact Hget| |exact Hres].
  rewrite Hdec in Hstm.
  rewrite <- (last_decisions_append agent).
  unfold last_decisions at 1 2. rewrite Hstm. reflexivity.
Qed.

End OracleProperties.

(** C3 at work: without a client, the first agent of the scenario gets the
    default decision and its log gains the entry. *)
Lemma oracle_failure_yields_fallback_witness :
  oracle_failure (F:=float) env_no_client (scenario_agent 10 0) scenario_simulation
  /\ decide (F:=float) env_no_client (scenario_agent 10 0) scenario_simulation
     = default_decision
  /\ exists a',
       get_agent (snd (update_agent (F:=float) env_no_client scenario_simulation
                         (scenario_agent 10 0) (ubi_session 100 "pending"))) 10
       = Some a'
       /\ last_decisions a' = [decision_entry 0 default_decision].
Proof.
  assert (Hfail : oracle_failure (F:=float) env_no_client (scenario_agent 10 0)
                    scenario_simulation).
  { eapply client_unavailable; reflexivity. }
  destruct (oracle_failure_yields_fallback _ _ _ Hfail)
    as (Hdec & _ & _ & _ & _ & _ & Hrun).
  split; [exact Hfail|]. split; [exact Hdec|].
  destruct (Hrun (ubi_session 100 "pending") (scenario_agent 10 0) eq_refl)
    as (a' & Hget & Hlog & _).
  exists a'. split; [exact Hget | exact Hlog].
Defined.

(** ** The agent update pipeline ([services/simulation_service.py]) *)

Section KeyLemmas.
Context {A K : Type} (key : A -> K).

Lemma NoDup_map_filter (p : A -> bool) (l : list A) :
  NoDup (map key l) -> NoDup (map key (filter p l)).
Proof.
  induction l as [|x l IH]; cbn; [trivial|].
  intro Hnd. inversion Hnd as [|? ? Hnotin Hrest]; subst.
  destruct (p x); cbn; [|now apply IH].
  constructor; [|now apply IH].
  intro Hin. apply Hnotin.
  apply in_map_iff in Hin as (y & Hy & Hin).
  apply in_map_iff. exists y. split; [exact Hy|].
  now apply filter_In in Hin.
Qed.

Lemma NoDup_map_firstn (n : nat) (l : list A) :
  NoDup (map key l) -> NoDup (map key (firstn n l)).
Proof.
  intro Hnd. rewrite <- (firstn_skipn n l), map_app in Hnd.
  now apply NoDup_app_remove_r in Hnd.
Qed.

Lemma NoDup_map_skipn (n : nat) (l : list A) :
  NoDup (map key l) -> NoDup (map key (skipn n l)).
Proof.
  intro Hnd. rewrite <- (firstn_skipn n l), map_app in Hnd.
  now apply NoDup_app_remove_l in Hnd.
Qed.

Lemma In_firstn_skipn (n k : nat) (l : list A) (x : A) :
  In x (firstn n (skipn k l)) -> In x l.
Proof.
  intro Hin.
  rewrite <- (firstn_skipn k l). apply in_or_app. right.
  rewrite <- (firstn_skipn n (skipn k l)). apply in_or_app. now left.
Qed.

End KeyLemmas.

Section PipelineProperties.
Context {F : Type} `{Float64 F}.

Lemma get_agents_incl (db : Session F) (sid : option uuid) (skip limit : Z) :
  incl (get_agents db sid skip limit) (agents (live db)).
Proof.
  intros a Hin. unfold get_agents in Hin.
  apply In_firstn_skipn in Hin.
  destruct sid; [now apply filter_In in Hin | exact Hin].
Qed.

Lemma get_agents_unique (db : Session F) (sid : option uuid) (skip limit : Z) :
  unique_agent_ids db -> NoDup (map Agent.id (get_agents db sid skip limit)).
Proof.
  intro Hnd. unfold get_agents.
  apply NoDup_map_firstn, NoDup_map_skipn.
  destruct sid; [now apply NoDup_map_filter | exact Hnd].
Qed.

Lemma processed_agent_id (env : LLMEnv F) (simulation : Simulation.t)
  (a : Agent.t F) :
  Agent.id (processed_agent env simulation a) = Agent.id a.
Proof.
  unfold processed_agent, agent_writes. now destruct (shift_sentiment _ _).
Qed.

Lemma agent_writes_id (env : LLMEnv F) (simulation : Simulation.t)
  (a r : Agent.t F) :
  Agent.id (agent_writes env simulation a r) = Agent.id r.
Proof.
  unfold agent_writes. now destruct (shift_sentiment _ _).
Qed.

Lemma update_first_twice {A} (p : A -> bool) (f g : A -> A) (l : list A) :
  (forall x, p x = true -> p (f x) = true) ->
  update_first p g (update_first p f l) = update_first p (fun x => g (f x)) l.
Proof.
  intro Hp. induction l as [|x l IH]; [reflexivity|].
  cbn. destruct (p x) eqn:E; cbn.
  - now rewrite (Hp x E).
  - now rewrite E, IH.
Qed.

(** One turn of the loop, with its [except Exception: continue]. *)
Lemma update_agent_isolated (env : LLMEnv F) (simulation : Simulation.t)
  (a : Agent.t F) (db : Session F) :
  try_except (update_agent env simulation a) (except_Exception (fun _ => ret tt)) db
  = (Ok tt,
     with_agents
       (update_first (fun r => Agent.id r =? Agent.id a)
          (agent_writes env simulation a) (agents (live db))) db).
Proof.
  unfold try_except, update_agent, agent_writes, bind, assign_agent,
    modify_live, lift, with_agents.
  cbn.
  destruct (shift_sentiment _ _) as [beliefs|e]; cbn; [|reflexivity].
  unfold set_live, set_agents. cbn. do 3 f_equal.
  apply update_first_twice. intros x Hx. exact Hx.
Qed.

Lemma for_each_update_agent (env : LLMEnv F) (simulation : Simulation.t)
  (l : list (Agent.t F)) (db : Session F) :
  l <> [] ->
  for_each l (fun agent =>
    try_except (update_agent env simulation agent)
      (except_Exception (fun _ => ret tt))) db
  = (Ok tt, with_agents (updated_rows env simulation l (agents (live db))) db).
Proof.
  revert db. induction l as [|a l IH]; intros db Hne; [congruence|].
  cbn [for_each]. unfold bind at 1. rewrite update_agent_isolated.
  destruct l as [|b l].
  - reflexivity.
  - rewrite IH by discriminate. reflexivity.
Qed.

(** With unique keys, replacing the row of [a] is a map over the table. *)
Lemma update_first_unique (w h : Agent.t F -> Agent.t F) (a : Agent.t F)
  (rows : list (Agent.t F)) :
  w a = h a ->
  NoDup (map Agent.id rows) -> In a rows ->
  update_first (fun r => Agent.id r =? Agent.id a) w rows
  = map (fun r => if Agent.id r =? Agent.id a then h r else r) rows.
Proof.
  intro Hw.
  induction rows as [|x rows IH]; intros Hnd Hin; [reflexivity|].
  cbn in *. inversion Hnd as [|? ? Hnotin Hrest]; subst.
  destruct (Agent.id x =? Agent.id a) eqn:E.
  - apply Z.eqb_eq in E.
    assert (x = a) as ->.
    { destruct Hin as [Hx|Hin]; [exact Hx|].
      exfalso. apply Hnotin. rewrite E. now apply in_map. }
    rewrite Hw. f_equal.
    rewrite <- (map_id rows) at 1. apply map_ext_in. intros r Hr.
    destruct (Agent.id r =? Agent.id a) eqn:Er; [|reflexivity].
    apply Z.eqb_eq in Er. exfalso. apply Hnotin. rewrite <- Er. now apply in_map.
  - f_equal. apply IH; [exact Hrest|].
    destruct Hin as [Hx|Hin]; [|exact Hin].
    subst x. now rewrite Z.eqb_refl in E.
Qed.

Lemma updated_rows_unique (env : LLMEnv F) (simulation : Simulation.t)
  (l rows : list (Agent.t F)) :
  NoDup (map Agent.id rows) -> incl l rows -> NoDup (map Agent.id l) ->
  updated_rows env simulation l rows
  = map (fun r => if existsb (fun a => Agent.id a =? Agent.id r) l
                  then processed_agent env simulation r else r) rows.
Proof.
  revert rows. induction l as [|a l IH]; intros rows Hnd Hincl Hndl.
  - cbn. symmetry. apply map_id.
  - cbn [updated_rows fold_left].
    rewrite (update_first_unique (agent_writes env simulation a)
               (processed_agent env simulation) a rows eq_refl Hnd)
      by (apply Hincl; now left).
    fold (updated_rows env simulation l
            (map (fun r => if Agent.id r =? Agent.id a
                           then processed_agent env simulation r else r) rows)).
    inversion Hndl as [|? ? Hnotin Hrest]; subst.
    rewrite IH.
    + rewrite map_map. apply map_ext. intro r. cbn [existsb].
      destruct (Agent.id r =? Agent.id a) eqn:E.
      * apply Z.eqb_eq in E. rewrite processed_agent_id, E, Z.eqb_refl. cbn.
        destruct (existsb _ l) eqn:Ex; [|reflexivity].
        apply existsb_exists in Ex as (b & Hb & Hid).
        apply Z.eqb_eq in Hid. exfalso. apply Hnotin. rewrite <- Hid.
        now apply in_map.
      * rewrite Z.eqb_sym, E. reflexivity.
    + rewrite map_map.
      erewrite map_ext; [exact Hnd|].
      intro r. cbn. destruct (Agent.id r =? Agent.id a); [|reflexivity].
      apply processed_agent_id.
    + intros b Hb. apply in_map_iff. exists b. split.
      * destruct (Agent.id b =? Agent.id a) eqn:E; [|reflexivity].
        apply Z.eqb_eq in E. exfalso. apply Hnotin. rewrite <- E.
        now apply in_map.
      * apply Hincl. now right.
    + exact Hrest.
Qed.

(** The pipeline as a map over the agents table: the rows it fetches are
    processed in place, nothing else changes, and it never raises. *)
Lemma run_agent_updates_rows (env : LLMEnv F) (simulation : Simulation.t)
  (db : Session F) :
  unique_agent_ids db ->
  fst (run_agent_updates env simulation db) = Ok tt
  /\ agents (live (snd (run_agent_updates env simulation db)))
     = map (fun r => if is_processed db simulation r
                     then processed_agent env simulation r else r)
         (agents (live db))
  /\ same_but_agents db (snd (run_agent_updates env simulation db)).
Proof.
  intro Hnd. unfold run_agent_updates, bind, gets, is_processed.
  set (l := get_agents db (Some (Simulation.id simulation)) 0 10000).
  assert (Hspec := updated_rows_unique env simulation l (agents (live db)) Hnd
                     (get_agents_incl db _ 0 10000)
                     (get_agents_unique db _ 0 10000 Hnd)).
  clearbody l. destruct l as [|a l'].
  - cbn. repeat split. symmetry. apply map_id.
  - rewrite for_each_update_agent by discriminate. cbn [fst snd].
    split; [reflexivity|]. split; [exact Hspec|].
    unfold with_agents, same_but_agents. cbn. repeat split.
Qed.

Lemma run_agent_updates_unique (env : LLMEnv F) (simulation : Simulation.t)
  (db : Session F) :
  unique_agent_ids db ->
  unique_agent_ids (snd (run_agent_updates env simulation db)).
Proof.
  intro Hnd. unfold unique_agent_ids.
  destruct (run_agent_updates_rows env simulation db Hnd) as (_ & -> & _).
  rewrite map_map. rewrite (map_ext _ Agent.id); [exact Hnd|].
  intro r. destruct (is_processed db simulation r); [|reflexivity].
  apply processed_agent_id.
Qed.

End PipelineProperties.

Section LogProperties.
Context {F : Type} `{Float64 F}.

Lemma processed_agent_last_decisions (env : LLMEnv F) (simulation : Simulation.t)
  (a : Agent.t F) :
  last_decisions (processed_agent env simulation a)
  = last_decisions a
    ++ [decision_entry (Simulation.current_tick simulation)
          (decide env a simulation)].
Proof.
  rewrite <- last_decisions_append. unfold processed_agent, agent_writes.
  now destruct (shift_sentiment _ _).
Qed.

Lemma processed_agent_simulation_id (env : LLMEnv F) (simulation : Simulation.t)
  (a : Agent.t F) :
  Agent.simulation_id (processed_agent env simulation a) = Agent.simulation_id a.
Proof.
  unfold processed_agent, agent_writes. now destruct (shift_sentiment _ _).
Qed.

(** Which rows a query returns depends on the keys only. *)
Lemma get_agents_map (g : Agent.t F -> Agent.t F) (db db' : Session F)
  (sid : option uuid) (skip limit : Z) :
  (forall r, Agent.simulation_id (g r) = Agent.simulation_id r) ->
  agents (live db') = map g (agents (live db)) ->
  get_agents db' sid skip limit = map g (get_agents db sid skip limit).
Proof.
  intros Hsid Hrows. unfold get_agents. rewrite Hrows.
  rewrite <- firstn_map, <- skipn_map. do 2 f_equal.
  destruct sid as [s|]; [|reflexivity]. clear Hrows.
  induction (agents (live db)) as [|r rows IH]; [reflexivity|].
  cbn [map filter]. rewrite Hsid.
  destruct (Agent.simulation_id r =? s); cbn [map]; now rewrite IH.
Qed.

Lemma is_processed_after (env : LLMEnv F) (simulation : Simulation.t)
  (db : Session F) (r : Agent.t F) :
  unique_agent_ids db ->
  is_processed (snd (run_agent_updates env simulation db)) simulation
    (if is_processed db simulation r
     then processed_agent env simulation r else r)
  = is_processed db simulation r.
Proof.
  intro Hnd.
  destruct (run_agent_updates_rows env simulation db Hnd) as (_ & Hrows & _).
  set (g := fun x => if is_processed db simulation x
                     then processed_agent env simulation x else x) in *.
  assert (Hsid : forall x, Agent.simulation_id (g x) = Agent.simulation_id x).
  { intro x. unfold g. destruct (is_processed db simulation x);
      [apply processed_agent_simulation_id | reflexivity]. }
  change (is_processed (snd (run_agent_updates env simulation db)) simulation (g r)
          = is_processed db simulation r).
  unfold is_processed at 1.
  rewrite (get_agents_map g db _ _ _ _ Hsid Hrows). unfold g.
  assert (Hid : forall x,
             Agent.id (if is_processed db simulation x
                       then processed_agent env simulation x else x) = Agent.id x).
  { intro x. destruct (is_processed db simulation x);
      [apply processed_agent_id | reflexivity]. }
  rewrite Hid. unfold is_processed at 2.
  induction (get_agents db (Some (Simulation.id simulation)) 0 10000)
    as [|b l IH]; [reflexivity|].
  cbn [map existsb]. now rewrite Hid, IH.
Qed.

(** Each run of the pipeline makes the log of every processed agent one
    entry longer: after [n] runs it has gained [n] entries. *)
Lemma last_decisions_after_runs (n : nat) (env : LLMEnv F)
  (simulation : Simulation.t) (db : Session F) :
  unique_agent_ids db ->
  map (fun r => List.length (last_decisions r))
    (agents (live (run_agent_updates_times n env simulation db)))
  = map (fun r => (List.length (last_decisions r)
                   + if is_processed db simulation r then n else 0)%nat)
      (agents (live db)).
Proof.
  revert db. induction n as [|n IH]; intros db Hnd.
  - cbn [run_agent_updates_times]. apply map_ext. intro r.
    destruct (is_processed db simulation r); lia.
  - cbn [run_agent_updates_times].
    rewrite IH by now apply run_agent_updates_unique.
    destruct (run_agent_updates_rows env simulation db Hnd) as (_ & Hrows & _).
    rewrite Hrows, map_map. apply map_ext. intro r.
    rewrite is_processed_after by exact Hnd.
    destruct (is_processed db simulation r); [|lia].
    rewrite processed_agent_last_decisions, length_app. cbn. lia.
Qed.

(** The other writer of the log keeps at most ten entries, the latest. *)
Lemma test_agent_decision_stm_capped (stm decision : pyval F) :
  exists d l,
    test_agent_decision_stm stm decision = PDict d
    /\ dict_get d "last_decisions" = Some (PList l)
    /\ (List.length l <= 10)%nat.
Proof.
  unfold test_agent_decision_stm.
  set (d0 := match as_dict stm with Some d => d | None => _ end).
  set (l0 := match dict_get d0 "last_decisions" with
             | Some (PList l) => l | _ => [] end ++ [decision]).
  eexists. eexists. split; [reflexivity|].
  split; [apply dict_get_set_same|].
  destruct (10 <? List.length l0)%nat eqn:E.
  - rewrite length_skipn. apply Nat.ltb_lt in E. lia.
  - apply Nat.ltb_ge in E. exact E.
Qed.

End LogProperties.

(** C1 on the code.  Whatever the oracle answers, eleven runs of the
    pipeline over the three agents of the scenario, whose logs start
    empty, leave each log with eleven entries: nothing is evicted at the
    cap of ten that [test_agent_decision] applies. *)
Theorem run_agent_updates_log_exceeds_cap (env : LLMEnv float) :
  map (fun r => List.length (last_decisions r))
    (agents (live (run_agent_updates_times 11 env scenario_simulation
                     (ubi_session 100 "pending"))))
  = [11; 11; 11]%nat.
Proof.
  rewrite last_decisions_after_runs.
  - vm_compute. reflexivity.
  - unfold unique_agent_ids. vm_compute.
    repeat constructor; cbn; intuition discriminate.
Qed.

(** ** Beliefs and traits under the pipeline *)

Section BeliefProperties.
Context {F : Type} `{Float64 F}.

Lemma py_add_float_numeric (v : pyval F) (x : F) :
  match numeric_value v with
  | Some y => py_add_float v x = Ok (PFloat (fadd y x))
  | None => exists e, py_add_float v x = Raise e
  end.
Proof.
  destruct v as [ |b|z|y|s|l|d]; cbn; try reflexivity;
    try (eexists; reflexivity).
  unfold float_of_int. destruct (is_finite (f_of_Z z)); cbn;
    [reflexivity | eexists; reflexivity].
Qed.

Lemma shift_sentiment_current (a : Agent.t F) (x : F) :
  match numeric_value (current_sentiment a) with
  | Some y =>
      shift_sentiment (Agent.beliefs a) x =
      Ok (PDict (dict_set match as_dict (Agent.beliefs a) with
                          | Some d => d
                          | None => []
                          end "sentiment" (PFloat (fadd y x))))
  | None => exists e, shift_sentiment (Agent.beliefs a) x = Raise e
  end.
Proof.
  unfold shift_sentiment, current_sentiment, belief_entry.
  set (d := match as_dict (Agent.beliefs a) with Some d => d | None => [] end).
  assert (Hcur : match match as_dict (Agent.beliefs a) with
                       | Some d => dict_get d "sentiment"
                       | None => None
                       end with
                 | Some v => v
                 | None => PFloat fhalf
                 end
                 = match dict_get d "sentiment" with
                   | Some v => v
                   | None => PFloat fhalf
                   end).
  { unfold d. now destruct (as_dict (Agent.beliefs a)). }
  rewrite Hcur.
  set (current := match dict_get d "sentiment" with
                  | Some v => v
                  | None => PFloat fhalf
                  end).
  pose proof (py_add_float_numeric current x) as Hadd.
  destruct (numeric_value current) as [y|].
  - now rewrite Hadd.
  - destruct Hadd as [e ->]. now exists e.
Qed.

(** What the loop body does to the profile of one agent. *)
Lemma processed_agent_profile (env : LLMEnv F) (simulation : Simulation.t)
  (a : Agent.t F) :
  let a' := processed_agent env simulation a in
  Agent.demographics a' = Agent.demographics a
  /\ Agent.behavioral_traits a' = Agent.behavioral_traits a
  /\ (forall key, key <> "sentiment" -> belief_entry a' key = belief_entry a key)
  /\ match numeric_value (current_sentiment a) with
     | Some x =>
         belief_entry a' "sentiment"
         = Some (PFloat (fadd x (sentiment_shift (decide env a simulation))))
     | None => Agent.beliefs a' = Agent.beliefs a
     end.
Proof.
  unfold processed_agent, agent_writes. cbn zeta.
  pose proof (shift_sentiment_current a (sentiment_shift (decide env a simulation)))
    as Hshift.
  destruct (numeric_value (current_sentiment a)) as [x|].
  - rewrite Hshift. cbn. repeat split.
    + intros key Hkey. unfold belief_entry. cbn.
      rewrite dict_get_set_other by exact Hkey.
      now destruct (as_dict (Agent.beliefs a)).
    + unfold belief_entry. cbn. apply dict_get_set_same.
  - destruct Hshift as [e ->]. cbn. repeat split.
Qed.

(** C5, as the code has it.  A run of the pipeline leaves the
    demographics, the behavioural traits and every belief entry other than
    [sentiment] of every agent as they were.  For a processed agent the
    sentiment becomes its previous value ([0.5] when absent) plus the
    decision's [sentiment_shift], whatever the sum is; when the previous
    value is not a number (or is an int too large for a float) the beliefs
    stay as they were.  Agents that are not processed keep their row. *)
Theorem run_agent_updates_shifts_sentiment_only (env : LLMEnv F)
  (simulation : Simulation.t) (db : Session F) :
  unique_agent_ids db ->
  Forall2 (sentiment_shifted_only env simulation db)
    (agents (live db))
    (agents (live (snd (run_agent_updates env simulation db)))).
Proof.
  intro Hnd.
  destruct (run_agent_updates_rows env simulation db Hnd) as (_ & -> & _).
  induction (agents (live db)) as [|a rows IH]; cbn [map]; constructor;
    [|exact IH].
  unfold sentiment_shifted_only.
  destruct (is_processed db simulation a).
  - split; [apply processed_agent_id|].
    apply (processed_agent_profile env simulation a).
  - repeat split.
Qed.

End BeliefProperties.

(** C5 at work: the scenario under the oracle that answers a shift of 0.7. *)
Lemma run_agent_updates_shifts_sentiment_only_witness :
  unique_agent_ids (F:=float) (ubi_session 100 "pending")
  /\ Forall2
       (sentiment_shifted_only (F:=float) env_cheerful scenario_simulation
          (ubi_session 100 "pending"))
       (agents (live (ubi_session 100 "pending")))
       (agents (live (snd (run_agent_updates (F:=float) env_cheerful
                             scenario_simulation (ubi_session 100 "pending"))))).
Proof.
  assert (Hnd : unique_agent_ids (F:=float) (ubi_session 100 "pending")).
  { unfold unique_agent_ids. vm_compute.
    repeat constructor; cbn; intuition discriminate. }
  split; [exact Hnd|].
  exact (run_agent_updates_shifts_sentiment_only (F:=float) env_cheerful
           scenario_simulation (ubi_session 100 "pending") Hnd).
Defined.

(** C5 refuted as stated: the oracle answers with [sentiment_shift] 0.7,
    inside the range the prompt asks for; the first agent has no sentiment
    yet, and after one run of the pipeline its sentiment is 1.2, above 1. *)
Lemma sentiment_leaves_unit_interval :
  belief_entry (scenario_agent (F:=float) 10 0) "sentiment" = None
  /\ sentiment_shift (decide (F:=float) env_cheerful (scenario_agent 10 0)
                        scenario_simulation) = 0.7%float
  /\ option_map (fun a => belief_entry a "sentiment")
       (get_agent (snd (run_agent_updates (F:=float) env_cheerful
                          scenario_simulation (ubi_session 100 "pending"))) 10)
     = Some (Some (PFloat 1.2%float))
  /\ PrimFloat.leb 1.2%float 1%float = false.
Proof.
  repeat split; vm_compute; reflexivity.
Qed.

(** ** Stage by stage: what is kept *)

Section Preservation.
Context {F : Type} `{Float64 F}.
Context (R : Session F -> Session F -> Prop) `{!StepRelation R}.

Local Open Scope session_scope.

Lemma preserves_ret {A} (a : A) : preserves R (ret (F:=F) a).
Proof. intro db. apply step_refl. Qed.

Lemma preserves_raise {A} (e : exn) : preserves R (raise (F:=F) (A:=A) e).
Proof. intro db. apply step_refl. Qed.

Lemma preserves_gets {A} (f : Session F -> A) : preserves R (gets f).
Proof. intro db. apply step_refl. Qed.

Lemma preserves_lift {A} (r : result A) : preserves R (lift (F:=F) r).
Proof. intro db. apply step_refl. Qed.

Lemma preserves_commit : preserves R (commit (F:=F)).
Proof. intro db. now apply step_same_live. Qed.

Lemma preserves_datetime_now : preserves R (datetime_now (F:=F)).
Proof. intro db. now apply step_same_live. Qed.

Lemma preserves_uuid4 : preserves R (uuid4 (F:=F)).
Proof. intro db. now apply step_same_live. Qed.

Lemma preserves_bind {A B} (m : M F A) (k : A -> M F B) :
  preserves R m -> (forall a, preserves R (k a)) -> preserves R (bind m k).
Proof.
  intros Hm Hk db. unfold bind. specialize (Hm db).
  destruct (m db) as [[a|e] db1]; cbn in *; [|exact Hm].
  eapply step_trans; [exact Hm | apply Hk].
Qed.

Lemma preserves_try_except {A} (m : M F A) (h : exn -> option (M F A)) :
  preserves R m ->
  (forall e k, h e = Some k -> preserves R k) ->
  preserves R (try_except m h).
Proof.
  intros Hm Hh db. unfold try_except. specialize (Hm db).
  destruct (m db) as [[a|e] db1]; cbn in *; [exact Hm|].
  destruct (h e) as [k|] eqn:E; cbn; [|exact Hm].
  eapply step_trans; [exact Hm | now apply (Hh e k)].
Qed.

Lemma preserves_for_each {A} (l : list A) (body : A -> M F unit) :
  (forall x, preserves R (body x)) -> preserves R (for_each l body).
Proof.
  intro Hb. induction l as [|x l IH]; cbn [for_each].
  - apply preserves_ret.
  - apply preserves_bind; [apply Hb | intros _; exact IH].
Qed.

Lemma preserves_isolated (stage : M F unit) :
  preserves R stage -> preserves R (isolated stage).
Proof.
  intro Hs. apply preserves_try_except; [exact Hs|].
  intros e k [= <-]. apply preserves_ret.
Qed.

End Preservation.

Create HintDb stage discriminated.

#[export] Hint Resolve preserves_ret preserves_raise preserves_gets preserves_lift
  preserves_commit preserves_datetime_now preserves_uuid4 : stage.

(** Steps of a proof that a computation preserves a step relation. *)
Ltac pbind := apply preserves_bind; [typeclasses eauto | | ].
Ltac ptry := apply preserves_try_except; [typeclasses eauto | | ].
Ltac pfor := apply preserves_for_each; [typeclasses eauto | ].
Ltac pauto := auto with stage typeclass_instances.

Section StageProperties.
Context {F : Type} `{Float64 F}.

Local Open Scope session_scope.

Lemma status_moves_on_refl (s : string) : status_moves_on s s.
Proof. now left. Qed.

Lemma status_moves_on_trans (s1 s2 s3 : string) :
  status_moves_on s1 s2 -> status_moves_on s2 s3 -> status_moves_on s1 s3.
Proof.
  unfold status_moves_on. intros H12 [ -> | H23]; [exact H12 | now right].
Qed.

Lemma status_stays_moved (s s' : string) :
  status_moves_on s s' -> s <> "pending" -> s' <> "pending".
Proof.
  intros [ -> | [ -> | [ -> | -> ] ] ] Hs; try exact Hs; discriminate.
Qed.

Lemma event_moves_on_refl (e : Event.t F) : event_moves_on e e.
Proof. unfold event_moves_on. repeat split. apply status_moves_on_refl. Qed.

Lemma event_moves_on_trans (e1 e2 e3 : Event.t F) :
  event_moves_on e1 e2 -> event_moves_on e2 e3 -> event_moves_on e1 e3.
Proof.
  unfold event_moves_on.
  intros (A1 & A2 & A3 & A4 & A5 & A6) (B1 & B2 & B3 & B4 & B5 & B6).
  repeat split; try congruence.
  eapply status_moves_on_trans; eassumption.
Qed.

Lemma agent_kept_refl (a : Agent.t F) : agent_kept a a.
Proof. unfold agent_kept. repeat split. Qed.

Lemma agent_kept_trans (a1 a2 a3 : Agent.t F) :
  agent_kept a1 a2 -> agent_kept a2 a3 -> agent_kept a1 a3.
Proof.
  unfold agent_kept.
  intros (A1 & A2 & A3 & A4 & A5) (B1 & B2 & B3 & B4 & B5).
  repeat split; congruence.
Qed.

Lemma Forall2_refl_all {A} (Q : A -> A -> Prop) (l : list A) :
  (forall x, Q x x) -> Forall2 Q l l.
Proof. intro Hr. induction l; constructor; auto. Qed.

Lemma Forall2_trans_all {A} (Q : A -> A -> Prop) (l1 l2 l3 : list A) :
  (forall x y z, Q x y -> Q y z -> Q x z) ->
  Forall2 Q l1 l2 -> Forall2 Q l2 l3 -> Forall2 Q l1 l3.
Proof.
  intros Ht H12. revert l3.
  induction H12 as [|x y l1 l2 Hxy _ IH]; intros l3 H23;
    inversion H23; subst; constructor; eauto.
Qed.

Lemma Forall2_update_first {A} (Q : A -> A -> Prop) (p : A -> bool)
  (f : A -> A) (l : list A) :
  (forall x, Q x x) -> (forall x, p x = true -> Q x (f x)) ->
  Forall2 Q l (update_first p f l).
Proof.
  intros Hr Hf. induction l as [|x l IH]; cbn; [constructor|].
  destruct (p x) eqn:E; constructor; auto.
  now apply Forall2_refl_all.
Qed.

#[export] Instance events_rel_step : StepRelation (events_rel (F:=F)).
Proof.
  unfold events_rel. split.
  - intro db. apply Forall2_refl_all, event_moves_on_refl.
  - intros db1 db2 db3 H12 H23.
    eapply Forall2_trans_all; eauto using event_moves_on_trans.
  - intros db db' ->. apply Forall2_refl_all, event_moves_on_refl.
Qed.

#[export] Instance stage_rel_step : StepRelation (stage_rel (F:=F)).
Proof.
  unfold stage_rel. split.
  - intro db. repeat split.
    + apply Forall2_refl_all, event_moves_on_refl.
    + apply Forall2_refl_all, agent_kept_refl.
  - intros db1 db2 db3 (S12 & E12 & A12) (S23 & E23 & A23). repeat split.
    + congruence.
    + eapply Forall2_trans_all; eauto using event_moves_on_trans.
    + eapply Forall2_trans_all; eauto using agent_kept_trans.
  - intros db db' ->. repeat split.
    + apply Forall2_refl_all, event_moves_on_refl.
    + apply Forall2_refl_all, agent_kept_refl.
Qed.

Lemma stage_rel_events (db db' : Session F) : stage_rel db db' -> events_rel db db'.
Proof. now intros (_ & He & _). Qed.

Lemma preserves_stage_events {A} (m : M F A) :
  preserves stage_rel m -> preserves events_rel m.
Proof. intros Hm db. apply stage_rel_events, Hm. Qed.

Lemma try_except_never_raises {A} (m : M F A) (h : exn -> option (M F A))
  (db : Session F) :
  never_raises m -> try_except m h db = m db.
Proof.
  intro Hm. unfold try_except. destruct (Hm db) as [a Ha].
  destruct (m db) as [[a'|e] db1]; cbn in *; [reflexivity | discriminate].
Qed.

(** *** The persistence layer *)

Lemma preserves_update_event_status (event_id : uuid) (status : string) :
  status = "triggered" \/ status = "processed" \/ status = "failed" ->
  preserves stage_rel (update_event_status (F:=F) event_id status).
Proof.
  intro Hs. unfold update_event_status.
  pbind; [pauto|]. intros [row|]; [|pauto].
  pbind.
  { destruct (String.eqb status "triggered"); [|pauto]. pbind; pauto. }
  intro stamp. pbind; [|intros _; pbind; pauto].
  intro db. unfold modify_live, stage_rel. cbn. repeat split.
  - apply Forall2_update_first; [apply event_moves_on_refl|].
    intros e _. unfold event_moves_on.
    destruct stamp; cbn; repeat split; now right.
  - apply Forall2_refl_all, agent_kept_refl.
Qed.

Lemma never_raises_update_event_status_commit (event_id : uuid) (status : string) :
  never_raises (update_event_status (F:=F) event_id status ;;; commit).
Proof.
  intro db. unfold update_event_status, bind, gets, commit, modify_live,
              datetime_now, ret.
  destruct (get_event db event_id); [|eexists; reflexivity].
  destruct (String.eqb status "triggered"); eexists; reflexivity.
Qed.

Lemma preserves_assign_demographics (agent_id : uuid) (v : pyval F) :
  preserves stage_rel (assign_agent agent_id (Agent.set_demographics v)).
Proof.
  intro db. unfold assign_agent, modify_live, stage_rel. cbn. repeat split.
  - apply Forall2_refl_all, event_moves_on_refl.
  - apply Forall2_update_first; [apply agent_kept_refl|].
    intros a _. unfold agent_kept. repeat split.
Qed.

Lemma preserves_create_metric_snapshot (simulation_id : uuid) (tick : Z)
  (gini variance : option F) :
  preserves stage_rel (create_metric_snapshot simulation_id tick gini variance).
Proof.
  unfold create_metric_snapshot.
  pbind; [pauto|]. intro new_id.
  pbind; [|intros _; pbind; pauto].
  intro db. unfold modify_live, stage_rel. cbn. repeat split.
  - apply Forall2_refl_all, event_moves_on_refl.
  - apply Forall2_refl_all, agent_kept_refl.
Qed.

(** *** The event processor and the metric calculator *)

Lemma preserves_apply_ubi_to_agent (amount : F) (agent : Agent.t F) :
  preserves stage_rel (apply_ubi_to_agent amount agent).
Proof.
  unfold apply_ubi_to_agent.
  destruct (as_dict (Agent.demographics agent)); [|pauto].
  pbind; [pauto|]. intro income.
  apply preserves_assign_demographics.
Qed.

Lemma preserves_apply_ubi_event (simulation : Simulation.t) (event : Event.t F) :
  preserves stage_rel (apply_ubi_event simulation event).
Proof.
  unfold apply_ubi_event.
  assert (Hfailed : preserves stage_rel
                      (update_event_status (F:=F) (Event.id event) "failed" ;;; ret tt)).
  { pbind; [|pauto]. apply preserves_update_event_status. auto. }
  destruct (UBIEventParams_init (Event.parameters event)) as [params|e].
  - pbind; [pauto|]. intro agents. pbind.
    + pfor. intro agent. ptry.
      * apply preserves_apply_ubi_to_agent.
      * intros e k [= <-]. pauto.
    + intros _ db.
      rewrite try_except_never_raises
        by apply never_raises_update_event_status_commit.
      revert db. pbind; [|pauto].
      apply preserves_update_event_status. auto.
  - destruct e; pauto.
Qed.

Lemma preserves_process_events_for_tick (simulation : Simulation.t) :
  preserves stage_rel (process_events_for_tick (F:=F) simulation).
Proof.
  unfold process_events_for_tick.
  pbind; [pauto|]. intro pending_events.
  pfor. intro event.
  pbind; [apply preserves_update_event_status; auto|]. intros _.
  pbind; [pauto|]. intros _.
  destruct (String.eqb (Event.event_type event) "ubi").
  - apply preserves_apply_ubi_event.
  - pbind; [|pauto]. apply preserves_update_event_status. auto.
Qed.

Lemma preserves_calculate_and_store_metrics (simulation : Simulation.t) :
  preserves stage_rel (calculate_and_store_metrics (F:=F) simulation).
Proof.
  unfold calculate_and_store_metrics.
  pbind; [pauto|]. intros [|a agents]; [pauto|].
  pbind; [pauto|]. intro incomes. ptry.
  - pbind; [|pauto]. apply preserves_create_metric_snapshot.
  - intros e k [= <-]. pauto.
Qed.

Lemma isolated_never_raises (stage : M F unit) (db : Session F) :
  fst (isolated stage db) = Ok tt.
Proof.
  unfold isolated, try_except, except_Exception, ret.
  destruct (stage db) as [[[]|e] db1]; reflexivity.
Qed.

End StageProperties.

(** ** The event processor's selection ([crud/event.py], [services/event_service.py]) *)

Section EventProperties.
Context {F : Type} `{Float64 F}.

Local Open Scope session_scope.

Lemma filter_filter {A} (p q : A -> bool) (l : list A) :
  filter q (filter p l) = filter (fun x => p x && q x) l.
Proof.
  induction l as [|x l IH]; [reflexivity|].
  cbn. destruct (p x); cbn; [|exact IH].
  destruct (q x); now rewrite IH.
Qed.

(** The query of the event processor: the first hundred eligible events,
    in creation order. *)
Lemma get_events_eligible (db : Session F) (simulation : Simulation.t) :
  get_events db (Simulation.id simulation) (Some "pending")
    (Some (Simulation.current_tick simulation)) 0 100
  = firstn 100 (filter (eligible simulation) (events (live db))).
Proof.
  unfold get_events. cbn [truthy_str].
  change (Z.to_nat 0) with 0%nat. change (Z.to_nat 100) with 100%nat.
  cbn [skipn]. rewrite !filter_filter. f_equal.
  apply filter_ext. intro e. unfold eligible. now rewrite andb_assoc.
Qed.

(** The pipeline touches the agents table only, with or without unique keys. *)
Lemma run_agent_updates_frame (env : LLMEnv F) (simulation : Simulation.t)
  (db : Session F) :
  fst (run_agent_updates env simulation db) = Ok tt
  /\ same_but_agents db (snd (run_agent_updates env simulation db)).
Proof.
  unfold run_agent_updates, bind, gets.
  destruct (get_agents db (Some (Simulation.id simulation)) 0 10000) as [|a l].
  - cbn. repeat split.
  - rewrite for_each_update_agent by discriminate. cbn [fst snd].
    unfold with_agents, same_but_agents. cbn. repeat split.
Qed.

Lemma preserves_events_run_agent_updates (env : LLMEnv F)
  (simulation : Simulation.t) :
  preserves events_rel (run_agent_updates env simulation).
Proof.
  intro db. destruct (run_agent_updates_frame env simulation db)
    as (_ & _ & Hev & _).
  unfold events_rel. rewrite Hev. apply Forall2_refl_all, event_moves_on_refl.
Qed.

Lemma preserves_events_update_simulation (simulation_id : uuid)
  (u : SimulationUpdate) :
  preserves events_rel (update_simulation (F:=F) simulation_id u).
Proof.
  unfold update_simulation.
  pbind; [pauto|]. intros [row|]; [|pauto].
  pbind; [|intros _; pbind; pauto].
  intro db. unfold modify_live, events_rel. cbn.
  apply Forall2_refl_all, event_moves_on_refl.
Qed.

Lemma preserves_events_advance_tick (env : LLMEnv F) (simulation_id : uuid) :
  preserves events_rel (advance_tick_endpoint env simulation_id).
Proof.
  unfold advance_tick_endpoint.
  pbind; [pauto|]. intros [db_simulation|]; [|pauto].
  pbind.
  { apply preserves_isolated; [typeclasses eauto|].
    apply preserves_stage_events, preserves_process_events_for_tick. }
  intros _. pbind.
  { apply preserves_isolated; [typeclasses eauto|].
    apply preserves_stage_events, preserves_calculate_and_store_metrics. }
  intros _. pbind.
  { apply preserves_isolated; [typeclasses eauto|].
    apply preserves_events_run_agent_updates. }
  intros _. pbind.
  { apply preserves_isolated; [typeclasses eauto|].
    apply preserves_stage_events, preserves_calculate_and_store_metrics. }
  intros _. pbind; [apply preserves_events_update_simulation|].
  intros [updated|]; pauto.
Qed.

(** Whatever runs later, the events are the same ones, moved on at most. *)
Lemma later_events (db db' : Session F) : later db db' -> events_rel db db'.
Proof.
  induction 1 as [db|env sid db db' _ IH|simulation db db' _ IH].
  - apply step_refl.
  - eapply step_trans; [apply preserves_events_advance_tick | exact IH].
  - eapply step_trans; [|exact IH].
    apply preserves_stage_events, preserves_process_events_for_tick.
Qed.

Lemma eligible_pending (simulation : Simulation.t) (e : Event.t F) :
  eligible simulation e = true <->
  Event.simulation_id e = Simulation.id simulation
  /\ Event.status e = "pending"
  /\ Event.target_tick e = Some (Simulation.current_tick simulation).
Proof.
  unfold eligible. rewrite !andb_true_iff, Z.eqb_eq, String.eqb_eq.
  destruct (Event.target_tick e) as [target|].
  - rewrite Z.eqb_eq. intuition congruence.
  - intuition discriminate.
Qed.

(** C6, as the code has it.  At the tick of a simulation the event
    processor selects the first hundred events, in creation order, that
    belong to the simulation, are [pending] and have the current tick as
    their [target_tick]: every selected event is such an event, and every
    such event is selected when there are at most a hundred of them.  An
    event whose status is not [pending] stays so through every later
    tick advance and event-processor run, and is in no selection made
    then. *)
Theorem pending_events_selected_once (db : Session F) (simulation : Simulation.t) :
  let selected := get_events db (Simulation.id simulation) (Some "pending")
                    (Some (Simulation.current_tick simulation)) 0 100 in
  selected = firstn 100 (filter (eligible simulation) (events (live db)))
  /\ (forall e, In e selected ->
        In e (events (live db))
        /\ Event.simulation_id e = Simulation.id simulation
        /\ Event.status e = "pending"
        /\ Event.target_tick e = Some (Simulation.current_tick simulation))
  /\ ((List.length (filter (eligible simulation) (events (live db))) <= 100)%nat ->
      forall e, In e (events (live db)) ->
        Event.simulation_id e = Simulation.id simulation ->
        Event.status e = "pending" ->
        Event.target_tick e = Some (Simulation.current_tick simulation) ->
        In e selected)
  /\ (forall db', later db db' ->
        Forall2
          (fun e e' =>
             Event.id e' = Event.id e
             /\ (Event.status e <> "pending" ->
                 Event.status e' <> "pending"
                 /\ forall simulation',
                      ~ In e' (get_events db' (Simulation.id simulation')
                                 (Some "pending")
                                 (Some (Simulation.current_tick simulation'))
                                 0 100)))
          (events (live db)) (events (live db'))).
Proof.
  cbn zeta. rewrite get_events_eligible. split; [reflexivity|].
  split; [|split].
  - intros e Hin. apply (In_firstn_skipn 100 0) in Hin.
    apply filter_In in Hin as [Hin Hel]. apply eligible_pending in Hel. tauto.
  - intros Hlen e Hin Hsim Hpending Htick. rewrite firstn_all2 by exact Hlen.
    apply filter_In. split; [exact Hin|]. apply eligible_pending. tauto.
  - intros db' Hlater. apply later_events in Hlater. unfold events_rel in Hlater.
    eapply Forall2_impl; [|exact Hlater].
    intros e e' (Hid & _ & _ & _ & _ & Hmove). split; [exact Hid|].
    intro Hnp. pose proof (status_stays_moved _ _ Hmove Hnp) as Hnp'.
    split; [exact Hnp'|]. intros simulation' Hin.
    rewrite get_events_eligible in Hin.
    apply (In_firstn_skipn 100 0) in Hin. apply filter_In in Hin as [_ Hel].
    apply eligible_pending in Hel. tauto.
Qed.

End EventProperties.

(** C6 at work: the pending UBI event of the scenario, due at tick 0, is
    the selection at tick 0; once [processed] it is in no selection. *)
Lemma pending_events_selected_once_witness :
  get_events (F:=float) (ubi_session 100 "pending") 1 (Some "pending") (Some 0) 0 100
  = [ubi_event 100 "pending"]
  /\ In (ubi_event 100 "pending")
       (get_events (F:=float) (ubi_session 100 "pending") 1 (Some "pending") (Some 0) 0 100)
  /\ (Event.status (ubi_event (F:=float) 100 "processed") <> "pending" ->
      ~ In (ubi_event (F:=float) 100 "processed")
          (get_events (ubi_session 100 "processed") 1 (Some "pending") (Some 0) 0 100)).
Proof.
  split; [reflexivity|]. split.
  - destruct (pending_events_selected_once (F:=float) (ubi_session 100 "pending")
                scenario_simulation) as (_ & _ & Hall & _).
    apply Hall.
    + vm_compute. lia.
    + now left.
    + reflexivity.
    + reflexivity.
    + reflexivity.
  - intro Hnp.
    destruct (pending_events_selected_once (F:=float) (ubi_session 100 "processed")
                scenario_simulation) as (_ & _ & _ & Hlater).
    specialize (Hlater _ (later_now _)).
    inversion Hlater as [|e e' l l' (_ & Hmoved) _]; subst.
    exact (proj2 (Hmoved Hnp) scenario_simulation).
Defined.

(** C6 refuted as stated: 101 pending events of simulation 1 are due at
    tick 0, the tick of the simulation.  The last one, with key 100, is
    not selected: the query stops at a hundred rows. *)
Lemma eligible_event_not_selected :
  In (crowd_event (F:=float) 100) (events (live crowd_session))
  /\ Event.simulation_id (crowd_event (F:=float) 100) = Simulation.id scenario_simulation
  /\ Event.status (crowd_event (F:=float) 100) = "pending"
  /\ Event.target_tick (crowd_event (F:=float) 100)
     = Some (Simulation.current_tick scenario_simulation)
  /\ existsb (fun e => Event.id e =? 100)
       (get_events (F:=float) crowd_session (Simulation.id scenario_simulation)
          (Some "pending") (Some (Simulation.current_tick scenario_simulation))
          0 100) = false
  /\ List.length
       (get_events (F:=float) crowd_session (Simulation.id scenario_simulation)
          (Some "pending") (Some (Simulation.current_tick scenario_simulation))
          0 100) = 100%nat.
Proof.
  repeat split; try (vm_compute; reflexivity).
  apply in_map_iff. exists 100%nat. split; [reflexivity|].
  apply in_seq. lia.
Qed.

(** ** The tick orchestrator ([api/simulation_routes.py]) *)

Section TickProperties.
Context {F : Type} `{Float64 F}.

Local Open Scope session_scope.

Lemma bind_isolated {B} (stage : M F unit) (k : unit -> M F B) (db : Session F) :
  bind (isolated stage) k db = k tt (snd (isolated stage db)).
Proof.
  unfold bind. pose proof (isolated_never_raises stage db) as Hok.
  destruct (isolated stage db) as [[[]|e] db1]; cbn in *;
    [reflexivity | discriminate].
Qed.

(** The endpoint is the four isolated stages, then the increment. *)
Lemma advance_tick_endpoint_stages (env : LLMEnv F) (simulation_id : uuid)
  (db : Session F) (sim : Simulation.t) :
  get_simulation db simulation_id = Some sim ->
  advance_tick_endpoint env simulation_id db
  = (updated_sim <-
       update_simulation simulation_id
         (mkSimulationUpdate None None (Some (Simulation.current_tick sim + 1)) None) ;;
     match updated_sim with
     | None => raise (HTTPException 500 "Failed to update simulation tick")
     | Some updated_sim => ret updated_sim
     end) (after_stages env sim db).
Proof.
  intro Hsim. unfold advance_tick_endpoint.
  unfold bind at 1, gets. rewrite Hsim.
  now rewrite !bind_isolated.
Qed.

Lemma stage_rel_isolated (stage : M F unit) (db : Session F) :
  preserves stage_rel stage -> stage_rel db (snd (isolated stage db)).
Proof.
  intro Hs. apply preserves_isolated; [typeclasses eauto | exact Hs].
Qed.

Lemma agents_kept_ids (rows rows' : list (Agent.t F)) :
  Forall2 agent_kept rows rows' -> map Agent.id rows' = map Agent.id rows.
Proof.
  induction 1 as [|a a' rows rows' Ha _ IH]; [reflexivity|].
  cbn. destruct Ha as (-> & _). now rewrite IH.
Qed.

Lemma agents_kept_selection (rows rows' : list (Agent.t F)) (sid : uuid) :
  Forall2 agent_kept rows rows' ->
  map Agent.id (filter (fun a => Agent.simulation_id a =? sid) rows')
  = map Agent.id (filter (fun a => Agent.simulation_id a =? sid) rows).
Proof.
  induction 1 as [|a a' rows rows' Ha _ IH]; [reflexivity|].
  cbn. destruct Ha as (Hid & -> & _).
  destruct (Agent.simulation_id a =? sid); cbn; now rewrite ?Hid, IH.
Qed.

Lemma existsb_map {A B} (f : B -> bool) (g : A -> B) (l : list A) :
  existsb f (map g l) = existsb (fun x => f (g x)) l.
Proof. induction l as [|x l IH]; cbn; now rewrite ?IH. Qed.

Lemma is_processed_ids (db : Session F) (simulation : Simulation.t)
  (r : Agent.t F) :
  is_processed db simulation r
  = existsb (fun i => i =? Agent.id r)
      (map Agent.id (get_agents db (Some (Simulation.id simulation)) 0 10000)).
Proof. unfold is_processed. now rewrite existsb_map. Qed.

(** Up to 10000 agents, the pipeline fetches every agent of the
    simulation. *)
Lemma is_processed_all (db : Session F) (simulation : Simulation.t)
  (a : Agent.t F) :
  Z.of_nat (List.length (agents_of db simulation)) <= 10000 ->
  In a (agents (live db)) ->
  Agent.simulation_id a = Simulation.id simulation ->
  is_processed db simulation a = true.
Proof.
  intros Hlen Hin Hsid. unfold is_processed, get_agents.
  change (skipn (Z.to_nat 0) ?l) with l.
  fold (agents_of db simulation).
  rewrite firstn_all2 by lia.
  apply existsb_exists. exists a. split; [|apply Z.eqb_refl].
  apply filter_In. split; [exact Hin|]. now apply Z.eqb_eq.
Qed.

Lemma is_processed_kept (db db' : Session F) (simulation : Simulation.t)
  (a a' : Agent.t F) :
  Forall2 agent_kept (agents (live db)) (agents (live db')) ->
  Agent.id a' = Agent.id a ->
  is_processed db' simulation a' = is_processed db simulation a.
Proof.
  intros Hkept Hid. rewrite !is_processed_ids, Hid. f_equal.
  unfold get_agents. rewrite <- !firstn_map, <- !skipn_map.
  now rewrite (agents_kept_selection _ _ _ Hkept).
Qed.

Lemma Forall2_chain {A} (Q1 Q2 Q3 : A -> A -> Prop) (l1 l2 l3 : list A) :
  (forall x y z, Q1 x y -> Q2 y z -> Q3 x z) ->
  Forall2 Q1 l1 l2 -> Forall2 Q2 l2 l3 -> Forall2 Q3 l1 l3.
Proof.
  intros Hc H12. revert l3.
  induction H12 as [|x y l1 l2 Hxy _ IH]; intros l3 H23;
    inversion H23; subst; constructor; eauto.
Qed.

Lemma Forall2_map_r {A} (Q : A -> A -> Prop) (g : A -> A) (l : list A) :
  (forall x, Q x (g x)) -> Forall2 Q l (map g l).
Proof. intro Hg. induction l; cbn; constructor; auto. Qed.

Lemma last_decisions_kept (a a' : Agent.t F) :
  agent_kept a a' -> last_decisions a' = last_decisions a.
Proof. intros (_ & _ & _ & _ & Hstm). unfold last_decisions. now rewrite Hstm. Qed.

(** The stages before the increment keep the simulations, and log the
    default decision for the processed agents when the oracle is down. *)
Lemma after_stages_spec (env : LLMEnv F) (simulation : Simulation.t)
  (db : Session F) :
  simulations (live (after_stages env simulation db)) = simulations (live db)
  /\ (unique_agent_ids db -> oracle_down env ->
      Forall2 (fallback_logged simulation db)
        (agents (live db)) (agents (live (after_stages env simulation db)))).
Proof.
  unfold after_stages.
  set (db1 := snd (isolated (process_events_for_tick simulation) db)).
  set (db2 := snd (isolated (calculate_and_store_metrics simulation) db1)).
  set (db3 := snd (isolated (run_agent_updates env simulation) db2)).
  set (db4 := snd (isolated (calculate_and_store_metrics simulation) db3)).
  assert (H01 : stage_rel db db1)
    by apply stage_rel_isolated, preserves_process_events_for_tick.
  assert (H12 : stage_rel db1 db2)
    by apply stage_rel_isolated, preserves_calculate_and_store_metrics.
  assert (H34 : stage_rel db3 db4)
    by apply stage_rel_isolated, preserves_calculate_and_store_metrics.
  pose proof (step_trans _ _ _ H01 H12) as (Hs02 & _ & Ha02).
  destruct H34 as (Hs34 & _ & Ha34).
  assert (Hrun : db3 = snd (run_agent_updates env simulation db2)).
  { unfold db3, isolated, try_except.
    destruct (run_agent_updates_frame env simulation db2) as (Hok & _).
    destruct (run_agent_updates env simulation db2) as [[[]|e] d]; cbn in *;
      [reflexivity | discriminate]. }
  destruct (run_agent_updates_frame env simulation db2) as (_ & Hs23 & _).
  rewrite <- Hrun in Hs23.
  split; [congruence|].
  intros Hnd Hdown.
  assert (Hnd2 : unique_agent_ids db2).
  { unfold unique_agent_ids. now rewrite (agents_kept_ids _ _ Ha02). }
  destruct (run_agent_updates_rows env simulation db2 Hnd2) as (_ & Hrows & _).
  rewrite <- Hrun in Hrows.
  set (g := fun x => if is_processed db2 simulation x
                     then processed_agent env simulation x else x) in Hrows.
  assert (H23 : Forall2 (fun x y => y = g x) (agents (live db2)) (agents (live db3))).
  { rewrite Hrows. apply Forall2_map_r. reflexivity. }
  pose proof (Forall2_chain _ _ (fun x z => agent_kept (g x) z) _ _ _
                (fun x y z (Hxy : y = g x) (Hyz : agent_kept y z) =>
                   eq_ind y (fun w => agent_kept w z) Hyz (g x) Hxy)
                H23 Ha34) as H24.
  apply (Forall2_chain agent_kept (fun x z => agent_kept (g x) z)
           (fallback_logged simulation db) _ _ _) with (2 := Ha02) (3 := H24).
  intros a a2 a4 Hk02 Hk34. unfold fallback_logged. split.
  - destruct Hk34 as (-> & _). unfold g.
    destruct (is_processed db2 simulation a2);
      [rewrite processed_agent_id|]; apply Hk02.
  - intro Hproc.
    rewrite <- (is_processed_kept db db2 simulation a a2 Ha02) in Hproc
      by apply Hk02.
    rewrite (last_decisions_kept _ _ Hk34). unfold g. rewrite Hproc.
    rewrite processed_agent_last_decisions.
    rewrite (oracle_failure_decide env a2 simulation (Hdown a2 simulation)).
    now rewrite (last_decisions_kept _ _ Hk02).
Qed.

(** The increment: the row is found, its tick is set, and the session is
    committed. *)
Lemma update_simulation_tick (simulation_id : uuid) (tick : Z)
  (db : Session F) (sim : Simulation.t) :
  get_simulation db simulation_id = Some sim ->
  exists db',
    update_simulation simulation_id (mkSimulationUpdate None None (Some tick) None) db
    = (Ok (Some (Simulation.set_current_tick tick sim)), db')
    /\ get_simulation db' simulation_id = Some (Simulation.set_current_tick tick sim)
    /\ agents (live db') = agents (live db)
    /\ durable db' = live db'.
Proof.
  intro Hsim. unfold update_simulation, bind, gets. rewrite Hsim.
  cbn. unfold get_simulation at 1. cbn.
  assert (Hfind :
    find (fun s => Simulation.id s =? simulation_id)
      (update_first (fun s => Simulation.id s =? simulation_id)
         (apply_simulation_update (mkSimulationUpdate None None (Some tick) None))
         (simulations (live db)))
    = Some (Simulation.set_current_tick tick sim)).
  { rewrite find_update_first by (intros x Hx; exact Hx).
    unfold get_simulation in Hsim. now rewrite Hsim. }
  rewrite Hfind. eexists. split; [reflexivity|].
  unfold get_simulation. cbn. repeat split. exact Hfind.
Qed.

(** C2.  For a simulation at tick N, the tick advance returns the
    simulation at tick N+1, stored and committed, whatever the oracle does
    and whatever events are due (none included): no failure of a stage
    reaches the caller.  When every oracle call fails, the default
    decision is logged in the short-term memory of every agent the
    pipeline processes: every agent of the simulation, up to 10000 of
    them.  The only exception the endpoint raises over a
    reliable store is the 404 for a simulation that does not exist. *)
Theorem advance_tick_returns_next_tick (env : LLMEnv F) (simulation_id : uuid)
  (db : Session F) (sim : Simulation.t) :
  get_simulation db simulation_id = Some sim ->
  (exists sim' db',
     advance_tick_endpoint env simulation_id db = (Ok sim', db')
     /\ Simulation.current_tick sim' = Simulation.current_tick sim + 1
     /\ sim' = Simulation.set_current_tick (Simulation.current_tick sim + 1) sim
     /\ get_simulation db' simulation_id = Some sim'
     /\ durable db' = live db'
     /\ (unique_agent_ids db -> oracle_down env ->
         Forall2 (fallback_logged sim db) (agents (live db)) (agents (live db'))))
  /\ (Z.of_nat (List.length (agents_of db sim)) <= 10000 ->
      forall a : Agent.t F,
        In a (agents (live db)) ->
        Agent.simulation_id a = Simulation.id sim ->
        is_processed db sim a = true)
  /\ (forall (simulation_id' : uuid) (e : exn),
        fst (advance_tick_endpoint env simulation_id' db) = Raise e ->
        e = HTTPException 404 "Simulation not found"
        /\ get_simulation db simulation_id' = None).
Proof.
  intro Hsim. split; [|split; [intros Hlen a; now apply is_processed_all|]].
  - rewrite (advance_tick_endpoint_stages env simulation_id db sim Hsim).
    destruct (after_stages_spec env sim db) as (Hsims & Hagents).
    assert (Hsim4 : get_simulation (after_stages env sim db) simulation_id = Some sim).
    { unfold get_simulation in *. now rewrite Hsims. }
    destruct (update_simulation_tick simulation_id (Simulation.current_tick sim + 1)
                _ sim Hsim4) as (db' & Hupd & Hget & Hag & Hdur).
    exists (Simulation.set_current_tick (Simulation.current_tick sim + 1) sim), db'.
    unfold bind. rewrite Hupd. cbn. repeat split; try assumption.
    intros Hnd Hdown. rewrite Hag. now apply Hagents.
  - intros sid' e Hraise.
    destruct (get_simulation db sid') as [sim0|] eqn:Hsim0.
    + exfalso.
      rewrite (advance_tick_endpoint_stages env sid' db sim0 Hsim0) in Hraise.
      destruct (after_stages_spec env sim0 db) as (Hsims & _).
      assert (Hsim4 : get_simulation (after_stages env sim0 db) sid' = Some sim0).
      { unfold get_simulation in *. now rewrite Hsims. }
      destruct (update_simulation_tick sid' (Simulation.current_tick sim0 + 1)
                  _ sim0 Hsim4) as (db' & Hupd & _).
      unfold bind in Hraise. rewrite Hupd in Hraise. discriminate.
    + unfold advance_tick_endpoint, bind, gets in Hraise.
      rewrite Hsim0 in Hraise. cbn in Hraise. split; congruence.
Qed.

Lemma oracle_down_no_client : oracle_down (F:=F) env_no_client.
Proof.
  intros agent simulation.
  destruct (construct_agent_prompt agent simulation) as [p|e] eqn:Ep.
  - now apply (client_unavailable _ _ _ p).
  - now apply (prompt_error _ _ _ e).
Qed.

Lemma oracle_down_network_down : oracle_down (F:=F) env_network_down.
Proof.
  intros agent simulation.
  destruct (construct_agent_prompt agent simulation) as [p|e] eqn:Ep.
  - now apply (network_error _ _ _ p (fun _ => Raise (OtherError "ServiceUnavailable"))
                 (OtherError "ServiceUnavailable")).
  - now apply (prompt_error _ _ _ e).
Qed.

End TickProperties.

(** C2 at work: the simulation of the scenario, at tick 0 with no event
    and no oracle client, is returned at tick 1 and each of its three
    agents has the default decision logged. *)
Lemma advance_tick_returns_next_tick_witness :
  get_simulation (F:=float) quiet_session 1 = Some scenario_simulation
  /\ exists sim' db',
       advance_tick_endpoint (F:=float) env_no_client 1 quiet_session = (Ok sim', db')
       /\ Simulation.current_tick sim' = 1
       /\ Forall2 (fallback_logged scenario_simulation quiet_session)
            (agents (live quiet_session)) (agents (live db')).
Proof.
  split; [reflexivity|].
  destruct (advance_tick_returns_next_tick (F:=float) env_no_client 1
              quiet_session scenario_simulation eq_refl)
    as ((sim' & db' & Hrun & Htick & _ & _ & _ & Hlog) & _).
  exists sim', db'. split; [exact Hrun|]. split; [exact Htick|].
  apply Hlog.
  - unfold unique_agent_ids. vm_compute.
    repeat constructor; cbn; intuition discriminate.
  - apply oracle_down_no_client.
Defined.

(** ** The metric calculator ([services/metrics_service.py]) *)

Section BeliefVarianceProperties.
Context {F : Type} `{Float64 F}.

Lemma np_float64_numeric (v : pyval F) (x : F) :
  numeric_value v = Some x -> np_float64 v = Ok x.
Proof.
  destruct v as [ |b|z|y|s|l|d]; cbn; try congruence.
  destruct (float_of_int z); congruence.
Qed.

Lemma np_float64_row_numeric (r : list (pyval F)) (xs : list F) :
  Forall2 (fun v x => numeric_value v = Some x) r xs ->
  np_float64_row r = Ok xs.
Proof.
  induction 1 as [|v x r xs Hv _ IH]; [reflexivity|].
  cbn. now rewrite (np_float64_numeric v x Hv), IH.
Qed.

Lemma np_array_2d_rectangular (width : nat) (vectors : list (list (pyval F)))
  (rows : list (list F)) :
  Forall2 (fun r xs => List.length r = width
                       /\ Forall2 (fun v x => numeric_value v = Some x) r xs)
    vectors rows ->
  np_array_2d width vectors = Ok rows.
Proof.
  induction 1 as [|r xs vectors rows [Hlen Hrow] _ IH]; [reflexivity|].
  cbn. rewrite Hlen, Nat.eqb_refl.
  now rewrite (np_float64_row_numeric r xs Hrow), IH.
Qed.

Lemma np_array_2d_ragged (width : nat) (vectors : list (list (pyval F))) :
  (exists r, In r vectors /\ List.length r <> width) ->
  exists e, np_array_2d width vectors = Raise e.
Proof.
  induction vectors as [|r vectors IH]; intros (r0 & Hin & Hlen); [easy|].
  cbn. destruct (Nat.eqb (List.length r) width) eqn:E; [|eexists; reflexivity].
  destruct (np_float64_row r) as [xs|e]; [|eexists; reflexivity].
  destruct IH as [e He].
  - destruct Hin as [->|Hin]; [|now exists r0].
    apply Nat.eqb_eq in E. congruence.
  - rewrite He. eexists. reflexivity.
Qed.

(** C8, as the code has it.  Without agents the result is [None].  With
    agents none of which carries an ideology vector (a list under
    [political_ideology_vector] in a dict of beliefs) it is [0.0].  When
    the collected vectors are numeric and all as long as the first, it is
    the mean over the dimensions of the variance of each column, the
    variance being the mean squared deviation from the column's mean.
    When a collected vector differs in length from the first, building
    the array raises and the result is [None]. *)
Theorem calculate_belief_variance_cases (agents : list (Agent.t F)) :
  calculate_belief_variance (F:=F) [] = None
  /\ (agents <> [] -> belief_vectors_of agents = [] ->
      calculate_belief_variance agents = Some fzero)
  /\ (forall (first : list (pyval F)) (rest : list (list (pyval F)))
        (rows : list (list F)),
        belief_vectors_of agents = first :: rest ->
        Forall2 (fun r xs => List.length r = List.length first
                             /\ Forall2 (fun v x => numeric_value v = Some x) r xs)
          (first :: rest) rows ->
        calculate_belief_variance agents
        = Some (np_mean
                  (map (fun j =>
                          let xs := map (fun r => nth j r fzero) rows in
                          let mean := np_mean xs in
                          np_mean (map (fun x => fmul (fsub x mean) (fsub x mean)) xs))
                     (seq 0 (List.length first)))))
  /\ (forall (first : list (pyval F)) (rest : list (list (pyval F))),
        belief_vectors_of agents = first :: rest ->
        (exists r, In r rest /\ List.length r <> List.length first) ->
        calculate_belief_variance agents = None).
Proof.
  split; [reflexivity|]. split; [|split].
  - intros Hne Hvec. unfold calculate_belief_variance.
    destruct agents; [congruence|]. now rewrite Hvec.
  - intros first rest rows Hvec Hrows. unfold calculate_belief_variance.
    destruct agents as [|a l]; [discriminate|]. rewrite Hvec. cbv beta iota zeta.
    now rewrite (np_array_2d_rectangular _ _ _ Hrows).
  - intros first rest Hvec (r & Hin & Hlen). unfold calculate_belief_variance.
    destruct agents as [|a l]; [discriminate|]. rewrite Hvec. cbv beta iota zeta.
    destruct (np_array_2d_ragged (List.length first) (first :: rest)) as [e He].
    + exists r. split; [now right | exact Hlen].
    + now rewrite He.
Qed.

End BeliefVarianceProperties.

(** C8 at work: the three agents of the scenario carry the same vector of
    two numbers, so the average of the variances is 0; the two agents with
    vectors of different lengths get [None]. *)
Lemma calculate_belief_variance_cases_witness :
  belief_vectors_of (F:=float) scenario_agents
  = [[PFloat 0.5%float; PFloat 0%float]; [PFloat 0.5%float; PFloat 0%float];
     [PFloat 0.5%float; PFloat 0%float]]
  /\ calculate_belief_variance (F:=float) scenario_agents = Some 0%float
  /\ calculate_belief_variance (F:=float) ragged_agents = None.
Proof.
  split; [vm_compute; reflexivity|].
  destruct (calculate_belief_variance_cases (F:=float) scenario_agents)
    as (_ & _ & Hrect & _).
  destruct (calculate_belief_variance_cases (F:=float) ragged_agents)
    as (_ & _ & _ & Hragged).
  split.
  - rewrite (Hrect [PFloat 0.5%float; PFloat 0%float]
               [[PFloat 0.5%float; PFloat 0%float]; [PFloat 0.5%float; PFloat 0%float]]
               [[0.5%float; 0%float]; [0.5%float; 0%float]; [0.5%float; 0%float]]).
    + vm_compute. reflexivity.
    + vm_compute. reflexivity.
    + repeat constructor.
  - apply (Hragged [PFloat 0.5%float] [[PFloat 0.5%float; PFloat 0%float]]).
    + vm_compute. reflexivity.
    + exists [PFloat 0.5%float; PFloat 0%float]. split; [now left | discriminate].
Defined.

(** C8 refuted as stated: two agents carry ideology vectors, of one and of
    two numbers.  The result is not the average of any variances:
    building the array fails and the function returns [None]. *)
Lemma ragged_vectors_give_none :
  belief_vectors_of (F:=float) ragged_agents
  = [[PFloat 0.5%float]; [PFloat 0.5%float; PFloat 0%float]]
  /\ calculate_belief_variance (F:=float) ragged_agents = None.
Proof. split; vm_compute; reflexivity. Qed.

(** ** The Gini coefficient ([calculate_gini]) *)

Section GiniProperties.
Local Open Scope Q_scope.

Lemma fold_left_Qplus (l : list Q) (a : Q) : fold_left Qplus l a == a + Qsum l.
Proof.
  unfold Qsum. revert a. induction l as [|x l IH]; intro a;
    cbn [fold_left fold_right].
  - ring.
  - rewrite IH. ring.
Qed.

Lemma np_sum_Q (l : list Q) : np_sum (F:=Q) l == Qsum l.
Proof.
  unfold np_sum. change (fadd (F:=Q)) with Qplus.
  rewrite fold_left_Qplus. change (fzero (F:=Q)) with (inject_Z 0). ring.
Qed.

Lemma weighted_sum_cons (k n : Z) (x : Q) (l : list Q) :
  weighted_sum k n (x :: l) = inject_Z (2 * k - n - 1) * x + weighted_sum (k + 1) n l.
Proof. reflexivity. Qed.

Lemma weighted_sum_shift (k n : Z) (l : list Q) :
  weighted_sum (k + 1) (n + 1) l == weighted_sum k n l + Qsum l.
Proof.
  revert k. induction l as [|x l IH]; intro k.
  - unfold Qsum. cbn [weighted_sum fold_right]. ring.
  - rewrite !weighted_sum_cons, IH. unfold Qsum at 2. cbn [fold_right]. fold (Qsum l).
    replace (2 * (k + 1) - (n + 1) - 1)%Z with ((2 * k - n - 1) + 1)%Z by lia.
    rewrite inject_Z_plus. ring.
Qed.

Lemma weighted_sum_step (x : Q) (l : list Q) :
  weighted_sum 1 (Z.of_nat (S (List.length l))) (x :: l)
  == weighted_sum 1 (Z.of_nat (List.length l)) l
     + (Qsum l - inject_Z (Z.of_nat (List.length l)) * x).
Proof.
  rewrite weighted_sum_cons.
  replace (Z.of_nat (S (List.length l))) with (Z.of_nat (List.length l) + 1)%Z by lia.
  rewrite (weighted_sum_shift 1).
  replace (2 * 1 - (Z.of_nat (List.length l) + 1) - 1)%Z
    with (- Z.of_nat (List.length l))%Z by lia.
  rewrite inject_Z_opp. ring.
Qed.

Lemma Qsum_lower (x : Q) (l : list Q) :
  Forall (Qle x) l -> inject_Z (Z.of_nat (List.length l)) * x <= Qsum l.
Proof.
  induction 1 as [|y l Hy _ IH].
  - unfold Qsum. cbn [List.length fold_right Z.of_nat].
    change (inject_Z 0) with 0. lra.
  - unfold Qsum. cbn [List.length fold_right]. fold (Qsum l).
    rewrite Nat2Z.inj_succ, <- Z.add_1_r, inject_Z_plus.
    change (inject_Z 1) with 1. lra.
Qed.

Lemma Qsum_const (c : Q) (l : list Q) :
  Forall (fun x => x == c) l -> Qsum l == inject_Z (Z.of_nat (List.length l)) * c.
Proof.
  induction 1 as [|y l Hy _ IH].
  - unfold Qsum. cbn [List.length fold_right Z.of_nat].
    change (inject_Z 0) with 0. lra.
  - unfold Qsum. cbn [List.length fold_right]. fold (Qsum l).
    rewrite Nat2Z.inj_succ, <- Z.add_1_r, inject_Z_plus, IH, Hy.
    change (inject_Z 1) with 1. ring.
Qed.

Lemma Qsum_nonneg (l : list Q) : Forall (fun x => 0 <= x) l -> 0 <= Qsum l.
Proof.
  induction 1 as [|y l Hy _ IH]; [unfold Qsum; cbn [fold_right]; lra|].
  unfold Qsum. cbn [fold_right]. fold (Qsum l). lra.
Qed.

Lemma Qsum_pos (l : list Q) : l <> [] -> Forall (fun x => 0 < x) l -> 0 < Qsum l.
Proof.
  intros Hne Hall. destruct Hall as [|y l Hy Hl]; [congruence|].
  unfold Qsum. cbn [fold_right]. fold (Qsum l).
  assert (0 <= Qsum l) by (apply Qsum_nonneg; eapply Forall_impl; [|exact Hl];
                           intros a Ha; cbv beta in *; lra).
  lra.
Qed.

Lemma length_nonneg_Q (l : list Q) : 0 <= inject_Z (Z.of_nat (List.length l)).
Proof. change 0 with (inject_Z 0). rewrite <- Zle_Qle. lia. Qed.

Lemma weighted_sum_nonneg (l : list Q) :
  StronglySorted Qle l -> 0 <= weighted_sum 1 (Z.of_nat (List.length l)) l.
Proof.
  induction 1 as [|x l _ IH Hx].
  - unfold Qsum. cbn [weighted_sum fold_right List.length]. lra.
  - cbn [List.length]. rewrite weighted_sum_step.
    pose proof (Qsum_lower x l Hx). lra.
Qed.

Lemma weighted_sum_upper (l : list Q) :
  Forall (fun x => 0 <= x) l ->
  weighted_sum 1 (Z.of_nat (List.length l)) l
  <= inject_Z (Z.of_nat (List.length l) - 1) * Qsum l.
Proof.
  induction 1 as [|x l Hx Hl IH].
  - unfold Qsum. cbn [weighted_sum fold_right List.length]. lra.
  - cbn [List.length]. rewrite weighted_sum_step.
    unfold Qsum at 2. cbn [fold_right]. fold (Qsum l).
    replace (Z.of_nat (S (List.length l)) - 1)%Z with (Z.of_nat (List.length l)) by lia.
    unfold Z.sub in IH. rewrite inject_Z_plus, inject_Z_opp in IH.
    change (inject_Z 1) with 1 in IH.
    pose proof (Qmult_le_0_compat _ _ (length_nonneg_Q l) Hx).
    lra.
Qed.

Lemma weighted_sum_equal (c : Q) (l : list Q) :
  Forall (fun x => x == c) l -> weighted_sum 1 (Z.of_nat (List.length l)) l == 0.
Proof.
  induction 1 as [|x l Hx Hl IH].
  - unfold Qsum. cbn [weighted_sum fold_right List.length]. lra.
  - cbn [List.length]. rewrite weighted_sum_step, IH, (Qsum_const c l Hl), Hx. ring.
Qed.

Section SortGeneric.
Context {F : Type} `{Float64 F}.

Lemma insert_sorted_perm (x : F) (l : list F) :
  Permutation (insert_sorted x l) (x :: l).
Proof.
  induction l as [|y l IH]; [reflexivity|].
  cbn [insert_sorted].
  destruct (fltb y x || (is_nan x && negb (is_nan y))); [|reflexivity].
  rewrite IH. apply perm_swap.
Qed.

Lemma np_sort_perm (l : list F) : Permutation (np_sort l) l.
Proof.
  induction l as [|x l IH]; [reflexivity|].
  cbn [np_sort fold_right]. fold (np_sort l).
  rewrite insert_sorted_perm. now constructor.
Qed.

Lemma np_sort_length (l : list F) : List.length (np_sort l) = List.length l.
Proof. apply Permutation_length, np_sort_perm. Qed.

End SortGeneric.

Lemma Q_is_nan (x : Q) : is_nan (F:=Q) x = false.
Proof.
  unfold is_nan. change (fleb (F:=Q)) with Qle_bool.
  assert (Qle_bool x x = true) as -> by (apply Qle_bool_iff; lra).
  reflexivity.
Qed.

Lemma Q_fltb (a b : Q) : fltb (F:=Q) a b = true <-> a < b.
Proof.
  change (fltb (F:=Q) a b) with (negb (Qle_bool b a)).
  rewrite negb_true_iff. split.
  - intro Hf. apply Qnot_le_lt. intro Hle. apply Qle_bool_iff in Hle. congruence.
  - intro Hlt. destruct (Qle_bool b a) eqn:E; [|reflexivity].
    apply Qle_bool_iff in E. lra.
Qed.

Lemma Q_fltb_false (a b : Q) : fltb (F:=Q) a b = false <-> b <= a.
Proof.
  change (fltb (F:=Q) a b) with (negb (Qle_bool b a)).
  rewrite negb_false_iff. apply Qle_bool_iff.
Qed.

Lemma insert_sorted_sorted (x : Q) (l : list Q) :
  StronglySorted Qle l -> StronglySorted Qle (insert_sorted (F:=Q) x l).
Proof.
  induction 1 as [|y l Hs IH Hy]; cbn [insert_sorted].
  - repeat constructor.
  - rewrite Q_is_nan. cbn [andb]. rewrite orb_false_r.
    destruct (fltb (F:=Q) y x) eqn:E.
    + apply Q_fltb in E. constructor; [exact IH|].
      eapply Permutation_Forall; [symmetry; apply insert_sorted_perm|].
      constructor; [lra | exact Hy].
    + apply Q_fltb_false in E. constructor; [now constructor|].
      constructor; [exact E|].
      eapply Forall_impl; [|exact Hy]. intros a Ha. cbv beta in *. lra.
Qed.

Lemma np_sort_sorted (l : list Q) : StronglySorted Qle (np_sort (F:=Q) l).
Proof.
  induction l as [|x l IH]; [constructor|].
  cbn [np_sort fold_right]. fold (np_sort l). now apply insert_sorted_sorted.
Qed.

Lemma Q_np_minimum (a b : Q) :
  np_minimum (F:=Q) a b <= a /\ np_minimum (F:=Q) a b <= b
  /\ (np_minimum (F:=Q) a b = a \/ np_minimum (F:=Q) a b = b).
Proof.
  unfold np_minimum. destruct (fltb (F:=Q) b a) eqn:E.
  - apply Q_fltb in E. repeat split; try lra. now right.
  - apply Q_fltb_false in E.
    change (fleb (F:=Q) a b) with (Qle_bool a b).
    assert (Qle_bool a b = true) as -> by now apply Qle_bool_iff.
    repeat split; try lra. now left.
Qed.

Lemma fold_minimum_le (l : list Q) (a : Q) :
  fold_left (np_minimum (F:=Q)) l a <= a
  /\ Forall (Qle (fold_left (np_minimum (F:=Q)) l a)) l.
Proof.
  revert a. induction l as [|y l IH]; intro a; cbn [fold_left].
  - split; [lra | constructor].
  - destruct (IH (np_minimum a y)) as [Hle Hall].
    destruct (Q_np_minimum a y) as (Ha & Hy & _).
    split; [lra|]. constructor; [lra | exact Hall].
Qed.

Lemma np_amin_least (l : list Q) : Forall (Qle (np_amin (F:=Q) l)) l.
Proof.
  destruct l as [|x l]; [constructor|].
  cbn [np_amin]. destruct (fold_minimum_le l x) as [Hle Hall].
  now constructor.
Qed.

Lemma Qsum_perm (l l' : list Q) : Permutation l l' -> Qsum l == Qsum l'.
Proof.
  induction 1 as [|x l l' _ IH|x y l|l1 l2 l3 _ IH1 _ IH2]; unfold Qsum in *;
    cbn [fold_right] in *.
  - reflexivity.
  - now rewrite IH.
  - ring.
  - now rewrite IH1.
Qed.

Lemma gini_epsilon_Q : gini_epsilon (F:=Q) == 1 # 10000000.
Proof. reflexivity. Qed.

Lemma gini_numerator_Q (rank n : Z) (l : list Q) :
  np_sum (F:=Q)
    (map (fun ix => fmul (f_of_Z (2 * fst ix - n - 1)) (snd ix))
       (combine (np_arange rank (List.length l)) l))
  == weighted_sum rank n l.
Proof.
  rewrite np_sum_Q. revert rank. induction l as [|v l IH]; intro rank.
  - reflexivity.
  - cbn [List.length np_arange combine map weighted_sum].
    unfold Qsum. cbn [fold_right]. fold (Qsum (map
      (fun ix : Z * Q => fmul (f_of_Z (2 * fst ix - n - 1)) (snd ix))
      (combine (np_arange (rank + 1) (List.length l)) l))).
    rewrite IH. reflexivity.
Qed.

Lemma np_amin_in (l : list Q) : l <> [] -> In (np_amin (F:=Q) l) l.
Proof.
  destruct l as [|x l]; [congruence|]. intros _. cbn [np_amin].
  revert x. induction l as [|y l IH]; intro x; cbn [fold_left]; [now left|].
  destruct (Q_np_minimum x y) as (_ & _ & [-> | ->]).
  - destruct (IH x) as [Hx|Hin]; [now left | now right; right].
  - destruct (IH y) as [Hy|Hin]; [now right; left | now right; right].
Qed.

(** C7, in exact arithmetic.  [calculate_gini] of an empty list is [None].
    For a non-empty list it returns a number [g], described by
    [gini_exact]: the incomes are shifted by their least value when that
    is negative, 1e-7 is added to each, the values are sorted ascending,
    and [g] is [sum((2 * rank - n - 1) * value) / (n * sum(value))] with
    ranks from 1; the values are positive, so the division is defined;
    [0 <= g < 1]; and [g] is [0] when all incomes are equal. *)
Theorem calculate_gini_exact (incomes : list Q) :
  calculate_gini (F:=Q) [] = None
  /\ (incomes <> [] ->
      exists g, calculate_gini incomes = Some g /\ gini_exact incomes g).
Proof.
  split; [reflexivity|]. intro Hne.
  unfold calculate_gini. destruct incomes as [|x0 rest] eqn:Ein; [congruence|].
  rewrite <- Ein in *. clear x0 rest Ein.
  set (least := np_amin incomes).
  set (shifted := if fltb least fzero
                  then map (fun x => fsub x least) incomes else incomes).
  set (array := np_sort (map (fun x => fadd x gini_epsilon) shifted)).
  eexists. split; [reflexivity|].
  pose proof (np_amin_least incomes) as Hleast. fold least in Hleast.
  pose proof (np_amin_in incomes Hne) as Hin. fold least in Hin.
  assert (Hperm : Permutation array (map (fun x => fadd x gini_epsilon) shifted))
    by apply np_sort_perm.
  assert (Hshape :
    (least < 0 -> map (fun x => fadd x gini_epsilon) shifted
                  = map (fun x => x - least + (1 # 10000000)) incomes)
    /\ (0 <= least -> map (fun x => fadd x gini_epsilon) shifted
                      = map (fun x => x + (1 # 10000000)) incomes)).
  { unfold shifted. destruct (fltb least fzero) eqn:E.
    - apply Q_fltb in E. change (fzero (F:=Q)) with 0 in E. split.
      + intros _. rewrite map_map. reflexivity.
      + intro Hge. lra.
    - apply Q_fltb_false in E. change (fzero (F:=Q)) with 0 in E. split.
      + intro Hlt. lra.
      + intros _. reflexivity. }
  assert (Hpos0 : Forall (fun v => 0 < v) (map (fun x => fadd x gini_epsilon) shifted)).
  { destruct Hshape as [Hneg Hnonneg]. destruct (Qlt_le_dec least 0) as [Hlt|Hge].
    - rewrite (Hneg Hlt). apply Forall_map.
      eapply Forall_impl; [|exact Hleast]. intros a Ha. cbv beta in *. lra.
    - rewrite (Hnonneg Hge). apply Forall_map.
      eapply Forall_impl; [|exact Hleast]. intros a Ha. cbv beta in *. lra. }
  assert (Hpos : Forall (fun v => 0 < v) array).
  { eapply Permutation_Forall; [symmetry; exact Hperm | exact Hpos0]. }
  assert (Hsorted : StronglySorted Qle array) by apply np_sort_sorted.
  assert (Hlen : array <> []).
  { intro Hnil. apply (f_equal (@List.length Q)) in Hnil.
    unfold array in Hnil. rewrite np_sort_length, length_map in Hnil.
    assert (List.length shifted = List.length incomes) as Hl.
    { unfold shifted. destruct (fltb least fzero); [apply length_map | reflexivity]. }
    rewrite Hl in Hnil. destruct incomes; [congruence | discriminate]. }
  set (n := Z.of_nat (List.length array)).
  assert (Hn : 1 <= inject_Z n).
  { change 1 with (inject_Z 1). rewrite <- Zle_Qle. unfold n.
    destruct array; [congruence | cbn [List.length]; lia]. }
  assert (HS : 0 < Qsum array) by now apply Qsum_pos.
  assert (Hden : 0 < inject_Z n * Qsum array) by (apply Qmult_lt_0_compat; lra).
  assert (Hg : fdiv (F:=Q)
                 (np_sum (map (fun ix => fmul (f_of_Z (2 * fst ix - n - 1)) (snd ix))
                            (combine (np_arange 1 (List.length array)) array)))
                 (fmul (f_of_Z n) (np_sum array))
               == weighted_sum 1 n array / (inject_Z n * Qsum array)).
  { change (fdiv (F:=Q)) with Qdiv. change (fmul (F:=Q)) with Qmult.
    change (f_of_Z (F:=Q)) with inject_Z.
    pose proof (gini_numerator_Q 1 n array) as Hnum.
    change (fmul (F:=Q)) with Qmult in Hnum. change (f_of_Z (F:=Q)) with inject_Z in Hnum.
    rewrite Hnum, np_sum_Q. reflexivity. }
  exists least, array.
  split; [exact Hin|]. split; [exact Hleast|].
  split; [intro Hlt; rewrite <- (proj1 Hshape Hlt); exact Hperm|].
  split; [intro Hge; rewrite <- (proj2 Hshape Hge); exact Hperm|].
  split; [exact Hsorted|]. split; [exact Hpos|]. split; [exact Hg|].
  pose proof (weighted_sum_nonneg array Hsorted) as Hlow. fold n in Hlow.
  assert (Hup : weighted_sum 1 n array <= inject_Z (n - 1) * Qsum array).
  { apply weighted_sum_upper. eapply Forall_impl; [|exact Hpos].
    intros a Ha. cbv beta in *. lra. }
  unfold Z.sub in Hup. rewrite inject_Z_plus, inject_Z_opp in Hup.
  change (inject_Z 1) with 1 in Hup.
  split; [|split].
  - rewrite Hg. apply Qle_shift_div_l; [exact Hden | lra].
  - rewrite Hg. apply Qlt_shift_div_r; [exact Hden | lra].
  - intros c Hc. rewrite Hg.
    assert (Hzero : weighted_sum 1 n array == 0).
    { destruct (Qlt_le_dec least 0) as [Hlt|Hge].
      - apply (weighted_sum_equal (c - least + (1 # 10000000))).
        eapply Permutation_Forall; [symmetry; exact Hperm|].
        rewrite (proj1 Hshape Hlt). apply Forall_map.
        eapply Forall_impl; [|exact Hc]. intros a Ha. cbv beta in *. now rewrite Ha.
      - apply (weighted_sum_equal (c + (1 # 10000000))).
        eapply Permutation_Forall; [symmetry; exact Hperm|].
        rewrite (proj2 Hshape Hge). apply Forall_map.
        eapply Forall_impl; [|exact Hc]. intros a Ha. cbv beta in *. now rewrite Ha. }
    rewrite Hzero. unfold Qdiv. ring.
Qed.

End GiniProperties.

(** C7 at work, in exact arithmetic: the incomes 3, 1, 2. *)
Lemma calculate_gini_exact_witness :
  [3%Q; 1%Q; 2%Q] <> []
  /\ exists g, calculate_gini (F:=Q) [3%Q; 1%Q; 2%Q] = Some g
               /\ gini_exact [3%Q; 1%Q; 2%Q] g.
Proof.
  split; [discriminate|].
  apply (proj2 (calculate_gini_exact [3%Q; 1%Q; 2%Q])). discriminate.
Defined.

Section GiniBinary64.
Context {F : Type} `{Float64 F}.

(** Whatever the arithmetic, a non-empty list gets a number: the function
    has no path that raises. *)
Lemma calculate_gini_total (incomes : list F) :
  incomes <> [] -> exists g, calculate_gini incomes = Some g.
Proof.
  intro Hne. destruct incomes; [congruence|]. eexists. reflexivity.
Qed.

End GiniBinary64.

(** In binary64: equal incomes give exactly 0 here, and the incomes 1, 2, 3
    give the binary64 number nearest to 0.22222221111111165. *)
Lemma calculate_gini_binary64_examples :
  calculate_gini (F:=float) [5; 5; 5]%float = Some 0%float
  /\ calculate_gini (F:=float) [1; 2; 3]%float = Some 0.22222221111111165%float.
Proof. split; vm_compute; reflexivity. Qed.

(** C7 refuted as stated: three finite, non-negative incomes of 1e308.
    The products [-2 * 1e308] and [2 * 1e308] overflow to the two
    infinities, their sum is NaN, and the function returns NaN: not a
    finite number, and not in [0, 1). *)
Lemma gini_of_huge_incomes_is_nan :
  forallb (fun x => PrimFloat.leb 0 x && PrimFloat.ltb x infinity) huge_incomes = true
  /\ calculate_gini (F:=float) huge_incomes = Some nan
  /\ PrimFloat.leb 0 nan = false
  /\ PrimFloat.ltb nan 1 = false.
Proof. repeat split; vm_compute; reflexivity. Qed.

(* ================================================================= *)
(** * Further properties *)

(** ** What the stages of a tick write to *)

Section Touches.
Context {F : Type} `{Float64 F}.

Local Open Scope session_scope.

Lemma agent_touched_refl (ka : list uuid) (a : Agent.t F) : agent_touched ka a a.
Proof. unfold agent_touched. auto. Qed.

Lemma agent_touched_trans (ka : list uuid) (a1 a2 a3 : Agent.t F) :
  agent_touched ka a1 a2 -> agent_touched ka a2 a3 -> agent_touched ka a1 a3.
Proof.
  unfold agent_touched. intros (I1 & S1 & K1) (I2 & S2 & K2).
  repeat split; try congruence.
  intro Hk. rewrite <- (K1 Hk). apply K2. now rewrite I1.
Qed.

Lemma event_touched_refl (ke : list uuid) (e : Event.t F) : event_touched ke e e.
Proof. unfold event_touched. auto. Qed.

Lemma event_touched_trans (ke : list uuid) (e1 e2 e3 : Event.t F) :
  event_touched ke e1 e2 -> event_touched ke e2 e3 -> event_touched ke e1 e3.
Proof.
  unfold event_touched. intros (I1 & S1 & K1) (I2 & S2 & K2).
  repeat split; try congruence.
  intro Hk. rewrite <- (K1 Hk). apply K2. now rewrite I1.
Qed.

#[export] Instance touches_step (ka ke : list uuid) (ks : MetricSnapshot.t F -> Prop) :
  StepRelation (touches ka ke ks).
Proof.
  unfold touches. split.
  - intro db. repeat split.
    + apply Forall2_refl_all, agent_touched_refl.
    + apply Forall2_refl_all, event_touched_refl.
    + exists []. now rewrite app_nil_r.
  - intros db1 db2 db3 (S12 & L12 & A12 & E12 & added1 & M12 & K12)
                       (S23 & L23 & A23 & E23 & added2 & M23 & K23).
    repeat split; try congruence.
    + eapply Forall2_trans_all; eauto using agent_touched_trans.
    + eapply Forall2_trans_all; eauto using event_touched_trans.
    + exists (added1 ++ added2). rewrite M23, M12, app_assoc.
      split; [reflexivity | now apply Forall_app].
  - intros db db' ->. repeat split.
    + apply Forall2_refl_all, agent_touched_refl.
    + apply Forall2_refl_all, event_touched_refl.
    + exists []. now rewrite app_nil_r.
Qed.

Lemma touches_weaken (ka ke ka' ke' : list uuid)
  (ks ks' : MetricSnapshot.t F -> Prop) (db db' : Session F) :
  incl ka ka' -> incl ke ke' -> (forall s, ks s -> ks' s) ->
  touches ka ke ks db db' -> touches ka' ke' ks' db db'.
Proof.
  intros Ha He Hs (S & L & A & E & added & M & K). repeat split; try assumption.
  - eapply Forall2_impl; [|exact A].
    intros a a' (I1 & S1 & K1). repeat split; auto.
  - eapply Forall2_impl; [|exact E].
    intros e e' (I1 & S1 & K1). repeat split; auto.
  - exists added. split; [exact M|]. eapply Forall_impl; [|exact K]. exact Hs.
Qed.

(** The keys of the agents of a simulation stay the same. *)
Lemma touches_agent_ids (ka ke : list uuid) (ks : MetricSnapshot.t F -> Prop)
  (db db' : Session F) (sid : uuid) :
  touches ka ke ks db db' -> agent_ids_of db' sid = agent_ids_of db sid.
Proof.
  intros (_ & _ & A & _). unfold agent_ids_of.
  induction A as [|a a' rows rows' (Hid & Hsid & _) _ IH]; [reflexivity|].
  cbn. rewrite Hsid. destruct (Agent.simulation_id a =? sid); cbn; now rewrite ?Hid, IH.
Qed.

Lemma preserves_for_each_in (R : Session F -> Session F -> Prop)
  `{!StepRelation R} {A} (l : list A) (body : A -> M F unit) :
  (forall x, In x l -> preserves R (body x)) -> preserves R (for_each l body).
Proof.
  induction l as [|x l IH]; intro Hb; cbn [for_each].
  - apply preserves_ret; assumption.
  - apply preserves_bind; [assumption | apply Hb; now left |].
    intros _. apply IH. intros y Hy. apply Hb. now right.
Qed.

Lemma Forall2_update_first_key {A} (key : A -> uuid) (Q : A -> A -> Prop)
  (k : uuid) (f : A -> A) (l : list A) :
  (forall x, Q x x) -> (forall x, key x = k -> Q x (f x)) ->
  Forall2 Q l (update_first (fun r => key r =? k) f l).
Proof.
  intros Hr Hf. apply Forall2_update_first; [exact Hr|].
  intros x Hx. apply Hf. now apply Z.eqb_eq.
Qed.

Lemma touches_update_event_status (ka ke : list uuid)
  (ks : MetricSnapshot.t F -> Prop) (event_id : uuid) (status : string) :
  In event_id ke ->
  preserves (touches ka ke ks) (update_event_status (F:=F) event_id status).
Proof.
  intro Hin. unfold update_event_status.
  pbind; [pauto|]. intros [row|]; [|pauto].
  pbind.
  { destruct (String.eqb status "triggered"); [|pauto]. pbind; pauto. }
  intro stamp. pbind; [|intros _; pbind; pauto].
  intro db. unfold modify_live, touches. cbn. repeat split.
  - apply Forall2_refl_all, agent_touched_refl.
  - apply Forall2_update_first_key; [apply event_touched_refl|].
    intros e He. unfold event_touched.
    destruct stamp; cbn; repeat split; intro Hk; exfalso; apply Hk; now rewrite He.
  - exists []. now rewrite app_nil_r.
Qed.

Lemma touches_assign_agent (ka ke : list uuid) (ks : MetricSnapshot.t F -> Prop)
  (agent_id : uuid) (setter : Agent.t F -> Agent.t F) :
  In agent_id ka ->
  (forall r, Agent.id (setter r) = Agent.id r) ->
  (forall r, Agent.simulation_id (setter r) = Agent.simulation_id r) ->
  preserves (touches ka ke ks) (assign_agent agent_id setter).
Proof.
  intros Hin Hid Hsid db. unfold assign_agent, modify_live, touches. cbn.
  repeat split.
  - apply Forall2_update_first_key; [apply agent_touched_refl|].
    intros a Ha. unfold agent_touched. repeat split; auto.
    intro Hk. exfalso. apply Hk. now rewrite Ha.
  - apply Forall2_refl_all, event_touched_refl.
  - exists []. now rewrite app_nil_r.
Qed.

Lemma touches_create_metric_snapshot (ka ke : list uuid)
  (ks : MetricSnapshot.t F -> Prop) (simulation_id : uuid) (tick : Z)
  (gini variance : option F) :
  (forall new_id, ks (MetricSnapshot.mk new_id simulation_id tick gini variance)) ->
  preserves (touches ka ke ks)
    (create_metric_snapshot simulation_id tick gini variance).
Proof.
  intro Hks. unfold create_metric_snapshot.
  pbind; [pauto|]. intro new_id.
  pbind; [|intros _; pbind; pauto].
  intro db. unfold modify_live, touches. cbn. repeat split.
  - apply Forall2_refl_all, agent_touched_refl.
  - apply Forall2_refl_all, event_touched_refl.
  - eexists. split; [reflexivity|]. repeat constructor. apply Hks.
Qed.

Lemma touches_apply_ubi_to_agent (ka ke : list uuid)
  (ks : MetricSnapshot.t F -> Prop) (amount : F) (agent : Agent.t F) :
  In (Agent.id agent) ka ->
  preserves (touches ka ke ks) (apply_ubi_to_agent amount agent).
Proof.
  intro Hin. unfold apply_ubi_to_agent.
  destruct (as_dict (Agent.demographics agent)); [|pauto].
  pbind; [pauto|]. intro income.
  apply touches_assign_agent; auto.
Qed.

Lemma touches_update_agent (ka ke : list uuid) (ks : MetricSnapshot.t F -> Prop)
  (env : LLMEnv F) (simulation : Simulation.t) (agent : Agent.t F) :
  In (Agent.id agent) ka ->
  preserves (touches ka ke ks) (update_agent env simulation agent).
Proof.
  intro Hin. unfold update_agent.
  pbind; [apply touches_assign_agent; auto|]. intros _.
  pbind; [pauto|]. intro beliefs.
  apply touches_assign_agent; auto.
Qed.

Lemma get_agents_ids_of (db : Session F) (sid : uuid) (skip limit : Z)
  (a : Agent.t F) :
  In a (get_agents db (Some sid) skip limit) -> In (Agent.id a) (agent_ids_of db sid).
Proof.
  unfold get_agents, agent_ids_of. intro Hin.
  apply In_firstn_skipn in Hin. now apply in_map.
Qed.

(** An application of a UBI event writes to the agents of the simulation
    and to the event, and to nothing else. *)
Lemma touches_apply_ubi_event (simulation : Simulation.t) (event : Event.t F)
  (db : Session F) (ks : MetricSnapshot.t F -> Prop) :
  touches (agent_ids_of db (Simulation.id simulation)) [Event.id event] ks
    db (snd (apply_ubi_event simulation event db)).
Proof.
  set (ka := agent_ids_of db (Simulation.id simulation)).
  set (ke := [Event.id event]).
  assert (Hke : In (Event.id event) ke) by now left.
  unfold apply_ubi_event.
  assert (Hfailed : preserves (touches ka ke ks)
                      (update_event_status (F:=F) (Event.id event) "failed" ;;; ret tt)).
  { pbind; [|pauto]. now apply touches_update_event_status. }
  destruct (UBIEventParams_init (Event.parameters event)) as [params|e].
  - unfold bind at 1, gets at 1.
    set (agents := get_agents db (Some (Simulation.id simulation)) 0 10000).
    assert (Hloop : preserves (touches ka ke ks)
              (for_each agents (fun agent =>
                 try_except (apply_ubi_to_agent (amount_per_agent params) agent)
                   (except_Exception (fun _ => ret tt))))).
    { apply (preserves_for_each_in (touches ka ke ks)). intros agent Hagent. ptry.
      - apply touches_apply_ubi_to_agent. eapply get_agents_ids_of. exact Hagent.
      - intros e k [= <-]. pauto. }
    assert (Hrest : preserves (touches ka ke ks)
              (try_except
                 (update_event_status (F:=F) (Event.id event) "processed" ;;; commit)
                 (except_Exception (fun _ => rollback)))).
    { intro db1.
      rewrite try_except_never_raises
        by apply never_raises_update_event_status_commit.
      revert db1. pbind; [|pauto].
      now apply touches_update_event_status. }
    exact (preserves_bind (touches ka ke ks) _ _ Hloop (fun _ => Hrest) db).
  - destruct e; try apply Hfailed; apply (preserves_raise (touches ka ke ks)).
Qed.

(** The body of the loop of [process_events_for_tick]. *)
Lemma touches_event_body (simulation : Simulation.t) (event : Event.t F)
  (db : Session F) (ke : list uuid) (ks : MetricSnapshot.t F -> Prop) :
  In (Event.id event) ke ->
  touches (agent_ids_of db (Simulation.id simulation)) ke ks db
    (snd ((update_event_status (Event.id event) "triggered" ;;;
           commit ;;;
           if String.eqb (Event.event_type event) "ubi"
           then apply_ubi_event simulation event
           else (update_event_status (Event.id event) "failed" ;;; commit)) db)).
Proof.
  intro Hin.
  set (ka := agent_ids_of db (Simulation.id simulation)).
  assert (Hhead : preserves (touches ka ke ks)
            (update_event_status (F:=F) (Event.id event) "triggered" ;;; commit)).
  { pbind; [|pauto]. now apply touches_update_event_status. }
  specialize (Hhead db).
  unfold bind at 1. unfold bind at 1 in Hhead.
  destruct (update_event_status (Event.id event) "triggered" db) as [[r|e] db1];
    [|exact Hhead].
  unfold bind at 1. unfold commit at 1. unfold commit in Hhead. cbn [snd] in Hhead.
  cbn iota beta.
  set (db2 := mkSession (live db1) (live db1) (memory_seq db1) (uuid_seq db1) (now db1))
    in *.
  eapply step_trans; [exact Hhead|].
  destruct (String.eqb (Event.event_type event) "ubi").
  - apply (touches_weaken (agent_ids_of db2 (Simulation.id simulation))
             [Event.id event] ka ke ks ks).
    + rewrite (touches_agent_ids _ _ _ _ _ _ Hhead). apply incl_refl.
    + intros i [<-|[]]. exact Hin.
    + auto.
    + apply touches_apply_ubi_event.
  - clear Hhead. clearbody db2. revert db2. pbind; [|pauto].
    now apply touches_update_event_status.
Qed.

Lemma touches_event_loop (simulation : Simulation.t) (ka ke : list uuid)
  (ks : MetricSnapshot.t F -> Prop) (l : list (Event.t F)) (db : Session F) :
  (forall x, In x l -> In (Event.id x) ke) ->
  agent_ids_of db (Simulation.id simulation) = ka ->
  touches ka ke ks db
    (snd (for_each l (fun event =>
            update_event_status (Event.id event) "triggered" ;;;
            commit ;;;
            if String.eqb (Event.event_type event) "ubi"
            then apply_ubi_event simulation event
            else (update_event_status (Event.id event) "failed" ;;; commit)) db)).
Proof.
  revert db. induction l as [|x l IH]; intros db Hl Hka; cbn [for_each].
  - apply step_refl.
  - pose proof (touches_event_body simulation x db ke ks (Hl x (or_introl eq_refl)))
      as Hbody.
    rewrite Hka in Hbody. unfold bind at 1.
    destruct ((update_event_status (Event.id x) "triggered" ;;;
               commit ;;;
               if String.eqb (Event.event_type x) "ubi"
               then apply_ubi_event simulation x
               else (update_event_status (Event.id x) "failed" ;;; commit)) db)
      as [[r|e] db2]; [|exact Hbody].
    cbn [snd] in Hbody. eapply step_trans; [exact Hbody|].
    apply IH.
    + intros y Hy. apply Hl. now right.
    + now rewrite (touches_agent_ids _ _ _ _ _ _ Hbody).
Qed.

(** The event processor writes to the events it selects and to the agents
    of the simulation, and to nothing else. *)
Lemma touches_process_events_for_tick (simulation : Simulation.t)
  (db : Session F) (ks : MetricSnapshot.t F -> Prop) :
  touches (agent_ids_of db (Simulation.id simulation)) (selected_ids db simulation) ks
    db (snd (process_events_for_tick simulation db)).
Proof.
  unfold process_events_for_tick, selected_ids. unfold bind at 1, gets at 1.
  apply touches_event_loop; [|reflexivity].
  intros x Hx. now apply in_map.
Qed.

Lemma touches_calculate_and_store_metrics (simulation : Simulation.t) :
  preserves (touches [] [] (snapshot_of simulation))
    (calculate_and_store_metrics (F:=F) simulation).
Proof.
  unfold calculate_and_store_metrics.
  pbind; [pauto|]. intros [|a agents]; [pauto|].
  pbind; [pauto|]. intro incomes. ptry.
  - pbind; [|pauto]. apply touches_create_metric_snapshot.
    intro new_id. split; reflexivity.
  - intros e k [= <-]. pauto.
Qed.

(** The agent update pipeline writes to the agents of the simulation. *)
Lemma touches_run_agent_updates (env : LLMEnv F) (simulation : Simulation.t)
  (db : Session F) (ke : list uuid) (ks : MetricSnapshot.t F -> Prop) :
  touches (agent_ids_of db (Simulation.id simulation)) ke ks
    db (snd (run_agent_updates env simulation db)).
Proof.
  unfold run_agent_updates. unfold bind at 1, gets at 1.
  set (ka := agent_ids_of db (Simulation.id simulation)).
  set (l := get_agents db _ _ _).
  assert (Hl : forall a, In a l -> In (Agent.id a) ka).
  { intros a Ha. eapply get_agents_ids_of. exact Ha. }
  destruct l as [|a l]; [apply step_refl|].
  apply (preserves_for_each_in (touches ka ke ks)). intros agent Hagent. ptry.
  - apply touches_update_agent. now apply Hl.
  - intros e k [= <-]. pauto.
Qed.

(** The four stages of a tick together. *)
Lemma touches_after_stages (env : LLMEnv F) (simulation : Simulation.t)
  (db : Session F) :
  touches (agent_ids_of db (Simulation.id simulation)) (selected_ids db simulation)
    (snapshot_of simulation) db (after_stages env simulation db).
Proof.
  unfold after_stages.
  set (ka := agent_ids_of db (Simulation.id simulation)).
  set (ke := selected_ids db simulation).
  set (ks := snapshot_of simulation).
  set (db1 := snd (isolated (process_events_for_tick simulation) db)).
  set (db2 := snd (isolated (calculate_and_store_metrics simulation) db1)).
  set (db3 := snd (isolated (run_agent_updates env simulation) db2)).
  set (db4 := snd (isolated (calculate_and_store_metrics simulation) db3)).
  assert (Hiso : forall (stage : M F unit) (d : Session F),
            touches ka ke ks d (snd (stage d)) ->
            touches ka ke ks d (snd (isolated stage d))).
  { intros stage d Hs. unfold isolated, try_except, except_Exception, ret.
    destruct (stage d) as [[[]|e] d1]; exact Hs. }
  assert (Hmetrics : forall d, touches ka ke ks d
            (snd (isolated (calculate_and_store_metrics simulation) d))).
  { intro d. apply Hiso.
    apply (touches_weaken [] [] ka ke ks ks); auto using incl_nil_l.
    apply touches_calculate_and_store_metrics. }
  assert (H01 : touches ka ke ks db db1).
  { apply Hiso, touches_process_events_for_tick. }
  assert (H12 : touches ka ke ks db1 db2) by apply Hmetrics.
  assert (H02 : touches ka ke ks db db2) by (eapply step_trans; eassumption).
  assert (H23 : touches ka ke ks db2 db3).
  { apply Hiso.
    pose proof (touches_agent_ids _ _ _ _ _ (Simulation.id simulation) H02) as Hka.
    fold ka in Hka. rewrite <- Hka. apply touches_run_agent_updates. }
  assert (H34 : touches ka ke ks db3 db4) by apply Hmetrics.
  eapply step_trans; [exact H02|]. eapply step_trans; eassumption.
Qed.

End Touches.

(** ** Loops over keyed rows *)

Section KeyedLoop.
Context {F : Type} `{Float64 F}.
Context {X V : Type} (key : X -> uuid) (lookup : Session F -> uuid -> option V).
Context (body : X -> M F unit) (P : X -> Prop) (Q : X -> V -> V -> Prop).

Hypothesis body_ok : forall x db, P x -> fst (body x db) = Ok tt.
Hypothesis body_other :
  forall x db j, j <> key x -> lookup (snd (body x db)) j = lookup db j.
Hypothesis body_post :
  forall x db r, P x -> lookup db (key x) = Some r ->
    exists r', lookup (snd (body x db)) (key x) = Some r' /\ Q x r r'.

Lemma for_each_keyed (l : list X) (db : Session F) :
  Forall P l -> NoDup (map key l) ->
  fst (for_each l body db) = Ok tt
  /\ (forall j, ~ In j (map key l) ->
        lookup (snd (for_each l body db)) j = lookup db j)
  /\ (forall x r, In x l -> lookup db (key x) = Some r ->
        exists r', lookup (snd (for_each l body db)) (key x) = Some r' /\ Q x r r').
Proof.
  revert db. induction l as [|x l IH]; intros db HP Hnd.
  - cbn. repeat split. intros x r [].
  - inversion HP as [|? ? Hx HPl]; subst.
    inversion Hnd as [|? ? Hnotin Hndl]; subst.
    cbn [for_each]. unfold bind.
    pose proof (body_ok x db Hx) as Hok.
    destruct (body x db) as [[[]|e] db1] eqn:Eb; cbn in Hok; [|discriminate].
    assert (Hdb1 : db1 = snd (body x db)) by now rewrite Eb.
    destruct (IH db1 HPl Hndl) as (Hfst & Hother & Hpost).
    split; [exact Hfst|]. split.
    + intros j Hj. rewrite Hother by (intro Hin; apply Hj; now right).
      rewrite Hdb1. apply body_other. intro Hk. apply Hj. left. now symmetry.
    + intros y r [<-|Hy] Hr.
      * destruct (body_post x db r Hx Hr) as (r' & Hr' & HQ).
        exists r'. split; [|exact HQ].
        rewrite Hother by exact Hnotin. now rewrite Hdb1.
      * apply Hpost; [exact Hy|].
        rewrite Hdb1, body_other; [exact Hr|].
        intro Hk. apply Hnotin. rewrite <- Hk. now apply in_map.
Qed.

End KeyedLoop.

Section Lookups.
Context {F : Type} `{Float64 F}.

Local Open Scope session_scope.

Lemma find_by_key {A} (key : A -> uuid) (l : list A) (x : A) :
  NoDup (map key l) -> In x l -> find (fun r => key r =? key x) l = Some x.
Proof.
  induction l as [|y l IH]; intros Hnd Hin; [destruct Hin|].
  inversion Hnd as [|? ? Hnotin Hndl]; subst. cbn.
  destruct (key y =? key x) eqn:E.
  - apply Z.eqb_eq in E. destruct Hin as [->|Hin]; [reflexivity|].
    exfalso. apply Hnotin. rewrite E. now apply in_map.
  - destruct Hin as [->|Hin]; [now rewrite Z.eqb_refl in E|]. now apply IH.
Qed.

Lemma get_agent_unique (db : Session F) (a : Agent.t F) :
  unique_agent_ids db -> In a (agents (live db)) -> get_agent db (Agent.id a) = Some a.
Proof. intros Hnd Hin. now apply (find_by_key Agent.id). Qed.

Lemma get_event_unique (db : Session F) (e : Event.t F) :
  unique_event_ids db -> In e (events (live db)) -> get_event db (Event.id e) = Some e.
Proof. intros Hnd Hin. now apply (find_by_key Event.id). Qed.

Lemma find_Forall2_untouched {A} (key : A -> uuid) (ks : list uuid) (j : uuid)
  (l l' : list A) :
  Forall2 (fun x x' => key x' = key x /\ (~ In (key x) ks -> x' = x)) l l' ->
  ~ In j ks ->
  find (fun r => key r =? j) l' = find (fun r => key r =? j) l.
Proof.
  intros Hall Hj. induction Hall as [|x x' l l' (Hk & Hsame) _ IH]; [reflexivity|].
  cbn. rewrite Hk. destruct (key x =? j) eqn:E; [|exact IH].
  apply Z.eqb_eq in E. rewrite Hsame; [reflexivity|]. now rewrite E.
Qed.

(** Reading a row that was not written to gives what it gave before. *)
Lemma get_event_touches (ka ke : list uuid) (ks : MetricSnapshot.t F -> Prop)
  (db db' : Session F) (j : uuid) :
  touches ka ke ks db db' -> ~ In j ke -> get_event db' j = get_event db j.
Proof.
  intros (_ & _ & _ & E & _) Hj. unfold get_event.
  apply (find_Forall2_untouched Event.id ke); [|exact Hj].
  eapply Forall2_impl; [|exact E]. intros e e' (Hid & _ & Hsame). auto.
Qed.

Lemma get_agent_touches (ka ke : list uuid) (ks : MetricSnapshot.t F -> Prop)
  (db db' : Session F) (j : uuid) :
  touches ka ke ks db db' -> ~ In j ka -> get_agent db' j = get_agent db j.
Proof.
  intros (_ & _ & A & _) Hj. unfold get_agent.
  apply (find_Forall2_untouched Agent.id ka); [|exact Hj].
  eapply Forall2_impl; [|exact A]. intros a a' (Hid & _ & Hsame). auto.
Qed.

Lemma touches_event_ids (ka ke : list uuid) (ks : MetricSnapshot.t F -> Prop)
  (db db' : Session F) :
  touches ka ke ks db db' ->
  map Event.id (events (live db')) = map Event.id (events (live db)).
Proof.
  intros (_ & _ & _ & E & _).
  induction E as [|e e' l l' (Hid & _) _ IH]; [reflexivity|].
  cbn. now rewrite Hid, IH.
Qed.

Lemma touches_all_agent_ids (ka ke : list uuid) (ks : MetricSnapshot.t F -> Prop)
  (db db' : Session F) :
  touches ka ke ks db db' ->
  map Agent.id (agents (live db')) = map Agent.id (agents (live db)).
Proof.
  intros (_ & _ & A & _).
  induction A as [|a a' l l' (Hid & _) _ IH]; [reflexivity|].
  cbn. now rewrite Hid, IH.
Qed.

End Lookups.

(** ** The event processor, event by event ([services/event_service.py]) *)

Section EventLifecycle.
Context {F : Type} `{Float64 F}.

Local Open Scope session_scope.

Lemma validate_float_raises (v : pyval F) (e : exn) :
  validate_float v = Raise e -> e = ValidationError.
Proof.
  destruct v as [ |b|z|x|s|l|d]; cbn; try congruence.
  destruct (float_of_int z); congruence.
Qed.

Lemma validate_int_raises (v : pyval F) (e : exn) :
  validate_int v = Raise e -> e = ValidationError.
Proof.
  destruct v as [ |b|z|x|s|l|d]; cbn; try congruence.
  destruct (f_to_Z x); congruence.
Qed.

Lemma validate_optional_raises {A} (f : pyval F -> result A) (v : pyval F) (e : exn) :
  (forall w e', f w = Raise e' -> e' = ValidationError) ->
  validate_optional f v = Raise e -> e = ValidationError.
Proof.
  intros Hf. unfold validate_optional.
  destruct v; try discriminate;
    match goal with |- context [f ?w] => destruct (f w) eqn:E end;
    cbn; try discriminate; intros [= <-]; eapply Hf; eassumption.
Qed.

Lemma field_raises {A} (d : pydict F) (key : string) (f : pyval F -> result A)
  (default : A) (e : exn) :
  (forall w e', f w = Raise e' -> e' = ValidationError) ->
  field d key f default = Raise e -> e = ValidationError.
Proof.
  intro Hf. unfold field. destruct (dict_get d key); [apply Hf | discriminate].
Qed.

Lemma required_field_raises {A} (d : pydict F) (key : string)
  (f : pyval F -> result A) (e : exn) :
  (forall w e', f w = Raise e' -> e' = ValidationError) ->
  required_field d key f = Raise e -> e = ValidationError.
Proof.
  intro Hf. unfold required_field. destruct (dict_get d key); [apply Hf | congruence].
Qed.

(** The parameters of a UBI event that are a dict validate or fail
    validation; nothing else is raised. *)
Lemma UBIEventParams_init_dict (d : pydict F) (e : exn) :
  UBIEventParams_init (PDict d) = Raise e -> e = ValidationError.
Proof.
  unfold UBIEventParams_init.
  destruct (required_field d "amount_per_agent" validate_float_ge0) as [a|e1] eqn:E1;
    cbn.
  - destruct (field d "duration_ticks" (validate_optional validate_int_ge1) None)
      as [t|e2] eqn:E2; cbn; [discriminate|].
    intros [= <-]. eapply field_raises; [|exact E2].
    intros w e'. apply validate_optional_raises. clear. intros w e'.
    unfold validate_int_ge1. destruct (validate_int w) as [z|e0] eqn:Ez; cbn.
    + destruct (1 <=? z); congruence.
    + intros [= <-]. eapply validate_int_raises. exact Ez.
  - intros [= <-]. eapply required_field_raises; [|exact E1].
    clear. intros w e'. unfold validate_float_ge0.
    destruct (validate_float w) as [x|e0] eqn:Ex; cbn.
    + destruct (fleb fzero x); congruence.
    + intros [= <-]. eapply validate_float_raises. exact Ex.
Qed.

Lemma for_each_isolated_ok {A} (l : list A) (body : A -> M F unit) (db : Session F) :
  fst (for_each l (fun x => try_except (body x) (except_Exception (fun _ => ret tt))) db)
  = Ok tt.
Proof.
  revert db. induction l as [|x l IH]; intro db; [reflexivity|].
  cbn [for_each]. unfold bind at 1, try_except at 1, except_Exception, ret.
  destruct (body x db) as [[[]|e] db1]; apply IH.
Qed.

(** What [update_event_status] does to the row it finds. *)
Lemma update_event_status_found (event_id : uuid) (status : string)
  (db : Session F) (r : Event.t F) :
  get_event db event_id = Some r ->
  exists r' db',
    update_event_status event_id status db = (Ok (Some r'), db')
    /\ get_event db' event_id = Some r'
    /\ r' = (if String.eqb status "triggered"
             then Event.set_triggered_at (Some (now db)) (Event.set_status status r)
             else Event.set_status status r).
Proof.
  intro Hr. unfold update_event_status. unfold bind at 1, gets at 1. rewrite Hr.
  destruct (String.eqb status "triggered").
  - unfold bind, datetime_now, ret, modify_live, commit, gets. cbn.
    unfold get_event in *. cbn.
    rewrite find_update_first by (intros x Hx; exact Hx). rewrite Hr. cbn.
    eexists. eexists. repeat split.
    cbn. rewrite find_update_first by (intros x Hx; exact Hx). now rewrite Hr.
  - unfold bind, ret, modify_live, commit, gets. cbn.
    unfold get_event in *. cbn.
    rewrite find_update_first by (intros x Hx; exact Hx). rewrite Hr. cbn.
    eexists. eexists. repeat split.
    cbn. rewrite find_update_first by (intros x Hx; exact Hx). now rewrite Hr.
Qed.

Lemma update_event_status_ok (event_id : uuid) (status : string) (db : Session F) :
  exists r, fst (update_event_status event_id status db) = Ok r.
Proof.
  unfold update_event_status, bind, gets, commit, modify_live, datetime_now, ret.
  destruct (get_event db event_id); [|eexists; reflexivity].
  destruct (String.eqb status "triggered"); eexists; reflexivity.
Qed.

Lemma process_events_for_tick_loop (simulation : Simulation.t) (db : Session F) :
  process_events_for_tick simulation db
  = for_each (get_events db (Simulation.id simulation) (Some "pending")
                (Some (Simulation.current_tick simulation)) 0 100)
      (handle_event simulation) db.
Proof. reflexivity. Qed.

Lemma bind_ok {A B} (m : M F A) (k : A -> M F B) (db : Session F) (a : A) :
  fst (m db) = Ok a -> bind m k db = k a (snd (m db)).
Proof.
  unfold bind. destruct (m db) as [[a'|e] db1]; cbn; [now intros [= ->] | discriminate].
Qed.

(** The payments of a UBI event leave the events as they are. *)
Lemma touches_ubi_payments (simulation : Simulation.t) (amount : F)
  (db : Session F) :
  touches (agent_ids_of db (Simulation.id simulation)) [] (fun _ => False) db
    (snd (for_each (get_agents db (Some (Simulation.id simulation)) 0 10000)
            (fun agent =>
               try_except (apply_ubi_to_agent amount agent)
                 (except_Exception (fun _ => ret tt))) db)).
Proof.
  apply (preserves_for_each_in
           (touches (agent_ids_of db (Simulation.id simulation)) [] (fun _ => False))).
  intros agent Hagent. ptry.
  - apply touches_apply_ubi_to_agent. eapply get_agents_ids_of. exact Hagent.
  - intros e k [= <-]. pauto.
Qed.

Lemma get_event_commit (db : Session F) (j : uuid) :
  get_event (snd (commit db)) j = get_event db j.
Proof. reflexivity. Qed.

(** [apply_ubi_event] on an event whose parameters are a dict: it does not
    raise, and the row of the event gets the status. *)
Lemma apply_ubi_event_row (simulation : Simulation.t) (event r : Event.t F)
  (db : Session F) (d : pydict F) :
  Event.parameters event = PDict d ->
  fst (apply_ubi_event simulation event db) = Ok tt
  /\ (get_event db (Event.id event) = Some r ->
      get_event (snd (apply_ubi_event simulation event db)) (Event.id event)
      = Some (Event.set_status
                match UBIEventParams_init (Event.parameters event) with
                | Ok _ => "processed"
                | Raise _ => "failed"
                end r)).
Proof.
  intro Hd.
  destruct (UBIEventParams_init (Event.parameters event)) as [params|e] eqn:Ep.
  - set (db1 := snd (for_each (get_agents db (Some (Simulation.id simulation)) 0 10000)
                       (fun agent =>
                          try_except (apply_ubi_to_agent (amount_per_agent params) agent)
                            (except_Exception (fun _ => ret tt))) db)).
    assert (Heq : apply_ubi_event simulation event db
                  = (update_event_status (Event.id event) "processed" ;;; commit) db1).
    { unfold apply_ubi_event. rewrite Ep. unfold bind at 1, gets at 1. unfold bind at 1.
      pose proof (for_each_isolated_ok
                    (get_agents db (Some (Simulation.id simulation)) 0 10000)
                    (apply_ubi_to_agent (amount_per_agent params)) db) as Hok.
      unfold db1.
      destruct (for_each _ _ db) as [[[]|e] d1]; cbn in Hok; [|discriminate].
      cbn [snd].
      apply try_except_never_raises, never_raises_update_event_status_commit. }
    pose proof (touches_ubi_payments simulation (amount_per_agent params) db) as Ht.
    fold db1 in Ht. rewrite Heq. clearbody db1. unfold bind. split.
    + destruct (update_event_status_ok (Event.id event) "processed" db1) as [r0 Hr0].
      destruct (update_event_status (Event.id event) "processed" db1) as [[r1|e] db2];
        cbn in Hr0; [reflexivity | discriminate].
    + intro Hr.
      rewrite <- (get_event_touches _ _ _ _ _ (Event.id event) Ht) in Hr by (intros []).
      destruct (update_event_status_found (Event.id event) "processed" db1 r Hr)
        as (r' & db2 & Hrun & Hget & ->).
      rewrite Hrun. cbn. exact Hget.
  - assert (e = ValidationError) as ->.
    { rewrite Hd in Ep. eapply UBIEventParams_init_dict; exact Ep. }
    assert (Heq : apply_ubi_event simulation event db
                  = (update_event_status (Event.id event) "failed" ;;; ret tt) db).
    { unfold apply_ubi_event. now rewrite Ep. }
    rewrite Heq. unfold bind. split.
    + destruct (update_event_status_ok (Event.id event) "failed" db) as [r0 Hr0].
      destruct (update_event_status (Event.id event) "failed" db) as [[r1|e] db2];
        cbn in Hr0; [reflexivity | discriminate].
    + intro Hr.
      destruct (update_event_status_found (Event.id event) "failed" db r Hr)
        as (r' & db2 & Hrun & Hget & ->).
      rewrite Hrun. cbn. exact Hget.
Qed.

(** One event handled: it does not raise when the parameters can be
    unpacked, and the row of the event ends as [handled_as] says. *)
Lemma handle_event_ok (simulation : Simulation.t) (event : Event.t F)
  (db : Session F) :
  unpackable event -> fst (handle_event simulation event db) = Ok tt.
Proof.
  intro Hp. unfold handle_event.
  destruct (update_event_status_ok (Event.id event) "triggered" db) as [r0 Hr0].
  rewrite (bind_ok _ _ _ _ Hr0). unfold bind at 1, commit at 1.
  destruct (String.eqb (Event.event_type event) "ubi") eqn:Ety.
  - apply String.eqb_eq in Ety. destruct (Hp Ety) as [d Hd].
    apply (apply_ubi_event_row simulation event event _ d Hd).
  - match goal with |- fst (bind ?m ?k ?db1) = _ =>
      destruct (update_event_status_ok (Event.id event) "failed" db1) as [r1 Hr1];
      rewrite (bind_ok m k db1 r1 Hr1)
    end.
    reflexivity.
Qed.

Lemma handle_event_post (simulation : Simulation.t) (event r : Event.t F)
  (db : Session F) :
  unpackable event ->
  get_event db (Event.id event) = Some r ->
  exists r',
    get_event (snd (handle_event simulation event db)) (Event.id event) = Some r'
    /\ handled_as event r r'.
Proof.
  intros Hp Hr. unfold handle_event.
  destruct (update_event_status_found (Event.id event) "triggered" db r Hr)
    as (r1 & db1 & Hrun & Hget & Hr1).
  unfold bind at 1. rewrite Hrun. unfold bind at 1, commit at 1.
  set (db2 := mkSession (live db1) (live db1) (memory_seq db1) (uuid_seq db1) (now db1)).
  assert (Hget2 : get_event db2 (Event.id event) = Some r1) by exact Hget.
  cbn [String.eqb Ascii.eqb] in Hr1.
  unfold handled_as, final_status.
  destruct (String.eqb (Event.event_type event) "ubi") eqn:Ety.
  - apply String.eqb_eq in Ety. destruct (Hp Ety) as [d Hd].
    destruct (apply_ubi_event_row simulation event r1 db2 d Hd) as (_ & Hrow).
    rewrite (Hrow Hget2). eexists. split; [reflexivity|].
    subst r1. cbn. repeat split; try discriminate.
    rewrite Hd. destruct (UBIEventParams_init (PDict d)) as [params|e] eqn:Ep;
      [reflexivity|].
    now rewrite (UBIEventParams_init_dict d e Ep).
  - destruct (update_event_status_found (Event.id event) "failed" db2 r1 Hget2)
      as (r2 & db3 & Hrun2 & Hget3 & ->).
    unfold bind. rewrite Hrun2. cbn [snd commit].
    eexists. split; [exact Hget3|]. subst r1. cbn. repeat split. discriminate.
Qed.

Lemma handle_event_other (simulation : Simulation.t) (event : Event.t F)
  (db : Session F) (j : uuid) :
  j <> Event.id event ->
  get_event (snd (handle_event simulation event db)) j = get_event db j.
Proof.
  intro Hj.
  apply (get_event_touches (agent_ids_of db (Simulation.id simulation))
           [Event.id event] (fun _ => False)).
  - apply touches_event_body. now left.
  - intros [Hk|[]]. now apply Hj.
Qed.

End EventLifecycle.

Section EventTheorems.
Context {F : Type} `{Float64 F}.

Local Open Scope session_scope.

Lemma final_status_unpackable (e : Event.t F) :
  unpackable e -> final_status e = "processed" \/ final_status e = "failed".
Proof.
  intro Hp. unfold final_status.
  destruct (String.eqb (Event.event_type e) "ubi") eqn:Ety; [|now right].
  apply String.eqb_eq in Ety. destruct (Hp Ety) as [d Hd]. rewrite Hd.
  destruct (UBIEventParams_init (PDict d)) as [params|x] eqn:Ep; [now left|].
  rewrite (UBIEventParams_init_dict d x Ep). now right.
Qed.

Lemma get_events_incl (db : Session F) (sid : uuid) (status : option string)
  (tick : option Z) (skip limit : Z) :
  incl (get_events db sid status tick skip limit) (events (live db)).
Proof.
  intros e He. unfold get_events in He. apply In_firstn_skipn in He.
  destruct tick as [t|]; [apply filter_In in He as [He _]|];
    (destruct status as [st|]; [destruct (truthy_str st);
       [apply filter_In in He as [He _]|]|]);
    now apply filter_In in He as [He _].
Qed.

Lemma get_events_unique (db : Session F) (sid : uuid) (status : option string)
  (tick : option Z) (skip limit : Z) :
  unique_event_ids db ->
  NoDup (map Event.id (get_events db sid status tick skip limit)).
Proof.
  intro Hnd. unfold get_events.
  apply NoDup_map_firstn, NoDup_map_skipn.
  destruct tick as [t|]; [apply NoDup_map_filter|];
    (destruct status as [st|]; [destruct (truthy_str st);
       [apply NoDup_map_filter|]|]);
    now apply NoDup_map_filter.
Qed.

Lemma NoDup_map_eq {A} (key : A -> uuid) (l : list A) (x y : A) :
  NoDup (map key l) -> In x l -> In y l -> key x = key y -> x = y.
Proof.
  intros Hnd Hx Hy Hk.
  pose proof (find_by_key key l x Hnd Hx) as Fx.
  pose proof (find_by_key key l y Hnd Hy) as Fy.
  rewrite Hk in Fx. congruence.
Qed.

(** X1.  The life of events under the event processor.  With unique event
    keys, and the parameters of every selected UBI event a dict, a run of
    the processor does not raise; every selected event ends [processed] (a
    UBI event with valid parameters) or [failed] (any other), stamped with
    the time it was triggered and otherwise as it was; every other event
    of the table is read back unchanged. *)
Theorem process_events_for_tick_lifecycle (simulation : Simulation.t)
  (db : Session F) :
  unique_event_ids db ->
  Forall unpackable
    (get_events db (Simulation.id simulation) (Some "pending")
       (Some (Simulation.current_tick simulation)) 0 100) ->
  fst (process_events_for_tick simulation db) = Ok tt
  /\ (forall e,
        In e (get_events db (Simulation.id simulation) (Some "pending")
                (Some (Simulation.current_tick simulation)) 0 100) ->
        (final_status e = "processed" \/ final_status e = "failed")
        /\ exists e',
             get_event (snd (process_events_for_tick simulation db)) (Event.id e)
             = Some e'
             /\ handled_as e e e')
  /\ (forall e,
        In e (events (live db)) ->
        ~ In e (get_events db (Simulation.id simulation) (Some "pending")
                  (Some (Simulation.current_tick simulation)) 0 100) ->
        get_event (snd (process_events_for_tick simulation db)) (Event.id e)
        = Some e).
Proof.
  intros Hnd Hp. rewrite process_events_for_tick_loop.
  set (l := get_events db _ _ _ _ _) in *.
  assert (Hincl : incl l (events (live db))) by apply get_events_incl.
  assert (Hndl : NoDup (map Event.id l)) by now apply get_events_unique.
  destruct (for_each_keyed Event.id get_event (handle_event simulation)
              unpackable handled_as
              (fun x d Hx => handle_event_ok simulation x d Hx)
              (handle_event_other simulation)
              (fun x d r Hx Hr => handle_event_post simulation x r d Hx Hr)
              l db Hp Hndl) as (Hok & Hother & Hpost).
  split; [exact Hok|]. split.
  - intros e He. split.
    + apply final_status_unpackable. rewrite Forall_forall in Hp. now apply Hp.
    + apply Hpost; [exact He|]. apply get_event_unique; [exact Hnd | now apply Hincl].
  - intros e He Hnot. rewrite Hother.
    + now apply get_event_unique.
    + intro Hin. apply in_map_iff in Hin as (x & Hk & Hx).
      apply Hnot. rewrite <- (NoDup_map_eq Event.id _ x e Hnd); auto.
Qed.

End EventTheorems.

(** ** Ticks, one simulation beside another ([api/simulation_routes.py]) *)

Section TickFrame.
Context {F : Type} `{Float64 F}.

Local Open Scope session_scope.

Lemma get_simulation_id (db : Session F) (sid : uuid) (sim : Simulation.t) :
  get_simulation db sid = Some sim -> Simulation.id sim = sid.
Proof.
  unfold get_simulation. intro Hf. apply find_some in Hf as [_ Hid].
  now apply Z.eqb_eq.
Qed.

(** What the increment writes: the row of the simulation, nothing else. *)
Lemma update_simulation_effect (simulation_id : uuid) (u : SimulationUpdate)
  (db : Session F) (sim : Simulation.t) :
  get_simulation db simulation_id = Some sim ->
  let db' := snd (update_simulation simulation_id u db) in
  simulations (live db')
  = update_first (fun s => Simulation.id s =? simulation_id)
      (apply_simulation_update u) (simulations (live db))
  /\ agents (live db') = agents (live db)
  /\ events (live db') = events (live db)
  /\ long_term_memories (live db') = long_term_memories (live db)
  /\ metric_snapshots (live db') = metric_snapshots (live db).
Proof.
  intro Hsim. unfold update_simulation, bind, gets. rewrite Hsim. cbn.
  repeat split.
Qed.

(** The tick advance of an existing simulation: the four stages, then the
    increment of its row. *)
Lemma advance_tick_endpoint_effect (env : LLMEnv F) (simulation_id : uuid)
  (db : Session F) (sim : Simulation.t) :
  get_simulation db simulation_id = Some sim ->
  let db4 := after_stages env sim db in
  let db' := snd (advance_tick_endpoint env simulation_id db) in
  simulations (live db')
  = update_first (fun s => Simulation.id s =? simulation_id)
      (Simulation.set_current_tick (Simulation.current_tick sim + 1))
      (simulations (live db))
  /\ agents (live db') = agents (live db4)
  /\ events (live db') = events (live db4)
  /\ long_term_memories (live db') = long_term_memories (live db4)
  /\ metric_snapshots (live db') = metric_snapshots (live db4).
Proof.
  intro Hsim. cbn zeta.
  rewrite (advance_tick_endpoint_stages env simulation_id db sim Hsim).
  destruct (touches_after_stages env sim db) as (Hsims & _).
  assert (Hsim4 : get_simulation (after_stages env sim db) simulation_id = Some sim).
  { unfold get_simulation in *. now rewrite Hsims. }
  destruct (update_simulation_effect simulation_id
              (mkSimulationUpdate None None (Some (Simulation.current_tick sim + 1)) None)
              _ sim Hsim4) as (Hs & Ha & He & Hl & Hm).
  destruct (update_simulation_tick simulation_id (Simulation.current_tick sim + 1)
              _ sim Hsim4) as (db' & Hupd & _).
  rewrite Hupd in Hs, Ha, He, Hl, Hm. cbn [snd] in Hs, Ha, He, Hl, Hm.
  unfold bind, ret. rewrite Hupd. cbn [snd].
  rewrite Hs, Hsims. repeat split; assumption.
Qed.

Lemma advance_tick_endpoint_missing (env : LLMEnv F) (simulation_id : uuid)
  (db : Session F) :
  get_simulation db simulation_id = None ->
  advance_tick_endpoint env simulation_id db
  = (Raise (HTTPException 404 "Simulation not found"), db).
Proof.
  intro Hsim. unfold advance_tick_endpoint, bind, gets. now rewrite Hsim.
Qed.

Lemma Forall2_impl_in {A B} (Q Q' : A -> B -> Prop) (l : list A) (l' : list B) :
  (forall x y, In x l -> Q x y -> Q' x y) -> Forall2 Q l l' -> Forall2 Q' l l'.
Proof.
  intros Himp Hall. induction Hall as [|x y l l' Hxy _ IH]; constructor.
  - apply Himp; [now left | exact Hxy].
  - apply IH. intros a b Ha. apply Himp. now right.
Qed.

Lemma Forall2_update_first_other {A} (p : A -> bool) (f : A -> A) (l : list A) :
  Forall2 (fun x x' => p x = false -> x' = x) l (update_first p f l).
Proof.
  induction l as [|x l IH]; cbn; [constructor|].
  destruct (p x) eqn:E; constructor; auto.
  - congruence.
  - apply Forall2_refl_all. auto.
Qed.

(** X2.  A tick of one simulation leaves the others alone.  With unique
    agent and event keys, the tick advance of a simulation rewrites no
    agent and no event of another simulation, no row of another
    simulation, and no long-term memory. *)
Theorem advance_tick_leaves_other_simulations (env : LLMEnv F)
  (simulation_id : uuid) (db : Session F) :
  unique_agent_ids db -> unique_event_ids db ->
  let db' := snd (advance_tick_endpoint env simulation_id db) in
  Forall2 (fun a a' => Agent.simulation_id a <> simulation_id -> a' = a)
    (agents (live db)) (agents (live db'))
  /\ Forall2 (fun e e' => Event.simulation_id e <> simulation_id -> e' = e)
       (events (live db)) (events (live db'))
  /\ Forall2 (fun s s' => Simulation.id s <> simulation_id -> s' = s)
       (simulations (live db)) (simulations (live db'))
  /\ long_term_memories (live db') = long_term_memories (live db).
Proof.
  intros Hna Hne. cbn zeta.
  destruct (get_simulation db simulation_id) as [sim|] eqn:Hsim.
  - destruct (advance_tick_endpoint_effect env simulation_id db sim Hsim)
      as (Hs & Ha & He & Hl & _).
    destruct (touches_after_stages env sim db) as (_ & Hl4 & Ha4 & He4 & _).
    pose proof (get_simulation_id db simulation_id sim Hsim) as Hid.
    rewrite Hs, Ha, He, Hl, Hl4. repeat split.
    + eapply Forall2_impl_in; [|exact Ha4].
      intros a a' Hin (_ & _ & Hkeep) Hsid. apply Hkeep.
      unfold agent_ids_of. rewrite Hid. intro Hk.
      apply in_map_iff in Hk as (b & Hk & Hb). apply filter_In in Hb as [Hb Hbs].
      apply Z.eqb_eq in Hbs.
      rewrite (NoDup_map_eq Agent.id _ a b Hna) in Hsid; auto.
    + eapply Forall2_impl_in; [|exact He4].
      intros e e' Hin (_ & _ & Hkeep) Hsid. apply Hkeep.
      unfold selected_ids. intro Hk.
      apply in_map_iff in Hk as (x & Hk & Hx).
      pose proof (get_events_incl _ _ _ _ _ _ x Hx) as Hxin.
      rewrite get_events_eligible in Hx. apply In_firstn_skipn with (k := 0%nat) in Hx.
      apply filter_In in Hx as [_ Hel]. apply eligible_pending in Hel as (Hxs & _).
      rewrite (NoDup_map_eq Event.id _ e x Hne) in Hsid; auto. congruence.
    + eapply Forall2_impl; [|apply Forall2_update_first_other].
      intros s s' Hkeep Hsid. apply Hkeep. now apply Z.eqb_neq.
  - rewrite (advance_tick_endpoint_missing env simulation_id db Hsim). cbn.
    repeat split; apply Forall2_refl_all; auto.
Qed.

Lemma after_stages_simulations (env : LLMEnv F) (sim : Simulation.t)
  (db : Session F) :
  simulations (live (after_stages env sim db)) = simulations (live db).
Proof. now destruct (touches_after_stages env sim db) as (Hs & _). Qed.

Lemma advance_tick_get_simulation (env : LLMEnv F) (simulation_id : uuid)
  (db : Session F) (sim : Simulation.t) :
  get_simulation db simulation_id = Some sim ->
  get_simulation (snd (advance_tick_endpoint env simulation_id db)) simulation_id
  = Some (Simulation.set_current_tick (Simulation.current_tick sim + 1) sim).
Proof.
  intro Hsim.
  destruct (advance_tick_endpoint_effect env simulation_id db sim Hsim) as (Hs & _).
  unfold get_simulation in *. rewrite Hs.
  rewrite find_update_first by (intros x Hx; exact Hx). now rewrite Hsim.
Qed.

(** X3.  Ticks add up, whatever the status.  [n] tick advances of an existing
    simulation bring it from tick N to tick N + n; its name, description
    and status are as they were, whatever the status is. *)
Theorem advance_ticks_adds_up (n : nat) (env : LLMEnv F) (simulation_id : uuid)
  (db : Session F) (sim : Simulation.t) :
  get_simulation db simulation_id = Some sim ->
  exists sim',
    get_simulation (advance_ticks n env simulation_id db) simulation_id = Some sim'
    /\ Simulation.current_tick sim' = Simulation.current_tick sim + Z.of_nat n
    /\ Simulation.id sim' = Simulation.id sim
    /\ Simulation.name sim' = Simulation.name sim
    /\ Simulation.description sim' = Simulation.description sim
    /\ Simulation.status sim' = Simulation.status sim.
Proof.
  revert db sim. induction n as [|n IH]; intros db sim Hsim.
  - exists sim. cbn [advance_ticks]. repeat split; [exact Hsim | cbn; lia].
  - cbn [advance_ticks].
    destruct (IH _ _ (advance_tick_get_simulation env simulation_id db sim Hsim))
      as (sim' & Hget & Htick & Hid & Hname & Hdesc & Hstatus).
    exists sim'. split; [exact Hget|]. cbn in *. repeat split; try assumption. lia.
Qed.

Lemma Forall2_In_l {A B} (Q : A -> B -> Prop) (l : list A) (l' : list B) (x : A) :
  Forall2 Q l l' -> In x l -> exists y, In y l' /\ Q x y.
Proof.
  intros Hall Hin. induction Hall as [|a b l l' Hab _ IH]; [destruct Hin|].
  destruct Hin as [->|Hin].
  - exists b. split; [now left | exact Hab].
  - destruct (IH Hin) as (y & Hy & HQ). exists y. split; [now right | exact HQ].
Qed.

Lemma find_update_first_other {A} (p q : A -> bool) (f : A -> A) (l : list A) :
  (forall x, q (f x) = q x) -> (forall x, p x = true -> q x = false) ->
  find q (update_first p f l) = find q l.
Proof.
  intros Hf Hpq. induction l as [|x l IH]; [reflexivity|].
  cbn. destruct (p x) eqn:E; cbn.
  - rewrite Hf. now rewrite (Hpq x E).
  - now rewrite IH.
Qed.

(** An event that is not due at a tick advance is untouched by it. *)
Lemma advance_tick_event_kept (env : LLMEnv F) (simulation_id : uuid)
  (db : Session F) (e : Event.t F) :
  unique_event_ids db -> In e (events (live db)) ->
  (forall sim, get_simulation db simulation_id = Some sim ->
     eligible sim e = false) ->
  In e (events (live (snd (advance_tick_endpoint env simulation_id db))))
  /\ unique_event_ids (snd (advance_tick_endpoint env simulation_id db)).
Proof.
  intros Hnd Hin Hnot.
  destruct (get_simulation db simulation_id) as [sim|] eqn:Hsim.
  - destruct (advance_tick_endpoint_effect env simulation_id db sim Hsim)
      as (_ & _ & He & _).
    pose proof (touches_after_stages env sim db) as Ht.
    unfold unique_event_ids. rewrite He, (touches_event_ids _ _ _ _ _ Ht).
    split; [|exact Hnd].
    destruct Ht as (_ & _ & _ & He4 & _).
    destruct (Forall2_In_l _ _ _ e He4 Hin) as (e' & Hin' & _ & _ & Hkeep).
    rewrite Hkeep in Hin'; [exact Hin'|].
    unfold selected_ids. intro Hk. apply in_map_iff in Hk as (x & Hk & Hx).
    pose proof (get_events_incl _ _ _ _ _ _ x Hx) as Hxin.
    rewrite get_events_eligible in Hx. apply In_firstn_skipn with (k := 0%nat) in Hx.
    apply filter_In in Hx as [_ Hel].
    rewrite (NoDup_map_eq Event.id _ x e Hnd Hxin Hin Hk) in Hel.
    rewrite (Hnot sim eq_refl) in Hel. discriminate.
  - rewrite (advance_tick_endpoint_missing env simulation_id db Hsim). now split.
Qed.

(** An event that has been moved on, or is not due now or later, is kept
    by every tick advance. *)
Lemma ticked_keeps_event (e : Event.t F) (db db' : Session F) :
  unique_event_ids db ->
  In e (events (live db)) ->
  (Event.status e <> "pending"
   \/ forall sim t,
        get_simulation db (Event.simulation_id e) = Some sim ->
        Event.target_tick e = Some t ->
        t < Simulation.current_tick sim) ->
  ticked db db' ->
  In e (events (live db')) /\ unique_event_ids db'.
Proof.
  intros Hnd Hin Hpast Hticked. revert Hnd Hin Hpast.
  induction Hticked as [db|env sid db db' _ IH]; intros Hnd Hin Hpast.
  - now split.
  - assert (Hnot : forall sim, get_simulation db sid = Some sim ->
                     eligible sim e = false).
    { intros sim Hsim. destruct (eligible sim e) eqn:Hel; [|reflexivity].
      apply eligible_pending in Hel as (Hes & Hst & Het).
      destruct Hpast as [Hmoved|Hpast]; [contradiction|].
      rewrite (get_simulation_id db sid sim Hsim) in Hes. rewrite <- Hes in Hsim.
      specialize (Hpast sim _ Hsim Het). lia. }
    destruct (advance_tick_event_kept env sid db e Hnd Hin Hnot) as (Hin' & Hnd').
    apply IH; [exact Hnd' | exact Hin' |].
    destruct Hpast as [Hmoved|Hpast]; [now left | right].
    intros sim' t Hsim' Het.
    destruct (get_simulation db sid) as [sim|] eqn:Hsim.
    + destruct (Z.eq_dec (Event.simulation_id e) sid) as [Heq|Hne].
      * rewrite Heq in Hsim', Hpast.
        rewrite (advance_tick_get_simulation env sid db sim Hsim) in Hsim'.
        injection Hsim' as <-. cbn. specialize (Hpast sim t Hsim Het). lia.
      * destruct (advance_tick_endpoint_effect env sid db sim Hsim) as (Hs & _).
        unfold get_simulation in Hsim'. rewrite Hs in Hsim'.
        rewrite find_update_first_other in Hsim'.
        -- apply (Hpast sim' t Hsim' Het).
        -- intro x. reflexivity.
        -- intros x Hx. apply Z.eqb_eq in Hx. apply Z.eqb_neq. congruence.
    + rewrite (advance_tick_endpoint_missing env sid db Hsim) in Hsim'. cbn in Hsim'.
      apply (Hpast sim' t Hsim' Het).
Qed.

(** X4.  An event that is not scheduled, or is scheduled for a tick its
    simulation has passed, is never processed.  With unique event keys,
    an event without [target_tick], or with one below the current tick of
    its simulation, is read back unchanged after any number of tick
    advances of any simulations: it keeps its status for good. *)
Theorem missed_event_is_never_processed (e : Event.t F) (db db' : Session F) :
  unique_event_ids db ->
  In e (events (live db)) ->
  (forall sim t,
     get_simulation db (Event.simulation_id e) = Some sim ->
     Event.target_tick e = Some t ->
     t < Simulation.current_tick sim) ->
  ticked db db' ->
  get_event db' (Event.id e) = Some e.
Proof.
  intros Hnd Hin Hpast Hticked.
  destruct (ticked_keeps_event e db db' Hnd Hin (or_intror Hpast) Hticked)
    as (Hin' & Hnd').
  now apply get_event_unique.
Qed.

(** X18.  An event that was handled keeps its final state.  With unique event
    keys, an event whose status is not [pending] (one that was triggered,
    processed or failed, or was injected with such a status) is read back
    unchanged after any number of tick advances of any simulations: no
    tick handles it again, so a UBI event that was processed pays once. *)
Theorem handled_event_is_final (e : Event.t F) (db db' : Session F) :
  unique_event_ids db ->
  In e (events (live db)) ->
  Event.status e <> "pending" ->
  ticked db db' ->
  get_event db' (Event.id e) = Some e.
Proof.
  intros Hnd Hin Hmoved Hticked.
  destruct (ticked_keeps_event e db db' Hnd Hin (or_introl Hmoved) Hticked)
    as (Hin' & Hnd').
  now apply get_event_unique.
Qed.

End TickFrame.

(** ** The snapshots of a tick ([services/metrics_service.py]) *)

Section SnapshotProperties.
Context {F : Type} `{Float64 F}.

Local Open Scope session_scope.

Lemma isolated_snd (stage : M F unit) (db : Session F) :
  snd (isolated stage db) = snd (stage db).
Proof.
  unfold isolated, try_except, except_Exception, ret.
  now destruct (stage db) as [[[]|e] db1].
Qed.

Lemma Forall2_eq_all {A} (l l' : list A) : Forall2 (fun x y => y = x) l l' -> l' = l.
Proof. induction 1 as [|x y l l' -> _ IH]; [reflexivity | now rewrite IH]. Qed.

Lemma touches_no_agent (ke : list uuid) (ks : MetricSnapshot.t F -> Prop)
  (db db' : Session F) :
  touches [] ke ks db db' -> agents (live db') = agents (live db).
Proof.
  intros (_ & _ & A & _). apply Forall2_eq_all.
  eapply Forall2_impl; [|exact A]. intros a a' (_ & _ & Hkeep). apply Hkeep. intros [].
Qed.

Lemma touches_no_snapshot (ka ke : list uuid) (db db' : Session F) :
  touches ka ke (fun _ => False) db db' ->
  metric_snapshots (live db') = metric_snapshots (live db).
Proof.
  intros (_ & _ & _ & _ & added & Hm & Hall).
  destruct added as [|s added]; [now rewrite app_nil_r in Hm|].
  inversion Hall as [|? ? []].
Qed.

(** The snapshot the metric stage takes of the agents it fetches, if it
    takes one. *)
Lemma calculate_and_store_metrics_effect (simulation : Simulation.t)
  (db : Session F) :
  metric_snapshots (live (snd (calculate_and_store_metrics simulation db)))
  = metric_snapshots (live db)
    ++ match get_agents db (Some (Simulation.id simulation)) 0 10000 with
       | [] => []
       | agents =>
           match collect_incomes agents with
           | Ok incomes =>
               [MetricSnapshot.mk (uuid_seq db) (Simulation.id simulation)
                  (Simulation.current_tick simulation) (calculate_gini incomes)
                  (calculate_belief_variance agents)]
           | Raise _ => []
           end
       end.
Proof.
  unfold calculate_and_store_metrics, bind, gets.
  destruct (get_agents db (Some (Simulation.id simulation)) 0 10000) as [|a l].
  - cbn. now rewrite app_nil_r.
  - unfold lift. destruct (collect_incomes (a :: l)) as [incomes|e].
    + reflexivity.
    + cbn. now rewrite app_nil_r.
Qed.

Lemma collect_incomes_map (g : Agent.t F -> Agent.t F) (l : list (Agent.t F)) :
  (forall r, Agent.demographics (g r) = Agent.demographics r) ->
  collect_incomes (map g l) = collect_incomes l.
Proof.
  intro Hg. induction l as [|a l IH]; [reflexivity|].
  cbn. rewrite Hg, IH. reflexivity.
Qed.

Lemma belief_vectors_of_map (g : Agent.t F -> Agent.t F) (l : list (Agent.t F)) :
  (forall r, belief_entry (g r) "political_ideology_vector"
             = belief_entry r "political_ideology_vector") ->
  belief_vectors_of (map g l) = belief_vectors_of l.
Proof.
  intro Hg. induction l as [|a l IH]; [reflexivity|].
  cbn. specialize (Hg a). unfold belief_entry in Hg. rewrite IH.
  destruct (as_dict (Agent.beliefs (g a))) as [d'|];
    destruct (as_dict (Agent.beliefs a)) as [d|]; try rewrite Hg; try reflexivity.
  - rewrite <- Hg. reflexivity.
Qed.

Lemma calculate_belief_variance_map (g : Agent.t F -> Agent.t F)
  (l : list (Agent.t F)) :
  (forall r, belief_entry (g r) "political_ideology_vector"
             = belief_entry r "political_ideology_vector") ->
  calculate_belief_variance (map g l) = calculate_belief_variance l.
Proof.
  intro Hg. unfold calculate_belief_variance.
  rewrite (belief_vectors_of_map g l Hg). now destruct l.
Qed.

(** X5.  The snapshots of one tick.  With unique agent keys, the tick advance
    of a simulation at tick N stores either no metric snapshot or two,
    both labelled with the simulation and with tick N; the one taken after
    the agent updates repeats the Gini coefficient and the belief variance
    of the one taken before them.  None is stored for a simulation without
    agents. *)
Theorem advance_tick_snapshots_agree (env : LLMEnv F) (simulation_id : uuid)
  (db : Session F) (sim : Simulation.t) :
  unique_agent_ids db ->
  get_simulation db simulation_id = Some sim ->
  exists added,
    metric_snapshots (live (snd (advance_tick_endpoint env simulation_id db)))
    = metric_snapshots (live db) ++ added
    /\ Forall (snapshot_of sim) added
    /\ (added = []
        \/ exists s1 s2,
             added = [s1; s2]
             /\ MetricSnapshot.gini_coefficient s2 = MetricSnapshot.gini_coefficient s1
             /\ MetricSnapshot.belief_variance s2 = MetricSnapshot.belief_variance s1)
    /\ (agents_of db sim = [] -> added = []).
Proof.
  intros Hnd Hsim.
  destruct (advance_tick_endpoint_effect env simulation_id db sim Hsim)
    as (_ & _ & _ & _ & ->).
  unfold after_stages. rewrite !isolated_snd.
  set (db1 := snd (process_events_for_tick sim db)).
  set (db2 := snd (calculate_and_store_metrics sim db1)).
  set (db3 := snd (run_agent_updates env sim db2)).
  pose proof (touches_process_events_for_tick sim db (fun _ => False)) as H01.
  fold db1 in H01.
  pose proof (touches_calculate_and_store_metrics sim db1) as H12. fold db2 in H12.
  assert (Hnd2 : unique_agent_ids db2).
  { unfold unique_agent_ids.
    rewrite (touches_no_agent _ _ _ _ H12), (touches_all_agent_ids _ _ _ _ _ H01).
    exact Hnd. }
  destruct (run_agent_updates_rows env sim db2 Hnd2) as (_ & Hrows & Hframe).
  fold db3 in Hrows, Hframe.
  destruct Hframe as (_ & _ & _ & Hm23 & _).
  set (g := fun r => if is_processed db2 sim r then processed_agent env sim r else r)
    in Hrows.
  assert (Hg_sid : forall r, Agent.simulation_id (g r) = Agent.simulation_id r).
  { intro r. unfold g. destruct (is_processed db2 sim r); [|reflexivity].
    apply processed_agent_simulation_id. }
  assert (Hg_demo : forall r, Agent.demographics (g r) = Agent.demographics r).
  { intro r. unfold g. destruct (is_processed db2 sim r); [|reflexivity].
    apply (processed_agent_profile env sim r). }
  assert (Hg_vec : forall r, belief_entry (g r) "political_ideology_vector"
                           = belief_entry r "political_ideology_vector").
  { intro r. unfold g. destruct (is_processed db2 sim r); [|reflexivity].
    apply (processed_agent_profile env sim r). discriminate. }
  pose proof (get_agents_map g db2 db3 (Some (Simulation.id sim)) 0 10000 Hg_sid Hrows)
    as Hfetch3.
  assert (Hfetch2 : get_agents db2 (Some (Simulation.id sim)) 0 10000
                    = get_agents db1 (Some (Simulation.id sim)) 0 10000).
  { unfold get_agents. now rewrite (touches_no_agent _ _ _ _ H12). }
  rewrite (calculate_and_store_metrics_effect sim db3), Hm23.
  unfold db2 at 1. rewrite (calculate_and_store_metrics_effect sim db1).
  rewrite (touches_no_snapshot _ _ _ _ H01).
  rewrite Hfetch3, Hfetch2.
  set (l := get_agents db1 (Some (Simulation.id sim)) 0 10000).
  assert (Hempty : agents_of db sim = [] -> l = []).
  { intro He. unfold l, get_agents.
    pose proof (touches_agent_ids _ _ _ _ _ (Simulation.id sim) H01) as Hids.
    unfold agent_ids_of in Hids. unfold agents_of in He. rewrite He in Hids.
    destruct (filter _ (agents (live db1))); [reflexivity | discriminate]. }
  clearbody l. rewrite <- app_assoc. eexists. split; [reflexivity|].
  destruct l as [|a l].
  - cbn. repeat split; [constructor | now left].
  - cbn [map]. change (g a :: map g l) with (map g (a :: l)).
    rewrite (collect_incomes_map g (a :: l) Hg_demo).
    rewrite (calculate_belief_variance_map g (a :: l) Hg_vec).
    destruct (collect_incomes (a :: l)) as [incomes|e].
    + cbn [app map]. split; [|split].
      * repeat constructor.
      * right. eexists. eexists. repeat split.
      * intro He. specialize (Hempty He). discriminate.
    + cbn [app map]. repeat split; [constructor | now left].
Qed.

End SnapshotProperties.

(** ** The payments of a UBI event ([services/event_service.py]) *)

Section UbiProperties.
Context {F : Type} `{Float64 F}.

Local Open Scope session_scope.

(** With valid parameters, [apply_ubi_event] is the loop of payments
    followed by the change of status. *)
Lemma apply_ubi_event_valid (simulation : Simulation.t) (event : Event.t F)
  (db : Session F) (params : UBIEventParams F) :
  UBIEventParams_init (Event.parameters event) = Ok params ->
  apply_ubi_event simulation event db
  = (update_event_status (Event.id event) "processed" ;;; commit)
      (snd (for_each (get_agents db (Some (Simulation.id simulation)) 0 10000)
              (fun agent =>
                 try_except (apply_ubi_to_agent (amount_per_agent params) agent)
                   (except_Exception (fun _ => ret tt))) db)).
Proof.
  intro Ep. unfold apply_ubi_event. rewrite Ep.
  unfold bind at 1, gets at 1. unfold bind at 1.
  pose proof (for_each_isolated_ok
                (get_agents db (Some (Simulation.id simulation)) 0 10000)
                (apply_ubi_to_agent (amount_per_agent params)) db) as Hok.
  destruct (for_each _ _ db) as [[[]|e] d1]; cbn in Hok; [|discriminate].
  cbn [snd].
  apply try_except_never_raises, never_raises_update_event_status_commit.
Qed.

Lemma payment_ok (amount : F) (a : Agent.t F) (db : Session F) :
  fst (try_except (apply_ubi_to_agent amount a)
         (except_Exception (fun _ => ret tt)) db) = Ok tt.
Proof.
  unfold try_except, except_Exception, ret.
  now destruct (apply_ubi_to_agent amount a db) as [[[]|e] db1].
Qed.

Lemma payment_other (amount : F) (a : Agent.t F) (db : Session F) (j : uuid) :
  j <> Agent.id a ->
  get_agent (snd (try_except (apply_ubi_to_agent amount a)
                    (except_Exception (fun _ => ret tt)) db)) j
  = get_agent db j.
Proof.
  intro Hj.
  apply (get_agent_touches [Agent.id a] [] (fun _ => False)).
  - revert db. ptry.
    + apply touches_apply_ubi_to_agent. now left.
    + intros e k [= <-]. pauto.
  - intros [Hk|[]]. now apply Hj.
Qed.

Lemma payment_post (amount : F) (a r : Agent.t F) (db : Session F) :
  get_agent db (Agent.id a) = Some r ->
  exists r',
    get_agent (snd (try_except (apply_ubi_to_agent amount a)
                      (except_Exception (fun _ => ret tt)) db)) (Agent.id a)
    = Some r'
    /\ (r = a -> r' = paid amount a).
Proof.
  intro Hr. unfold try_except, except_Exception, apply_ubi_to_agent, paid.
  destruct (as_dict (Agent.demographics a)) as [d|].
  - unfold bind, lift.
    destruct (py_add_float _ amount) as [income|e].
    + exists (Agent.set_demographics (PDict (dict_set d "income" income)) r).
      split; [|now intros ->].
      apply get_agent_assign; [reflexivity | exact Hr].
    + exists r. cbn. split; [exact Hr | now intros ->].
  - exists r. cbn. split; [exact Hr | now intros ->].
Qed.

Lemma UBIEventParams_init_amount (parameters : pyval F) (params : UBIEventParams F) :
  UBIEventParams_init parameters = Ok params ->
  fleb fzero (amount_per_agent params) = true.
Proof.
  unfold UBIEventParams_init. destruct parameters as [ |b|z|x|s|l|d]; try discriminate.
  unfold required_field.
  destruct (dict_get d "amount_per_agent") as [v|]; [|discriminate].
  unfold validate_float_ge0.
  destruct (validate_float v) as [x|e]; cbn; [|discriminate].
  destruct (fleb fzero x) eqn:Hx; cbn; [|discriminate].
  destruct (field d "duration_ticks" _ None); cbn; [|discriminate].
  now intros [= <-].
Qed.

(** The agents after a UBI event with valid parameters. *)
Lemma apply_ubi_event_agents (simulation : Simulation.t)
  (event : Event.t F) (db : Session F) (params : UBIEventParams F) (a : Agent.t F) :
  unique_agent_ids db ->
  UBIEventParams_init (Event.parameters event) = Ok params ->
  In a (agents (live db)) ->
  get_agent (snd (apply_ubi_event simulation event db)) (Agent.id a)
  = Some (if is_processed db simulation a
          then paid (amount_per_agent params) a
          else a).
Proof.
  intros Hnd Ep Hin. rewrite (apply_ubi_event_valid simulation event db params Ep).
  set (l := get_agents db (Some (Simulation.id simulation)) 0 10000).
  set (amount := amount_per_agent params).
  destruct (for_each_keyed Agent.id get_agent
              (fun a => try_except (apply_ubi_to_agent amount a)
                          (except_Exception (fun _ => ret tt)))
              (fun _ => True) (fun a r r' => r = a -> r' = paid amount a)
              (fun a d _ => payment_ok amount a d)
              (payment_other amount)
              (fun a d r _ Hr => payment_post amount a r d Hr)
              l db) as (_ & Hother & Hpost).
  { apply Forall_forall. auto. }
  { apply get_agents_unique. exact Hnd. }
  set (db1 := snd (for_each l _ db)) in *.
  assert (Htail : touches [] [Event.id event] (fun _ => False) db1
                    (snd ((update_event_status (Event.id event) "processed" ;;; commit)
                            db1))).
  { generalize db1. pbind; [|pauto].
    apply touches_update_event_status. now left. }
  rewrite (get_agent_touches _ _ _ _ _ (Agent.id a) Htail) by (intros []).
  unfold is_processed. fold l.
  destruct (existsb (fun x => Agent.id x =? Agent.id a) l) eqn:Ex.
  - apply existsb_exists in Ex as (x & Hx & Hk). apply Z.eqb_eq in Hk.
    assert (x = a) as ->.
    { apply (NoDup_map_eq Agent.id (agents (live db))); auto.
      apply (get_agents_incl db (Some (Simulation.id simulation)) 0 10000).
      exact Hx. }
    destruct (Hpost a a Hx (get_agent_unique db a Hnd Hin)) as (r' & Hr' & Hpaid).
    rewrite Hr'. now rewrite Hpaid.
  - rewrite Hother; [now apply get_agent_unique|].
    intro Hk. apply in_map_iff in Hk as (x & Hk & Hx).
    assert (Hex : existsb (fun x => Agent.id x =? Agent.id a) l = true).
    { apply existsb_exists. exists x. split; [exact Hx | now apply Z.eqb_eq]. }
    congruence.
Qed.

(** X6.  What a valid UBI event pays.  With unique agent keys and parameters
    that validate, [apply_ubi_event] does not raise; the amount is not
    negative; every agent the query of the simulation fetches is then read
    back with its income raised by the amount (an absent income counts as
    0.0; a row whose demographics are not a dict or whose income is not a
    number is left as it is), every other agent is read back unchanged, and
    the event is read back [processed]. *)
Theorem apply_ubi_event_pays_every_agent (simulation : Simulation.t)
  (event : Event.t F) (db : Session F) (params : UBIEventParams F) :
  unique_agent_ids db ->
  UBIEventParams_init (Event.parameters event) = Ok params ->
  fst (apply_ubi_event simulation event db) = Ok tt
  /\ fleb fzero (amount_per_agent params) = true
  /\ (forall a, In a (agents (live db)) ->
        get_agent (snd (apply_ubi_event simulation event db)) (Agent.id a)
        = Some (if is_processed db simulation a
                then paid (amount_per_agent params) a
                else a))
  /\ (forall r, get_event db (Event.id event) = Some r ->
        get_event (snd (apply_ubi_event simulation event db)) (Event.id event)
        = Some (Event.set_status "processed" r)).
Proof.
  intros Hnd Ep. split; [|split; [|split]].
  - rewrite (apply_ubi_event_valid simulation event db params Ep). unfold bind.
    match goal with |- fst (match update_event_status _ _ ?d with _ => _ end) = _ =>
      destruct (update_event_status_ok (Event.id event) "processed" d) as [r0 Hr0];
      destruct (update_event_status (Event.id event) "processed" d) as [[r1|e] db2];
      cbn in Hr0; [reflexivity | discriminate]
    end.
  - eapply UBIEventParams_init_amount. exact Ep.
  - intros a Hin. now apply apply_ubi_event_agents.
  - intros r Hr. rewrite (apply_ubi_event_valid simulation event db params Ep).
    pose proof (touches_ubi_payments simulation (amount_per_agent params) db) as Hloop.
    rewrite <- (get_event_touches _ _ _ _ _ (Event.id event) Hloop) in Hr by (intros []).
    destruct (update_event_status_found (Event.id event) "processed" _ r Hr)
      as (r' & db2 & Hrun & Hget & ->).
    unfold bind. rewrite Hrun. cbn. exact Hget.
Qed.

End UbiProperties.

(** ** The properties at work on the store with two simulations *)

Lemma two_simulations_unique_agents : unique_agent_ids (F:=float) two_simulations.
Proof.
  unfold unique_agent_ids. vm_compute. repeat constructor; cbn; intuition discriminate.
Defined.

Lemma two_simulations_unique_events : unique_event_ids (F:=float) two_simulations.
Proof.
  unfold unique_event_ids. vm_compute. repeat constructor; cbn; intuition discriminate.
Defined.

(** The UBI event of the first simulation is due: it is handled and read
    back [processed]; the other two events are read back as they were. *)
Lemma process_events_for_tick_lifecycle_witness :
  fst (process_events_for_tick (F:=float) scenario_simulation two_simulations) = Ok tt
  /\ (exists e',
        get_event (snd (process_events_for_tick (F:=float) scenario_simulation
                          two_simulations)) 7 = Some e'
        /\ Event.status e' = "processed")
  /\ get_event (snd (process_events_for_tick (F:=float) scenario_simulation
                       two_simulations)) 9 = Some script_event.
Proof.
  assert (Hsel : get_events (F:=float) two_simulations (Simulation.id scenario_simulation)
                   (Some "pending") (Some (Simulation.current_tick scenario_simulation))
                   0 100 = [ubi_event 100 "pending"]) by (vm_compute; reflexivity).
  assert (Hp : Forall unpackable
                 (get_events (F:=float) two_simulations
                    (Simulation.id scenario_simulation) (Some "pending")
                    (Some (Simulation.current_tick scenario_simulation)) 0 100)).
  { rewrite Hsel. repeat constructor. intros _. eexists. reflexivity. }
  destruct (process_events_for_tick_lifecycle (F:=float) scenario_simulation
              two_simulations two_simulations_unique_events Hp)
    as (Hok & Hsel' & Hrest).
  split; [exact Hok|]. split.
  - destruct (Hsel' (ubi_event 100 "pending")) as (_ & e' & He' & Hh).
    { rewrite Hsel. now left. }
    exists e'. split; [exact He'|].
    destruct Hh as (_ & _ & _ & _ & _ & _ & Hst & _). rewrite Hst.
    vm_compute. reflexivity.
  - apply (Hrest script_event).
    + right. now left.
    + rewrite Hsel. intros [Hx|[]]. discriminate.
Defined.

(** A tick of the first simulation leaves the agent, the event and the row
    of the second simulation as they were. *)
Lemma advance_tick_leaves_other_simulations_witness :
  let db' := snd (advance_tick_endpoint (F:=float) env_cheerful 1 two_simulations) in
  Forall2 (fun a a' => Agent.simulation_id a <> 1 -> a' = a)
    (agents (live two_simulations)) (agents (live db'))
  /\ Forall2 (fun e e' => Event.simulation_id e <> 1 -> e' = e)
       (events (live two_simulations)) (events (live db'))
  /\ Forall2 (fun s s' => Simulation.id s <> 1 -> s' = s)
       (simulations (live two_simulations)) (simulations (live db'))
  /\ long_term_memories (live db') = long_term_memories (live two_simulations).
Proof.
  exact (advance_tick_leaves_other_simulations (F:=float) env_cheerful 1
           two_simulations two_simulations_unique_agents
           two_simulations_unique_events).
Defined.

(** Five ticks of the second simulation, which is stopped: it is at tick 8
    and still stopped. *)
Lemma advance_ticks_adds_up_witness :
  exists sim',
    get_simulation (advance_ticks 5 (F:=float) env_no_client 2 two_simulations) 2
    = Some sim'
    /\ Simulation.current_tick sim' = 8
    /\ Simulation.status sim' = "stopped".
Proof.
  destruct (advance_ticks_adds_up 5 (F:=float) env_no_client 2 two_simulations
              other_simulation eq_refl)
    as (sim' & Hget & Htick & _ & _ & _ & Hstatus).
  exists sim'. split; [exact Hget|]. split; [exact Htick | exact Hstatus].
Defined.

(** The event of the run script has no target tick, and the late event is
    due at a tick its simulation has passed: after a tick of each
    simulation and one more of the first, both are read back as they
    were. *)
Lemma missed_event_is_never_processed_witness :
  let db' :=
    snd (advance_tick_endpoint (F:=float) env_cheerful 1
           (snd (advance_tick_endpoint env_no_client 2
                   (snd (advance_tick_endpoint env_cheerful 1 two_simulations))))) in
  get_event db' 9 = Some script_event /\ get_event db' 8 = Some late_event.
Proof.
  assert (Hticked :
    ticked (F:=float) two_simulations
      (snd (advance_tick_endpoint (F:=float) env_cheerful 1
              (snd (advance_tick_endpoint env_no_client 2
                      (snd (advance_tick_endpoint env_cheerful 1 two_simulations))))))).
  { apply (ticked_advance env_cheerful 1), (ticked_advance env_no_client 2),
      (ticked_advance env_cheerful 1), ticked_now. }
  split.
  - apply (missed_event_is_never_processed (F:=float) script_event two_simulations _
             two_simulations_unique_events).
    + right. now left.
    + intros sim t _ Ht. discriminate.
    + exact Hticked.
  - apply (missed_event_is_never_processed (F:=float) late_event two_simulations _
             two_simulations_unique_events).
    + right. right. now left.
    + intros sim t Hsim Ht. cbn in Hsim. injection Hsim as <-.
      injection Ht as <-. cbn. lia.
    + exact Hticked.
Defined.

(** A tick of the first simulation stores two snapshots for tick 0. *)
Lemma advance_tick_snapshots_agree_witness :
  exists added,
    metric_snapshots (live (snd (advance_tick_endpoint (F:=float) env_cheerful 1
                                   two_simulations)))
    = metric_snapshots (live two_simulations) ++ added
    /\ Forall (snapshot_of scenario_simulation) added
    /\ List.length added = 2%nat.
Proof.
  destruct (advance_tick_snapshots_agree (F:=float) env_cheerful 1 two_simulations
              scenario_simulation two_simulations_unique_agents eq_refl)
    as (added & Hadd & Hall & _ & _).
  exists added. split; [exact Hadd|]. split; [exact Hall|].
  apply (f_equal (@List.length _)) in Hadd. rewrite length_app in Hadd.
  assert (Hlen : List.length
                   (metric_snapshots
                      (live (snd (advance_tick_endpoint (F:=float) env_cheerful 1
                                    two_simulations)))) = 2%nat)
    by (vm_compute; reflexivity).
  rewrite Hlen in Hadd. cbn in Hadd. now symmetry.
Defined.

(** The UBI event of 100 applied in the store with two simulations: the
    agent with income 50 is read back with 150, the agent of the other
    simulation as it was. *)
Lemma apply_ubi_event_pays_every_agent_witness :
  get_agent (snd (apply_ubi_event (F:=float) scenario_simulation
                    (ubi_event 100 "pending") two_simulations)) 11
  = Some (paid 100%float (scenario_agent 11 50))
  /\ get_agent (snd (apply_ubi_event (F:=float) scenario_simulation
                       (ubi_event 100 "pending") two_simulations)) 20
     = Some other_agent.
Proof.
  assert (Ep : UBIEventParams_init (F:=float)
                 (Event.parameters (ubi_event 100 "pending"))
               = Ok (mkUBIEventParams 100%float None)) by (vm_compute; reflexivity).
  destruct (apply_ubi_event_pays_every_agent (F:=float) scenario_simulation
              (ubi_event 100 "pending") two_simulations
              (mkUBIEventParams 100%float None)
              two_simulations_unique_agents Ep)
    as (_ & _ & Hagents & _).
  split.
  - apply (Hagents (scenario_agent 11 50)). right. now left.
  - apply (Hagents other_agent). do 3 right. now left.
Defined.

(** ** Injected events ([api/simulation_routes.py], [crud/event.py]) *)

Section InjectProperties.
Context {F : Type} `{Float64 F}.

Local Open Scope session_scope.

Lemma find_app_fresh {A} (p : A -> bool) (l : list A) (x : A) :
  (forall y, In y l -> p y = false) -> p x = true -> find p (l ++ [x]) = Some x.
Proof.
  intros Hl Hx. induction l as [|y l IH]; cbn.
  - now rewrite Hx.
  - rewrite (Hl y (or_introl eq_refl)). apply IH. intros z Hz. apply Hl. now right.
Qed.

Lemma find_app_old {A} (p : A -> bool) (l : list A) (x : A) :
  p x = false -> find p (l ++ [x]) = find p l.
Proof.
  intro Hx. induction l as [|y l IH]; cbn.
  - now rewrite Hx.
  - destruct (p y); [reflexivity | exact IH].
Qed.

Lemma firstn_short {A} (n : nat) (l : list A) :
  (List.length (firstn n l) < n)%nat -> firstn n l = l.
Proof.
  intro Hlen. apply firstn_all2.
  destruct (Nat.le_gt_cases (List.length l) n) as [Hle|Hgt]; [exact Hle|].
  rewrite firstn_length_le in Hlen; lia.
Qed.

Lemma create_event_effect (event : EventCreate F) (simulation_id : uuid)
  (db : Session F) :
  let row := new_event_row (uuid_seq db) simulation_id event in
  let t := set_events (events (live db) ++ [row]) (live db) in
  create_event event simulation_id db
  = (Ok row, mkSession t t (memory_seq db) (uuid_seq db + 1) (now db)).
Proof. reflexivity. Qed.

Lemma inject_event_endpoint_found (simulation_id : uuid) (event_data : EventCreate F)
  (db : Session F) (sim : Simulation.t) :
  get_simulation db simulation_id = Some sim ->
  inject_event_endpoint simulation_id event_data db
  = create_event event_data simulation_id db.
Proof.
  intro Hsim. unfold inject_event_endpoint, bind, gets. now rewrite Hsim.
Qed.

Lemma inject_event_endpoint_missing (simulation_id : uuid)
  (event_data : EventCreate F) (db : Session F) :
  get_simulation db simulation_id = None ->
  inject_event_endpoint simulation_id event_data db
  = (Raise (HTTPException 404 "Simulation not found"), db).
Proof.
  intro Hsim. unfold inject_event_endpoint, bind, gets. now rewrite Hsim.
Qed.

(** X7.  An injected event can be read back, and nothing else is written.
    For a simulation that does not exist the endpoint raises the 404 and
    leaves the session as it was.  Otherwise, the new key being the key of
    no event, it returns the row made of the request, the simulation and
    the new key, not triggered; the row is appended to the events and
    committed; [get_event] finds it under its key and finds every other
    event as before; the list of the events of the simulation, when the
    limit leaves room, is the list as it was followed by the new row; no
    other table is written. *)
Theorem inject_event_endpoint_round_trip (simulation_id : uuid)
  (event_data : EventCreate F) (db : Session F) :
  fresh_key Event.id (events (live db)) db ->
  match get_simulation db simulation_id with
  | None =>
      inject_event_endpoint simulation_id event_data db
      = (Raise (HTTPException 404 "Simulation not found"), db)
  | Some _ =>
      exists row db',
        inject_event_endpoint simulation_id event_data db = (Ok row, db')
        /\ row = new_event_row (uuid_seq db) simulation_id event_data
        /\ events (live db') = events (live db) ++ [row]
        /\ get_event db' (Event.id row) = Some row
        /\ (forall j, j <> Event.id row -> get_event db' j = get_event db j)
        /\ (forall limit,
              (List.length (get_events db simulation_id None None 0 limit)
               < Z.to_nat limit)%nat ->
              list_events_endpoint simulation_id None None 0 limit db'
              = (Ok (get_events db simulation_id None None 0 limit ++ [row]), db'))
        /\ simulations (live db') = simulations (live db)
        /\ agents (live db') = agents (live db)
        /\ long_term_memories (live db') = long_term_memories (live db)
        /\ metric_snapshots (live db') = metric_snapshots (live db)
        /\ durable db' = live db'
  end.
Proof.
  intro Hfresh. destruct (get_simulation db simulation_id) as [sim|] eqn:Hsim.
  - rewrite (inject_event_endpoint_found _ _ _ _ Hsim), create_event_effect.
    eexists. eexists. split; [reflexivity|]. split; [reflexivity|].
    split; [reflexivity|]. split; [|split; [|split]]; [| | |repeat split].
    + unfold get_event. cbn [live events set_events new_event_row Event.id].
      apply find_app_fresh.
      * intros y Hy. apply Z.eqb_neq. now apply Hfresh.
      * apply Z.eqb_refl.
    + intros j Hj. unfold get_event. cbn [live events set_events].
      apply find_app_old. apply Z.eqb_neq. cbn in *. congruence.
    + intros limit Hlen. unfold list_events_endpoint, bind, gets.
      unfold get_simulation at 1. cbn [live simulations set_events].
      fold (get_simulation db simulation_id). rewrite Hsim.
      f_equal. f_equal. unfold get_events in *.
      cbn [live events set_events Z.to_nat skipn] in *.
      rewrite filter_app. cbn [filter new_event_row Event.simulation_id].
      rewrite Z.eqb_refl.
      pose proof (firstn_short _ _ Hlen) as Hs. rewrite Hs in Hlen. rewrite Hs.
      apply firstn_all2. rewrite length_app. cbn. lia.
  - now apply inject_event_endpoint_missing.
Qed.

(** The selection of the event processor once a due event was appended. *)
Lemma get_events_appended (db db1 : Session F) (sim : Simulation.t)
  (row : Event.t F) :
  events (live db1) = events (live db) ++ [row] ->
  eligible sim row = true ->
  (List.length (get_events db (Simulation.id sim) (Some "pending")
                  (Some (Simulation.current_tick sim)) 0 100) < 100)%nat ->
  get_events db1 (Simulation.id sim) (Some "pending")
    (Some (Simulation.current_tick sim)) 0 100
  = get_events db (Simulation.id sim) (Some "pending")
      (Some (Simulation.current_tick sim)) 0 100 ++ [row].
Proof.
  intros Hev Hel Hlen. rewrite !get_events_eligible in *.
  pose proof (firstn_short _ _ Hlen) as Hs. rewrite Hs in Hlen. rewrite Hs.
  rewrite Hev, filter_app. cbn [filter]. rewrite Hel.
  apply firstn_all2. rewrite length_app. cbn. lia.
Qed.

Lemma after_stages_events (env : LLMEnv F) (sim : Simulation.t) (db : Session F)
  (j : uuid) :
  get_event (after_stages env sim db) j
  = get_event (snd (process_events_for_tick sim db)) j.
Proof.
  unfold after_stages. rewrite !isolated_snd.
  set (db1 := snd (process_events_for_tick sim db)).
  set (db2 := snd (calculate_and_store_metrics sim db1)).
  set (db3 := snd (run_agent_updates env sim db2)).
  rewrite (get_event_touches _ _ _ _ _ j
             (touches_calculate_and_store_metrics sim db3)); [|intros []].
  unfold db3.
  rewrite (get_event_touches _ _ _ _ _ j
             (touches_run_agent_updates env sim db2 [] (fun _ => True)));
    [|intros []].
  unfold db2.
  now rewrite (get_event_touches _ _ _ _ _ j
                 (touches_calculate_and_store_metrics sim db1)); [|intros []].
Qed.

Lemma advance_tick_get_event (env : LLMEnv F) (simulation_id : uuid)
  (db : Session F) (sim : Simulation.t) (j : uuid) :
  get_simulation db simulation_id = Some sim ->
  get_event (snd (advance_tick_endpoint env simulation_id db)) j
  = get_event (snd (process_events_for_tick sim db)) j.
Proof.
  intro Hsim.
  destruct (advance_tick_endpoint_effect env simulation_id db sim Hsim)
    as (_ & _ & He & _).
  unfold get_event at 1. rewrite He. apply after_stages_events.
Qed.

(** The session after an injection. *)
Lemma inject_event_endpoint_session (simulation_id : uuid)
  (event_data : EventCreate F) (db : Session F) (sim : Simulation.t) :
  unique_event_ids db ->
  fresh_key Event.id (events (live db)) db ->
  get_simulation db simulation_id = Some sim ->
  let row := new_event_row (uuid_seq db) simulation_id event_data in
  let db1 := snd (inject_event_endpoint simulation_id event_data db) in
  events (live db1) = events (live db) ++ [row]
  /\ simulations (live db1) = simulations (live db)
  /\ unique_event_ids db1.
Proof.
  intros Hnd Hfresh Hsim row db1.
  assert (Hdb1 : db1 = snd (create_event event_data simulation_id db)).
  { unfold db1. now rewrite (inject_event_endpoint_found _ _ _ _ Hsim). }
  rewrite create_event_effect in Hdb1. cbn [snd] in Hdb1. fold row in Hdb1.
  assert (Hev : events (live db1) = events (live db) ++ [row]) by now rewrite Hdb1.
  split; [exact Hev|]. split; [now rewrite Hdb1|].
  unfold unique_event_ids. rewrite Hev, map_app. cbn [map].
  apply NoDup_app; [exact Hnd | repeat constructor; intros [] |].
  intros a Hin [Ha|[]]. apply in_map_iff in Hin as (y & Hy & Hin).
  apply (Hfresh y Hin). now rewrite Hy, <- Ha.
Qed.

Lemma advance_tick_unique_events (env : LLMEnv F) (simulation_id : uuid)
  (db : Session F) :
  unique_event_ids db ->
  unique_event_ids (snd (advance_tick_endpoint env simulation_id db)).
Proof.
  intro Hnd. destruct (get_simulation db simulation_id) as [sim|] eqn:Hsim.
  - destruct (advance_tick_endpoint_effect env simulation_id db sim Hsim)
      as (_ & _ & He & _).
    unfold unique_event_ids.
    now rewrite He, (touches_event_ids _ _ _ _ _ (touches_after_stages env sim db)).
  - now rewrite (advance_tick_endpoint_missing env simulation_id db Hsim).
Qed.

Lemma get_event_in (db : Session F) (j : uuid) (e : Event.t F) :
  get_event db j = Some e -> In e (events (live db)).
Proof. intro Hget. now apply find_some in Hget. Qed.

(** X8.  An event injected for the current tick is handled by the next tick
    advance.  Let the simulation be at tick N with fewer than 100 pending
    events due at N, the parameters of those of type [ubi] being dicts.
    An event injected as pending with target tick N is then read back after
    the next tick advance under the key it was given: [processed] when its
    type is [ubi] and its parameters validate, [failed] otherwise, with
    the time it was triggered and nothing else changed; and it is read
    back like that after any number of further tick advances. *)
Theorem injected_event_is_handled_by_next_tick (env : LLMEnv F)
  (simulation_id : uuid) (event_data : EventCreate F) (db : Session F)
  (sim : Simulation.t) :
  unique_event_ids db ->
  fresh_key Event.id (events (live db)) db ->
  get_simulation db simulation_id = Some sim ->
  new_status event_data = "pending" ->
  new_target_tick event_data = Some (Simulation.current_tick sim) ->
  (List.length (get_events db simulation_id (Some "pending")
                  (Some (Simulation.current_tick sim)) 0 100) < 100)%nat ->
  Forall unpackable
    (get_events db simulation_id (Some "pending")
       (Some (Simulation.current_tick sim)) 0 100) ->
  let db1 := snd (inject_event_endpoint simulation_id event_data db) in
  let db2 := snd (advance_tick_endpoint env simulation_id db1) in
  exists row,
    get_event db2 (uuid_seq db) = Some row
    /\ Event.status row
       = (if String.eqb (new_event_type event_data) "ubi"
          then match UBIEventParams_init (PDict (new_parameters event_data)) with
               | Ok _ => "processed"
               | Raise _ => "failed"
               end
          else "failed")
    /\ Event.triggered_at row <> None
    /\ Event.simulation_id row = simulation_id
    /\ Event.event_type row = new_event_type event_data
    /\ Event.description row = new_description event_data
    /\ Event.parameters row = PDict (new_parameters event_data)
    /\ Event.target_tick row = Some (Simulation.current_tick sim)
    /\ forall db', ticked db2 db' -> get_event db' (uuid_seq db) = Some row.
Proof.
  intros Hnd Hfresh Hsim Hst Htk Hlen Hp db1 db2.
  pose proof (get_simulation_id db simulation_id sim Hsim) as Hid.
  set (new := new_event_row (uuid_seq db) simulation_id event_data).
  destruct (inject_event_endpoint_session simulation_id event_data db sim
              Hnd Hfresh Hsim) as (Hev & Hs1 & Hnd1).
  fold new db1 in Hev, Hs1, Hnd1.
  assert (Hsim1 : get_simulation db1 simulation_id = Some sim).
  { unfold get_simulation. now rewrite Hs1. }
  assert (Hel : eligible sim new = true).
  { apply eligible_pending. cbn. now rewrite Hid, Hst, Htk. }
  assert (Hin1 : In new (events (live db1))).
  { rewrite Hev. apply in_or_app. right. now left. }
  unfold db2. rewrite (advance_tick_get_event env simulation_id db1 sim _ Hsim1).
  rewrite process_events_for_tick_loop.
  rewrite <- Hid in Hlen, Hp.
  rewrite (get_events_appended db db1 sim new Hev Hel Hlen).
  set (l := get_events db _ _ _ _ _ ++ [new]).
  assert (Hpl : Forall unpackable l).
  { apply Forall_app. split; [exact Hp|]. constructor; [|constructor].
    intros _. eexists. reflexivity. }
  assert (Hndl : NoDup (map Event.id l)).
  { unfold l. rewrite <- (get_events_appended db db1 sim new Hev Hel Hlen).
    now apply get_events_unique. }
  destruct (for_each_keyed Event.id get_event (handle_event sim)
              unpackable handled_as
              (fun x d Hx => handle_event_ok sim x d Hx)
              (handle_event_other sim)
              (fun x d r Hx Hr => handle_event_post sim x r d Hx Hr)
              l db1 Hpl Hndl) as (_ & _ & Hpost).
  destruct (Hpost new new) as (row & Hrow & Hh).
  { unfold l. apply in_or_app. right. now left. }
  { now apply get_event_unique. }
  exists row. split; [exact Hrow|].
  destruct Hh as (Hi & Hs & Hty & Hds & Hpa & Htt & Hfin & Htr).
  assert (Hstatus : Event.status row
                    = (if String.eqb (new_event_type event_data) "ubi"
                       then match UBIEventParams_init
                                    (PDict (new_parameters event_data)) with
                            | Ok _ => "processed"
                            | Raise _ => "failed"
                            end
                       else "failed")).
  { rewrite Hfin. unfold final_status. cbn [new new_event_row Event.event_type
      Event.parameters].
    destruct (String.eqb (new_event_type event_data) "ubi"); [|reflexivity].
    destruct (UBIEventParams_init (PDict (new_parameters event_data))) as [p|e] eqn:E;
      [reflexivity|].
    now rewrite (UBIEventParams_init_dict _ _ E). }
  split; [exact Hstatus|]. repeat split; try assumption.
  - now rewrite Htt.
  - intros db' Hticked.
    unfold l in Hrow.
    rewrite <- (get_events_appended db db1 sim new Hev Hel Hlen),
      <- process_events_for_tick_loop,
      <- (advance_tick_get_event env simulation_id db1 sim _ Hsim1) in Hrow.
    fold db2 in Hrow.
    assert (Hnd2 : unique_event_ids db2) by now apply advance_tick_unique_events.
    destruct (ticked_keeps_event row db2 db' Hnd2 (get_event_in _ _ _ Hrow))
      with (2 := Hticked) as (Hin' & Hnd').
    { left. rewrite Hstatus.
      destruct (String.eqb (new_event_type event_data) "ubi"); [|discriminate].
      destruct (UBIEventParams_init (PDict (new_parameters event_data)));
        discriminate. }
    replace (uuid_seq db) with (Event.id row) by exact Hi.
    now apply get_event_unique.
Qed.

(** X9.  An event injected without a tick it is due at is never handled.
    With unique event keys and a new key that is the key of no event, an
    event injected into a simulation at tick N with no [target_tick], or
    with one below N, is read back as it was stored after any number of
    tick advances of any simulations: whatever its type and parameters, it
    is not triggered and keeps the status it was injected with. *)
Theorem injected_event_not_due_is_never_handled (simulation_id : uuid)
  (event_data : EventCreate F) (db db' : Session F) (sim : Simulation.t) :
  unique_event_ids db ->
  fresh_key Event.id (events (live db)) db ->
  get_simulation db simulation_id = Some sim ->
  (forall t, new_target_tick event_data = Some t -> t < Simulation.current_tick sim) ->
  ticked (snd (inject_event_endpoint simulation_id event_data db)) db' ->
  get_event db' (uuid_seq db)
  = Some (new_event_row (uuid_seq db) simulation_id event_data).
Proof.
  intros Hnd Hfresh Hsim Hpast Hticked.
  destruct (inject_event_endpoint_session simulation_id event_data db sim
              Hnd Hfresh Hsim) as (Hev & Hs1 & Hnd1).
  destruct (ticked_keeps_event
              (new_event_row (uuid_seq db) simulation_id event_data) _ db' Hnd1)
    as (Hin' & Hnd').
  - rewrite Hev. apply in_or_app. right. now left.
  - right. intros sim' t Hsim' Ht.
    cbn [new_event_row Event.simulation_id Event.target_tick] in Hsim', Ht.
    unfold get_simulation in Hsim'. rewrite Hs1 in Hsim'.
    fold (get_simulation db simulation_id) in Hsim'.
    rewrite Hsim in Hsim'. injection Hsim' as <-. now apply Hpast.
  - exact Hticked.
  - now apply (get_event_unique db' _ Hnd' Hin').
Qed.

End InjectProperties.

(** ** New simulations ([api/simulation_routes.py], [crud/simulation.py]) *)

Section CreateSimulationProperties.
Context {F : Type} `{Float64 F}.

Local Open Scope session_scope.

Lemma create_simulation_effect (request : SimulationCreate) (db : Session F) :
  let row := Simulation.mk (uuid_seq db) (create_name request)
               (create_description request) 0 "initialized" in
  let t := set_simulations (simulations (live db) ++ [row]) (live db) in
  create_simulation request db
  = (Ok row, mkSession t t (memory_seq db) (uuid_seq db + 1) (now db + 1)).
Proof. reflexivity. Qed.

(** X10.  A new simulation starts at tick 0 as [initialized], whatever the
    request says, and can be read back.  The endpoint never raises; the
    row it returns has the name and the description of the request and a
    new key, tick 0 and status [initialized]: [current_tick], [status] and
    [population_size_target] of the request are not used.  The new key
    being the key of no simulation, [read_simulation_endpoint] returns the
    row under its key and every other key reads as before; the row is
    committed and no other table is written. *)
Theorem create_simulation_endpoint_round_trip (request : SimulationCreate)
  (db : Session F) :
  fresh_key Simulation.id (simulations (live db)) db ->
  exists row db',
    create_simulation_endpoint request db = (Ok row, db')
    /\ row = Simulation.mk (uuid_seq db) (create_name request)
               (create_description request) 0 "initialized"
    /\ read_simulation_endpoint (Simulation.id row) db' = (Ok row, db')
    /\ (forall j, j <> Simulation.id row ->
          get_simulation db' j = get_simulation db j)
    /\ simulations (live db') = simulations (live db) ++ [row]
    /\ agents (live db') = agents (live db)
    /\ events (live db') = events (live db)
    /\ long_term_memories (live db') = long_term_memories (live db)
    /\ metric_snapshots (live db') = metric_snapshots (live db)
    /\ durable db' = live db'.
Proof.
  intro Hfresh. unfold create_simulation_endpoint. rewrite create_simulation_effect.
  eexists. eexists. split; [reflexivity|]. split; [reflexivity|].
  assert (Hget : forall t' m u n,
            get_simulation
              (mkSession
                 (set_simulations
                    (simulations (live db)
                     ++ [Simulation.mk (uuid_seq db) (create_name request)
                           (create_description request) 0 "initialized"])
                    (live db)) t' m u n) (uuid_seq db)
            = Some (Simulation.mk (uuid_seq db) (create_name request)
                      (create_description request) 0 "initialized")).
  { intros. unfold get_simulation. cbn [live simulations set_simulations].
    apply find_app_fresh.
    - intros y Hy. apply Z.eqb_neq. now apply Hfresh.
    - apply Z.eqb_refl. }
  split; [|split]; [| |repeat split].
  - unfold read_simulation_endpoint, bind, gets. cbn [Simulation.id].
    now rewrite Hget.
  - intros j Hj. unfold get_simulation. cbn [live simulations set_simulations].
    apply find_app_old. apply Z.eqb_neq. cbn in *. congruence.
Qed.

End CreateSimulationProperties.

(** ** The time series of metrics ([api/simulation_routes.py], [crud/metrics.py]) *)

Section MetricsSeriesProperties.
Context {F : Type} `{Float64 F}.

Local Open Scope session_scope.

Lemma insert_by_tick_perm (s : MetricSnapshot.t F) (l : list (MetricSnapshot.t F)) :
  Permutation (insert_by_tick s l) (s :: l).
Proof.
  induction l as [|x l IH]; cbn; [reflexivity|].
  destruct (MetricSnapshot.tick s <? MetricSnapshot.tick x); [reflexivity|].
  rewrite IH. apply perm_swap.
Qed.

Lemma insert_by_tick_sorted (s : MetricSnapshot.t F) (l : list (MetricSnapshot.t F)) :
  StronglySorted by_tick l -> StronglySorted by_tick (insert_by_tick s l).
Proof.
  induction 1 as [|x l Hl IH Hx]; cbn; [repeat constructor|].
  destruct (MetricSnapshot.tick s <? MetricSnapshot.tick x) eqn:E.
  - apply Z.ltb_lt in E. constructor; [now constructor|].
    constructor; [unfold by_tick; lia|].
    rewrite Forall_forall in *. intros y Hy. specialize (Hx y Hy).
    unfold by_tick in *. lia.
  - apply Z.ltb_ge in E. constructor; [exact IH|].
    rewrite Forall_forall in *. intros y Hy.
    apply (Permutation_in _ (insert_by_tick_perm s l)) in Hy as [<-|Hy];
      [exact E | now apply Hx].
Qed.

Lemma fold_insert_by_tick (l acc : list (MetricSnapshot.t F)) :
  StronglySorted by_tick acc ->
  StronglySorted by_tick (fold_left (fun acc s => insert_by_tick s acc) l acc)
  /\ Permutation (fold_left (fun acc s => insert_by_tick s acc) l acc) (acc ++ l).
Proof.
  revert acc. induction l as [|x l IH]; intros acc Hacc; cbn.
  - rewrite app_nil_r. now split.
  - destruct (IH (insert_by_tick x acc) (insert_by_tick_sorted x acc Hacc))
      as (Hs & Hp).
    split; [exact Hs|]. etransitivity; [exact Hp|].
    etransitivity; [apply Permutation_app_tail, insert_by_tick_perm|].
    apply Permutation_middle.
Qed.

Lemma order_by_tick_sorted (l : list (MetricSnapshot.t F)) :
  StronglySorted by_tick (order_by_tick l) /\ Permutation (order_by_tick l) l.
Proof. apply (fold_insert_by_tick l []). constructor. Qed.

Lemma StronglySorted_skipn {A} (R : A -> A -> Prop) (n : nat) (l : list A) :
  StronglySorted R l -> StronglySorted R (skipn n l).
Proof.
  revert l. induction n as [|n IH]; intros l Hl; [exact Hl|].
  destruct Hl as [|x l Hl _]; cbn; [constructor | now apply IH].
Qed.

Lemma StronglySorted_firstn {A} (R : A -> A -> Prop) (n : nat) (l : list A) :
  StronglySorted R l -> StronglySorted R (firstn n l).
Proof.
  revert l. induction n as [|n IH]; intros l Hl; [constructor|].
  destruct Hl as [|x l Hl Hx]; cbn; constructor; [now apply IH|].
  rewrite Forall_forall in *. intros y Hy. apply Hx.
  now apply (In_firstn_skipn n 0 l y).
Qed.

(** X11.  The time series of a simulation is in tick order.  For a simulation
    that does not exist the endpoint raises the 404.  Otherwise, for an
    offset and a limit that are not negative, it returns, without writing
    anything, stored snapshots of that simulation only, at most [limit] of
    them, with ticks in ascending order; from offset 0 and with a limit
    that covers them, it returns every snapshot of the simulation exactly
    once. *)
Theorem get_metrics_snapshots_endpoint_in_tick_order (simulation_id : uuid)
  (skip limit : Z) (db : Session F) :
  0 <= skip -> 0 <= limit ->
  match get_simulation db simulation_id with
  | None =>
      get_metrics_snapshots_endpoint simulation_id skip limit db
      = (Raise (HTTPException 404 "Simulation not found"), db)
  | Some _ =>
      exists snapshots,
        get_metrics_snapshots_endpoint simulation_id skip limit db
        = (Ok snapshots, db)
        /\ StronglySorted by_tick snapshots
        /\ (forall s, In s snapshots ->
              In s (metric_snapshots (live db))
              /\ MetricSnapshot.simulation_id s = simulation_id)
        /\ Z.of_nat (List.length snapshots) <= limit
        /\ (skip = 0 ->
            Z.of_nat (List.length
                        (filter (fun s => MetricSnapshot.simulation_id s =? simulation_id)
                           (metric_snapshots (live db)))) <= limit ->
            Permutation snapshots
              (filter (fun s => MetricSnapshot.simulation_id s =? simulation_id)
                 (metric_snapshots (live db))))
  end.
Proof.
  intros Hskip Hlimit. unfold get_metrics_snapshots_endpoint, bind, gets.
  destruct (get_simulation db simulation_id) as [sim|]; [|reflexivity].
  eexists. split; [reflexivity|]. unfold get_metric_snapshots.
  set (query := filter _ (metric_snapshots (live db))).
  destruct (order_by_tick_sorted query) as (Hs & Hp).
  split; [|split; [|split]].
  - now apply StronglySorted_firstn, StronglySorted_skipn.
  - intros s Hs'. apply In_firstn_skipn in Hs'.
    apply (Permutation_in _ Hp) in Hs'. apply filter_In in Hs' as (Hin & Hid).
    split; [exact Hin | now apply Z.eqb_eq].
  - rewrite length_firstn. lia.
  - intros -> Hall. cbn [Z.to_nat skipn]. rewrite firstn_all2; [exact Hp|].
    rewrite (Permutation_length Hp). lia.
Qed.

End MetricsSeriesProperties.

(** ** The decision history ([api/agent_routes.py]) *)

Section DecisionHistoryProperties.
Context {F : Type} `{Float64 F}.

Local Open Scope session_scope.

Lemma get_agent_decisions_found (agent_id : uuid) (db : Session F) (a : Agent.t F) :
  get_agent db agent_id = Some a ->
  get_agent_decisions agent_id db = (Ok (last_decisions a), db).
Proof.
  intro Hget. unfold get_agent_decisions, bind, gets, last_decisions. rewrite Hget.
  destruct (as_dict (Agent.short_term_memory a)) as [stm|]; [|reflexivity].
  destruct (dict_get stm "last_decisions") as [[]|]; reflexivity.
Qed.

Lemma find_Forall2_key {A} (key : A -> uuid) (Q : A -> A -> Prop) (j : uuid)
  (l l' : list A) (x : A) :
  Forall2 (fun x y => key y = key x /\ Q x y) l l' ->
  find (fun r => key r =? j) l = Some x ->
  exists y, find (fun r => key r =? j) l' = Some y /\ Q x y.
Proof.
  induction 1 as [|x0 y0 l l' (Hk & Hq) _ IH]; cbn; [discriminate|].
  rewrite Hk. destruct (key x0 =? j).
  - intros [= <-]. now exists y0.
  - exact IH.
Qed.

(** The four stages of a tick, whatever the oracle answers. *)
Lemma after_stages_logs (env : LLMEnv F) (simulation : Simulation.t)
  (db : Session F) :
  unique_agent_ids db ->
  Forall2 (decision_logged simulation db)
    (agents (live db)) (agents (live (after_stages env simulation db))).
Proof.
  intro Hnd. unfold after_stages.
  set (db1 := snd (isolated (process_events_for_tick simulation) db)).
  set (db2 := snd (isolated (calculate_and_store_metrics simulation) db1)).
  set (db3 := snd (isolated (run_agent_updates env simulation) db2)).
  set (db4 := snd (isolated (calculate_and_store_metrics simulation) db3)).
  assert (H01 : stage_rel db db1)
    by apply stage_rel_isolated, preserves_process_events_for_tick.
  assert (H12 : stage_rel db1 db2)
    by apply stage_rel_isolated, preserves_calculate_and_store_metrics.
  assert (H34 : stage_rel db3 db4)
    by apply stage_rel_isolated, preserves_calculate_and_store_metrics.
  pose proof (step_trans _ _ _ H01 H12) as (_ & _ & Ha02).
  destruct H34 as (_ & _ & Ha34).
  assert (Hrun : db3 = snd (run_agent_updates env simulation db2))
    by apply isolated_snd.
  assert (Hnd2 : unique_agent_ids db2).
  { unfold unique_agent_ids. now rewrite (agents_kept_ids _ _ Ha02). }
  destruct (run_agent_updates_rows env simulation db2 Hnd2) as (_ & Hrows & _).
  rewrite <- Hrun in Hrows.
  set (g := fun x => if is_processed db2 simulation x
                     then processed_agent env simulation x else x) in Hrows.
  assert (H23 : Forall2 (fun x y => y = g x) (agents (live db2)) (agents (live db3))).
  { rewrite Hrows. apply Forall2_map_r. reflexivity. }
  pose proof (Forall2_chain _ _ (fun x z => agent_kept (g x) z) _ _ _
                (fun x y z (Hxy : y = g x) (Hyz : agent_kept y z) =>
                   eq_ind y (fun w => agent_kept w z) Hyz (g x) Hxy)
                H23 Ha34) as H24.
  apply (Forall2_chain agent_kept (fun x z => agent_kept (g x) z)
           (decision_logged simulation db) _ _ _) with (2 := Ha02) (3 := H24).
  intros a a2 a4 Hk02 Hk34. unfold decision_logged.
  rewrite <- (is_processed_kept db db2 simulation a a2 Ha02) by apply Hk02.
  rewrite (last_decisions_kept _ _ Hk34), <- (last_decisions_kept _ _ Hk02).
  destruct Hk34 as (-> & _). unfold g.
  destruct (is_processed db2 simulation a2).
  - rewrite processed_agent_id. split; [apply Hk02|].
    eexists. apply processed_agent_last_decisions.
  - split; [apply Hk02 | reflexivity].
Qed.

(** X12.  A tick leaves one more decision in the history of every agent it
    processes, and the history of every other agent as it was.  With
    unique agent keys, for a simulation at tick N and whatever the oracle
    answers, the decisions endpoint returns after the tick advance what it
    returned before it, followed, for an agent the pipeline fetches, by
    exactly one entry [{"tick": N, "decision": ...}] that holds a decision
    of the schema. *)
Theorem advance_tick_logs_one_decision (env : LLMEnv F) (simulation_id : uuid)
  (db : Session F) (sim : Simulation.t) (a : Agent.t F) :
  unique_agent_ids db ->
  get_simulation db simulation_id = Some sim ->
  In a (agents (live db)) ->
  let db' := snd (advance_tick_endpoint env simulation_id db) in
  exists before after,
    get_agent_decisions (Agent.id a) db = (Ok before, db)
    /\ get_agent_decisions (Agent.id a) db' = (Ok after, db')
    /\ if is_processed db sim a
       then exists decision : LLMDecision F,
              after = before
                      ++ [decision_entry (Simulation.current_tick sim) decision]
       else after = before.
Proof.
  intros Hnd Hsim Hin db'.
  pose proof (get_agent_unique db a Hnd Hin) as Hget.
  destruct (advance_tick_endpoint_effect env simulation_id db sim Hsim)
    as (_ & Ha & _).
  fold db' in Ha.
  pose proof (after_stages_logs env sim db Hnd) as Hlog. rewrite <- Ha in Hlog.
  destruct (find_Forall2_key Agent.id
              (fun x y =>
                 if is_processed db sim x
                 then exists decision : LLMDecision F,
                        last_decisions y
                        = last_decisions x
                          ++ [decision_entry (Simulation.current_tick sim) decision]
                 else last_decisions y = last_decisions x)
              (Agent.id a) _ _ a Hlog Hget) as (a' & Hget' & Hq).
  exists (last_decisions a), (last_decisions a').
  split; [now apply get_agent_decisions_found|].
  split; [now apply get_agent_decisions_found | exact Hq].
Qed.

End DecisionHistoryProperties.

(** ** Reading memories back ([crud/memory.py]) *)

Section RecentMemoryProperties.
Context {F : Type} `{Float64 F}.

Local Open Scope session_scope.

Lemma add_long_term_memory_effect (agent_id simulation_id : uuid)
  (memory_text : string) (memory_embedding : list F) (importance : option Z)
  (db : Session F) :
  List.length memory_embedding = EMBEDDING_DIM ->
  let row := AgentLongTermMemory.mk (memory_seq db) agent_id simulation_id
               memory_text memory_embedding importance in
  let t := set_long_term_memories (long_term_memories (live db) ++ [row]) (live db) in
  add_long_term_memory agent_id simulation_id memory_text memory_embedding
    importance db
  = (Ok row, mkSession t t (memory_seq db + 1) (uuid_seq db) (now db)).
Proof.
  intros Hlen. unfold add_long_term_memory. rewrite Hlen, Nat.eqb_refl.
  reflexivity.
Qed.

(** X13.  A memory that was added is the most recent one of its agent.
    After a memory with an embedding of [EMBEDDING_DIM] entries was added
    for an agent, the recent memories of that agent, for a limit of at
    least 1, are the new row followed by what [limit - 1] gave before; the
    recent memories of every other agent are what they were. *)
Theorem added_memory_is_most_recent (agent_id simulation_id : uuid)
  (memory_text : string) (memory_embedding : list F) (importance : option Z)
  (limit : Z) (db : Session F) :
  List.length memory_embedding = EMBEDDING_DIM ->
  1 <= limit ->
  let db' := snd (add_long_term_memory agent_id simulation_id memory_text
                    memory_embedding importance db) in
  get_recent_long_term_memories db' agent_id limit
  = AgentLongTermMemory.mk (memory_seq db) agent_id simulation_id memory_text
      memory_embedding importance
    :: get_recent_long_term_memories db agent_id (limit - 1)
  /\ forall other n,
       other <> agent_id ->
       get_recent_long_term_memories db' other n
       = get_recent_long_term_memories db other n.
Proof.
  intros Hlen Hlimit db'. unfold db'.
  rewrite (add_long_term_memory_effect _ _ _ _ _ _ Hlen). cbn [snd].
  unfold get_recent_long_term_memories.
  cbn [live long_term_memories set_long_term_memories].
  split.
  - rewrite filter_app. cbn [filter AgentLongTermMemory.agent_id].
    rewrite Z.eqb_refl, rev_app_distr. cbn [rev app].
    replace (Z.to_nat limit) with (S (Z.to_nat (limit - 1))) by lia.
    reflexivity.
  - intros other n Hne. rewrite filter_app.
    cbn [filter AgentLongTermMemory.agent_id].
    replace (agent_id =? other) with false by (symmetry; apply Z.eqb_neq; congruence).
    now rewrite app_nil_r.
Qed.

End RecentMemoryProperties.

(** ** Decisions written and read ([schemas/llm.py]) *)

Section DecisionRoundTrip.
Context {F : Type} `{Float64 F}.

Lemma validate_dict_values_floats (l : list (string * F)) :
  validate_dict_values (map (fun kv => (fst kv, PFloat (snd kv))) l) = Ok l.
Proof.
  induction l as [|[k x] l IH]; cbn; [reflexivity|]. now rewrite IH.
Qed.

(** X14.  A decision that was written validates back to itself.  The
    dictionary [decision.dict()] gives, which is what the pipeline logs,
    is accepted by [LLMDecision.model_validate], and the decision that
    gives is the one that was written. *)
Theorem LLMDecision_dict_round_trip (decision : LLMDecision F) :
  LLMDecision_model_validate (LLMDecision_dict decision) = Ok decision.
Proof.
  destruct decision as [a dl ss ps sr].
  unfold LLMDecision_model_validate, LLMDecision_dict.
  cbn [action dialogue sentiment_shift policy_opinion_shift spending_ratio_shift].
  unfold required_field, field. cbn [dict_get String.eqb Ascii.eqb Bool.eqb].
  cbn -[validate_dict_values]. rewrite validate_dict_values_floats.
  destruct dl, sr; reflexivity.
Qed.

End DecisionRoundTrip.

(** ** The properties at work, continued *)

Lemma two_simulations_fresh_event_key :
  fresh_key (F:=float) Event.id (events (live two_simulations)) two_simulations.
Proof.
  intros r [<-|[<-|[<-|[]]]]; cbn; discriminate.
Defined.

Lemma two_simulations_fresh_simulation_key :
  fresh_key (F:=float) Simulation.id (simulations (live two_simulations))
    two_simulations.
Proof.
  intros r [<-|[<-|[]]]; cbn; discriminate.
Defined.

(** The top-up injected into the first simulation is stored under the key
    1000; the UBI event that was there is read back as before.  Injected
    into a simulation that does not exist, it is refused. *)
Lemma inject_event_endpoint_round_trip_witness :
  (exists db',
     inject_event_endpoint (F:=float) 1 top_up_request two_simulations
     = (Ok (new_event_row 1000 1 top_up_request), db')
     /\ get_event db' 1000 = Some (new_event_row 1000 1 top_up_request)
     /\ get_event db' 7 = Some (ubi_event 100 "pending"))
  /\ inject_event_endpoint (F:=float) 3 top_up_request two_simulations
     = (Raise (HTTPException 404 "Simulation not found"), two_simulations).
Proof.
  split.
  - pose proof (inject_event_endpoint_round_trip (F:=float) 1 top_up_request
                  two_simulations two_simulations_fresh_event_key) as Hx.
    change (get_simulation (F:=float) two_simulations 1)
      with (Some scenario_simulation) in Hx.
    destruct Hx as (row & db' & Hrun & -> & _ & Hget & Hother & _).
    exists db'. split; [exact Hrun|]. split; [exact Hget|].
    rewrite Hother; [reflexivity | discriminate].
  - exact (inject_event_endpoint_round_trip (F:=float) 3 top_up_request
             two_simulations two_simulations_fresh_event_key).
Defined.

(** The top-up injected into the first simulation, which is at tick 0 with
    one event due, is processed by the next tick. *)
Lemma injected_event_is_handled_by_next_tick_witness :
  exists row,
    get_event
      (snd (advance_tick_endpoint (F:=float) env_cheerful 1
              (snd (inject_event_endpoint 1 top_up_request two_simulations))))
      1000 = Some row
    /\ Event.status row = "processed"
    /\ Event.triggered_at row <> None.
Proof.
  assert (Hsel : get_events (F:=float) two_simulations 1 (Some "pending")
                   (Some (Simulation.current_tick scenario_simulation)) 0 100
                 = [ubi_event 100 "pending"]) by (vm_compute; reflexivity).
  assert (Hlen : (List.length
                    (get_events (F:=float) two_simulations 1%Z (Some "pending")
                       (Some (Simulation.current_tick scenario_simulation)) 0 100)
                  < 100)%nat) by (rewrite Hsel; cbn; lia).
  assert (Hp : Forall unpackable
                 (get_events (F:=float) two_simulations 1 (Some "pending")
                    (Some (Simulation.current_tick scenario_simulation)) 0 100)).
  { rewrite Hsel. repeat constructor. intros _. eexists. reflexivity. }
  destruct (injected_event_is_handled_by_next_tick (F:=float) env_cheerful 1
              top_up_request two_simulations scenario_simulation
              two_simulations_unique_events two_simulations_fresh_event_key
              eq_refl eq_refl eq_refl Hlen Hp)
    as (row & Hget & Hst & Htr & _).
  exists row. split; [exact Hget|]. split; [|exact Htr].
  rewrite Hst. vm_compute. reflexivity.
Defined.

(** The body of the run script validates to an event of type
    [ubi_distribution] without target tick; injected into the first
    simulation, it is read back as it was stored after three ticks. *)
Lemma injected_event_not_due_is_never_handled_witness :
  EventCreate_model_validate (F:=float) script_payload
  = Ok (mkEventCreate "ubi_distribution"
          (Some "A one-time UBI payment to all agents at the start.") [] None
          "pending")
  /\ get_event
       (advance_ticks 3 (F:=float) env_cheerful 1
          (snd (inject_event_endpoint 1
                  (mkEventCreate "ubi_distribution"
                     (Some "A one-time UBI payment to all agents at the start.")
                     [] None "pending")
                  two_simulations)))
       1000
     = Some (Event.mk 1000 1 "ubi_distribution"
               (Some "A one-time UBI payment to all agents at the start.")
               (PDict []) None "pending" None).
Proof.
  split; [vm_compute; reflexivity|].
  apply (injected_event_not_due_is_never_handled (F:=float) 1
           (mkEventCreate "ubi_distribution"
              (Some "A one-time UBI payment to all agents at the start.")
              [] None "pending")
           two_simulations _ scenario_simulation
           two_simulations_unique_events two_simulations_fresh_event_key eq_refl).
  - intros t Ht. discriminate.
  - cbn [advance_ticks].
    apply (ticked_advance env_cheerful 1), (ticked_advance env_cheerful 1),
      (ticked_advance env_cheerful 1), ticked_now.
Defined.

(** A request for a running simulation at tick 7 gives one that is
    initialized at tick 0. *)
Lemma create_simulation_endpoint_round_trip_witness :
  exists db',
    create_simulation_endpoint (F:=float) running_request two_simulations
    = (Ok (Simulation.mk 1000 (Some "Pilot") None 0 "initialized"), db')
    /\ read_simulation_endpoint 1000 db'
       = (Ok (Simulation.mk 1000 (Some "Pilot") None 0 "initialized"), db')
    /\ get_simulation db' 2 = Some other_simulation.
Proof.
  destruct (create_simulation_endpoint_round_trip (F:=float) running_request
              two_simulations two_simulations_fresh_simulation_key)
    as (row & db' & Hrun & -> & Hread & Hother & _).
  exists db'. split; [exact Hrun|]. split; [exact Hread|].
  rewrite Hother; [reflexivity | discriminate].
Defined.

(** After two ticks of the first simulation its series has four snapshots,
    two for tick 0 and two for tick 1, in that order. *)
Lemma get_metrics_snapshots_endpoint_in_tick_order_witness :
  exists snapshots,
    fst (get_metrics_snapshots_endpoint 1 0 1000
           (advance_ticks 2 (F:=float) env_cheerful 1 two_simulations))
    = Ok snapshots
    /\ StronglySorted by_tick snapshots
    /\ map MetricSnapshot.tick snapshots = [0; 0; 1; 1].
Proof.
  pose proof (get_metrics_snapshots_endpoint_in_tick_order (F:=float) 1 0 1000
                (advance_ticks 2 env_cheerful 1 two_simulations)
                ltac:(lia) ltac:(lia)) as Hx.
  assert (Hsim : get_simulation
                   (advance_ticks 2 (F:=float) env_cheerful 1 two_simulations) 1
                 = Some (Simulation.mk 1 (Some "Default Simulation") None 2 "running"))
    by (vm_compute; reflexivity).
  rewrite Hsim in Hx. destruct Hx as (snapshots & Hrun & Hsorted & _).
  exists snapshots. rewrite Hrun. split; [reflexivity|]. split; [exact Hsorted|].
  assert (Hticks : option_map (map MetricSnapshot.tick)
                     (match fst (get_metrics_snapshots_endpoint 1 0 1000
                                   (advance_ticks 2 (F:=float) env_cheerful 1
                                      two_simulations)) with
                      | Ok l => Some l
                      | Raise _ => None
                      end) = Some [0; 0; 1; 1]) by (vm_compute; reflexivity).
  rewrite Hrun in Hticks. cbn in Hticks. now injection Hticks.
Defined.

(** A tick of the first simulation: the history of its agent 11, empty
    before, holds one decision for tick 0; the history of the agent of the
    second simulation is still empty. *)
Lemma advance_tick_logs_one_decision_witness :
  (exists decision : LLMDecision float,
     fst (get_agent_decisions 11
            (snd (advance_tick_endpoint (F:=float) env_cheerful 1 two_simulations)))
     = Ok [decision_entry 0 decision])
  /\ fst (get_agent_decisions 20
            (snd (advance_tick_endpoint (F:=float) env_cheerful 1 two_simulations)))
     = Ok [].
Proof.
  split.
  - destruct (advance_tick_logs_one_decision (F:=float) env_cheerful 1
                two_simulations scenario_simulation (scenario_agent 11 50)
                two_simulations_unique_agents eq_refl)
      as (before & after & Hb & Ha & Hlog).
    { right. now left. }
    assert (Hp : is_processed (F:=float) two_simulations scenario_simulation
                   (scenario_agent 11 50) = true) by (vm_compute; reflexivity).
    rewrite Hp in Hlog. destruct Hlog as (decision & ->).
    change (get_agent_decisions (F:=float) (Agent.id (scenario_agent 11 50))
              two_simulations)
      with (Ok (@nil (pyval float)), two_simulations (F:=float)) in Hb.
    injection Hb as <-. exists decision.
    change (Agent.id (scenario_agent (F:=float) 11 50)) with 11 in Ha.
    now rewrite Ha.
  - destruct (advance_tick_logs_one_decision (F:=float) env_cheerful 1
                two_simulations scenario_simulation other_agent
                two_simulations_unique_agents eq_refl)
      as (before & after & Hb & Ha & Hlog).
    { do 3 right. now left. }
    assert (Hp : is_processed (F:=float) two_simulations scenario_simulation
                   other_agent = false) by (vm_compute; reflexivity).
    rewrite Hp in Hlog. subst after.
    change (get_agent_decisions (F:=float) (Agent.id other_agent) two_simulations)
      with (Ok (@nil (pyval float)), two_simulations (F:=float)) in Hb.
    injection Hb as <-.
    change (Agent.id (other_agent (F:=float))) with 20 in Ha.
    now rewrite Ha.
Defined.

(** Two memories added for agent 7: the second is the most recent one, the
    first follows. *)
Lemma added_memory_is_most_recent_witness :
  let db1 := snd (add_long_term_memory (F:=Q) 7 1 "first" (repeat 0%Q 768) None
                    empty_session) in
  let db2 := snd (add_long_term_memory 7 1 "second" (repeat 0%Q 768) None db1) in
  map AgentLongTermMemory.memory_text (get_recent_long_term_memories db2 7 10)
  = ["second"; "first"]
  /\ get_recent_long_term_memories db2 8 10 = [].
Proof.
  intros db1 db2.
  destruct (added_memory_is_most_recent (F:=Q) 7 1 "second" (repeat 0%Q 768) None
              10 db1 (repeat_length _ _) ltac:(lia)) as (Hrecent & Hother).
  fold db2 in Hrecent, Hother. split.
  - rewrite Hrecent. vm_compute. reflexivity.
  - rewrite (Hother 8 10); [vm_compute; reflexivity | discriminate].
Defined.

(** ** Payments of the events of one tick ([services/event_service.py]) *)

Section PaymentProperties.
Context {F : Type} `{Float64 F}.

Local Open Scope session_scope.

Lemma paid_id (amount : F) (a : Agent.t F) : Agent.id (paid amount a) = Agent.id a.
Proof.
  unfold paid. destruct (as_dict (Agent.demographics a)); [|reflexivity].
  now destruct (py_add_float _ amount).
Qed.

Lemma payment_of_id (e : Event.t F) (a : Agent.t F) :
  Agent.id (payment_of e a) = Agent.id a.
Proof.
  unfold payment_of. destruct (String.eqb _ _); [|reflexivity].
  destruct (UBIEventParams_init _); [apply paid_id | reflexivity].
Qed.

Lemma get_agents_ids (db : Session F) (sid : uuid) :
  map Agent.id (get_agents db (Some sid) 0 10000)
  = firstn (Z.to_nat 10000) (agent_ids_of db sid).
Proof.
  unfold get_agents, agent_ids_of. cbn [Z.to_nat skipn].
  now rewrite firstn_map.
Qed.

Lemma is_processed_touches (ka ke : list uuid) (ks : MetricSnapshot.t F -> Prop)
  (db db' : Session F) (simulation : Simulation.t) (a a' : Agent.t F) :
  touches ka ke ks db db' ->
  Agent.id a' = Agent.id a ->
  is_processed db' simulation a' = is_processed db simulation a.
Proof.
  intros Ht Hid. rewrite !is_processed_ids, !get_agents_ids, Hid.
  now rewrite (touches_agent_ids _ _ _ _ _ (Simulation.id simulation) Ht).
Qed.

Lemma touches_status_commit (event_id : uuid) (status : string) (db : Session F) :
  touches [] [event_id] (fun _ => False) db
    (snd ((update_event_status event_id status ;;; commit) db)).
Proof.
  revert db. pbind; [|pauto]. apply touches_update_event_status. now left.
Qed.

Lemma handle_event_split (simulation : Simulation.t) (event : Event.t F)
  (db : Session F) :
  handle_event simulation event db
  = (if String.eqb (Event.event_type event) "ubi"
     then apply_ubi_event simulation event
     else (update_event_status (Event.id event) "failed" ;;; commit))
      (snd ((update_event_status (Event.id event) "triggered" ;;; commit) db)).
Proof.
  unfold handle_event.
  destruct (update_event_status_ok (Event.id event) "triggered" db) as [r0 Hr0].
  rewrite !(bind_ok _ _ _ _ Hr0). reflexivity.
Qed.

(** One event handled: what it leaves of the agents. *)
Lemma handle_event_agents (simulation : Simulation.t) (event : Event.t F)
  (db : Session F) (a : Agent.t F) :
  unique_agent_ids db -> unpackable event -> In a (agents (live db)) ->
  get_agent (snd (handle_event simulation event db)) (Agent.id a)
  = Some (if is_processed db simulation a then payment_of event a else a).
Proof.
  intros Hnd Hp Hin. rewrite handle_event_split.
  pose proof (touches_status_commit (Event.id event) "triggered" db) as H01.
  set (db1 := snd ((update_event_status (Event.id event) "triggered" ;;; commit) db))
    in *.
  pose proof (touches_no_agent _ _ _ _ H01) as Ha1.
  assert (Hnd1 : unique_agent_ids db1) by (unfold unique_agent_ids; now rewrite Ha1).
  assert (Hin1 : In a (agents (live db1))) by now rewrite Ha1.
  assert (Hsame : forall db2, touches [] [Event.id event] (fun _ => False) db1 db2 ->
            get_agent db2 (Agent.id a) = Some a).
  { intros db2 H12.
    rewrite (get_agent_touches _ _ _ _ _ (Agent.id a) H12) by (intros []).
    now apply get_agent_unique. }
  unfold payment_of.
  destruct (String.eqb (Event.event_type event) "ubi") eqn:Ety.
  - apply String.eqb_eq in Ety. destruct (Hp Ety) as [d Hd].
    destruct (UBIEventParams_init (Event.parameters event)) as [params|e] eqn:Ep.
    + rewrite (apply_ubi_event_agents simulation event db1 params a Hnd1 Ep Hin1).
      now rewrite (is_processed_touches _ _ _ db db1 simulation a a H01).
    + assert (e = ValidationError) as ->.
      { rewrite Hd in Ep. eapply UBIEventParams_init_dict; exact Ep. }
      assert (Heq : apply_ubi_event simulation event db1
                    = (update_event_status (Event.id event) "failed" ;;; ret tt) db1).
      { unfold apply_ubi_event. now rewrite Ep. }
      rewrite Heq, Hsame; [now destruct (is_processed db simulation a)|].
      generalize db1. pbind; [|pauto]. apply touches_update_event_status. now left.
  - rewrite Hsame; [now destruct (is_processed db simulation a)|].
    apply touches_status_commit.
Qed.

Lemma get_agent_in (db : Session F) (j : uuid) (a : Agent.t F) :
  get_agent db j = Some a -> In a (agents (live db)).
Proof. intro Hget. now apply find_some in Hget. Qed.

(** The loop of the event processor: what it leaves of the agents. *)
Lemma handle_events_agents (simulation : Simulation.t) (l : list (Event.t F))
  (db : Session F) (a : Agent.t F) :
  unique_agent_ids db -> Forall unpackable l -> In a (agents (live db)) ->
  get_agent (snd (for_each l (handle_event simulation) db)) (Agent.id a)
  = Some (if is_processed db simulation a then payments l a else a).
Proof.
  revert db a. induction l as [|e l IH]; intros db a Hnd Hp Hin.
  - cbn [for_each]. unfold ret. cbn [snd].
    rewrite (get_agent_unique db a Hnd Hin).
    now destruct (is_processed db simulation a).
  - inversion Hp as [|? ? He Hl]; subst.
    cbn [for_each]. rewrite (bind_ok _ _ _ _ (handle_event_ok simulation e db He)).
    pose proof (handle_event_agents simulation e db a Hnd He Hin) as Hget.
    assert (Ht : touches (agent_ids_of db (Simulation.id simulation)) [Event.id e]
                   (fun _ => False) db (snd (handle_event simulation e db))).
    { apply touches_event_body. now left. }
    set (db1 := snd (handle_event simulation e db)) in *.
    set (a1 := if is_processed db simulation a then payment_of e a else a) in *.
    assert (Hid : Agent.id a1 = Agent.id a).
    { unfold a1. destruct (is_processed db simulation a);
        [apply payment_of_id | reflexivity]. }
    assert (Hnd1 : unique_agent_ids db1).
    { unfold unique_agent_ids. now rewrite (touches_all_agent_ids _ _ _ _ _ Ht). }
    rewrite <- Hid.
    rewrite (IH db1 a1 Hnd1 Hl (get_agent_in db1 _ a1 Hget)).
    rewrite (is_processed_touches _ _ _ db db1 simulation a a1 Ht Hid).
    unfold a1. now destruct (is_processed db simulation a).
Qed.

(** X15.  The UBI events due at one tick are paid one after the other.  With
    unique agent keys, and the parameters of the selected [ubi] events
    being dicts, one run of the event processor leaves every agent it
    fetches with the payments of the selected events applied in the order
    of their creation, each valid UBI event once and any other event not
    at all, and leaves every other agent as it was. *)
Theorem process_events_for_tick_pays_in_order (simulation : Simulation.t)
  (db : Session F) (a : Agent.t F) :
  unique_agent_ids db ->
  Forall unpackable
    (get_events db (Simulation.id simulation) (Some "pending")
       (Some (Simulation.current_tick simulation)) 0 100) ->
  In a (agents (live db)) ->
  get_agent (snd (process_events_for_tick simulation db)) (Agent.id a)
  = Some (if is_processed db simulation a
          then payments
                 (get_events db (Simulation.id simulation) (Some "pending")
                    (Some (Simulation.current_tick simulation)) 0 100) a
          else a).
Proof.
  intros Hnd Hp Hin. rewrite process_events_for_tick_loop.
  now apply handle_events_agents.
Qed.

End PaymentProperties.

(** ** What a tick leaves of an agent ([api/simulation_routes.py]) *)

Section ProfileProperties.
Context {F : Type} `{Float64 F}.

Local Open Scope session_scope.

Lemma profile_kept_refl (a : Agent.t F) : profile_kept a a.
Proof. unfold profile_kept. repeat split. Qed.

Lemma profile_kept_trans (a1 a2 a3 : Agent.t F) :
  profile_kept a1 a2 -> profile_kept a2 a3 -> profile_kept a1 a3.
Proof.
  intros (Hi & Hs & Ha & Ht & Hd & Hb) (Hi' & Hs' & Ha' & Ht' & Hd' & Hb').
  unfold profile_kept. repeat split; try congruence.
  - intros key Hk. now rewrite Hd', Hd.
  - intros key Hk. now rewrite Hb', Hb.
Qed.

Lemma paid_profile (amount : F) (a : Agent.t F) :
  profile_kept a (paid amount a) /\ Agent.beliefs (paid amount a) = Agent.beliefs a.
Proof.
  unfold paid. destruct (as_dict (Agent.demographics a)) as [d|] eqn:Ed;
    [|split; [apply profile_kept_refl | reflexivity]].
  destruct (py_add_float _ amount) as [income|e];
    [|split; [apply profile_kept_refl | reflexivity]].
  split; [|reflexivity]. unfold profile_kept. repeat split.
  intros key Hk. unfold demographic_entry. rewrite Ed. cbn.
  now apply dict_get_set_other.
Qed.

Lemma payment_of_profile (e : Event.t F) (a : Agent.t F) :
  profile_kept a (payment_of e a)
  /\ Agent.beliefs (payment_of e a) = Agent.beliefs a.
Proof.
  unfold payment_of. destruct (String.eqb _ _);
    [|split; [apply profile_kept_refl | reflexivity]].
  destruct (UBIEventParams_init _);
    [apply paid_profile | split; [apply profile_kept_refl | reflexivity]].
Qed.

Lemma payments_profile (l : list (Event.t F)) (a : Agent.t F) :
  profile_kept a (payments l a) /\ Agent.beliefs (payments l a) = Agent.beliefs a.
Proof.
  revert a. induction l as [|e l IH]; intro a.
  - split; [apply profile_kept_refl | reflexivity].
  - unfold payments. cbn [fold_left]. fold (payments l (payment_of e a)).
    destruct (IH (payment_of e a)) as (Hk & Hb).
    destruct (payment_of_profile e a) as (Hk0 & Hb0).
    split; [exact (profile_kept_trans _ _ _ Hk0 Hk) | congruence].
Qed.

Lemma processed_agent_kept (env : LLMEnv F) (simulation : Simulation.t)
  (a : Agent.t F) :
  profile_kept a (processed_agent env simulation a)
  /\ Agent.demographics (processed_agent env simulation a) = Agent.demographics a.
Proof.
  destruct (processed_agent_profile env simulation a) as (Hd & Ht & Hb & _).
  split; [|exact Hd]. unfold profile_kept.
  split; [apply processed_agent_id|].
  split; [apply processed_agent_simulation_id|].
  split.
  { unfold processed_agent, agent_writes.
    now destruct (shift_sentiment _ _). }
  split; [exact Ht|]. split; [|exact Hb].
  intros key _. unfold demographic_entry. now rewrite Hd.
Qed.

Lemma find_map_key {A} (key : A -> uuid) (g : A -> A) (j : uuid) (l : list A) :
  (forall x, key (g x) = key x) ->
  find (fun r => key r =? j) (map g l) = option_map g (find (fun r => key r =? j) l).
Proof.
  intro Hg. induction l as [|x l IH]; cbn; [reflexivity|].
  rewrite Hg. now destruct (key x =? j).
Qed.

(** X16.  A tick changes nothing of an agent but its income, its sentiment
    and its short-term memory.  With unique agent keys, and the parameters
    of the [ubi] events due at the tick being dicts, every stored agent is
    read back after a tick advance with the same keys, archetype and
    behavioural traits, every demographic entry other than [income] and
    every belief other than [sentiment] as before; its demographics are
    those the payments of the events due at the tick leave, in the order
    of their creation, for an agent the processor fetches, and the ones it
    had before for any other agent. *)
Theorem advance_tick_keeps_profile (env : LLMEnv F) (simulation_id : uuid)
  (db : Session F) (sim : Simulation.t) (a : Agent.t F) :
  unique_agent_ids db ->
  get_simulation db simulation_id = Some sim ->
  Forall unpackable
    (get_events db (Simulation.id sim) (Some "pending")
       (Some (Simulation.current_tick sim)) 0 100) ->
  In a (agents (live db)) ->
  exists a',
    get_agent (snd (advance_tick_endpoint env simulation_id db)) (Agent.id a)
    = Some a'
    /\ profile_kept a a'
    /\ Agent.demographics a'
       = Agent.demographics
           (if is_processed db sim a
            then payments
                   (get_events db (Simulation.id sim) (Some "pending")
                      (Some (Simulation.current_tick sim)) 0 100) a
            else a).
Proof.
  intros Hnd Hsim Hp Hin.
  destruct (advance_tick_endpoint_effect env simulation_id db sim Hsim)
    as (_ & Ha & _).
  unfold get_agent at 1. rewrite Ha. unfold after_stages. rewrite !isolated_snd.
  set (db1 := snd (process_events_for_tick sim db)).
  set (db2 := snd (calculate_and_store_metrics sim db1)).
  set (db3 := snd (run_agent_updates env sim db2)).
  rewrite (touches_no_agent _ _ _ _ (touches_calculate_and_store_metrics sim db3)).
  set (a1 := if is_processed db sim a
             then payments
                    (get_events db (Simulation.id sim) (Some "pending")
                       (Some (Simulation.current_tick sim)) 0 100) a
             else a).
  assert (Hget1 : get_agent db1 (Agent.id a) = Some a1).
  { unfold db1. rewrite process_events_for_tick_loop.
    now apply handle_events_agents. }
  pose proof (touches_process_events_for_tick sim db (fun _ => False)) as H01.
  fold db1 in H01.
  pose proof (touches_no_agent _ _ _ _ (touches_calculate_and_store_metrics sim db1))
    as Ha12.
  fold db2 in Ha12.
  assert (Hnd2 : unique_agent_ids db2).
  { unfold unique_agent_ids. now rewrite Ha12, (touches_all_agent_ids _ _ _ _ _ H01). }
  destruct (run_agent_updates_rows env sim db2 Hnd2) as (_ & Hrows & _).
  fold db3 in Hrows. rewrite Hrows.
  rewrite (find_map_key Agent.id).
  2:{ intro x. destruct (is_processed db2 sim x);
        [apply processed_agent_id | reflexivity]. }
  rewrite Ha12. fold (get_agent db1 (Agent.id a)). rewrite Hget1. cbn [option_map].
  eexists. split; [reflexivity|].
  assert (Hk1 : profile_kept a a1).
  { unfold a1. destruct (is_processed db sim a);
      [apply payments_profile | apply profile_kept_refl]. }
  destruct (is_processed db2 sim a1).
  - destruct (processed_agent_kept env sim a1) as (Hk & Hd).
    split; [exact (profile_kept_trans _ _ _ Hk1 Hk) | exact Hd].
  - split; [exact Hk1 | reflexivity].
Qed.

End ProfileProperties.

(** ** Payments and the Gini coefficient ([services/metrics_service.py]) *)

Section GiniPaymentProperties.
Local Open Scope Q_scope.

Lemma Q_fltb_add (a b c : Q) : fltb (F:=Q) (a + c) (b + c) = fltb (F:=Q) a b.
Proof.
  destruct (fltb (F:=Q) a b) eqn:E.
  - apply Q_fltb in E. apply Q_fltb. lra.
  - apply Q_fltb_false in E. apply Q_fltb_false. lra.
Qed.

Lemma insert_sorted_map (f : Q -> Q) (x : Q) (l : list Q) :
  (forall a b, fltb (F:=Q) (f a) (f b) = fltb (F:=Q) a b) ->
  insert_sorted (F:=Q) (f x) (map f l) = map f (insert_sorted (F:=Q) x l).
Proof.
  intro Hf. induction l as [|y l IH]; cbn [insert_sorted map]; [reflexivity|].
  rewrite !Q_is_nan, Hf. cbn [andb]. rewrite !orb_false_r.
  destruct (fltb (F:=Q) y x); cbn [map]; [now rewrite IH | reflexivity].
Qed.

Lemma np_sort_map (f : Q -> Q) (l : list Q) :
  (forall a b, fltb (F:=Q) (f a) (f b) = fltb (F:=Q) a b) ->
  np_sort (F:=Q) (map f l) = map f (np_sort (F:=Q) l).
Proof.
  intro Hf. induction l as [|x l IH]; [reflexivity|].
  unfold np_sort in *. cbn [map fold_right]. rewrite IH.
  now apply insert_sorted_map.
Qed.

Lemma weighted_sum_add (k n : Z) (d : Q) (l : list Q) :
  weighted_sum k n (map (fun x => x + d) l)
  == weighted_sum k n l + weighted_sum k n (map (fun _ => d) l).
Proof.
  revert k. induction l as [|x l IH]; intro k; cbn [map weighted_sum]; [ring|].
  rewrite IH. ring.
Qed.

Lemma weighted_sum_translate (d : Q) (l : list Q) :
  weighted_sum 1 (Z.of_nat (List.length l)) (map (fun x => x + d) l)
  == weighted_sum 1 (Z.of_nat (List.length l)) l.
Proof.
  rewrite weighted_sum_add.
  pose proof (weighted_sum_equal d (map (fun _ => d) l)) as Hz.
  rewrite length_map in Hz. rewrite Hz; [ring|].
  apply Forall_map, Forall_forall. intros. reflexivity.
Qed.

Lemma Qsum_add (d : Q) (l : list Q) :
  Qsum (map (fun x => x + d) l)
  == Qsum l + inject_Z (Z.of_nat (List.length l)) * d.
Proof.
  induction l as [|x l IH].
  - unfold Qsum. cbn. ring.
  - cbn [map List.length]. unfold Qsum in *. cbn [fold_right]. rewrite IH.
    rewrite Nat2Z.inj_succ. unfold Z.succ. rewrite inject_Z_plus.
    change (inject_Z 1) with 1. ring.
Qed.

(** The Gini computation on incomes that are not negative, in terms of
    the sorted incomes. *)
Lemma calculate_gini_nonneg (incomes : list Q) :
  incomes <> [] -> Forall (fun x => 0 <= x) incomes ->
  let n := inject_Z (Z.of_nat (List.length incomes)) in
  exists g,
    calculate_gini (F:=Q) incomes = Some g
    /\ g == weighted_sum 1 (Z.of_nat (List.length incomes)) (np_sort (F:=Q) incomes)
            / (n * (Qsum incomes + n * (1 # 10000000))).
Proof.
  intros Hne Hpos. cbv zeta.
  unfold calculate_gini. destruct incomes as [|x0 rest] eqn:Ein; [congruence|].
  rewrite <- Ein in *. clear x0 rest Ein.
  assert (Hmin : fltb (F:=Q) (np_amin incomes) fzero = false).
  { apply Q_fltb_false. change (fzero (F:=Q)) with 0.
    rewrite Forall_forall in Hpos. apply Hpos. now apply np_amin_in. }
  rewrite Hmin.
  assert (Harr : np_sort (F:=Q) (map (fun x => fadd x gini_epsilon) incomes)
                 = map (fun x => x + gini_epsilon (F:=Q)) (np_sort (F:=Q) incomes)).
  { apply (np_sort_map (fun x => x + gini_epsilon (F:=Q))).
    intros a b. apply Q_fltb_add. }
  rewrite Harr. set (s := np_sort (F:=Q) incomes).
  assert (Hlen : List.length s = List.length incomes) by apply np_sort_length.
  eexists. split; [reflexivity|].
  change (fdiv (F:=Q)) with Qdiv. change (fmul (F:=Q)) with Qmult.
  change (f_of_Z (F:=Q)) with inject_Z.
  rewrite length_map, Hlen.
  pose proof (gini_numerator_Q 1 (Z.of_nat (List.length incomes))
                (map (fun x => x + gini_epsilon (F:=Q)) s)) as Hnum.
  change (fmul (F:=Q)) with Qmult in Hnum. change (f_of_Z (F:=Q)) with inject_Z in Hnum.
  rewrite length_map, Hlen in Hnum. rewrite Hnum, np_sum_Q.
  rewrite <- Hlen at 1. rewrite weighted_sum_translate, Hlen.
  rewrite Qsum_add, Hlen, (Qsum_perm s incomes (np_sort_perm incomes)).
  rewrite gini_epsilon_Q. reflexivity.
Qed.

(** X17.  A payment of the same amount to everyone does not raise the Gini
    coefficient.  In exact arithmetic, for incomes that are not negative
    and an amount that is not negative, the coefficient [calculate_gini]
    gives for the incomes after every one of them was raised by the amount
    is at most the one it gives for the incomes before. *)
Theorem equal_payment_never_raises_gini (incomes : list Q) (amount : Q) :
  incomes <> [] ->
  Forall (fun x => 0 <= x) incomes ->
  0 <= amount ->
  exists g g',
    calculate_gini (F:=Q) incomes = Some g
    /\ calculate_gini (F:=Q) (map (fun x => fadd x amount) incomes) = Some g'
    /\ g' <= g.
Proof.
  intros Hne Hpos Hamount.
  change (fadd (F:=Q)) with Qplus.
  set (paid_incomes := map (fun x => x + amount) incomes).
  assert (Hne' : paid_incomes <> []).
  { unfold paid_incomes. destruct incomes; [congruence | discriminate]. }
  assert (Hpos' : Forall (fun x => 0 <= x) paid_incomes).
  { apply Forall_map. eapply Forall_impl; [|exact Hpos].
    intros a Ha. cbv beta in *. lra. }
  destruct (calculate_gini_nonneg incomes Hne Hpos) as (g & Hg & Eg).
  destruct (calculate_gini_nonneg paid_incomes Hne' Hpos') as (g' & Hg' & Eg').
  exists g, g'. split; [exact Hg|]. split; [exact Hg'|].
  assert (Hlen : List.length paid_incomes = List.length incomes) by apply length_map.
  rewrite Hlen in Eg'.
  assert (Hsort : np_sort (F:=Q) paid_incomes
                  = map (fun x => x + amount) (np_sort (F:=Q) incomes)).
  { apply (np_sort_map (fun x => x + amount)). intros a b. apply Q_fltb_add. }
  rewrite Hsort in Eg'.
  pose proof (np_sort_length (F:=Q) incomes) as Hls.
  rewrite <- Hls in Eg' at 1. rewrite weighted_sum_translate, Hls in Eg'.
  unfold paid_incomes in Eg'. rewrite Qsum_add in Eg'.
  set (n := inject_Z (Z.of_nat (List.length incomes))) in *.
  set (w := weighted_sum 1 (Z.of_nat (List.length incomes)) (np_sort (F:=Q) incomes))
    in *.
  assert (Hw : 0 <= w).
  { unfold w. rewrite <- Hls. apply weighted_sum_nonneg, np_sort_sorted. }
  assert (Hn : 1 <= n).
  { unfold n. change 1 with (inject_Z 1). rewrite <- Zle_Qle.
    destruct incomes; [congruence | cbn [List.length]; lia]. }
  assert (HS : 0 <= Qsum incomes) by now apply Qsum_nonneg.
  assert (Hd : 0 < n * (Qsum incomes + n * (1 # 10000000))).
  { apply Qmult_lt_0_compat; [lra|].
    assert (0 < n * (1 # 10000000)) by (apply Qmult_lt_0_compat; lra). lra. }
  assert (Hstep : 0 <= n * (n * amount)).
  { apply Qmult_le_0_compat; [lra|]. apply Qmult_le_0_compat; lra. }
  assert (Hd' : 0 < n * (Qsum incomes + n * amount + n * (1 # 10000000))).
  { assert (n * (Qsum incomes + n * amount + n * (1 # 10000000))
            == n * (Qsum incomes + n * (1 # 10000000)) + n * (n * amount)) as ->
      by ring.
    lra. }
  rewrite Eg, Eg'.
  apply Qle_shift_div_r; [exact Hd'|].
  assert (Hq : 0 <= w / (n * (Qsum incomes + n * (1 # 10000000)))).
  { apply Qle_shift_div_l; [exact Hd | lra]. }
  assert (Hsplit : w / (n * (Qsum incomes + n * (1 # 10000000)))
                   * (n * (Qsum incomes + n * amount + n * (1 # 10000000)))
                   == w + w / (n * (Qsum incomes + n * (1 # 10000000)))
                          * (n * (n * amount))).
  { field. lra. }
  rewrite Hsplit.
  assert (0 <= w / (n * (Qsum incomes + n * (1 # 10000000))) * (n * (n * amount)))
    by now apply Qmult_le_0_compat.
  lra.
Qed.

End GiniPaymentProperties.

(** ** The log of the test endpoint ([api/agent_routes.py]) *)

Section TestDecisionProperties.
Context {F : Type} `{Float64 F}.

(** X19.  The test endpoint keeps the latest ten decisions, oldest first.
    The short-term memory [test_agent_decision] stores is a dict whose
    [last_decisions] are the last [min 10 (n + 1)] entries of the [n]
    decisions that were logged followed by the new one, in that order:
    what is dropped is dropped from the front.  Every other entry of the
    memory is kept; a memory that is not a dict is replaced by a new one. *)
Theorem test_agent_decision_keeps_latest_ten (short_term_memory decision : pyval F) :
  exists d kept dropped,
    test_agent_decision_stm short_term_memory decision = PDict d
    /\ logged_decisions (PDict d) = kept
    /\ logged_decisions short_term_memory ++ [decision] = dropped ++ kept
    /\ List.length kept
       = Nat.min 10 (S (List.length (logged_decisions short_term_memory)))
    /\ forall key,
         key <> "last_decisions" ->
         dict_get d key
         = dict_get match as_dict short_term_memory with
                    | Some d0 => d0
                    | None => empty_short_term_memory
                    end key.
Proof.
  unfold test_agent_decision_stm.
  set (current_stm := match as_dict short_term_memory with
                      | Some d => d
                      | None => empty_short_term_memory
                      end).
  assert (Hold : match dict_get current_stm "last_decisions" with
                 | Some (PList l) => l
                 | _ => []
                 end = logged_decisions short_term_memory).
  { unfold logged_decisions, current_stm.
    now destruct (as_dict short_term_memory). }
  rewrite Hold. set (l := logged_decisions short_term_memory ++ [decision]).
  assert (Hlen : List.length l = S (List.length (logged_decisions short_term_memory))).
  { unfold l. rewrite length_app. cbn. lia. }
  eexists. exists (if (10 <? List.length l)%nat then skipn (List.length l - 10) l else l).
  exists (if (10 <? List.length l)%nat then firstn (List.length l - 10) l else []).
  split; [reflexivity|]. split; [|split; [|split]].
  - unfold logged_decisions. cbn [as_dict]. now rewrite dict_get_set_same.
  - destruct (10 <? List.length l)%nat; [now rewrite firstn_skipn | reflexivity].
  - rewrite <- Hlen. destruct (10 <? List.length l)%nat eqn:E.
    + apply Nat.ltb_lt in E. rewrite length_skipn. lia.
    + apply Nat.ltb_ge in E. lia.
  - intros key Hk. now apply dict_get_set_other.
Qed.

End TestDecisionProperties.

(** ** The properties at work, continued *)

Lemma topped_up_unique_agents : unique_agent_ids (F:=float) topped_up.
Proof.
  unfold unique_agent_ids. vm_compute. repeat constructor; cbn; intuition discriminate.
Defined.

Lemma topped_up_selection :
  get_events (F:=float) topped_up (Simulation.id scenario_simulation) (Some "pending")
    (Some (Simulation.current_tick scenario_simulation)) 0 100
  = [ubi_event 100 "pending"; new_event_row 1000 1 top_up_request].
Proof. vm_compute. reflexivity. Defined.

Lemma topped_up_unpackable :
  Forall unpackable
    (get_events (F:=float) topped_up (Simulation.id scenario_simulation)
       (Some "pending") (Some (Simulation.current_tick scenario_simulation)) 0 100).
Proof.
  rewrite topped_up_selection.
  repeat constructor; intros _; eexists; reflexivity.
Defined.

(** The payments of 100 and of 25 due at tick 0 raise the income of 50 to
    175; the agent of the other simulation is left as it was. *)
Lemma process_events_for_tick_pays_in_order_witness :
  option_map (fun a => demographic_entry a "income")
    (get_agent (snd (process_events_for_tick (F:=float) scenario_simulation topped_up))
       11)
  = Some (Some (PFloat 175%float))
  /\ get_agent (snd (process_events_for_tick (F:=float) scenario_simulation topped_up))
       20
     = Some other_agent.
Proof.
  split.
  - pose proof (process_events_for_tick_pays_in_order (F:=float) scenario_simulation
                  topped_up (scenario_agent 11 50) topped_up_unique_agents
                  topped_up_unpackable) as Hx.
    change (Agent.id (scenario_agent (F:=float) 11 50)) with 11 in Hx.
    rewrite Hx; [|right; now left]. rewrite topped_up_selection.
    vm_compute. reflexivity.
  - pose proof (process_events_for_tick_pays_in_order (F:=float) scenario_simulation
                  topped_up other_agent topped_up_unique_agents
                  topped_up_unpackable) as Hx.
    change (Agent.id (other_agent (F:=float))) with 20 in Hx.
    rewrite Hx; [|do 3 right; now left].
    assert (Hp : is_processed (F:=float) topped_up scenario_simulation other_agent
                 = false) by (vm_compute; reflexivity).
    now rewrite Hp.
Defined.

(** A tick of the first simulation once the top-up was injected: the agent
    with income 50 is read back with its traits and its age as before and
    an income of 175. *)
Lemma advance_tick_keeps_profile_witness :
  exists a',
    get_agent (snd (advance_tick_endpoint (F:=float) env_cheerful 1 topped_up)) 11
    = Some a'
    /\ Agent.behavioral_traits a' = Agent.behavioral_traits (scenario_agent 11 50)
    /\ demographic_entry a' "age" = Some (PInt 30)
    /\ demographic_entry a' "income" = Some (PFloat 175%float).
Proof.
  destruct (advance_tick_keeps_profile (F:=float) env_cheerful 1 topped_up
              scenario_simulation (scenario_agent 11 50) topped_up_unique_agents
              eq_refl topped_up_unpackable)
    as (a' & Hget & (_ & _ & _ & Ht & Hd & _) & Hdem).
  { right. now left. }
  exists a'. split; [exact Hget|]. split; [exact Ht|]. split.
  - rewrite Hd; [reflexivity | discriminate].
  - unfold demographic_entry. rewrite Hdem, topped_up_selection.
    vm_compute. reflexivity.
Defined.

(** Incomes of 3, 1 and 2, and the same after a payment of 1 to each. *)
Lemma equal_payment_never_raises_gini_witness :
  exists g g',
    calculate_gini (F:=Q) [3%Q; 1%Q; 2%Q] = Some g
    /\ calculate_gini (F:=Q) (map (fun x => fadd x 1%Q) [3%Q; 1%Q; 2%Q]) = Some g'
    /\ (g' <= g)%Q.
Proof.
  apply (equal_payment_never_raises_gini [3%Q; 1%Q; 2%Q] 1%Q).
  - discriminate.
  - repeat constructor; discriminate.
  - discriminate.
Defined.

(** The UBI event of the scenario, once processed, is read back as it is
    after two more ticks. *)
Lemma handled_event_is_final_witness :
  get_event (advance_ticks 2 (F:=float) env_cheerful 1 (ubi_session 100 "processed")) 7
  = Some (ubi_event 100 "processed").
Proof.
  apply (handled_event_is_final (F:=float) (ubi_event 100 "processed")
           (ubi_session 100 "processed")).
  - unfold unique_event_ids. cbn. repeat constructor. intros [].
  - now left.
  - discriminate.
  - cbn [advance_ticks].
    apply (ticked_advance env_cheerful 1), (ticked_advance env_cheerful 1), ticked_now.
Defined.

(** ** The body of an injection ([schemas/event.py]) *)

Section EventCreateProperties.
Context {F : Type} `{Float64 F}.

Local Open Scope result_scope.

Lemma validate_str_raises (v : pyval F) (e : exn) :
  validate_str v = Raise e -> e = ValidationError.
Proof. destruct v; cbn; congruence. Qed.

Lemma validate_dict_any_raises (v : pyval F) (e : exn) :
  validate_dict_any v = Raise e -> e = ValidationError.
Proof. destruct v; cbn; congruence. Qed.

Lemma validate_int_ge0_raises (v : pyval F) (e : exn) :
  validate_int_ge0 v = Raise e -> e = ValidationError.
Proof.
  unfold validate_int_ge0, result_bind.
  destruct (validate_int v) as [z|e0] eqn:E.
  - destruct (0 <=? z)%Z; congruence.
  - intros [= <-]. exact (validate_int_raises v e0 E).
Qed.

Lemma validate_event_status_raises (v : pyval F) (e : exn) :
  validate_event_status v = Raise e -> e = ValidationError.
Proof.
  destruct v; cbn; try congruence.
  destruct (_ || _); congruence.
Qed.

Lemma validate_event_status_ok (v : pyval F) (s : string) :
  validate_event_status v = Ok s ->
  v = PStr s /\ In s ["pending"; "triggered"; "processed"; "failed"].
Proof.
  destruct v as [| | | |s0| |]; cbn; try discriminate.
  destruct (String.eqb s0 "pending") eqn:E1; cbn.
  { intros [= <-]. apply String.eqb_eq in E1. split; [reflexivity | now left]. }
  destruct (String.eqb s0 "triggered") eqn:E2; cbn.
  { intros [= <-]. apply String.eqb_eq in E2. split; [reflexivity | right; now left]. }
  destruct (String.eqb s0 "processed") eqn:E3; cbn.
  { intros [= <-]. apply String.eqb_eq in E3.
    split; [reflexivity | right; right; now left]. }
  destruct (String.eqb s0 "failed") eqn:E4; cbn; [|discriminate].
  intros [= <-]. apply String.eqb_eq in E4.
  split; [reflexivity | right; right; right; now left].
Qed.


End EventCreateProperties.

(** ** Seeding ([services/seeding_service.py]) *)

(** Exact arithmetic and binary64 are ordered as the seeding code needs. *)
#[export] Instance Q_FloatOrder : FloatOrder Q.
Proof.
  split.
  - intros a b Hlt. apply Q_fltb in Hlt. apply Qle_bool_iff. lra.
  - reflexivity.
  - reflexivity.
  - reflexivity.
  - intros x n Hpos [= <-]. apply Q_fltb in Hpos. change (fzero (F:=Q)) with 0%Q in Hpos.
    apply Z.quot_pos; [|lia]. unfold Qlt in Hpos. cbn in Hpos. lia.
Qed.

Lemma SFltb_SFleb (x y : spec_float) : SFltb x y = true -> SFleb x y = true.
Proof.
  unfold SFltb, SFleb. destruct (SFcompare x y) as [[]|]; congruence.
Qed.

#[export] Instance Binary64_FloatOrder : FloatOrder float.
Proof.
  split.
  - intros a b. cbn [fltb fleb Binary64_Float64]. rewrite ltb_spec, leb_spec.
    apply SFltb_SFleb.
  - reflexivity.
  - reflexivity.
  - reflexivity.
  - intros x n. change (fltb (F:=float)) with PrimFloat.ltb.
    unfold f_trunc, Binary64_FloatInt. rewrite ltb_spec.
    change (Prim2SF (fzero (F:=float))) with (S754_zero false).
    unfold SFltb. cbn [SFcompare].
    destruct (Prim2SF x) as [s|s| |s m e]; try discriminate.
    destruct s; [discriminate|]. intros _ Hn.
    assert (Hmag : forall z, Ok z = Ok n -> 0 <= z -> 0 <= n) by (intros z [= <-]; auto).
    apply (Hmag _ Hn).
    destruct (0 <=? e)%Z eqn:E.
    + apply Z.mul_nonneg_nonneg; [lia|]. apply Z.pow_nonneg. lia.
    + apply Z.leb_gt in E. apply Z.div_pos; [lia|]. apply Z.pow_pos_nonneg; lia.
Qed.

Section SeedingProperties.
Context {F : Type} `{Float64 F} `{FloatInt F} `{!FloatOrder F}.

Local Open Scope seed_scope.

Lemma drawn_refl (s : SeedStore F) : drawn s s.
Proof. unfold drawn. repeat split. Qed.

Lemma drawn_trans (s1 s2 s3 : SeedStore F) : drawn s1 s2 -> drawn s2 s3 -> drawn s1 s3.
Proof.
  unfold drawn. intros (A1 & A2 & A3 & A4 & A5 & A6 & A7) (B1 & B2 & B3 & B4 & B5 & B6 & B7).
  repeat split; congruence.
Qed.

Lemma sbind_ok {A B} (m : Seed F A) (k : A -> Seed F B) (s s' : SeedStore F) (a : A) :
  m s = (Ok a, s') -> sbind m k s = k a s'.
Proof. intro Hm. unfold sbind. now rewrite Hm. Qed.

Lemma sbind_slift {A B} (r : result A) (k : A -> Seed F B) (s : SeedStore F) :
  sbind (slift r) k s = match r with Ok a => k a s | Raise e => (Raise e, s) end.
Proof. reflexivity. Qed.

Lemma random_gauss_spec (mu sigma : F) (s : SeedStore F) :
  exists s',
    random_gauss mu sigma s
    = (Ok (fadd mu (fmul (normal_draws (rng s) (normal_pos (rng s))) sigma)), s')
    /\ drawn s s'.
Proof. eexists. split; [reflexivity|]. unfold drawn. repeat split. Qed.

Lemma random_random_spec (s : SeedStore F) :
  exists s',
    random_random s = (Ok (uniform_draws (rng s) (uniform_pos (rng s))), s')
    /\ drawn s s'.
Proof. eexists. split; [reflexivity|]. unfold drawn. repeat split. Qed.

Lemma random_randint_spec (a b : Z) (s : SeedStore F) :
  exists s',
    random_randint a b s = (Ok (integer_draws (rng s) (integer_pos (rng s))), s')
    /\ drawn s s'.
Proof. eexists. split; [reflexivity|]. unfold drawn. repeat split. Qed.

Lemma random_vector_spec (n : nat) (s : SeedStore F) :
  exists l s',
    random_vector n s = (Ok l, s') /\ drawn s s' /\ List.length l = n.
Proof.
  revert s. induction n as [|n IH]; intro s.
  - exists [], s. split; [reflexivity|]. split; [apply drawn_refl | reflexivity].
  - destruct (random_random_spec s) as (s1 & Hr & Hd1).
    destruct (IH s1) as (l & s2 & Hv & Hd2 & Hl).
    eexists. exists s2. cbn [random_vector].
    rewrite (sbind_ok _ _ _ _ _ Hr), (sbind_ok _ _ _ _ _ Hv).
    split; [reflexivity|]. split; [exact (drawn_trans _ _ _ Hd1 Hd2)|].
    cbn. now rewrite Hl.
Qed.

(** Clipping to the unit interval, whatever is clipped: a NaN gives [1.0]. *)
Lemma clipped_in_unit_interval (value : F) :
  in_unit_interval (py_max fzero (py_min fone value)) = true.
Proof.
  unfold in_unit_interval, py_max, py_min.
  destruct (fltb value fone) eqn:Ehi.
  - destruct (fltb fzero value) eqn:Elo.
    + now rewrite (fltb_fleb _ _ Elo), (fltb_fleb _ _ Ehi).
    + now rewrite fleb_zero_zero, fleb_zero_one.
  - destruct (fltb fzero fone) eqn:Elo.
    + now rewrite fleb_zero_one, fleb_one_one.
    + now rewrite fleb_zero_zero, fleb_zero_one.
Qed.

Lemma generate_value_unit (mean stddev : F) (s : SeedStore F) :
  exists v s',
    _generate_value mean stddev fzero fone s = (Ok v, s')
    /\ drawn s s' /\ in_unit_interval v = true.
Proof.
  destruct (random_gauss_spec mean stddev s) as (s1 & Hg & Hd).
  eexists. exists s1. unfold _generate_value. rewrite (sbind_ok _ _ _ _ _ Hg).
  split; [reflexivity|]. split; [exact Hd | apply clipped_in_unit_interval].
Qed.

(** One agent generated. *)
Lemma generate_agent_data_run (config : SeedingConfig.t F) (s : SeedStore F) :
  integers_in_range s ->
  exists s',
    drawn s s'
    /\ ((exists agent_data,
           _generate_agent_data config s = (Ok agent_data, s')
           /\ valid_agent_data agent_data)
        \/ (exists e,
              _generate_agent_data config s = (Raise e, s')
              /\ fltb fzero (age_draw config s (normal_pos (rng s))) = true
              /\ f_trunc (age_draw config s (normal_pos (rng s))) = Raise e)).
Proof.
  intro Hint. unfold _generate_agent_data.
  destruct (random_gauss_spec
              (DemographicDistribution.age_mean (SeedingConfig.demographics config))
              (DemographicDistribution.age_stddev (SeedingConfig.demographics config))
              s) as (s1 & Hrun & Hd1).
  rewrite (sbind_ok _ _ _ _ _ Hrun). clear Hrun.
  fold (age_draw config s (normal_pos (rng s))).
  set (x := age_draw config s (normal_pos (rng s))).
  rewrite sbind_slift.
  assert (Hage : match (if fltb fzero x then f_trunc x else Ok 0) with
                 | Ok age => 0 <= age
                 | Raise e => fltb fzero x = true /\ f_trunc x = Raise e
                 end).
  { destruct (fltb fzero x) eqn:Ex; [|lia].
    destruct (f_trunc x) as [n|e] eqn:En; [|now split].
    exact (f_trunc_positive x n Ex En). }
  destruct (if fltb fzero x then f_trunc x else Ok 0) as [age|e];
    [|exists s1; split; [exact Hd1|]; right; exists e; split; [reflexivity | exact Hage]].
  destruct (random_gauss_spec
              (DemographicDistribution.income_mean (SeedingConfig.demographics config))
              (DemographicDistribution.income_stddev (SeedingConfig.demographics config))
              s1) as (s2 & Hrun & Hd2).
  rewrite (sbind_ok _ _ _ _ _ Hrun). clear Hrun.
  set (income_draw := fadd _ _).
  destruct (random_randint_spec 1 5 s2) as (s3 & Hrun & Hd3).
  rewrite (sbind_ok _ _ _ _ _ Hrun). clear Hrun.
  pose proof (drawn_trans _ _ _ Hd1 Hd2) as Hd02.
  assert (Hhs : 1 <= integer_draws (rng s2) (integer_pos (rng s2)) <= 5).
  { destruct Hd02 as (_ & _ & _ & _ & _ & _ & ->). apply Hint. }
  set (household_size := integer_draws (rng s2) (integer_pos (rng s2))) in *.
  assert (Hincome : fleb fzero (py_max fzero income_draw) = true).
  { unfold py_max. destruct (fltb fzero income_draw) eqn:E;
      [now apply fltb_fleb | apply fleb_zero_zero]. }
  rewrite sbind_slift. unfold AgentDemographics_init.
  rewrite Hincome.
  replace (0 <=? age) with true by (symmetry; apply Z.leb_le; exact Hage).
  replace (1 <=? household_size) with true by (symmetry; apply Z.leb_le; lia).
  cbn [andb].
  destruct (generate_value_unit
              (TraitDistribution.conformity_mean (SeedingConfig.traits config))
              (TraitDistribution.conformity_stddev (SeedingConfig.traits config)) s3)
    as (c1 & s4 & Hrun & Hd4 & Hc1).
  rewrite (sbind_ok _ _ _ _ _ Hrun). clear Hrun.
  destruct (generate_value_unit
              (TraitDistribution.risk_aversion_mean (SeedingConfig.traits config))
              (TraitDistribution.risk_aversion_stddev (SeedingConfig.traits config)) s4)
    as (c2 & s5 & Hrun & Hd5 & Hc2).
  rewrite (sbind_ok _ _ _ _ _ Hrun). clear Hrun.
  destruct (generate_value_unit fhalf f0_2 s5) as (c3 & s6 & Hrun & Hd6 & Hc3).
  rewrite (sbind_ok _ _ _ _ _ Hrun). clear Hrun.
  destruct (generate_value_unit fhalf f0_2 s6) as (c4 & s7 & Hrun & Hd7 & Hc4).
  rewrite (sbind_ok _ _ _ _ _ Hrun). clear Hrun.
  destruct (generate_value_unit fhalf f0_3 s7) as (c5 & s8 & Hrun & Hd8 & Hc5).
  rewrite (sbind_ok _ _ _ _ _ Hrun). clear Hrun.
  rewrite sbind_slift. unfold AgentBehavioralTraits_init.
  rewrite Hc1, Hc2, Hc3, Hc4, Hc5. cbn [andb].
  destruct (generate_value_unit
              (BeliefDistribution.economic_optimism_mean (SeedingConfig.beliefs config))
              (BeliefDistribution.economic_optimism_stddev
                 (SeedingConfig.beliefs config)) s8)
    as (c6 & s9 & Hrun & Hd9 & Hc6).
  rewrite (sbind_ok _ _ _ _ _ Hrun). clear Hrun.
  destruct (random_vector_spec 5 s9) as (vec & s10 & Hrun & Hd10 & Hvec).
  rewrite (sbind_ok _ _ _ _ _ Hrun). clear Hrun.
  destruct (generate_value_unit fhalf f0_2 s10) as (c7 & s11 & Hrun & Hd11 & Hc7).
  rewrite (sbind_ok _ _ _ _ _ Hrun). clear Hrun.
  rewrite sbind_slift. unfold AgentBeliefs_init. rewrite Hc6, Hc7. cbn [andb].
  exists s11. split.
  - repeat (eapply drawn_trans; [eassumption|]). apply drawn_refl.
  - left. eexists. split; [reflexivity|].
    unfold valid_agent_data. cbn. repeat split; try assumption; lia.
Qed.


(** X21.  Generated agents are within the bounds of the agent schemas.
    Whatever the configuration and whatever is drawn (with [randint]
    between 1 and 5), [_generate_agent_data] draws from the module [random]
    and does nothing else; it raises only what [int()] raises on the age,
    and otherwise returns data that pass every validation: an age that is
    not negative, an income that is not negative, a household of 1 to 5,
    five traits, an optimism and a trust clipped to the unit interval, an
    ideology vector of five numbers, no policy and no archetype. *)
Theorem generated_agent_data_is_valid (config : SeedingConfig.t F) (s : SeedStore F) :
  integers_in_range s ->
  drawn s (snd (_generate_agent_data config s))
  /\ match fst (_generate_agent_data config s) with
     | Ok agent_data => valid_agent_data agent_data
     | Raise e =>
         fltb fzero (age_draw config s (normal_pos (rng s))) = true
         /\ f_trunc (age_draw config s (normal_pos (rng s))) = Raise e
     end.
Proof.
  intro Hint. destruct (generate_agent_data_run config s Hint) as (s' & Hd & Hrun).
  destruct Hrun as [(data & -> & Hvalid)|(e & -> & Hraise)]; now split.
Qed.

End SeedingProperties.

Section SeedingRunProperties.
Context {F : Type} `{Float64 F} `{FloatInt F} `{!FloatOrder F}.

Local Open Scope seed_scope.

Lemma drawn_same_draws (s s' : SeedStore F) : drawn s s' -> same_draws s s'.
Proof. intros (_ & _ & _ & _ & Hn & Hu & Hi). now split. Qed.

Lemma same_draws_refl (s : SeedStore F) : same_draws s s.
Proof. now split. Qed.

Lemma same_draws_trans (s1 s2 s3 : SeedStore F) :
  same_draws s1 s2 -> same_draws s2 s3 -> same_draws s1 s3.
Proof. unfold same_draws. intros (A1 & A2 & A3) (B1 & B2 & B3). repeat split; congruence. Qed.

Lemma integers_in_range_same (s s' : SeedStore F) :
  same_draws s s' -> integers_in_range s -> integers_in_range s'.
Proof. intros (_ & _ & Hi) Hr k. rewrite Hi. apply Hr. Qed.

Lemma ages_convert_same (config : SeedingConfig.t F) (s s' : SeedStore F) :
  same_draws s s' -> ages_convert config s -> ages_convert config s'.
Proof.
  intros (Hn & _ & _) Hc k. unfold age_draw. rewrite Hn. apply Hc.
Qed.

(** One agent generated, when [int()] succeeds. *)
Lemma generate_agent_data_ok (config : SeedingConfig.t F) (s : SeedStore F) :
  integers_in_range s -> ages_convert config s ->
  exists agent_data s',
    _generate_agent_data config s = (Ok agent_data, s')
    /\ drawn s s' /\ valid_agent_data agent_data.
Proof.
  intros Hint Hages.
  destruct (generate_agent_data_run config s Hint) as (s' & Hd & Hrun).
  destruct Hrun as [(data & Hrun & Hvalid)|(e & Hrun & Hpos & Hraise)].
  - now exists data, s'.
  - destruct (Hages _ Hpos) as (n & Hn). congruence.
Qed.

(** One turn of the loop, when [int()] succeeds. *)
Lemma seed_agent_ok (simulation : Simulation.t) (config : SeedingConfig.t F)
  (created : list (Agent.t F)) (i : Z) (s : SeedStore F) :
  integers_in_range s -> ages_convert config s ->
  exists row s',
    seed_agent simulation config created i s = (Ok (created ++ [row]), s')
    /\ seeded_row simulation row
    /\ Agent.id row = uuid_seq (session s)
    /\ Agent.simulation_id row = Simulation.id simulation
    /\ live (session s')
       = set_agents (agents (live (session s)) ++ [row]) (live (session s))
    /\ uuid_seq (session s') = uuid_seq (session s) + 1
    /\ (commit_due config i = true -> durable (session s') = live (session s'))
    /\ agent_connections s' = agent_connections s
    /\ connection_seq s' = connection_seq s
    /\ same_draws s s'.
Proof.
  intros Hint Hages.
  destruct (generate_agent_data_ok config s Hint Hages)
    as (data & s1 & Hrun & Hd & Hvalid).
  exists (seeded_agent (uuid_seq (session s)) simulation data).
  unfold seed_agent, stry.
  rewrite (sbind_ok _ _ _ _ _ Hrun).
  destruct Hd as (Hs & Hc & Hdc & Hq & Hn & Hu & Hi).
  fold (commit_due config i).
  destruct s1 as [db1 c1 dc1 q1 g1]. cbn [session agent_connections
    durable_agent_connections connection_seq rng] in *. subst db1 c1 dc1 q1.
  destruct (commit_due config i) eqn:Edue.
  - eexists. split; [cbv [sbind in_session uuid4 modify_live stry seed_commit sret
                        commit set_live fst snd session agent_connections
                        durable_agent_connections connection_seq rng live durable
                        memory_seq uuid_seq now]; reflexivity|].
    cbn. repeat split; try assumption. exists data. now split.
  - eexists. split; [cbv [sbind in_session uuid4 modify_live stry seed_commit sret
                        commit set_live fst snd session agent_connections
                        durable_agent_connections connection_seq rng live durable
                        memory_seq uuid_seq now]; reflexivity|].
    cbn. repeat split; try assumption; try discriminate. exists data. now split.
Qed.

(** The loop, when [int()] succeeds. *)
Lemma seed_agents_ok (simulation : Simulation.t) (config : SeedingConfig.t F)
  (indices : list Z) (created : list (Agent.t F)) (s : SeedStore F) :
  integers_in_range s -> ages_convert config s ->
  exists rows s',
    seed_agents simulation config indices created s = (Ok (created ++ rows), s')
    /\ Forall (seeded_row simulation) rows
    /\ Forall (fun a => Agent.simulation_id a = Simulation.id simulation) rows
    /\ map Agent.id rows = next_keys (session s) (List.length indices)
    /\ live (session s')
       = set_agents (agents (live (session s)) ++ rows) (live (session s))
    /\ uuid_seq (session s') = uuid_seq (session s) + Z.of_nat (List.length indices)
    /\ (indices <> [] -> commit_due config (last indices 0) = true ->
        durable (session s') = live (session s'))
    /\ agent_connections s' = agent_connections s
    /\ connection_seq s' = connection_seq s
    /\ same_draws s s'.
Proof.
  revert created s. induction indices as [|i indices IH]; intros created s Hint Hages.
  - exists [], s. cbn [seed_agents]. rewrite app_nil_r.
    split; [reflexivity|]. split; [constructor|]. split; [constructor|].
    split; [reflexivity|]. split.
    { unfold set_agents. rewrite app_nil_r. now destruct (live (session s)). }
    split; [cbn; lia|]. split; [congruence|].
    repeat split.
  - destruct (seed_agent_ok simulation config created i s Hint Hages)
      as (row & s1 & Hrun & Hrow & Hid & Hsim & Hlive & Hseq & Hdur & Hc & Hq & Hdraws).
    destruct (IH (created ++ [row]) s1 (integers_in_range_same _ _ Hdraws Hint)
                (ages_convert_same config _ _ Hdraws Hages))
      as (rows & s2 & Hrun2 & Hrows & Hsims & Hids & Hlive2 & Hseq2 & Hdur2 & Hc2
          & Hq2 & Hdraws2).
    exists (row :: rows), s2. cbn [seed_agents].
    rewrite (sbind_ok _ _ _ _ _ Hrun), Hrun2, <- app_assoc.
    split; [reflexivity|]. split; [now constructor|]. split; [now constructor|].
    split.
    { cbn [map List.length]. unfold next_keys in *. cbn [seq map].
      rewrite Hid, Z.add_0_r. f_equal. rewrite Hids, Hseq, <- seq_shift, map_map.
      apply map_ext. intro k. lia. }
    split.
    { rewrite Hlive2, Hlive. cbn. now rewrite <- app_assoc. }
    split; [rewrite Hseq2, Hseq; cbn [List.length]; lia|].
    split.
    { intros _ Hlast. destruct indices as [|j indices'].
      - cbn in Hlast. cbn in Hrun2. injection Hrun2 as _ <-. now apply Hdur.
      - apply Hdur2; [discriminate | exact Hlast]. }
    split; [congruence|]. split; [congruence|].
    exact (same_draws_trans _ _ _ Hdraws Hdraws2).
Qed.

Lemma connects_refl (P : AgentConnection.t F -> Prop) (s : SeedStore F) :
  connects P s s.
Proof.
  unfold connects. repeat split. exists []. now rewrite app_nil_r.
Qed.

Lemma connects_trans (P : AgentConnection.t F -> Prop) (s1 s2 s3 : SeedStore F) :
  connects P s1 s2 -> connects P s2 s3 -> connects P s1 s3.
Proof.
  intros (A1 & A2 & l1 & A3 & A4) (B1 & B2 & l2 & B3 & B4).
  unfold connects. split; [congruence|]. split; [congruence|].
  exists (l1 ++ l2). split; [now rewrite B3, A3, app_assoc | now apply Forall_app].
Qed.

Lemma sfor_connects {A} (P : AgentConnection.t F -> Prop) (xs : list A)
  (body : A -> Seed F unit) :
  (forall x s, In x xs -> exists s', body x s = (Ok tt, s') /\ connects P s s') ->
  forall s, exists s', sfor xs body s = (Ok tt, s') /\ connects P s s'.
Proof.
  induction xs as [|x xs IH]; intros Hbody s.
  - exists s. split; [reflexivity | apply connects_refl].
  - destruct (Hbody x s (or_introl eq_refl)) as (s1 & Hrun & Hc1).
    destruct (IH (fun y s0 Hy => Hbody y s0 (or_intror Hy)) s1) as (s2 & Hrun2 & Hc2).
    exists s2. cbn [sfor]. rewrite (sbind_ok _ _ _ _ _ Hrun).
    split; [exact Hrun2 | exact (connects_trans _ _ _ _ Hc1 Hc2)].
Qed.

(** The connections of a seeding run. *)
Lemma create_random_connections_run (agents0 : list (Agent.t F)) (p : F)
  (s : SeedStore F) :
  exists s',
    _create_random_connections agents0 p s = (Ok tt, s')
    /\ live (session s') = live (session s)
    /\ uuid_seq (session s') = uuid_seq (session s)
    /\ (exists added,
          agent_connections s' = agent_connections s ++ added
          /\ Forall (seeded_connection (map Agent.id agents0)) added)
    /\ ((List.length agents0 < 2)%nat -> s' = s)
    /\ ((2 <= List.length agents0)%nat ->
        durable (session s') = live (session s')
        /\ durable_agent_connections s' = agent_connections s').
Proof.
  unfold _create_random_connections.
  destruct (List.length agents0 <? 2)%nat eqn:Elen.
  - apply Nat.ltb_lt in Elen. exists s. split; [reflexivity|].
    split; [reflexivity|]. split; [reflexivity|]. split.
    { exists []. now rewrite app_nil_r. }
    split; [reflexivity | lia].
  - apply Nat.ltb_ge in Elen.
    set (ids := map Agent.id agents0).
    destruct (sfor_connects (seeded_connection ids) agents0
                (fun source_agent =>
                   sfor ids (fun target_agent_id =>
                     if Agent.id source_agent =? target_agent_id then sret tt
                     else
                       u <- random_random ;;
                       if fltb u p
                       then stry
                              (influence_factor <- random_uniform f0_1 f0_9 ;;
                               create_agent_connection (Agent.id source_agent)
                                 target_agent_id influence_factor (Some "random") ;;;
                               sret tt)
                              (fun _ => seed_rollback)
                       else sret tt))) with (s := s) as (s1 & Hrun & Hc).
    { intros source s0 Hsource. apply sfor_connects.
      intros target s2 Htarget.
      destruct (Agent.id source =? target) eqn:Eself.
      - exists s2. split; [reflexivity | apply connects_refl].
      - apply Z.eqb_neq in Eself.
        unfold sbind at 1, random_random, with_rng. cbn [fst snd].
        destruct (fltb (uniform_draws (rng s2) (uniform_pos (rng s2))) p).
        + eexists. split; [reflexivity|]. unfold connects. cbn.
          repeat split. eexists. split; [reflexivity|].
          constructor; [|constructor]. unfold seeded_connection. cbn.
          repeat split; [now apply in_map | exact Htarget | exact Eself].
        + eexists. split; [reflexivity|]. unfold connects. cbn.
          repeat split. exists []. now rewrite app_nil_r. }
    eexists. rewrite (sbind_ok _ _ _ _ _ Hrun).
    destruct Hc as (Hs & Hd & added & Hadd & Hall).
    unfold stry, seed_commit. split; [reflexivity|]. cbn.
    rewrite Hs. split; [reflexivity|]. split; [reflexivity|].
    split; [now exists added|]. split; [lia|]. intros _. now split.
Qed.

Lemma last_py_range (n : Z) : 1 <= n -> last (py_range n) 0 = n - 1.
Proof.
  intro Hn. unfold py_range.
  replace (Z.to_nat n) with (S (Z.to_nat (n - 1))) by lia.
  rewrite seq_S, map_app. cbn [map]. rewrite last_last. lia.
Qed.

Lemma next_keys_fresh (db : Session F) (n : nat) : NoDup (next_keys db n).
Proof.
  unfold next_keys. generalize 0%nat as a.
  induction n as [|n IH]; intro a; cbn [seq map]; constructor.
  - intro Hin. apply in_map_iff in Hin as (k & Hk & Hin).
    apply in_seq in Hin. lia.
  - apply IH.
Qed.

(** X22.  Seeding adds the population, and connections between its members
    only.  Let [randint] keep to its bounds and [int()] succeed on every
    age drawn, the keys of the agents be unique and the new keys be keys
    of no agent.  Then seeding a population of [n >= 1] does not raise; it
    appends exactly [n] agents, all of the simulation, with generated data
    within the bounds of the agent schemas and an empty short-term memory,
    and keeps the keys unique; no other table of the session is written,
    and everything is committed.  The connections it adds join two
    different agents of the new population and are of type [random]. *)
Theorem seed_simulation_agents_adds_population (simulation : Simulation.t)
  (config : SeedingConfig.t F) (s : SeedStore F) :
  integers_in_range s ->
  ages_convert config s ->
  unique_agent_ids (session s) ->
  (forall a, In a (agents (live (session s))) ->
     ~ In (Agent.id a)
         (next_keys (session s) (Z.to_nat (SeedingConfig.population_size config)))) ->
  1 <= SeedingConfig.population_size config ->
  exists rows s',
    seed_simulation_agents simulation config s = (Ok tt, s')
    /\ agents (live (session s')) = agents (live (session s)) ++ rows
    /\ Z.of_nat (List.length rows) = SeedingConfig.population_size config
    /\ Forall (seeded_row simulation) rows
    /\ Forall (fun a => Agent.simulation_id a = Simulation.id simulation) rows
    /\ unique_agent_ids (session s')
    /\ simulations (live (session s')) = simulations (live (session s))
    /\ events (live (session s')) = events (live (session s))
    /\ long_term_memories (live (session s')) = long_term_memories (live (session s))
    /\ metric_snapshots (live (session s')) = metric_snapshots (live (session s))
    /\ durable (session s') = live (session s')
    /\ exists added,
         agent_connections s' = agent_connections s ++ added
         /\ Forall (seeded_connection (map Agent.id rows)) added.
Proof.
  intros Hint Hages Hnd Hfresh Hn. unfold seed_simulation_agents.
  destruct (seed_agents_ok simulation config
              (py_range (SeedingConfig.population_size config)) [] s Hint Hages)
    as (rows & s1 & Hrun & Hrows & Hsims & Hids & Hlive & _ & Hdur & Hc & _ & _).
  assert (Hlen : List.length (py_range (SeedingConfig.population_size config))
                 = Z.to_nat (SeedingConfig.population_size config)).
  { unfold py_range. now rewrite length_map, length_seq. }
  rewrite Hlen in Hids.
  assert (Hrl : List.length rows = Z.to_nat (SeedingConfig.population_size config)).
  { rewrite <- (length_map Agent.id), Hids. unfold next_keys.
    now rewrite length_map, length_seq. }
  assert (Hdur1 : durable (session s1) = live (session s1)).
  { apply Hdur.
    - intro Hnil. rewrite Hnil in Hlen. cbn in Hlen. lia.
    - unfold commit_due. rewrite (last_py_range _ Hn), Z.eqb_refl. apply orb_true_r. }
  cbn [app] in Hrun. rewrite (sbind_ok _ _ _ _ _ Hrun).
  destruct (create_random_connections_run rows f0_05 s1)
    as (s2 & Hrun2 & Hlive2 & _ & (added & Hadd & Hall) & Hfew & Hmany).
  exists rows, s2. split.
  { destruct rows as [|r rows']; [cbn in Hrl; lia | exact Hrun2]. }
  rewrite Hlive2, Hlive. cbn [agents simulations events long_term_memories
    metric_snapshots set_agents].
  split; [reflexivity|]. split; [lia|]. split; [exact Hrows|].
  split; [exact Hsims|]. split.
  { unfold unique_agent_ids. rewrite Hlive2, Hlive. cbn [agents set_agents].
    rewrite map_app, Hids. apply NoDup_app; [exact Hnd | apply next_keys_fresh|].
    intros k Hk. apply in_map_iff in Hk as (a & <- & Ha). now apply Hfresh. }
  repeat (split; [reflexivity|]). split.
  { destruct (Nat.lt_ge_cases (List.length rows) 2) as [Hlt|Hge].
    - rewrite (Hfew Hlt). now rewrite Hdur1, Hlive.
    - destruct (Hmany Hge) as (Hd2 & _). now rewrite Hd2, Hlive2, Hlive. }
  exists added. split; [now rewrite Hadd, Hc | exact Hall].
Qed.

End SeedingRunProperties.

(** ** Seeding at work *)

Lemma unseeded_store_integers : integers_in_range (F:=float) unseeded_store.
Proof. intro k. cbn. lia. Defined.

Lemma unseeded_store_ages :
  ages_convert (F:=float) (default_seeding_config 3) unseeded_store.
Proof. intros k _. exists 35. vm_compute. reflexivity. Defined.

(** With the default configuration and the deviate 0, the agent generated
    is 35 years old, and within every bound. *)
Lemma generated_agent_data_is_valid_witness :
  exists agent_data,
    fst (_generate_agent_data (F:=float) (default_seeding_config 3) unseeded_store)
    = Ok agent_data
    /\ valid_agent_data agent_data
    /\ AgentDemographics.age (AgentCreate.demographics agent_data) = 35.
Proof.
  destruct (generated_agent_data_is_valid (F:=float) (default_seeding_config 3)
              unseeded_store unseeded_store_integers) as (_ & Hvalid).
  destruct (fst (_generate_agent_data (F:=float) (default_seeding_config 3)
                   unseeded_store)) as [agent_data|e] eqn:Erun.
  - exists agent_data. split; [reflexivity|]. split; [exact Hvalid|].
    assert (Hage : match fst (_generate_agent_data (F:=float)
                                (default_seeding_config 3) unseeded_store) with
                   | Ok a => AgentDemographics.age (AgentCreate.demographics a)
                   | Raise _ => 0
                   end = 35) by (vm_compute; reflexivity).
    now rewrite Erun in Hage.
  - exfalso. destruct Hvalid as (_ & Hraise).
    assert (Hok : f_trunc (age_draw (F:=float) (default_seeding_config 3)
                             unseeded_store (normal_pos (rng unseeded_store)))
                  = Ok 35) by (vm_compute; reflexivity).
    congruence.
Defined.

(** A population of 3 seeded into the empty simulation of the scenario:
    three agents of the simulation, committed, and, the number drawn being
    below the probability every time, the six connections between them. *)
Lemma seed_simulation_agents_adds_population_witness :
  exists rows s',
    seed_simulation_agents (F:=float) scenario_simulation (default_seeding_config 3)
      unseeded_store = (Ok tt, s')
    /\ agents (live (session s')) = rows
    /\ List.length rows = 3%nat
    /\ Forall (fun a => Agent.simulation_id a = 1) rows
    /\ durable (session s') = live (session s')
    /\ List.length (agent_connections s') = 6%nat.
Proof.
  destruct (seed_simulation_agents_adds_population (F:=float) scenario_simulation
              (default_seeding_config 3) unseeded_store unseeded_store_integers
              unseeded_store_ages)
    as (rows & s' & Hrun & Hagents & Hlen & _ & Hsim & _ & _ & _ & _ & _ & Hdur & _).
  - constructor.
  - intros a [].
  - cbn. lia.
  - exists rows, s'. split; [exact Hrun|]. split; [exact Hagents|].
    split; [cbn in Hlen; lia|]. split; [exact Hsim|]. split; [exact Hdur|].
    assert (Hc : List.length
                   (agent_connections
                      (snd (seed_simulation_agents (F:=float) scenario_simulation
                              (default_seeding_config 3) unseeded_store))) = 6%nat)
      by (vm_compute; reflexivity).
    now rewrite Hrun in Hc.
Defined.
